(* ===== verification/_CoqProject ===== *)
-Q . S2P
Prelude.v
Chain.v
MemMap.v
IoMap.v
Host.v
Paging.v
Intr.v
Pic.v
Hashtable.v
GuestInfo.v
GuestMem.v
Decoder.v
Xed.v
Vmcb.v
ShadowPaging.v
Passthrough.v
Invlpg.v
CtrlRegs.v
Isolation.v
SvmIo.v
Emulator.v
SvmExit.v
Svm.v
Pit.v
ListHead.v
Queue.v
VmTime.v
HostEvents.v
DevMgr.v
Nvram.v
Serial.v
Keyboard.v
Ramdisk.v
Atapi.v
Cdrom.v
