(* ===== verification/Prelude.v ===== *)
(** Verification of the Palacios virtual machine monitor.

    Palacios (src/palacios) runs a guest operating system on an AMD processor with SVM.  The
    processor leaves the guest for the VMM on the events that the VMM intercepts; the VMM
    handles the event and enters the guest again.  This library translates the VMM to Gallina,
    file by file, and proves what its parts promise each other and the guest.

    * How the C code is modelled

    Machine integers are [Z] with the wrap-around written out ([u8] ... [u64], [ulong] for the
    word of the host, [sint] for signed values).  The host is 32-bit or 64-bit ([Arch]).
    Bit-field structs are records with a [BitStruct] instance, which gives the word that holds
    them.  Fallible or partial code is in the monad [outcome]: [Done] is a result, [Undef] an
    access through a pointer to nothing and the other undefined behaviours, and [OutOfFuel]
    stands for a loop that has not ended after the given number of iterations.  Structs that
    are linked by pointers live in a heap ([gmap] from addresses); page tables and guest
    memory are byte memory ([mem]).  Functions with side effects take the state and return
    it.  The results of V3_Malloc are arguments, so that a theorem covers failure and success.

    * Files, in the order of dependency

    - Prelude.v (this file): [outcome], record update, machine integers, bit-field structs, byte
      memory, and the lemmas and tactics that the other files share.
    - Chain.v: linked lists that end in NULL, in a heap of structs.
    - MemMap.v, Module ShadowMap: vmm_mem.c, the shadow map of guest physical memory.
    - IoMap.v: vmm_io.c, the hooks on I/O ports.
    - Host.v: the services of the host in vmm.h; address conversions are parameters with laws.
    - Paging.v: vmm_paging.h and vmm_paging.c, page table entries, lookups and access checks;
      Passthrough.v has create_passthrough_pts_32.
    - Intr.v: vmm_intr.c and the injection at the end of v3_handle_svm_exit, against the
      interface [IntrCtrl] of interrupt controllers; Pic.v: devices/8259a.c, which implements it.
    - Hashtable.v: vmm_hashtable.c.
    - GuestInfo.v: vm_guest.h, vm_guest.c; GuestMem.v: vm_guest_mem.c.
    - ShadowPaging.v: vmm_shadow_paging.c; Invlpg.v: its INVLPG handler.
    - Decoder.v: vmm_decoder.c and vmm_decoder.h; Xed.v: vmm_xed.c, with the XED library as a
      parameter.
    - CtrlRegs.v: vmm_ctrl_regs.c; Isolation.v composes it with shadow paging.
    - SvmIo.v: svm_io.c, the I/O instructions, against the interface [IoDevices] of the
      functions that devices hook to ports.
    - Vmcb.v: vmcb.h and vmcb.c, the control block that the processor and the VMM share.
    - Emulator.v: vmm_emulator.c, accesses to hooked memory, against the interface [MemHooks]
      of the functions that are hooked to it.
    - SvmExit.v: svm_handler.c, svm_halt.c, svm_pause.c and svm_wbinvd.c.  [machine] puts the
      states of the components together and v3_handle_svm_exit composes their handlers.
    - Svm.v: svm.c, the set-up of the processor and of a guest.
    - DevMgr.v: vm_dev.c and vmm_dev_mgr.c, devices and their ports.
    - Nvram.v, Serial.v, Keyboard.v: devices/nvram.c, devices/serial.c, devices/keyboard.c.
    - Ramdisk.v: devices/ramdisk.c and ide.h, the IDE controller and its ATAPI drives, against
      the interface [CdromOps] of a medium (cdrom.h).  Atapi.v holds their theory, [CdromOpsOk]
      being what a medium promises, and Cdrom.v models devices/cdrom.c, a medium that is an
      image in the memory of the host.
    - Pit.v: devices/8254.c and the divisions of vmm_util.h.
    - ListHead.v: vmm_list.h; Queue.v: vmm_queue.c; VmTime.v: vmm_time.c; HostEvents.v:
      vmm_host_events.c.

    * What the theorems show

    - Isolation of the guest: over any sequence of guest writes, page faults, INVLPG, CR0 and
      CR3 accesses, the tables the processor walks translate to memory of the guest only
      (Isolation.v), and the registers of the processor stay in step with those the guest
      sees (CtrlRegs.v).  Faults establish the translation that the guest's page tables define
      (ShadowPaging.v), INVLPG takes it away (Invlpg.v), and without paging the tables are the
      shadow map (Passthrough.v).  The guest has only memory in its map, without hooks.
    - Memory: insertion into the shadow map keeps it sorted and disjoint and lookups find what
      was inserted (MemMap.v); copies to and from guest memory transfer the mapped prefix of
      their range and what is written is read back (GuestMem.v); the lookups are the walk of
      the processor, but for page directory entries at or above 2GB on 64-bit hosts, and
      entries are what their bits say (Paging.v).
    - Interrupts: pending requests are injected once each (Intr.v), and the 8259A keeps the
      contract that this needs, starts the interrupt it reports, and follows its
      initialisation protocol (Pic.v).
    - Devices and time: in modes 0 to 2 the interval timer is the tick-by-tick counter
      (Pit.v); updates reach each installed timer once (VmTime.v).
    - The whole: the set-up gives the processor the memory map of the guest, and from there on
      no sequence of exits that the exit handler returns from gets the guest out of its
      memory (Svm.v, SvmExit.v).  The sequences leave out INS of an element across a page
      boundary, which SvmIo.v shows to write to the next page of the host.  I/O exits exactly
      on the ports that have a hook (Svm.v); exits for interrupts are invisible but for the
      requests they inject (SvmExit.v).
    - Hooked memory: what the guest stores reaches the hook and what the hook returns is what
      the guest loads, on hosts that map the shadow tables at their physical addresses; where
      an instruction accesses hooked memory twice the emulator loses track (Emulator.v).
    - I/O: string instructions transfer the elements that lie in one page in order until the
      device refuses (SvmIo.v); the lists of the device manager and the port map stay in step (DevMgr.v).
    - CMOS and clock: the clock is a count of seconds in calendar form, what is written to the
      memory is read back (Nvram.v).  Serial ports: received bytes come out in order,
      one read late (Serial.v).  Keyboard and mouse: the controller stays well-formed, answers commands by
      its protocol, and gets stuck where the code forgets a state (Keyboard.v).
    - CD-ROM: a guest that sends a packet receives the answer word by word, or an error that
      REQUEST SENSE explains (Atapi.v); a READ gives the blocks of the image, and two missing
      checks give the memory of the host around it (Cdrom.v).
    - Data structures refine their abstractions: port hooks and hash tables finite maps,
      circular lists and queues sequences (IoMap.v, Hashtable.v, ListHead.v, Queue.v).

    * Bounds and fuel

    Loops over pointer lists take the size of the heap as fuel, loops over memory the number
    of bytes, and the loops over page tables their fixed number of entries; the theorems that
    use them show that this is enough.  The theorems over sequences of exits speak of the
    exits that the handler returns from; those on hooked memory (Emulator.v) also show that
    the emulation starts.  Where a loop may really not end (do_divll with base 0, prefixes
    without end), the fuel is an argument and the theorem says how much is needed, or that the
    model yields [OutOfFuel] or [Undef].

    * Not modelled

    - The host: its page allocator, interrupts and timers are parameters (Host.v, VmTime.v).
      src/geekos, src/kitten and src/misc are host operating systems and tools around the VMM.
    - The XED library is precompiled; only what vmm_xed.c asks of it is a parameter.
    - The guest firmware (src/palacios/src/vmboot: rombios, vgabios, vmxassist) runs inside the
      guest and is data to the VMM.
    - Intel VMX (vmx.c, vmcs.c) is not finished in the source, and the assembly stubs enter and
      leave the guest: what the processor does in between is the step relation of SvmExit.v.
    - Debug output (vmm_debug.c, the print functions) has no effect on the state.
    - vmm_string.c is compiled out in favour of the host's functions.
    - vmm_config.c and vmm.c call the initialisers of the other parts in order; generic.c
      forwards ports to the real device; bochs_debug.c, timer.c, simple_pic.c and 8237_dma.c
      are debug output or stubs; rd_print_state of ramdisk.c prints. *)
From Stdlib Require Import ZArith Lia Bool.
From stdpp Require Import base tactics numbers list gmap.

Open Scope Z_scope.

(** * Record update

    [s <| f := v |>] is the C assignment [s->f = v] on a record value.  A record
    type declares its fields once in an [Eta] instance. *)

Class Eta (R : Type) := eta : R -> R.

Class Update {R E : Type} (f : R -> E) := update_field : (E -> E) -> R -> R.
Global Arguments update_field {R E} f {_} _ _ : simpl nomatch.

Ltac build_update :=
  lazymatch goal with
  | |- @Update ?R ?E ?f =>
      let g := fresh "g" in
      let r := fresh "r" in
      unfold Update; intros g r;
      let e := eval hnf in (eta r) in
      lazymatch eval pattern (f r) in e with
      | ?h _ => let t := eval cbv beta in (h (g (f r))) in exact t
      end
  end.

#[export] Hint Extern 1 (@Update _ _ _) => build_update : typeclass_instances.

Declare Scope v3_scope.
Delimit Scope v3_scope with v3.
Open Scope v3_scope.

Notation "s <| f := v |>" := (update_field f (fun _ => v) s)
  (at level 1, f at next level, v at level 200, left associativity,
   format "s  <| f  :=  v |>") : v3_scope.

(** * Outcomes of C code

    [Done a] is a call that returns; [Undef] is a call that reaches undefined
    behaviour (a dereference of a pointer that is not allocated, a division by
    zero, a read of uninitialised memory); [OutOfFuel] is a loop whose fuel ran
    out, which every termination theorem excludes. *)

Inductive outcome (A : Type) : Type :=
| Done (a : A)
| Undef
| OutOfFuel.
Global Arguments Done {A} _.
Global Arguments Undef {A}.
Global Arguments OutOfFuel {A}.

#[export] Instance outcome_ret : MRet outcome := fun A a => Done a.

#[export] Instance outcome_bind : MBind outcome := fun A B k m =>
  match m with
  | Done a => k a
  | Undef => Undef
  | OutOfFuel => OutOfFuel
  end.

Lemma outcome_bind_done {A B} (a : A) (k : A -> outcome B) :
  (Done a ≫= k) = k a.
Proof. reflexivity. Qed.

Lemma outcome_bind_inv {A B} (m : outcome A) (k : A -> outcome B) b :
  (m ≫= k) = Done b -> exists a, m = Done a /\ k a = Done b.
Proof. destruct m; simpl; intros H; try discriminate; eauto. Qed.

(** A pointer dereference in a heap of structs: [Undef] when the pointer is not
    the address of an allocated struct (the null pointer is never allocated). *)
Definition deref {N : Type} (h : gmap Z N) (p : Z) : outcome N :=
  match h !! p with
  | Some n => Done n
  | None => Undef
  end.

Lemma deref_some {N} (h : gmap Z N) p n : h !! p = Some n -> deref h p = Done n.
Proof. unfold deref. by intros ->. Qed.

(** [p->f = v] as a step on the heap: [modify h p (fun n => n <| f := v |>)]. *)
Definition modify {N : Type} (h : gmap Z N) (p : Z) (f : N -> N) : outcome (gmap Z N) :=
  n ← deref h p; Done (<[p := f n]> h).

Lemma modify_some {N} (h : gmap Z N) p n f :
  h !! p = Some n -> modify h p f = Done (<[p := f n]> h).
Proof. intros Hp. unfold modify. by rewrite (deref_some _ _ _ Hp). Qed.

(** [V3_Free(p)]: freeing what is not allocated is undefined. *)
Definition v3_free {N : Type} (h : gmap Z N) (p : Z) : outcome (gmap Z N) :=
  _ ← deref h p; Done (delete p h).

Definition NULL : Z := 0.

(** The C truth value of an [int]. *)
Definition b2z (b : bool) : Z := if b then 1 else 0.

(** * Machine integers

    A w-bit unsigned value is a [Z] in [0 <= x < 2^w]; arithmetic wraps by
    [u8], [u16], [u32], [u64]. *)

Definition wrap (w x : Z) : Z := x mod 2 ^ w.
Abbreviation u8 := (wrap 8).
Abbreviation u16 := (wrap 16).
Abbreviation u32 := (wrap 32).
Abbreviation u64 := (wrap 64).

Definition is_u (w x : Z) : Prop := 0 <= x < 2 ^ w.

(** A [char] is signed: its value as an [int]. *)
Definition char_to_int (x : Z) : Z :=
  let b := x mod 256 in if b <? 128 then b else b - 256.

Lemma wrap_range w x : 0 <= w -> is_u w (wrap w x).
Proof. intros. apply Z.mod_pos_bound. lia. Qed.

Lemma wrap_small w x : is_u w x -> wrap w x = x.
Proof. intros. by apply Z.mod_small. Qed.

Lemma wrap_idemp w x : 0 <= w -> wrap w (wrap w x) = wrap w x.
Proof. intros. apply wrap_small, wrap_range. lia. Qed.

(** Congruence modulo 2^w, an equivalence that the arithmetic operations respect: the
    wraps inside an expression that is itself wrapped can be dropped by rewriting. *)
Record eqw (w a b : Z) : Prop := { eqw_eq : a mod 2 ^ w = b mod 2 ^ w }.

#[export] Instance eqw_equiv w : Equivalence (eqw w).
Proof.
  split; [by split|intros ? ? []; by split|].
  intros a b c [H1] [H2]. split. by rewrite H1.
Qed.

#[export] Instance eqw_add w : Proper (eqw w ==> eqw w ==> eqw w) Z.add.
Proof. intros a b [H1] c d [H2]. split. by rewrite Zplus_mod, H1, H2, <- Zplus_mod. Qed.

#[export] Instance eqw_sub w : Proper (eqw w ==> eqw w ==> eqw w) Z.sub.
Proof. intros a b [H1] c d [H2]. split. by rewrite Zminus_mod, H1, H2, <- Zminus_mod. Qed.

#[export] Instance eqw_mul w : Proper (eqw w ==> eqw w ==> eqw w) Z.mul.
Proof. intros a b [H1] c d [H2]. split. by rewrite Zmult_mod, H1, H2, <- Zmult_mod. Qed.

Lemma eqw_wrap w a : eqw w (wrap w a) a.
Proof. split. unfold wrap. apply Zmod_mod. Qed.

Lemma wrap_eqw w a b : eqw w a b -> wrap w a = wrap w b.
Proof. by intros []. Qed.

(** A w-bit two's complement value. *)
Definition sint (w x : Z) : Z :=
  let y := wrap w x in if y <? 2 ^ (w - 1) then y else y - 2 ^ w.
Abbreviation int32 := (sint 32).

Lemma sint_wrap w x : 0 < w -> wrap w (sint w x) = wrap w x.
Proof.
  intros. unfold sint. assert (2 ^ w <> 0) by lia.
  destruct (_ <? _); unfold wrap; [by rewrite Z.mod_mod|].
  by rewrite <- (Z.mod_add _ 1 (2 ^ w)), Z.mul_1_l, Z.sub_add, Z.mod_mod.
Qed.

Lemma sint_small w x : 0 < w -> 0 <= x < 2 ^ (w - 1) -> sint w x = x.
Proof.
  intros Hw Hx. assert (2 ^ w = 2 * 2 ^ (w - 1)) by (rewrite <- Z.pow_succ_r; f_equal; lia).
  unfold sint. rewrite wrap_small by (unfold is_u; lia).
  by rewrite (proj2 (Z.ltb_lt _ _)) by lia.
Qed.

(** The two word sizes Palacios is built for. [addr_t] and [ulong_t] have
    [BITS_PER_LONG] bits. *)
Inductive v3_arch := V3_32BIT | V3_64BIT.

Definition BITS_PER_LONG (a : v3_arch) : Z :=
  match a with V3_32BIT => 32 | V3_64BIT => 64 end.

Class Arch := the_arch : v3_arch.

Definition ulong {A : Arch} (x : Z) : Z := wrap (BITS_PER_LONG the_arch) x.
Definition is_addr {A : Arch} (x : Z) : Prop := is_u (BITS_PER_LONG the_arch) x.

Lemma bits_per_long_bounds {A : Arch} : 32 <= BITS_PER_LONG the_arch <= 64.
Proof. destruct the_arch; simpl; lia. Qed.

Lemma ulong_small {A : Arch} x : is_addr x -> ulong x = x.
Proof. apply wrap_small. Qed.

Lemma ulong_range {A : Arch} x : is_addr (ulong x).
Proof. apply wrap_range. pose proof (bits_per_long_bounds). lia. Qed.

Lemma is_addr_u32 {A : Arch} x : is_u 32 x -> is_addr x.
Proof.
  unfold is_addr, is_u. destruct the_arch; simpl; lia.
Qed.

(** * Bit fields

    A C struct of bit fields of widths [w1, w2, ...] packed from the least
    significant bit. [pack] is the integer it occupies (each assignment truncates
    to the width of its field), [field] reads the field of width [w] at bit
    offset [lo]. *)

Definition field (x lo w : Z) : Z := (x / 2 ^ lo) mod 2 ^ w.

Fixpoint pack (fs : list (Z * Z)) : Z :=
  match fs with
  | [] => 0
  | (w, v) :: r => v mod 2 ^ w + 2 ^ w * pack r
  end.

Fixpoint offset (fs : list (Z * Z)) (i : nat) : Z :=
  match fs, i with
  | (w, _) :: r, S i => w + offset r i
  | _, _ => 0
  end.

Fixpoint fields_at (x lo : Z) (ws : list Z) : list (Z * Z) :=
  match ws with
  | [] => []
  | w :: r => (w, field x lo w) :: fields_at x (lo + w) r
  end.

Fixpoint total (ws : list Z) : Z :=
  match ws with
  | [] => 0
  | w :: r => w + total r
  end.

Lemma total_nonneg ws : Forall (fun w => 0 <= w) ws -> 0 <= total ws.
Proof. induction 1; simpl; lia. Qed.

Lemma field_range x lo w : 0 <= w -> is_u w (field x lo w).
Proof. intros. apply Z.mod_pos_bound. lia. Qed.

Lemma field_0 x w : field x 0 w = x mod 2 ^ w.
Proof. unfold field. by rewrite Z.pow_0_r, Z.div_1_r. Qed.

Lemma offset_nonneg fs i : Forall (fun f => 0 <= fst f) fs -> 0 <= offset fs i.
Proof.
  revert i. induction fs as [|[w v] r IH]; intros i Hf; [simpl; lia|].
  apply Forall_cons in Hf as [? ?]. destruct i; simpl in *; [lia|].
  specialize (IH i). naive_solver lia.
Qed.

Lemma field_pack fs i w v :
  Forall (fun f => 0 <= fst f) fs ->
  fs !! i = Some (w, v) ->
  field (pack fs) (offset fs i) w = v mod 2 ^ w.
Proof.
  revert i. induction fs as [|[w' v'] r IH]; intros i Hf Hi; [done|].
  apply Forall_cons in Hf as [Hw Hf]. simpl in Hw.
  destruct i as [|i]; simpl in *.
  - simplify_eq. rewrite field_0, (Z.mul_comm (2 ^ w)).
    assert (2 ^ w <> 0) by lia. rewrite Z.mod_add, Z.mod_mod; done.
  - rewrite <- (IH i Hf Hi). unfold field. f_equal.
    pose proof (offset_nonneg r i Hf) as Hoff.
    rewrite Z.pow_add_r by lia. rewrite <- Z.div_div by lia. f_equal.
    rewrite (Z.mul_comm (2 ^ w')), Z.div_add by lia.
    rewrite Z.div_small; [lia|]. apply Z.mod_pos_bound. lia.
Qed.

Lemma pack_fields_at x lo ws :
  0 <= lo -> Forall (fun w => 0 <= w) ws ->
  pack (fields_at x lo ws) = field x lo (total ws).
Proof.
  revert lo. induction ws as [|w r IH]; intros lo Hlo Hf; simpl.
  - unfold field. by rewrite Z.pow_0_r, Z.mod_1_r.
  - apply Forall_cons in Hf as [Hw Hf]. simpl in Hw.
    rewrite IH by (done || lia).
    pose proof (total_nonneg r Hf).
    unfold field. rewrite Z.mod_mod by lia.
    rewrite (Z.pow_add_r 2 w) by lia. rewrite Z.rem_mul_r by lia.
    rewrite Z.pow_add_r, <- Z.div_div by lia. lia.
Qed.

Lemma pack_range fs :
  Forall (fun f => 0 <= fst f) fs -> is_u (total (fst <$> fs)) (pack fs).
Proof.
  unfold is_u. induction fs as [|[w v] r IH]; intros Hf; [simpl; lia|].
  apply Forall_cons in Hf as [Hw Hf]. simpl in Hw. specialize (IH Hf).
  rewrite fmap_cons. cbn [total pack fst].
  assert (0 <= total (fst <$> r)) by (by apply total_nonneg, Forall_fmap).
  rewrite Z.pow_add_r by lia.
  pose proof (Z.mod_pos_bound v (2 ^ w)). nia.
Qed.

(** Case analysis on the first integer comparison of the goal. *)
Ltac case_cmp :=
  match goal with
  | |- context [?a =? ?b] => destruct (Z.eqb_spec a b)
  | |- context [?a <? ?b] => destruct (Z.ltb_spec a b)
  | |- context [?a <=? ?b] => destruct (Z.leb_spec a b)
  | |- context [?a >? ?b] => rewrite (Z.gtb_ltb a b); destruct (Z.ltb_spec b a)
  | |- context [?a >=? ?b] => rewrite (Z.geb_leb a b); destruct (Z.leb_spec b a)
  end.

(** Side conditions on the widths of a concrete list of fields. *)
Ltac solve_widths := repeat constructor; simpl; lia.

Lemma pack_u w fs :
  Forall (fun f => 0 <= fst f) fs -> total (fst <$> fs) = w -> is_u w (pack fs).
Proof. intros ? <-. by apply pack_range. Qed.

(** * Host memory

    The host virtual address space as bytes, with the little-endian word
    accesses of the x86. *)

Definition mem : Type := Z -> Z.

Definition load8 (m : mem) (a : Z) : Z := u8 (m a).

Definition store8 (m : mem) (a v : Z) : mem :=
  fun x => if x =? a then u8 v else m x.

Definition loadn (n : nat) (m : mem) (a : Z) : Z :=
  pack ((fun i => (8, m (a + Z.of_nat i))) <$> seq 0 n).

Definition storen (n : nat) (m : mem) (a v : Z) : mem :=
  fun x => if (a <=? x) && (x <? a + Z.of_nat n) then field v (8 * (x - a)) 8 else m x.

Abbreviation load32 := (loadn 4).
Abbreviation load64 := (loadn 8).
Abbreviation store32 := (storen 4).
Abbreviation store64 := (storen 8).

(** [memset(p, 0, n)] *)
Definition memset0 (m : mem) (a n : Z) : mem :=
  fun x => if (a <=? x) && (x <? a + n) then 0 else m x.

Lemma loadn_range n m a : is_u (8 * Z.of_nat n) (loadn n m a).
Proof.
  apply pack_u.
  - apply Forall_fmap, Forall_true. simpl. lia.
  - rewrite <- list_fmap_compose. generalize 0%nat as k.
    induction n as [|n IH]; intros k; [done|]. cbn [seq]. rewrite fmap_cons. cbn [total].
    rewrite IH. simpl. lia.
Qed.

Lemma loadn_ext n m m' a :
  (forall i, 0 <= i < Z.of_nat n -> m (a + i) = m' (a + i)) -> loadn n m a = loadn n m' a.
Proof.
  intros H. unfold loadn. f_equal. apply list_fmap_ext. intros i x Hx.
  apply lookup_seq in Hx as [-> Hi]. rewrite H by lia. done.
Qed.

Lemma loadn_storen_eq n m a v : loadn n (storen n m a v) a = wrap (8 * Z.of_nat n) v.
Proof.
  assert (forall k j, (k + j = n)%nat ->
    (fun i => (8, storen n m a v (a + Z.of_nat i))) <$> seq k j =
    fields_at v (8 * Z.of_nat k) (replicate j 8)) as Hf.
  { intros k j. revert k. induction j as [|j IH]; intros k Hk; [done|].
    cbn [seq replicate fields_at]. rewrite fmap_cons, IH by lia.
    replace (8 * Z.of_nat k + 8) with (8 * Z.of_nat (S k)) by lia. f_equal. f_equal.
    unfold storen. rewrite (proj2 (andb_true_iff _ _)) by lia. f_equal. lia. }
  unfold loadn. rewrite Hf by lia. rewrite pack_fields_at; [|lia|].
  - rewrite Z.mul_0_r, field_0. unfold wrap. f_equal. f_equal. clear.
    induction n as [|n IH]; [done|]. cbn [replicate total]. lia.
  - apply Forall_replicate. lia.
Qed.

Lemma loadn_storen_ne n k m a b v :
  a + Z.of_nat k <= b \/ b + Z.of_nat n <= a -> loadn n (storen k m a v) b = loadn n m b.
Proof.
  intros H. apply loadn_ext. intros i Hi. unfold storen.
  destruct (_ && _) eqn:E; [lia|done].
Qed.

Lemma loadn_memset0_in n m p k a :
  p <= a -> a + Z.of_nat n <= p + k -> loadn n (memset0 m p k) a = 0.
Proof.
  intros H1 H2. rewrite (loadn_ext n _ (fun _ => 0)).
  - unfold loadn. generalize (seq 0 n) as l. induction l as [|x l IH]; [done|].
    rewrite fmap_cons. cbn [pack]. by rewrite IH.
  - intros i Hi. unfold memset0. by rewrite (proj2 (andb_true_iff _ _)) by lia.
Qed.

Lemma loadn_memset0_out n m p k a :
  a + Z.of_nat n <= p \/ p + k <= a -> loadn n (memset0 m p k) a = loadn n m a.
Proof.
  intros H. apply loadn_ext. intros i Hi. unfold memset0.
  destruct (_ && _) eqn:E; [lia|done].
Qed.

(** * Bit-field structs

    A C struct whose members are bit fields: the widths in order, and the values of
    the members as a list. *)
Class BitStruct (T : Type) := {
  bs_widths : list Z;
  bs_values : T -> list Z;
  bs_make : list Z -> T;
  bs_nonneg : Forall (fun w => 0 <= w) bs_widths;
  bs_length x : length (bs_values x) = length bs_widths;
  bs_make_values x : bs_make (bs_values x) = x;
  bs_values_make vs : length vs = length bs_widths -> bs_values (bs_make vs) = vs;
}.

Section bitstruct.
Context {T : Type} `{BitStruct T}.

(** The integer the struct occupies, and the struct read from an integer. *)
Definition encode (x : T) : Z := pack (zip bs_widths (bs_values x)).
Definition decode (w : Z) : T := bs_make (snd <$> fields_at w 0 bs_widths).

Definition bs_wf (x : T) : Prop := Forall2 is_u bs_widths (bs_values x).

Lemma fields_at_length w lo ws : length (fields_at w lo ws) = length ws.
Proof. revert lo. induction ws; intros; simpl; auto. Qed.

Lemma fst_fields_at w lo ws : fst <$> fields_at w lo ws = ws.
Proof. revert lo. induction ws as [|x ws IH]; intros lo; [done|]. simpl. f_equal. apply IH. Qed.

Lemma zip_fst_snd {X Y} (l : list (X * Y)) : zip (fst <$> l) (snd <$> l) = l.
Proof. induction l as [|[x y] l IH]; [done|]. rewrite !fmap_cons. simpl. by rewrite IH. Qed.

Lemma encode_decode w : encode (decode w) = w mod 2 ^ total bs_widths.
Proof.
  unfold encode, decode. rewrite bs_values_make by (by rewrite length_fmap, fields_at_length).
  rewrite <- (fst_fields_at w 0 bs_widths) at 1. rewrite zip_fst_snd.
  rewrite pack_fields_at by (done || apply bs_nonneg). apply field_0.
Qed.

Lemma fields_at_shift x lo w ws :
  0 <= lo -> 0 <= w -> Forall (fun w => 0 <= w) ws ->
  fields_at x (lo + w) ws = fields_at (x / 2 ^ w) lo ws.
Proof.
  intros Hlo Hw Hf. revert lo Hlo. induction Hf as [|y ws Hy _ IH]; intros lo Hlo; [done|].
  simpl in *. replace (lo + w + y) with (lo + y + w) by lia. rewrite IH by lia.
  f_equal. f_equal. unfold field. rewrite Z.div_div by lia.
  by rewrite <- Z.pow_add_r, (Z.add_comm w) by lia.
Qed.

Lemma fields_at_pack ws vs :
  Forall (fun w => 0 <= w) ws -> Forall2 is_u ws vs ->
  snd <$> fields_at (pack (zip ws vs)) 0 ws = vs.
Proof.
  intros Hws Hf. induction Hf as [|w v ws vs Hv Hf IH]; [done|].
  apply Forall_cons in Hws as [Hw Hws]. simpl in Hw. unfold is_u in Hv.
  cbn [zip zip_with pack fields_at]. rewrite fmap_cons.
  rewrite (fields_at_shift _ 0 w) by (done || lia).
  rewrite (Z.mod_small v), (Z.mul_comm (2 ^ w)), Z.div_add, (Z.div_small v) by lia.
  rewrite Z.add_0_l, IH by done. f_equal. cbn [snd].
  rewrite field_0, Z.mod_add, Z.mod_small by lia. done.
Qed.

Lemma decode_encode x : bs_wf x -> decode (encode x) = x.
Proof.
  intros Hx. unfold encode, decode. rewrite fields_at_pack by (done || apply bs_nonneg).
  apply bs_make_values.
Qed.

Lemma decode_wf w : bs_wf (decode w).
Proof.
  unfold bs_wf, decode. rewrite bs_values_make by (by rewrite length_fmap, fields_at_length).
  pose proof bs_nonneg as Hf. generalize 0 as lo. induction Hf as [|y ws Hy _ IH]; intros lo;
    [constructor|]. cbn [fields_at]. rewrite fmap_cons. constructor; [|apply IH].
  by apply field_range.
Qed.

Lemma encode_range x : is_u (total bs_widths) (encode x).
Proof.
  apply pack_u.
  - apply Forall_forall. intros [w v] Hin. apply elem_of_zip_l in Hin.
    pose proof bs_nonneg as Hf. rewrite Forall_forall in Hf. by apply Hf.
  - f_equal. apply fst_zip. by rewrite bs_length.
Qed.

Lemma encode_u n x : total bs_widths = n -> is_u n (encode x).
Proof. intros <-. apply encode_range. Qed.
End bitstruct.

(** Laws of a bit-field record: cases on the list of values. *)
Ltac solve_bitstruct :=
  first [ by repeat constructor | done
        | let vs := fresh in intros vs ?; do 16 (destruct vs as [|? vs]; try done)
        | by intros [] ].

(** The members of a bit-field record are in range. *)
Ltac solve_wf :=
  unfold bs_wf; cbn; repeat first [apply Forall2_cons_2 | apply Forall2_nil_2]; try done.

(** Runs the monadic code of the goal up to the next call. *)
Ltac run := cbn [mbind outcome_bind option_bind negb andb orb fst snd Z.eqb Pos.eqb].

(** * Bytes inside words *)

Lemma land_disjoint n a b : 0 <= n -> is_u n a -> Z.land a (b * 2 ^ n) = 0.
Proof.
  intros Hn Ha. apply Z.bits_inj'. intros i Hi. rewrite Z.land_spec, Z.bits_0.
  destruct (Z.lt_ge_cases i n).
  - rewrite (Z.mul_pow2_bits_low b n i) by lia. apply andb_false_r.
  - rewrite <- (Z.mod_small a (2 ^ n)) by done. by rewrite Z.mod_pow2_bits_high by lia.
Qed.

Lemma lor_disjoint n a b : 0 <= n -> is_u n a -> Z.lor a (b * 2 ^ n) = a + b * 2 ^ n.
Proof.
  intros Hn Ha. rewrite <- Z.lxor_lor by by apply land_disjoint.
  symmetry. by apply Z.add_nocarry_lxor, land_disjoint.
Qed.

(** Bits of a truncated word that the truncation keeps. *)
Lemma land_wrap w x m : 0 <= w -> is_u w m -> Z.land (wrap w x) m = Z.land x m.
Proof.
  intros Hw Hm. unfold wrap. rewrite <- Z.land_ones, <- Z.land_assoc by done. f_equal.
  rewrite Z.land_comm, Z.land_ones by done. by apply Z.mod_small.
Qed.

Lemma char_to_int_mod x : char_to_int x mod 256 = x mod 256.
Proof.
  unfold char_to_int. case_cmp; [apply Z.mod_mod; lia|].
  rewrite <- (Z.mod_add (x mod 256 - 256) 1) by lia. rewrite Z.mul_1_l, Z.sub_add.
  apply Z.mod_mod. lia.
Qed.

(** * Hints

    [vmm] has the range facts of the machine integers and of what memory and bit fields
    hold; what is left of a range is linear arithmetic. *)

Create HintDb vmm.
#[export] Hint Resolve wrap_range wrap_small ulong_range ulong_small is_addr_u32 field_range
  loadn_range encode_range decode_wf decode_encode : vmm.
#[export] Hint Extern 2 (is_u _ _) => unfold is_u in *; lia : vmm.
#[export] Hint Extern 2 (@eq Z _ _) => lia : vmm.
#[export] Hint Extern 2 (Z.le _ _) => lia : vmm.
#[export] Hint Extern 2 (Z.lt _ _) => lia : vmm.

(** A range of a machine integer. *)
Ltac solve_u := solve [auto with vmm | unfold is_u in *; lia].
