(* ===== verification/Chain.v ===== *)
(** Singly traversed pointer lists in a heap of structs.

    The shadow map of vmm_mem.c and the I/O map of vmm_io.c are lists of malloc'ed
    structs linked by a [next] pointer and ended by NULL.  This file is the shared
    theory of such lists: a heap is a finite map from addresses to structs, [lseg]
    says that the nodes at the addresses [l] are linked from [p] up to [q], and
    [chain] is the segment that ends at NULL. *)
From stdpp Require Import base tactics numbers list gmap.
From S2P Require Import Prelude.

Section chain.
Context {N : Type} (nxt : N -> Z).

Fixpoint lseg (h : gmap Z N) (p : Z) (l : list Z) (q : Z) : Prop :=
  match l with
  | [] => p = q
  | x :: l => p = x /\ x <> NULL /\ exists n, h !! x = Some n /\ lseg h (nxt n) l q
  end.

Definition chain (h : gmap Z N) (p : Z) (l : list Z) : Prop :=
  lseg h p l NULL /\ NoDup l.

(** The structs at a list of addresses. *)
Definition nodes (h : gmap Z N) (l : list Z) : list N := omap (fun p => h !! p) l.

Lemma lseg_app h p l1 l2 q :
  lseg h p (l1 ++ l2) q <-> exists m, lseg h p l1 m /\ lseg h m l2 q.
Proof.
  revert p. induction l1 as [|x l1 IH]; intros p; simpl.
  - split; [eauto | naive_solver].
  - setoid_rewrite IH. naive_solver.
Qed.

Lemma lseg_insert_ne h p l q x n :
  x ∉ l -> lseg h p l q -> lseg (<[x := n]> h) p l q.
Proof.
  revert p. induction l as [|y l IH]; intros p Hx; [done|].
  apply not_elem_of_cons in Hx as [Hxy Hx]. simpl.
  intros (-> & ? & m & Hm & Hl). split_and!; [done..|].
  exists m. rewrite lookup_insert_ne by done. auto.
Qed.

(** Overwriting a node without changing its link keeps the segment. *)
Lemma lseg_insert_same h p l q x n n' :
  h !! x = Some n -> nxt n' = nxt n -> lseg h p l q -> lseg (<[x := n']> h) p l q.
Proof.
  intros Hx Hn. revert p. induction l as [|y l IH]; intros p; [done|]. simpl.
  intros (-> & ? & m & Hm & Hl). split_and!; [done..|].
  destruct (decide (x = y)) as [->|].
  - exists n'. rewrite lookup_insert_eq. simplify_eq. rewrite Hn. auto.
  - exists m. rewrite lookup_insert_ne by done. auto.
Qed.

Lemma lseg_delete_ne h p l q x :
  x ∉ l -> lseg h p l q -> lseg (delete x h) p l q.
Proof.
  revert p. induction l as [|y l IH]; intros p Hx; [done|].
  apply not_elem_of_cons in Hx as [Hxy Hx]. simpl.
  intros (-> & ? & m & Hm & Hl). split_and!; [done..|].
  exists m. rewrite lookup_delete_ne by done. auto.
Qed.

Lemma lseg_lookup h p l q x :
  lseg h p l q -> x ∈ l -> x <> NULL /\ is_Some (h !! x).
Proof.
  revert p. induction l as [|y l IH]; intros p; [set_solver|]. simpl.
  intros (-> & ? & m & Hm & Hl) Hx. apply elem_of_cons in Hx as [->|?]; eauto.
Qed.

Lemma lseg_dom h p l q : lseg h p l q -> list_to_set l ⊆ dom h.
Proof.
  intros Hl x Hx. apply elem_of_list_to_set in Hx.
  apply elem_of_dom. by destruct (lseg_lookup h p l q x).
Qed.

(** A list without repetition is no longer than the heap, so a walk with fuel
    [S (size h)] reaches its end. *)
Lemma lseg_length h p l q : lseg h p l q -> NoDup l -> (length l <= size h)%nat.
Proof.
  intros Hl Hnd. apply lseg_dom in Hl.
  rewrite <- size_dom, <- (size_list_to_set (C := gset Z)) by done.
  by apply subseteq_size.
Qed.

Lemma chain_length h p l : chain h p l -> (length l <= size h)%nat.
Proof. intros []. by eapply lseg_length. Qed.

Lemma chain_nil h p : chain h p [] <-> p = NULL.
Proof. unfold chain; simpl. split; [naive_solver|]. split; [done|constructor]. Qed.

Lemma chain_cons h p x l :
  chain h p (x :: l) <->
  p = x /\ x <> NULL /\ x ∉ l /\ exists n, h !! x = Some n /\ chain h (nxt n) l.
Proof. unfold chain; simpl. rewrite NoDup_cons. naive_solver. Qed.

Lemma chain_null h l : chain h NULL l -> l = [].
Proof. destruct l; [done|]. rewrite chain_cons. naive_solver. Qed.

Lemma chain_nonnull h p l :
  p <> NULL -> chain h p l ->
  exists n l', l = p :: l' /\ p ∉ l' /\ h !! p = Some n /\ chain h (nxt n) l'.
Proof.
  intros Hp Hl. destruct l as [|x l]; [by apply chain_nil in Hl|].
  apply chain_cons in Hl. naive_solver.
Qed.

Lemma chain_insert_ne h p l x n :
  x ∉ l -> chain h p l -> chain (<[x := n]> h) p l.
Proof. intros ? []. split; auto using lseg_insert_ne. Qed.

Lemma chain_insert_same h p l x n n' :
  h !! x = Some n -> nxt n' = nxt n -> chain h p l -> chain (<[x := n']> h) p l.
Proof. intros ? ? []. split; eauto using lseg_insert_same. Qed.

Lemma chain_delete_ne h p l x :
  x ∉ l -> chain h p l -> chain (delete x h) p l.
Proof. intros ? []. split; auto using lseg_delete_ne. Qed.

Lemma chain_unique h p l l' : chain h p l -> chain h p l' -> l = l'.
Proof.
  revert p l'. induction l as [|x l IH]; intros p l' H1 H2.
  - apply chain_nil in H1 as ->. by apply chain_null in H2.
  - apply chain_cons in H1 as (-> & Hx & _ & n & Hn & Hl).
    destruct (chain_nonnull h x l' Hx H2) as (n' & l'' & -> & _ & Hn' & Hl').
    simplify_eq. f_equal. eauto.
Qed.

Lemma nodes_step h x l :
  nodes h (x :: l) =
  match h !! x with Some n => n :: nodes h l | None => nodes h l end.
Proof. reflexivity. Qed.

Lemma nodes_cons h x l n : h !! x = Some n -> nodes h (x :: l) = n :: nodes h l.
Proof. intros Hx. by rewrite nodes_step, Hx. Qed.

Lemma nodes_app h l1 l2 : nodes h (l1 ++ l2) = nodes h l1 ++ nodes h l2.
Proof. apply omap_app. Qed.

Lemma nodes_ext h h' l :
  (forall x, x ∈ l -> h' !! x = h !! x) -> nodes h' l = nodes h l.
Proof.
  induction l as [|x l IH]; intros Hx; [done|].
  rewrite !nodes_step, Hx, IH; [done|set_solver..].
Qed.

Lemma nodes_insert_ne h l x n : x ∉ l -> nodes (<[x := n]> h) l = nodes h l.
Proof.
  intros Hx. apply nodes_ext. intros y Hy.
  rewrite lookup_insert_ne; [done|]. set_solver.
Qed.

Lemma lseg_nodes_length h p l q : lseg h p l q -> length (nodes h l) = length l.
Proof.
  revert p. induction l as [|x l IH]; intros p; [done|].
  intros (-> & _ & n & Hn & Hl). rewrite (nodes_cons _ _ _ _ Hn). simpl.
  by rewrite (IH _ Hl).
Qed.

End chain.

(** ** Doubly linked lists

    [dseg h pv p l q lst]: from [p], whose predecessor is [pv], the links lead through
    the nodes [l] to [q], the last one before it being [lst]; every node's back link is
    the node before it. *)
Section dchain.
Context {N : Type} (nxt prv : N -> Z).
Implicit Types (h : gmap Z N) (p q x pv lst : Z) (l : list Z) (n : N).

Fixpoint dseg (h : gmap Z N) (pv p : Z) (l : list Z) (q lst : Z) : Prop :=
  match l with
  | [] => p = q /\ pv = lst
  | x :: l => p = x /\ x <> NULL /\
              exists n, h !! x = Some n /\ prv n = pv /\ dseg h x (nxt n) l q lst
  end.

Definition dchain (h : gmap Z N) (p : Z) (l : list Z) : Prop :=
  (exists lst, dseg h NULL p l NULL lst) /\ NoDup l.

Lemma dseg_app h pv p l1 l2 q lst :
  dseg h pv p (l1 ++ l2) q lst <->
  exists m mv, dseg h pv p l1 m mv /\ dseg h mv m l2 q lst.
Proof.
  revert pv p. induction l1 as [|x l1 IH]; intros pv p; simpl.
  - split; [eauto | naive_solver].
  - setoid_rewrite IH. naive_solver.
Qed.

Lemma dseg_lseg h pv p l q lst : dseg h pv p l q lst -> lseg nxt h p l q.
Proof.
  revert pv p. induction l as [|x l IH]; intros pv p; simpl; [naive_solver|].
  intros (-> & ? & n & ? & _ & ?). eauto 6.
Qed.

Lemma dchain_chain h p l : dchain h p l -> chain nxt h p l.
Proof. intros [[lst H] ?]. split; [by eapply dseg_lseg|done]. Qed.

Lemma dseg_last h pv p l q lst :
  dseg h pv p l q lst -> lst = default pv (last l).
Proof.
  revert pv p. induction l as [|x l IH]; intros pv p; [naive_solver|].
  intros (-> & ? & n & ? & ? & Hl). apply IH in Hl as ->. rewrite last_cons. by destruct (last l).
Qed.

Lemma dseg_first h pv p l q lst :
  dseg h pv p l q lst -> p = default q (hd_error l).
Proof. destruct l; naive_solver. Qed.
Lemma dseg_insert_ne h pv p l q lst x n :
  x ∉ l -> dseg h pv p l q lst -> dseg (<[x := n]> h) pv p l q lst.
Proof.
  revert pv p. induction l as [|y l IH]; intros pv p Hx; [done|].
  apply not_elem_of_cons in Hx as [Hxy Hx]. simpl.
  intros (-> & ? & m & Hm & ? & Hl). split_and!; [done..|].
  exists m. rewrite lookup_insert_ne by done. auto.
Qed.

(** Redirecting the forward link of the last node of a segment. *)
Lemma dseg_relink_next h h' pv p l q q' lst :
  (forall y n, y ∈ l -> h !! y = Some n -> exists n', h' !! y = Some n' /\
     prv n' = prv n /\ nxt n' = if decide (last l = Some y) then q' else nxt n) ->
  NoDup l -> dseg h pv p l q lst ->
  dseg h' pv (default q' (hd_error l)) l q' (default pv (last l)).
Proof.
  revert pv p. induction l as [|x l IH]; intros pv p Hh Hnd; [done|].
  intros (-> & ? & n & Hn & <- & Hl). apply NoDup_cons in Hnd as [Hx Hnd].
  destruct (Hh x n) as (n' & Hn' & Hp & Hq); [set_solver|done|].
  split_and!; [done..|]. exists n'. split_and!; [done..|].
  rewrite last_cons in *. replace (nxt n') with (default q' (hd_error l)).
  - replace (default (prv n) _) with (default x (last l)) by (by destruct (last l)).
    eapply IH; [|done|done]. intros y m Hy Hm. destruct (Hh y m) as (m' & ? & ? & Hm');
      [set_solver|done|]. exists m'. split_and!; [done..|].
    rewrite Hm'. destruct (last l) eqn:E; [done|].
    apply last_None in E as ->. set_solver.
  - rewrite Hq. destruct (last l) as [z|] eqn:E.
    + rewrite decide_False; [destruct l; naive_solver|].
      intros [= ->]. apply last_Some_elem_of in E. done.
    + apply last_None in E as ->. by rewrite decide_True.
Qed.

Lemma dseg_same h h' pv p l q lst :
  (forall y n, y ∈ l -> h !! y = Some n -> exists n', h' !! y = Some n' /\
     nxt n' = nxt n /\ prv n' = prv n) ->
  dseg h pv p l q lst -> dseg h' pv p l q lst.
Proof.
  revert pv p. induction l as [|x l IH]; intros pv p Hh; [done|].
  intros (-> & ? & n & Hn & <- & Hl).
  destruct (Hh x n) as (n' & Hn' & Hq & Hp); [set_solver|done|].
  split_and!; [done..|]. exists n'. rewrite Hq. split_and!; [done..|].
  apply IH; [|done]. intros. apply Hh; set_solver.
Qed.

(** Redirecting the back link of the first node of a segment. *)
Lemma dseg_relink_prev h h' pv pv' p l q lst :
  (forall y n, y ∈ l -> h !! y = Some n -> exists n', h' !! y = Some n' /\
     nxt n' = nxt n /\ prv n' = if decide (hd_error l = Some y) then pv' else prv n) ->
  NoDup l -> dseg h pv p l q lst -> dseg h' pv' p l q (default pv' (last l)).
Proof.
  destruct l as [|x l]; [naive_solver|].
  intros Hh [Hx Hnd]%NoDup_cons (-> & ? & n & Hn & <- & Hl).
  destruct (Hh x n) as (n' & Hn' & Hq & Hp); [set_solver|done|].
  split_and!; [done..|]. exists n'. simpl in Hp. rewrite decide_True in Hp by done.
  split_and!; [done..|]. rewrite Hq, last_cons.
  replace (default pv' _) with lst by (apply dseg_last in Hl; by destruct (last l)).
  apply (dseg_same h); [|done]. intros y m Hy Hm.
  destruct (Hh y m) as (m' & ? & Hqm & Hpm); [set_solver|done|].
  exists m'. simpl in Hpm. rewrite decide_False in Hpm by (intros [= ->]; done). done.
Qed.

(** A node in the middle: its links are the last node before it and the first after. *)
Lemma dchain_split h p l1 x l2 :
  dchain h p (l1 ++ x :: l2) ->
  exists n lst, h !! x = Some n /\ x <> NULL /\ x ∉ l1 /\ x ∉ l2 /\
    NoDup l1 /\ NoDup l2 /\ (forall y, y ∈ l1 -> y ∉ l2) /\
    dseg h NULL p l1 x (prv n) /\ dseg h x (nxt n) l2 NULL lst.
Proof.
  intros [[lst H] Hnd]. apply dseg_app in H as (m & mv & H1 & -> & ? & n & Hn & <- & H2).
  apply NoDup_app in Hnd as (Hnd1 & Hdis & Hnd2). apply NoDup_cons in Hnd2 as [? ?].
  exists n, lst. split_and!; try done; set_solver.
Qed.
(** [relinked]: each node of [l] keeps its links but for the forward link of the last
    one and the back link of the first one. *)
Definition relinked (h h' : gmap Z N) (l : list Z) (pv' q' : option Z) : Prop :=
  forall y n, y ∈ l -> h !! y = Some n -> exists n', h' !! y = Some n' /\
    prv n' = (if decide (hd_error l = Some y) then default (prv n) pv' else prv n) /\
    nxt n' = (if decide (last l = Some y) then default (nxt n) q' else nxt n).

Lemma dchain_insert h h' p l1 x l2 xn :
  dchain h p (l1 ++ l2) -> x ∉ l1 ++ l2 -> x <> NULL -> h' !! x = Some xn ->
  prv xn = default NULL (last l1) -> nxt xn = default NULL (hd_error l2) ->
  relinked h h' l1 None (Some x) -> relinked h h' l2 (Some x) None ->
  dchain h' (default x (hd_error l1)) (l1 ++ x :: l2).
Proof.
  intros [[lst H] Hnd] Hx Hnull Hxn Hp Hq H1 H2.
  apply dseg_app in H as (m & mv & Hs1 & Hs2). apply NoDup_app in Hnd as (Hnd1 & Hdis & Hnd2).
  split; [|apply NoDup_app; split_and!; [done| |constructor; [|done]]; set_solver].
  exists (default x (last l2)). apply dseg_app. exists x, (default NULL (last l1)). split.
  - eapply dseg_relink_next; [|done|exact Hs1]. intros y n Hy Hn.
    destruct (H1 y n Hy Hn) as (n' & ? & ? & ?). exists n'. split_and!; try done.
    all: by repeat case_decide.
  - split_and!; [done..|]. exists xn. split_and!; [done..|].
    apply dseg_first in Hs2 as Hm. rewrite Hq, <- Hm.
    eapply dseg_relink_prev; [|done|exact Hs2]. intros y n Hy Hn.
    destruct (H2 y n Hy Hn) as (n' & ? & ? & ?). exists n'. split_and!; try done.
    all: by repeat case_decide.
Qed.

Lemma dchain_remove h h' p l1 x l2 :
  dchain h p (l1 ++ x :: l2) ->
  relinked h h' l1 None (Some (default NULL (hd_error l2))) ->
  relinked h h' l2 (Some (default NULL (last l1))) None ->
  dchain h' (default (default NULL (hd_error l2)) (hd_error l1)) (l1 ++ l2).
Proof.
  intros Hd H1 H2. destruct (dchain_split _ _ _ _ _ Hd) as (n & lst & Hn & Hnull & Hx1 & Hx2 &
    Hnd1 & Hnd2 & Hdis & Hs1 & Hs2).
  split; [|apply NoDup_app; split_and!; set_solver].
  exists (default (default NULL (last l1)) (last l2)). apply dseg_app.
  exists (default NULL (hd_error l2)), (default NULL (last l1)). split.
  - eapply dseg_relink_next; [|done|exact Hs1]. intros y m Hy Hm.
    destruct (H1 y m Hy Hm) as (n' & ? & ? & ?). exists n'. split_and!; try done.
    all: by repeat case_decide.
  - apply dseg_first in Hs2 as Hm. rewrite <- Hm.
    eapply dseg_relink_prev; [|done|exact Hs2]. intros y m Hy Hm'.
    destruct (H2 y m Hy Hm') as (n' & ? & ? & ?). exists n'. split_and!; try done.
    all: by repeat case_decide.
Qed.

Lemma relinked_nil h h' (pv q : option Z) : relinked h h' [] pv q.
Proof. intros y n Hy. by apply not_elem_of_nil in Hy. Qed.

Lemma relinked_snoc h h' l t n n' q :
  t ∉ l -> (forall y, y ∈ l -> h' !! y = h !! y) -> h !! t = Some n -> h' !! t = Some n' ->
  prv n' = prv n -> nxt n' = q -> relinked h h' (l ++ [t]) None (Some q).
Proof.
  intros Ht Hl Hn Hn' Hp Hq y m Hy Hm. rewrite last_snoc.
  apply elem_of_app in Hy as [Hy| ->%list_elem_of_singleton].
  - exists m. rewrite Hl by done. rewrite (decide_False (P := Some t = _)) by set_solver.
    split_and!; [done| |done]. by case_decide.
  - simplify_eq. exists n'. rewrite (decide_True (P := Some t = _)) by done.
    split_and!; [done| |done]. rewrite Hp. by case_decide.
Qed.

Lemma relinked_cons h h' l t n n' pv :
  t ∉ l -> (forall y, y ∈ l -> h' !! y = h !! y) -> h !! t = Some n -> h' !! t = Some n' ->
  nxt n' = nxt n -> prv n' = pv -> relinked h h' (t :: l) (Some pv) None.
Proof.
  intros Ht Hl Hn Hn' Hq Hp y m Hy Hm. simpl hd_error.
  apply elem_of_cons in Hy as [->|Hy].
  - simplify_eq. exists n'. rewrite (decide_True (P := Some t = _)) by done.
    split_and!; [done|done|]. rewrite Hq. by case_decide.
  - exists m. rewrite Hl by done. rewrite (decide_False (P := Some t = _)) by set_solver.
    split_and!; [done|done|]. by case_decide.
Qed.
End dchain.
