(* ===== verification/MemMap.v ===== *)
(** The shadow map of guest physical memory: vmm_mem.c and vmm_mem.h.

    A guest's physical address space is a list of [struct shadow_region], kept by
    address, that says for each range of guest physical addresses what the host
    backs it with.  [Module ShadowMap] translates the list operations on the
    pointers the code manipulates; the theorems relate them to lists of regions
    and show what a lookup finds after a sequence of insertions. *)
From stdpp Require Import base tactics numbers list gmap sorting.
From S2P Require Import Prelude Chain.

Module ShadowMap.

(** ** Data *)

Inductive guest_region_type :=
| GUEST_REGION_NOTHING
| GUEST_REGION_PHYSICAL_MEMORY
| GUEST_REGION_MEMORY_MAPPED_DEVICE.

Inductive host_region_type :=
| HOST_REGION_INVALID
| HOST_REGION_HOOK
| HOST_REGION_PHYSICAL_MEMORY
| HOST_REGION_MEMORY_MAPPED_DEVICE
| HOST_REGION_UNALLOCATED
| HOST_REGION_REMOTE
| HOST_REGION_SWAPPED.

#[export] Instance guest_region_type_eq_dec : EqDecision guest_region_type.
Proof. solve_decision. Defined.

#[export] Instance host_region_type_eq_dec : EqDecision host_region_type.
Proof. solve_decision. Defined.

Record shadow_region := mk_shadow_region {
  guest_type : guest_region_type;
  guest_start : Z;
  guest_end : Z;
  host_type : host_region_type;
  host_addr : Z;
  sr_next : Z;
  sr_prev : Z;
}.

#[export] Instance eta_shadow_region : Eta shadow_region := fun r =>
  mk_shadow_region (guest_type r) (guest_start r) (guest_end r) (host_type r)
    (host_addr r) (sr_next r) (sr_prev r).

(** [struct vmm_mem_hook]: the two callbacks are function pointers. *)
Record vmm_mem_hook := mk_vmm_mem_hook {
  hook_read : Z;
  hook_write : Z;
  hook_priv_data : Z;
  hook_region : Z;
}.

(** [struct shadow_map] with the heap its pointers lead to. *)
Record shadow_map := mk_shadow_map {
  num_regions : Z;
  head : Z;
  regions : gmap Z shadow_region;
  hooks : gmap Z vmm_mem_hook;
}.

#[export] Instance eta_shadow_map : Eta shadow_map := fun m =>
  mk_shadow_map (num_regions m) (head m) (regions m) (hooks m).

(** [struct pf_error_code], as far as the fault handlers read it. *)
Record pf_error := mk_pf_error {
  pf_present : Z;
  pf_write : Z;
  pf_user : Z;
  pf_rsvd_access : Z;
  pf_ifetch : Z;
  pf_rsvd : Z;
}.

(** ** Operations *)

(** The node at [entry] is fresh from V3_Malloc, so every field is assigned; a
    NULL result of V3_Malloc is not checked by the callers. *)
Definition init_shadow_region (h : gmap Z shadow_region) (entry : Z)
    (guest_addr_start guest_addr_end : Z) (gt : guest_region_type)
    (ht : host_region_type) : outcome (gmap Z shadow_region) :=
  if entry =? NULL then Undef else
  Done (<[entry := mk_shadow_region gt guest_addr_start guest_addr_end ht 0 NULL NULL]> h).

Definition init_shadow_map (map : shadow_map) : shadow_map :=
  map <| num_regions := 0 |> <| head := NULL |>.

(** The loop of add_shadow_region, from [cursor] on. *)
Fixpoint add_shadow_region_loop (fuel : nat) (map : shadow_map) (region cursor : Z)
    : outcome (Z * shadow_map) :=
  match fuel with
  | O => OutOfFuel
  | S fuel =>
    if cursor =? NULL then Done (-1, map) else
    c ← deref (regions map) cursor;
    r ← deref (regions map) region;
    if (guest_end c >? guest_start r) && (guest_start c <? guest_start r) then
      Done (-1, map)
    else if sr_next c =? NULL then
      h ← modify (regions map) cursor (fun c => c <| sr_next := region |>);
      h ← modify h region (fun r => r <| sr_prev := cursor |>);
      h ← modify h region (fun r => r <| sr_next := NULL |>);
      Done (0, map <| regions := h |> <| num_regions := u32 (num_regions map + 1) |>)
    else
      n ← deref (regions map) (sr_next c);
      if guest_start n >=? guest_end r then
        h ← modify (regions map) region (fun r => r <| sr_next := sr_next c |>);
        h ← modify h region (fun r => r <| sr_prev := cursor |>);
        h ← modify h (sr_next c) (fun n => n <| sr_prev := region |>);
        h ← modify h cursor (fun c => c <| sr_next := region |>);
        Done (0, map <| regions := h |> <| num_regions := u32 (num_regions map + 1) |>)
      else if guest_end n <=? guest_start r then
        add_shadow_region_loop fuel map region (sr_next c)
      else Done (-1, map)
  end.

Definition add_shadow_region (map : shadow_map) (region : Z) : outcome (Z * shadow_map) :=
  let cursor := head map in
  r ← deref (regions map) region;
  let insert_first :=
    h ← modify (regions map) region (fun r => r <| sr_prev := NULL |>);
    h ← modify h region (fun r => r <| sr_next := cursor |>);
    Done (0, map <| regions := h |> <| num_regions := u32 (num_regions map + 1) |>
                 <| head := region |>) in
  if cursor =? NULL then insert_first
  else
    c ← deref (regions map) cursor;
    if guest_start c >=? guest_end r then insert_first
    else add_shadow_region_loop (S (size (regions map))) map region cursor.

Definition delete_shadow_region (map : shadow_map) (start end_ : Z) : Z * shadow_map :=
  (-1, map).

(** [entry] is the pointer V3_Malloc returns. *)
Definition add_shadow_region_passthrough (map : shadow_map) (entry : Z)
    (guest_addr_start guest_addr_end haddr : Z) : outcome (Z * shadow_map) :=
  h ← init_shadow_region (regions map) entry guest_addr_start guest_addr_end
        GUEST_REGION_PHYSICAL_MEMORY HOST_REGION_PHYSICAL_MEMORY;
  h ← modify h entry (fun r => r <| host_addr := haddr |>);
  add_shadow_region (map <| regions := h |>) entry.

(** [entry] and [hook] are the pointers the two V3_Malloc calls return. *)
Definition hook_guest_mem (map : shadow_map) (entry hook : Z)
    (guest_addr_start guest_addr_end read write priv_data : Z)
    : outcome (Z * shadow_map) :=
  if hook =? NULL then Undef else
  let map := map <| hooks := <[hook := mk_vmm_mem_hook read write priv_data entry]>
                               (hooks map) |> in
  h ← init_shadow_region (regions map) entry guest_addr_start guest_addr_end
        GUEST_REGION_PHYSICAL_MEMORY HOST_REGION_HOOK;
  h ← modify h entry (fun r => r <| host_addr := hook |>);
  add_shadow_region (map <| regions := h |>) entry.

Fixpoint get_by_addr_loop (fuel : nat) (h : gmap Z shadow_region) (reg addr : Z)
    : outcome Z :=
  match fuel with
  | O => OutOfFuel
  | S fuel =>
    if reg =? NULL then Done NULL else
    r ← deref h reg;
    if (guest_start r <=? addr) && (guest_end r >? addr) then Done reg
    else if guest_start r >? addr then Done NULL
    else get_by_addr_loop fuel h (sr_next r) addr
  end.

Definition get_shadow_region_by_addr (map : shadow_map) (addr : Z) : outcome Z :=
  get_by_addr_loop (S (size (regions map))) (regions map) (head map) addr.

Fixpoint get_by_index_loop (fuel : nat) (h : gmap Z shadow_region) (reg i index : Z)
    : outcome Z :=
  match fuel with
  | O => OutOfFuel
  | S fuel =>
    if reg =? NULL then Done NULL else
    if i =? index then Done reg else
    r ← deref h reg;
    get_by_index_loop fuel h (sr_next r) (u32 (i + 1)) index
  end.

Definition get_shadow_region_by_index (map : shadow_map) (index : Z) : outcome Z :=
  get_by_index_loop (S (size (regions map))) (regions map) (head map) 0 index.

Definition get_shadow_addr_type (map : shadow_map) (guest_addr : Z)
    : outcome host_region_type :=
  reg ← get_shadow_region_by_addr map guest_addr;
  if reg =? NULL then Done HOST_REGION_INVALID
  else r ← deref (regions map) reg; Done (host_type r).

Definition get_shadow_addr {A : Arch} (map : shadow_map) (guest_addr : Z) : outcome Z :=
  reg ← get_shadow_region_by_addr map guest_addr;
  if reg =? NULL then Done 0
  else r ← deref (regions map) reg;
       Done (ulong (ulong (guest_addr - guest_start r) + host_addr r)).

(** The result and the new value of [*host_addr], which is not assigned when no
    region is found. *)
Definition lookup_shadow_map_addr {A : Arch} (map : shadow_map) (guest_addr : Z)
    (host_addr_var : Z) : outcome (host_region_type * Z) :=
  reg ← get_shadow_region_by_addr map guest_addr;
  if reg =? NULL then Done (HOST_REGION_INVALID, host_addr_var)
  else
    r ← deref (regions map) reg;
    match host_type r with
    | HOST_REGION_PHYSICAL_MEMORY =>
        Done (host_type r, ulong (ulong (guest_addr - guest_start r) + host_addr r))
    | _ => Done (host_type r, 0)
    end.

Definition get_mem_hook (map : shadow_map) (guest_addr : Z) : outcome Z :=
  reg ← get_shadow_region_by_addr map guest_addr;
  if reg =? NULL then Done NULL
  else r ← deref (regions map) reg; Done (host_addr r).

Fixpoint free_loop (fuel : nat) (h : gmap Z shadow_region) (cursor : Z)
    : outcome (gmap Z shadow_region) :=
  match fuel with
  | O => OutOfFuel
  | S fuel =>
    if cursor =? NULL then Done h else
    c ← deref h cursor;
    h ← v3_free h cursor;
    free_loop fuel h (sr_next c)
  end.

(** The nodes of the list; the map itself, which the code frees last, is a field of
    [struct guest_info] and is not in this heap. *)
Definition free_shadow_map (map : shadow_map) : outcome (gmap Z shadow_region) :=
  free_loop (S (size (regions map))) (regions map) (head map).

(** The page-fault dispatch of hooked memory.  The two functions of vmm_emulator.c
    it calls are arguments: they take the faulting address, the callback, the guest
    physical address and the private data. *)
Section dispatch.
Context {S : Type}.
Context (v3_emulate_memory_read v3_emulate_memory_write :
           S -> Z -> Z -> Z -> Z -> outcome (Z * S)).

Definition mem_hook_dispatch (map : shadow_map) (st : S) (fault_gva fault_gpa : Z)
    (access_info : pf_error) (hook : Z) : outcome (Z * S) :=
  h ← deref (hooks map) hook;
  '(ret, st) ←
    (if pf_write access_info =? 1 then
       v3_emulate_memory_write st fault_gva (hook_write h) fault_gpa (hook_priv_data h)
     else
       v3_emulate_memory_read st fault_gva (hook_read h) fault_gpa (hook_priv_data h));
  if ret =? -1 then Done (-1, st) else Done (0, st).

Definition handle_special_page_fault (map : shadow_map) (st : S)
    (fault_gva fault_gpa : Z) (access_info : pf_error) : outcome (Z * S) :=
  reg ← get_shadow_region_by_addr map fault_gpa;
  r ← deref (regions map) reg;
  match host_type r with
  | HOST_REGION_HOOK =>
      mem_hook_dispatch map st fault_gva fault_gpa access_info (host_addr r)
  | _ => Done (-1, st)
  end.
End dispatch.

(** ** The map as a list of regions

    [data] forgets the links of a node and [view] is the content of the list at the
    addresses [l].  [add_list] is add_shadow_region on that content. *)

Definition data (r : shadow_region) : shadow_region :=
  r <| sr_next := NULL |> <| sr_prev := NULL |>.

Definition view (h : gmap Z shadow_region) (l : list Z) : list shadow_region :=
  data <$> nodes h l.

Definition cuts (c r : shadow_region) : bool :=
  (guest_end c >? guest_start r) && (guest_start c <? guest_start r).

Fixpoint ins_after (c : shadow_region) (rest : list shadow_region) (r : shadow_region)
    : option (list shadow_region) :=
  if cuts c r then None else
  match rest with
  | [] => Some [c; r]
  | n :: rest' =>
      if guest_start n >=? guest_end r then Some (c :: r :: rest)
      else if guest_end n <=? guest_start r then cons c <$> ins_after n rest' r
      else None
  end.

Definition add_list (l : list shadow_region) (r : shadow_region)
    : option (list shadow_region) :=
  match l with
  | [] => Some [r]
  | c :: rest => if guest_start c >=? guest_end r then Some (r :: l)
                 else ins_after c rest r
  end.

(** The map [map] holds the nodes at [l]. *)
Definition holds (map : shadow_map) (l : list Z) : Prop :=
  chain sr_next (regions map) (head map) l.

(** What an insertion does to the heap: [region] is linked into the nodes [l], and
    no other node is written. *)
Definition linked (h : gmap Z shadow_region) (l : list Z) (region : Z)
    (h' : gmap Z shadow_region) (l' : list Z) : Prop :=
  l' ≡ₚ region :: l /\ (forall y, y ∉ region :: l -> h' !! y = h !! y).

Lemma view_cons h x l n : h !! x = Some n -> view h (x :: l) = data n :: view h l.
Proof. intros Hx. unfold view. by rewrite (nodes_cons _ _ _ _ Hx). Qed.

Lemma view_ext h h' l :
  (forall x, x ∈ l -> h' !! x = h !! x) -> view h' l = view h l.
Proof. intros Hx. unfold view. by rewrite (nodes_ext h h'). Qed.

Lemma view_insert_ne h l x n : x ∉ l -> view (<[x := n]> h) l = view h l.
Proof. intros Hx. unfold view. by rewrite nodes_insert_ne. Qed.

(** Writing only the links of a node does not change the content of a list. *)
Lemma view_insert_data h l x n n' :
  h !! x = Some n -> data n' = data n -> view (<[x := n']> h) l = view h l.
Proof.
  intros Hx Hd. induction l as [|y l IH]; [done|]. unfold view in *.
  rewrite !nodes_step. destruct (decide (x = y)) as [->|].
  - rewrite lookup_insert_eq, Hx. rewrite !fmap_cons. by rewrite IH, Hd.
  - rewrite lookup_insert_ne by done. destruct (h !! y); [|done].
    rewrite !fmap_cons. by rewrite IH.
Qed.

(** Appending the node after the last one. *)
Lemma link_last {B} (k : gmap Z shadow_region -> outcome B) h c cn region r :
  chain sr_next h c [c] -> h !! c = Some cn -> h !! region = Some r ->
  region <> c -> region <> NULL ->
  exists h',
    (h ← modify h c (fun c => c <| sr_next := region |>);
     h ← modify h region (fun r => r <| sr_prev := c |>);
     h ← modify h region (fun r => r <| sr_next := NULL |>); k h) = k h' /\
    chain sr_next h' c [c; region] /\
    view h' [c; region] = [data cn; data r] /\
    linked h [c] region h' [c; region].
Proof.
  intros Hc Hcn Hr Hne Hnull. eexists. split.
  { rewrite (modify_some _ _ _ _ Hcn). simpl.
    erewrite modify_some by (rewrite lookup_insert_ne by done; exact Hr). simpl.
    erewrite modify_some by apply lookup_insert_eq. reflexivity. }
  rewrite insert_insert_eq. apply chain_cons in Hc as (_ & Hcnull & _).
  split_and!.
  - rewrite chain_cons. split_and!; [done..|set_solver|]. eexists.
    split; [by rewrite lookup_insert_ne, lookup_insert_eq by done|].
    rewrite chain_cons. split_and!; [done..|set_solver|]. eexists.
    split; [apply lookup_insert_eq|]. by apply chain_nil.
  - erewrite view_cons by (by rewrite lookup_insert_ne, lookup_insert_eq by done).
    erewrite view_cons by apply lookup_insert_eq. done.
  - split; [apply Permutation_swap|]. intros y Hy.
    rewrite !lookup_insert_ne by set_solver. done.
Qed.

(** Linking the node between [c] and its successor [x]. *)
Lemma link_middle {B} (k : gmap Z shadow_region -> outcome B) h c cn x l region r :
  chain sr_next h c (c :: x :: l) -> h !! c = Some cn -> sr_next cn = x ->
  h !! region = Some r -> region ∉ c :: x :: l -> region <> NULL ->
  exists h',
    (h ← modify h region (fun r => r <| sr_next := x |>);
     h ← modify h region (fun r => r <| sr_prev := c |>);
     h ← modify h x (fun n => n <| sr_prev := region |>);
     h ← modify h c (fun c => c <| sr_next := region |>); k h) = k h' /\
    chain sr_next h' c (c :: region :: x :: l) /\
    view h' (c :: region :: x :: l) = data cn :: data r :: view h (x :: l) /\
    linked h (c :: x :: l) region h' (c :: region :: x :: l).
Proof.
  intros Hc Hcn Hnx Hr Hin Hnull.
  apply chain_cons in Hc as (_ & Hcnull & Hcl & cn' & Hcn' & Hx).
  rewrite Hcn in Hcn'. injection Hcn' as <-. rewrite Hnx in Hx.
  apply chain_cons in Hx as (_ & Hxnull & Hxl & n & Hn & Hl).
  eexists. split.
  { rewrite (modify_some _ _ _ _ Hr). simpl.
    erewrite modify_some by apply lookup_insert_eq. simpl. rewrite insert_insert_eq.
    erewrite modify_some by (rewrite lookup_insert_ne by set_solver; exact Hn). simpl.
    erewrite modify_some by (rewrite !lookup_insert_ne by set_solver; exact Hcn).
    reflexivity. }
  split_and!.
  - rewrite chain_cons. split_and!; [done..|set_solver|]. eexists.
    split; [apply lookup_insert_eq|].
    rewrite chain_cons. split_and!; [done..|set_solver|]. eexists.
    split; [by rewrite 2!lookup_insert_ne, lookup_insert_eq by set_solver|]. simpl.
    apply chain_insert_ne; [done|].
    rewrite chain_cons. split_and!; [done..|]. eexists.
    split; [apply lookup_insert_eq|]. simpl.
    do 2 (apply chain_insert_ne; [set_solver|]). done.
  - erewrite view_cons by apply lookup_insert_eq.
    erewrite view_cons by (by rewrite 2!lookup_insert_ne, lookup_insert_eq by set_solver).
    rewrite view_insert_ne by done.
    erewrite view_insert_data; [|rewrite lookup_insert_ne by set_solver; exact Hn|done].
    rewrite view_insert_ne by set_solver. done.
  - split; [apply Permutation_swap|]. intros y Hy.
    rewrite !lookup_insert_ne by set_solver. done.
Qed.

(** The loop refines [ins_after]. *)
Lemma add_loop_refines fuel map region r c cn rest :
  (length rest < fuel)%nat ->
  chain sr_next (regions map) c (c :: rest) ->
  regions map !! c = Some cn -> regions map !! region = Some r ->
  region ∉ c :: rest -> region <> NULL ->
  match ins_after (data cn) (view (regions map) rest) (data r) with
  | None => add_shadow_region_loop fuel map region c = Done (-1, map)
  | Some v => exists h' l',
      add_shadow_region_loop fuel map region c =
        Done (0, map <| regions := h' |> <| num_regions := u32 (num_regions map + 1) |>) /\
      chain sr_next h' c l' /\ view h' l' = v /\ linked (regions map) (c :: rest) region h' l'
  end.
Proof.
  revert fuel c cn. induction rest as [|x rest IH]; intros fuel c cn Hf Hc Hcn Hr Hin Hnull.
  all: destruct fuel as [|fuel]; [simpl in Hf; lia|]; cbn [add_shadow_region_loop].
  all: pose proof Hc as Hc'; apply chain_cons in Hc' as (_ & Hcnull & Hcin & cn' & ? & Hx).
  all: simplify_eq; rewrite (proj2 (Z.eqb_neq c NULL)) by done.
  all: rewrite (deref_some _ _ _ Hcn), (deref_some _ _ _ Hr), !outcome_bind_done.
  - apply chain_nil in Hx. rewrite Hx. cbn -[link_last].
    change ((guest_end cn >? guest_start r) && _) with (cuts cn r).
    change (cuts (data cn) (data r)) with (cuts cn r). destruct (cuts cn r); [done|].
    destruct (link_last (fun h => Done (0, map <| regions := h |>
                <| num_regions := u32 (num_regions map + 1) |>)) (regions map) c cn region r)
      as (h' & Heq & Hch & Hv & Hl); [done..|set_solver|done|].
    exists h', [c; region]. split_and!; [exact Heq|done..].
  - pose proof Hx as Hx'. apply chain_cons in Hx' as (Hnx & Hxnull & Hxin & n & Hn & _).
    rewrite (view_cons _ _ _ _ Hn). cbn [ins_after].
    change ((guest_end cn >? guest_start r) && _) with (cuts cn r).
    change (cuts (data cn) (data r)) with (cuts cn r). destruct (cuts cn r); [done|].
    rewrite Hnx, (proj2 (Z.eqb_neq x NULL)) by done.
    rewrite (deref_some _ _ _ Hn), outcome_bind_done. simpl guest_start. simpl guest_end.
    destruct (guest_start n >=? guest_end r).
    + destruct (link_middle (fun h => Done (0, map <| regions := h |>
                <| num_regions := u32 (num_regions map + 1) |>)) (regions map) c cn x rest
                region r) as (h' & Heq & Hch & Hv & Hl); [done..|].
      exists h', (c :: region :: x :: rest). split_and!; [exact Heq|done| |done].
      by rewrite Hv, (view_cons _ _ _ _ Hn).
    + destruct (guest_end n <=? guest_start r); [|done].
      rewrite Hnx in Hx.
      specialize (IH fuel x n ltac:(simpl in Hf; lia) Hx Hn Hr ltac:(set_solver) Hnull).
      destruct (ins_after (data n) _ _) as [v|]; simpl; [|done].
      destruct IH as (h' & l' & Heq & Hch & Hv & Hperm & Hout).
      assert (h' !! c = Some cn) as Hc' by (by rewrite Hout by set_solver).
      exists h', (c :: l'). split_and!; [done| | |split].
      * rewrite chain_cons. split_and!; [done..| |].
        { rewrite Hperm. set_solver. }
        exists cn. by rewrite Hnx.
      * by rewrite (view_cons _ _ _ _ Hc'), Hv.
      * rewrite Hperm. apply Permutation_swap.
      * intros y Hy. apply Hout. set_solver.
Qed.

(** The pointer code implements [add_list]: it returns 0 and links the new node
    where [add_list] puts the region, or returns -1 and changes nothing. *)
Lemma add_shadow_region_refines map l region r :
  holds map l -> regions map !! region = Some r -> region ∉ l -> region <> NULL ->
  match add_list (view (regions map) l) (data r) with
  | None => add_shadow_region map region = Done (-1, map)
  | Some v => exists map' l',
      add_shadow_region map region = Done (0, map') /\
      holds map' l' /\ view (regions map') l' = v /\
      linked (regions map) l region (regions map') l' /\
      num_regions map' = u32 (num_regions map + 1) /\ hooks map' = hooks map
  end.
Proof.
  intros Hl Hr Hin Hnull. unfold holds in Hl. unfold add_shadow_region.
  rewrite (deref_some _ _ _ Hr), outcome_bind_done.
  rewrite (modify_some _ _ _ _ Hr), outcome_bind_done.
  erewrite modify_some, outcome_bind_done by apply lookup_insert_eq.
  rewrite insert_insert_eq.
  assert (forall p, chain sr_next (regions map) p l -> forall r',
    data r' = data r -> sr_next r' = p ->
    let h' := <[region := r']> (regions map) in
    chain sr_next h' region (region :: l) /\
    view h' (region :: l) = data r :: view (regions map) l /\
    linked (regions map) l region h' (region :: l)) as Hfirst.
  { intros p Hp r' Hd Hnx h'. split_and!.
    - rewrite chain_cons. split_and!; [done..|]. exists r'. rewrite Hnx.
      split; [apply lookup_insert_eq|]. by apply chain_insert_ne.
    - unfold h'. erewrite view_cons by apply lookup_insert_eq.
      by rewrite Hd, view_insert_ne.
    - split; [done|]. intros y Hy. unfold h'. rewrite lookup_insert_ne; set_solver. }
  destruct l as [|c rest].
  - apply chain_nil in Hl as Hh. rewrite Hh. simpl.
    destruct (Hfirst NULL) with (r' := r <| sr_next := NULL |> <| sr_prev := NULL |>)
      as (? & ? & ?); [by apply chain_nil|done..|].
    do 2 eexists. split_and!; [reflexivity|done..].
  - pose proof Hl as Hl'. apply chain_cons in Hl' as (Hhd & Hcnull & _ & cn & Hcn & _).
    rewrite Hhd in *. rewrite (proj2 (Z.eqb_neq c NULL)) by done.
    rewrite (deref_some _ _ _ Hcn), outcome_bind_done, (view_cons _ _ _ _ Hcn).
    cbn [add_list]. simpl guest_start. simpl guest_end.
    destruct (guest_start cn >=? guest_end r).
    + destruct (Hfirst c) with (r' := r <| sr_prev := NULL |> <| sr_next := c |>)
        as (? & ? & ?); [done..|].
      do 2 eexists. split_and!; [reflexivity|done| |done..].
      by rewrite <- (view_cons _ c rest cn Hcn).
    + pose proof (chain_length _ _ _ _ Hl) as Hlen. simpl in Hlen.
      pose proof (add_loop_refines (S (size (regions map))) map region r c cn rest
        ltac:(lia) Hl Hcn Hr Hin Hnull) as Hloop.
      destruct (ins_after _ _ _) as [v|]; [|exact Hloop].
      destruct Hloop as (h' & l' & Heq & ? & ? & ?).
      do 2 eexists. split_and!; [exact Heq| |done..].
      unfold holds. simpl. by rewrite Hhd.
Qed.

(** ** Well-formed maps *)

Definition region_ok (r : shadow_region) : Prop := guest_start r < guest_end r.

Definition before (a b : shadow_region) : Prop := guest_end a <= guest_start b.

Definition apart (a b : shadow_region) : Prop := before a b \/ before b a.

Definition inside (r : shadow_region) (addr : Z) : Prop :=
  guest_start r <= addr < guest_end r.

#[export] Instance inside_dec r addr : Decision (inside r addr).
Proof. unfold inside. apply _. Defined.

#[export] Instance before_dec a b : Decision (before a b).
Proof. unfold before. apply _. Defined.

(** Non-empty regions in the order of their addresses, none overlapping another. *)
Definition wf_list (l : list shadow_region) : Prop :=
  Forall region_ok l /\ StronglySorted before l.

Record wf_map (map : shadow_map) (l : list Z) : Prop := {
  wf_holds : holds map l;
  wf_content : wf_list (view (regions map) l);
  wf_count : num_regions map = u32 (Z.of_nat (length l));
}.

Lemma wf_cons r l :
  wf_list (r :: l) <-> region_ok r /\ Forall (before r) l /\ wf_list l.
Proof.
  unfold wf_list. rewrite Forall_cons, StronglySorted_cons. tauto.
Qed.

Lemma wf_before_all r x l :
  before r x -> wf_list (x :: l) -> Forall (before r) (x :: l).
Proof.
  unfold before. rewrite wf_cons. intros Hrx (Hx & Hxl & Hl). constructor; [done|].
  eapply Forall_impl; [exact Hxl|]. unfold region_ok, before in *. simpl. lia.
Qed.

(** [ins_after] accepts a region that is apart from all of a well-formed list whose
    first element lies before it, and keeps the list well-formed. *)
Lemma ins_after_apart c rest r :
  wf_list (c :: rest) -> region_ok r -> before c r -> Forall (apart r) rest ->
  exists v, ins_after c rest r = Some v /\ wf_list v /\ v ≡ₚ r :: c :: rest /\
            exists v', v = c :: v'.
Proof.
  revert c. induction rest as [|n rest IH]; intros c Hwf Hr Hcr Hap; simpl.
  all: assert (cuts c r = false) as -> by
    (unfold cuts, before, region_ok in *; lia).
  all: apply wf_cons in Hwf as (Hc & Hcn & Hwf).
  - eexists. split_and!; [done| |constructor|eauto].
    rewrite !wf_cons. repeat split; repeat constructor; done.
  - apply Forall_cons in Hap as [Hn Hap]. pose proof Hwf as Hwf'.
    apply wf_cons in Hwf' as (Hnok & _ & _).
    destruct (guest_start n >=? guest_end r) eqn:E1.
    + eexists. split_and!; [done| |constructor|eauto].
      assert (before r n) by (unfold before; lia).
      assert (Forall (before r) (n :: rest)) by (by apply wf_before_all).
      rewrite !(wf_cons _ (_ :: _)). split_and!; try done.
      constructor; done.
    + assert (before n r) as Hnr by (unfold apart, before, region_ok in *; lia).
      assert (guest_end n <=? guest_start r = true) as -> by (unfold before in *; lia).
      destruct (IH n Hwf Hr Hnr Hap) as (v & -> & Hv & Hp & v' & ->).
      eexists. split_and!; [done| | |eauto].
      * apply wf_cons. split_and!; [done| |done]. rewrite Hp. by constructor.
      * rewrite Hp. apply Permutation_swap.
Qed.

Lemma add_list_apart l r :
  wf_list l -> region_ok r -> Forall (apart r) l ->
  exists v, add_list l r = Some v /\ wf_list v /\ v ≡ₚ r :: l.
Proof.
  intros Hwf Hr Hap. destruct l as [|c rest]; simpl.
  - eexists. split_and!; [done| |done]. rewrite wf_cons. split_and!; [done|constructor|done].
  - apply Forall_cons in Hap as [Hcr Hap]. pose proof Hwf as (Hc & _ & _)%wf_cons.
    destruct (guest_start c >=? guest_end r) eqn:E.
    + eexists. split_and!; [done| |done]. rewrite wf_cons. split_and!; [done| |done].
      apply wf_before_all; [unfold before; lia|done].
    + destruct (ins_after_apart c rest r) as (v & -> & ? & ? & _); [done..| |done|eauto].
      unfold apart, before, region_ok in *. lia.
Qed.

(** What add_shadow_region accepts: a region apart from every region of the map,
    or one that overlaps the first region from below and stops before the second. *)
Definition covers_head (l : list shadow_region) (r : shadow_region) : Prop :=
  exists c rest, l = c :: rest /\ guest_start r <= guest_start c < guest_end r /\
    match rest with [] => True | n :: _ => guest_end r <= guest_start n end.

Lemma ins_after_inv c rest r v :
  wf_list (c :: rest) -> region_ok r -> before c r ->
  ins_after c rest r = Some v -> Forall (apart r) rest.
Proof.
  revert c v. induction rest as [|n rest IH]; intros c v Hwf Hr Hcr; simpl; [constructor|].
  destruct (cuts c r); [done|]. apply wf_cons in Hwf as (Hc & Hcn & Hwf).
  destruct (guest_start n >=? guest_end r) eqn:E1; intros Hv.
  - assert (Forall (before r) (n :: rest)) as Hb
      by (apply wf_before_all; [unfold before; lia|done]).
    eapply Forall_impl; [exact Hb|]. intros ?. by left.
  - destruct (guest_end n <=? guest_start r) eqn:E2; [|done].
    assert (before n r) by (unfold before; lia).
    destruct (ins_after n rest r) as [v'|] eqn:E3; [|done].
    constructor; [by right|]. eauto.
Qed.

Lemma add_list_inv l r v :
  wf_list l -> region_ok r -> add_list l r = Some v ->
  Forall (apart r) l \/ covers_head l r.
Proof.
  intros Hwf Hr. destruct l as [|c rest]; simpl; [by left|].
  pose proof Hwf as (Hc & _ & Hwf')%wf_cons.
  destruct (guest_start c >=? guest_end r) eqn:E; intros Hv.
  - left. eapply Forall_impl; [apply (wf_before_all r c rest)|]; [unfold before; lia|done|].
    intros ?. by left.
  - destruct (cuts c r) eqn:Ecut; [destruct rest; simpl in Hv; by rewrite Ecut in Hv|].
    destruct (decide (before c r)) as [Hb|Hb]; [|right].
    + left. constructor; [by right|]. by eapply ins_after_inv.
    + exists c, rest. unfold cuts, before, region_ok in *.
      split_and!; [done|lia|lia|]. destruct rest as [|n rest]; [done|].
      simpl in Hv. unfold cuts in Hv. rewrite Ecut in Hv.
      destruct (guest_start n >=? guest_end r) eqn:E1; [lia|].
      apply wf_cons in Hwf as (_ & Hcn & _). apply Forall_cons in Hcn as [Hcn _].
      unfold before in Hcn.
      apply wf_cons in Hwf' as (Hn & _). unfold region_ok in Hn.
      assert (guest_end n <=? guest_start r = false) as Hf by lia. by rewrite Hf in Hv.
Qed.

(** ** Lookup

    The region list as a partial function from guest physical addresses. *)

Fixpoint lookup_list (l : list shadow_region) (addr : Z) : option shadow_region :=
  match l with
  | [] => None
  | r :: l => if decide (inside r addr) then Some r else lookup_list l addr
  end.

Lemma lookup_list_some l addr r :
  wf_list l -> lookup_list l addr = Some r <-> r ∈ l /\ inside r addr.
Proof.
  induction l as [|x l IH]; simpl; [set_solver|].
  rewrite wf_cons. intros (Hx & Hxl & Hl). rewrite elem_of_cons.
  case_decide as Hin; [|rewrite IH by done; naive_solver].
  split; [naive_solver|]. intros [[->|Hr] Hin']; [done|]. exfalso.
  rewrite Forall_forall in Hxl. specialize (Hxl r Hr).
  unfold inside, before in *. lia.
Qed.

Lemma lookup_list_none l addr :
  lookup_list l addr = None <-> Forall (fun r => ~ inside r addr) l.
Proof.
  induction l as [|x l IH]; simpl; [naive_solver|]. rewrite Forall_cons, <- IH.
  case_decide; naive_solver.
Qed.

Lemma lookup_list_perm l r addr v :
  wf_list v -> v ≡ₚ r :: l -> wf_list l ->
  lookup_list v addr = if decide (inside r addr) then Some r else lookup_list l addr.
Proof.
  intros Hv Hp Hl. case_decide as Hin.
  - apply lookup_list_some; [done|]. rewrite Hp. set_solver.
  - destruct (lookup_list l addr) as [x|] eqn:E.
    + apply lookup_list_some in E; [|done]. apply lookup_list_some; [done|].
      rewrite Hp. set_solver.
    + apply lookup_list_none in E. apply lookup_list_none. rewrite Hp. by constructor.
Qed.

(** The walk of get_shadow_region_by_addr, which stops at the first region that
    starts beyond the address, finds what [lookup_list] finds. *)
Lemma get_by_addr_loop_refines fuel h p l addr :
  (length l < fuel)%nat -> chain sr_next h p l -> wf_list (view h l) ->
  match lookup_list (view h l) addr with
  | None => get_by_addr_loop fuel h p addr = Done NULL
  | Some r => exists q n, get_by_addr_loop fuel h p addr = Done q /\
      q <> NULL /\ q ∈ l /\ h !! q = Some n /\ data n = r
  end.
Proof.
  revert p fuel. induction l as [|x l IH]; intros p fuel Hf Hc Hwf.
  all: destruct fuel as [|fuel]; [simpl in Hf; lia|]; cbn [get_by_addr_loop].
  - apply chain_nil in Hc as ->. done.
  - apply chain_cons in Hc as (-> & Hnull & Hx & n & Hn & Hc).
    rewrite (view_cons _ _ _ _ Hn) in *. apply wf_cons in Hwf as (Hok & Hb & Hwf).
    rewrite (proj2 (Z.eqb_neq x NULL)), (deref_some _ _ _ Hn), outcome_bind_done by done.
    cbn [lookup_list]. case_decide as Hin; unfold inside in Hin; simpl in Hin.
    + rewrite (proj2 (andb_true_iff _ _)) by (split; lia).
      exists x, n. split_and!; [done..|set_solver|done|done].
    + rewrite (proj2 (andb_false_iff _ _)) by lia.
      destruct (guest_start n >? addr) eqn:E.
      * destruct (lookup_list _ _) as [r|] eqn:El; [|done]. exfalso.
        apply lookup_list_some in El as [Hr Hr']; [|done].
        rewrite Forall_forall in Hb. specialize (Hb r Hr).
        unfold before, inside, region_ok in *. simpl in *. lia.
      * specialize (IH (sr_next n) fuel ltac:(simpl in Hf; lia) Hc Hwf).
        destruct (lookup_list _ _); [|done]. destruct IH as (q & m & ? & ? & ? & ? & ?).
        exists q, m. split_and!; try done; set_solver.
Qed.

Lemma get_shadow_region_by_addr_refines map l addr :
  wf_map map l ->
  match lookup_list (view (regions map) l) addr with
  | None => get_shadow_region_by_addr map addr = Done NULL
  | Some r => exists q n, get_shadow_region_by_addr map addr = Done q /\
      q <> NULL /\ q ∈ l /\ regions map !! q = Some n /\ data n = r
  end.
Proof.
  intros [Hc Hwf _]. unfold get_shadow_region_by_addr.
  apply get_by_addr_loop_refines; [|done..].
  pose proof (chain_length _ _ _ _ Hc). lia.
Qed.

(** The answers of the queries, as functions of the content of the map. *)
Definition type_at (v : list shadow_region) (addr : Z) : host_region_type :=
  match lookup_list v addr with Some r => host_type r | None => HOST_REGION_INVALID end.

Definition addr_at {A : Arch} (v : list shadow_region) (addr : Z) : Z :=
  match lookup_list v addr with
  | Some r => ulong (ulong (addr - guest_start r) + host_addr r)
  | None => 0
  end.

Ltac query H :=
  match goal with
  | |- context [lookup_list ?v ?a] =>
      destruct (lookup_list v a) as [?r|];
      [ let Hq := fresh in let Hn := fresh in
        destruct H as (? & ? & -> & Hq & _ & Hn & <-);
        rewrite outcome_bind_done, (proj2 (Z.eqb_neq _ _) Hq), (deref_some _ _ _ Hn),
          outcome_bind_done
      | rewrite H, outcome_bind_done ]
  end.

Lemma get_shadow_addr_type_eq map l addr :
  wf_map map l ->
  get_shadow_addr_type map addr = Done (type_at (view (regions map) l) addr).
Proof.
  intros Hwf. pose proof (get_shadow_region_by_addr_refines map l addr Hwf) as H.
  unfold get_shadow_addr_type, type_at. by query H.
Qed.

Lemma get_shadow_addr_eq {A : Arch} map l addr :
  wf_map map l -> get_shadow_addr map addr = Done (addr_at (view (regions map) l) addr).
Proof.
  intros Hwf. pose proof (get_shadow_region_by_addr_refines map l addr Hwf) as H.
  unfold get_shadow_addr, addr_at. by query H.
Qed.

Lemma lookup_shadow_map_addr_eq {A : Arch} map l addr x :
  wf_map map l ->
  lookup_shadow_map_addr map addr x = Done (
    let v := view (regions map) l in
    match lookup_list v addr with
    | None => (HOST_REGION_INVALID, x)
    | Some r => (host_type r, match host_type r with
                              | HOST_REGION_PHYSICAL_MEMORY => addr_at v addr
                              | _ => 0
                              end)
    end).
Proof.
  intros Hwf. pose proof (get_shadow_region_by_addr_refines map l addr Hwf) as H.
  unfold lookup_shadow_map_addr, addr_at. cbv zeta. query H; [|done].
  simpl. by destruct (host_type _).
Qed.

(** ** Insertion *)

Lemma covers_head_accepted l r :
  covers_head l r -> is_Some (add_list l r).
Proof.
  intros (c & rest & -> & Hc & Hn). simpl.
  assert (guest_start c >=? guest_end r = false) as -> by lia.
  assert (cuts c r = false) as Hcut by (unfold cuts; lia).
  destruct rest as [|n rest]; simpl; rewrite Hcut; [done|].
  assert (guest_start n >=? guest_end r = true) as -> by lia. done.
Qed.

Lemma u32_succ_length {X} (x : X) l l' n :
  n = u32 (Z.of_nat (length l)) -> l' ≡ₚ x :: l -> u32 (n + 1) = u32 (Z.of_nat (length l')).
Proof.
  intros -> Hp. rewrite Hp. simpl length. rewrite Nat2Z.inj_succ. unfold wrap.
  by rewrite Zplus_mod_idemp_l.
Qed.

(** add_shadow_region on a region apart from all others. *)
Lemma add_shadow_region_apart map l region r :
  wf_map map l -> regions map !! region = Some r -> region ∉ l -> region <> NULL ->
  region_ok r -> Forall (apart (data r)) (view (regions map) l) ->
  exists map' l', add_shadow_region map region = Done (0, map') /\ wf_map map' l' /\
    view (regions map') l' ≡ₚ data r :: view (regions map) l /\
    l' ≡ₚ region :: l /\ hooks map' = hooks map.
Proof.
  intros [Hl Hwf Hn] Hr Hin Hnull Hok Hap.
  destruct (add_list_apart _ (data r) Hwf Hok Hap) as (v & Hv & Hwfv & Hp).
  pose proof (add_shadow_region_refines map l region r Hl Hr Hin Hnull) as H.
  rewrite Hv in H. destruct H as (map' & l' & ? & ? & Hview & [Hl' _] & Hn' & ?).
  exists map', l'. rewrite Hview. split_and!; try done.
  split; [done|by rewrite Hview|]. rewrite Hn'. by eapply u32_succ_length.
Qed.

Lemma wf_map_fresh map l entry r :
  wf_map map l -> entry ∉ l -> wf_map (map <| regions := <[entry := r]> (regions map) |>) l.
Proof.
  intros [Hl Hwf Hn] Hin. split; simpl; [by apply chain_insert_ne| |done].
  by rewrite view_insert_ne.
Qed.

(** The queries after an insertion, in terms of the queries before it. *)
Lemma queries_after_add {A : Arch} map l map' l' r :
  wf_map map l -> wf_map map' l' ->
  view (regions map') l' ≡ₚ data r :: view (regions map) l ->
  forall a,
    get_shadow_addr_type map' a =
      (if decide (inside r a) then Done (host_type r) else get_shadow_addr_type map a) /\
    get_shadow_addr map' a =
      (if decide (inside r a) then Done (ulong (ulong (a - guest_start r) + host_addr r))
       else get_shadow_addr map a).
Proof.
  intros Hm Hm' Hp a.
  rewrite (get_shadow_addr_type_eq map l), (get_shadow_addr_type_eq map' l') by done.
  rewrite (get_shadow_addr_eq map l), (get_shadow_addr_eq map' l') by done.
  unfold type_at, addr_at.
  rewrite (lookup_list_perm (view (regions map) l) (data r) a _ (wf_content _ _ Hm') Hp
    (wf_content _ _ Hm)).
  change (inside (data r) a) with (inside r a).
  by destruct (decide (inside r a)).
Qed.

(** C15. Mapping a free range of guest physical memory succeeds, keeps the map
    well-formed, and changes the translation of exactly the addresses of the range:
    inside, an address is ordinary memory at the same offset of the host range, and
    every other address is translated as before. *)
Theorem add_shadow_region_passthrough_maps {A : Arch} map l entry gs ge ha :
  wf_map map l -> entry <> NULL -> entry ∉ l -> gs < ge ->
  (forall r, r ∈ view (regions map) l -> ge <= guest_start r \/ guest_end r <= gs) ->
  exists map' l',
    add_shadow_region_passthrough map entry gs ge ha = Done (0, map') /\
    wf_map map' l' /\ l' ≡ₚ entry :: l /\
    forall a,
      get_shadow_addr_type map' a =
        (if decide (gs <= a < ge) then Done HOST_REGION_PHYSICAL_MEMORY
         else get_shadow_addr_type map a) /\
      get_shadow_addr map' a =
        (if decide (gs <= a < ge) then Done (ulong (ulong (a - gs) + ha))
         else get_shadow_addr map a).
Proof.
  intros Hm Hnull Hin Hlt Hap.
  unfold add_shadow_region_passthrough, init_shadow_region.
  rewrite (proj2 (Z.eqb_neq _ _) Hnull), outcome_bind_done.
  erewrite modify_some, outcome_bind_done by apply lookup_insert_eq.
  rewrite insert_insert_eq.
  set (r := (mk_shadow_region _ _ _ _ _ _ _) <| host_addr := ha |>).
  pose proof (wf_map_fresh map l entry r Hm Hin) as Hm0.
  destruct (add_shadow_region_apart _ l entry r Hm0) as (map' & l' & Heq & Hm' & Hp & Hl' & _);
    [apply lookup_insert_eq|done..| |].
  { simpl. rewrite view_insert_ne by done. rewrite Forall_forall. intros x Hx.
    destruct (Hap x Hx); [left|right]; done. }
  exists map', l'. split_and!; [done..|]. simpl in Hp. rewrite view_insert_ne in Hp by done.
  exact (queries_after_add map l map' l' r Hm Hm' Hp).
Qed.

Definition empty_map : shadow_map := mk_shadow_map 0 NULL ∅ ∅.

Lemma wf_empty : wf_map empty_map [].
Proof. split; [by apply chain_nil|by split; constructor|done]. Qed.

Lemma add_shadow_region_passthrough_maps_witness :
  exists map' l',
    add_shadow_region_passthrough empty_map 1 0 0x1000 0x50000 = Done (0, map') /\
    wf_map map' l' /\ l' ≡ₚ [1] /\
    get_shadow_addr (A := V3_32BIT) map' 0x10 = Done 0x50010.
Proof.
  destruct (add_shadow_region_passthrough_maps (A := V3_32BIT) empty_map [] 1 0 0x1000 0x50000)
    as (map' & l' & H1 & H2 & H3 & H4);
    [apply wf_empty|done|set_solver|lia|intros r Hr; by apply not_elem_of_nil in Hr|].
  exists map', l'. split_and!; [done..|]. rewrite (proj2 (H4 0x10)). reflexivity.
Defined.

(** C27. What add_shadow_region accepts.  On a well-formed map it returns 0 exactly
    when the new region is apart from every region of the map, or starts at or below
    the first region, overlaps it and ends before the second one; the check against
    the first region compares starts strictly and so does not see that overlap.
    Otherwise it returns -1 and leaves the map as it was. *)
Theorem add_shadow_region_accepts map l region r :
  wf_map map l -> regions map !! region = Some r -> region ∉ l -> region <> NULL ->
  region_ok r ->
  (Forall (apart (data r)) (view (regions map) l) \/
     covers_head (view (regions map) l) (data r) <->
   exists map', add_shadow_region map region = Done (0, map')) /\
  (add_shadow_region map region = Done (-1, map) \/
   exists map', add_shadow_region map region = Done (0, map')).
Proof.
  intros [Hl Hwf _] Hr Hin Hnull Hok.
  pose proof (add_shadow_region_refines map l region r Hl Hr Hin Hnull) as H.
  destruct (add_list _ _) as [v|] eqn:E.
  - destruct H as (map' & l' & Heq & _). split; [split|right; eauto].
    + eauto.
    + intros _. by eapply add_list_inv.
  - split; [split|by left].
    + intros [Hap|Hc].
      * destruct (add_list_apart _ (data r) Hwf Hok Hap) as (v & Hv & _). by rewrite E in Hv.
      * apply covers_head_accepted in Hc as [v Hv]. by rewrite E in Hv.
    + intros [map' Heq]. by rewrite H in Heq.
Qed.

(** The map of one region [0x1000, 0x2000), and the region [0x800, 0x3000) that
    contains it. *)
Definition one_map : shadow_map :=
  mk_shadow_map 1 1
    {[ 1 := mk_shadow_region GUEST_REGION_PHYSICAL_MEMORY 0x1000 0x2000
              HOST_REGION_PHYSICAL_MEMORY 0x9000 NULL NULL;
       2 := mk_shadow_region GUEST_REGION_PHYSICAL_MEMORY 0x800 0x3000
              HOST_REGION_PHYSICAL_MEMORY 0x20000 NULL NULL ]} ∅.

Lemma wf_one_map : wf_map one_map [1].
Proof.
  split; [|split; repeat constructor|reflexivity].
  apply chain_cons. split_and!; [done..|set_solver|]. eexists. split; [reflexivity|].
  by apply chain_nil.
Qed.

Lemma add_shadow_region_accepts_witness :
  exists map', add_shadow_region one_map 2 = Done (0, map').
Proof.
  apply (add_shadow_region_accepts one_map [1] 2
    (mk_shadow_region GUEST_REGION_PHYSICAL_MEMORY 0x800 0x3000
              HOST_REGION_PHYSICAL_MEMORY 0x20000 NULL NULL));
    [apply wf_one_map|reflexivity|set_solver|done|done|].
  right. do 2 eexists. split_and!; [reflexivity|done..].
Defined.

(** get_shadow_region_by_index walks to the node in the given position, and
    returns NULL past the end; it terminates on every map of fewer than 2^32 nodes. *)
Lemma get_shadow_region_by_index_nth map l index :
  holds map l -> Z.of_nat (length l) < 2 ^ 32 -> 0 <= index < 2 ^ 32 ->
  get_shadow_region_by_index map index = Done (default NULL (l !! Z.to_nat index)).
Proof.
  intros Hl Hlen Hi. unfold get_shadow_region_by_index.
  pose proof (chain_length _ _ _ _ Hl) as Hsz. unfold holds in Hl.
  assert (forall fuel k p l, (length l < fuel)%nat -> chain sr_next (regions map) p l ->
    0 <= k -> k <= index -> k + Z.of_nat (length l) < 2 ^ 32 ->
    get_by_index_loop fuel (regions map) p k index =
      Done (default NULL (l !! Z.to_nat (index - k)))) as Hloop.
  { clear. intros fuel k p l. revert fuel k p.
    induction l as [|x l IH]; intros fuel k p Hf Hc Hk Hki Hlen.
    all: destruct fuel as [|fuel]; [simpl in Hf; lia|]; cbn [get_by_index_loop].
    - apply chain_nil in Hc as ->. done.
    - apply chain_cons in Hc as (-> & Hnull & _ & n & Hn & Hc).
      rewrite (proj2 (Z.eqb_neq _ _) Hnull). destruct (Z.eqb_spec k index) as [->|Hne].
      + by rewrite Z.sub_diag.
      + rewrite (deref_some _ _ _ Hn), outcome_bind_done.
        cbn [length] in Hf, Hlen. rewrite wrap_small by (unfold is_u; lia). rewrite IH by (done || lia).
        replace (Z.to_nat (index - k)) with (S (Z.to_nat (index - (k + 1)))) by lia. done. }
  rewrite (Hloop _ _ _ l) by (done || lia). by rewrite Z.sub_0_r.
Qed.

Lemma get_shadow_region_by_index_nth_witness :
  get_shadow_region_by_index one_map 0 = Done 1.
Proof.
  apply (get_shadow_region_by_index_nth one_map [1] 0); [apply wf_one_map|simpl; lia|lia].
Defined.

(** free_shadow_map frees every node of the list exactly once, reads no node
    after it is freed, and frees nothing else. *)
Theorem free_shadow_map_frees map l :
  holds map l ->
  exists h, free_shadow_map map = Done h /\
    forall p, h !! p = if decide (p ∈ l) then None else regions map !! p.
Proof.
  intros Hl. pose proof (chain_length _ _ _ _ Hl) as Hsz. unfold holds in Hl.
  unfold free_shadow_map. set (fuel := S _). assert (length l < fuel)%nat as Hf by lia.
  clearbody fuel. clear Hsz. revert fuel Hf Hl. generalize (regions map) as h, (head map) as p.
  induction l as [|x l IH]; intros h p fuel Hf Hl.
  all: destruct fuel as [|fuel]; [simpl in Hf; lia|]; cbn [free_loop].
  - apply chain_nil in Hl as ->. exists h. split; [done|]. intros p. by rewrite decide_False by set_solver.
  - apply chain_cons in Hl as (-> & Hnull & Hx & n & Hn & Hl).
    rewrite (proj2 (Z.eqb_neq _ _) Hnull), (deref_some _ _ _ Hn), outcome_bind_done.
    unfold v3_free. rewrite (deref_some _ _ _ Hn), !outcome_bind_done.
    destruct (IH (delete x h) (sr_next n)) with (fuel := fuel) as (h' & Heq & Hh');
      [simpl in Hf; lia|by apply chain_delete_ne|].
    exists h'. split; [done|]. intros p. rewrite Hh'. destruct (decide (p = x)) as [->|].
    + rewrite (decide_False (P := x ∈ l)), decide_True, lookup_delete_eq by set_solver. done.
    + rewrite lookup_delete_ne by done. by repeat case_decide; set_solver.
Qed.

Lemma free_shadow_map_frees_witness :
  exists h, free_shadow_map one_map = Done h /\ h !! 1 = None /\ h !! 2 = regions one_map !! 2.
Proof.
  destruct (free_shadow_map_frees one_map [1]) as (h & Heq & Hh); [apply wf_one_map|].
  exists h. split_and!; [done|by rewrite (Hh 1)|by rewrite (Hh 2)].
Defined.

(** ** Hooked memory *)

Lemma handle_special_page_fault_hit {S} rd wr map l (st : S) gva gpa err r :
  wf_map map l -> lookup_list (view (regions map) l) gpa = Some r ->
  host_type r = HOST_REGION_HOOK ->
  handle_special_page_fault rd wr map st gva gpa err =
  mem_hook_dispatch rd wr map st gva gpa err (host_addr r).
Proof.
  intros Hwf Hlook Hty. pose proof (get_shadow_region_by_addr_refines map l gpa Hwf) as H.
  unfold handle_special_page_fault. rewrite Hlook in H.
  destruct H as (q & n & -> & _ & _ & Hn & <-).
  rewrite outcome_bind_done, (deref_some _ _ _ Hn), outcome_bind_done.
  simpl in Hty. by rewrite Hty.
Qed.

(** The fault of an address no region covers reads the region through NULL. *)
Lemma handle_special_page_fault_unmapped {S} rd wr map l (st : S) gva gpa err :
  wf_map map l -> regions map !! NULL = None ->
  get_shadow_addr_type map gpa = Done HOST_REGION_INVALID ->
  (forall r, r ∈ view (regions map) l -> host_type r <> HOST_REGION_INVALID) ->
  handle_special_page_fault rd wr map st gva gpa err = Undef.
Proof.
  intros Hwf Hnull Hty Hval. pose proof (get_shadow_region_by_addr_refines map l gpa Hwf) as H.
  rewrite (get_shadow_addr_type_eq map l) in Hty by done. unfold type_at in Hty.
  destruct (lookup_list _ _) as [r|] eqn:E.
  - apply lookup_list_some in E as [Hr _]; [|apply Hwf]. injection Hty as Hty.
    by apply Hval in Hr.
  - unfold handle_special_page_fault, deref. by rewrite H, outcome_bind_done, Hnull.
Qed.

(** Hooking a free range makes every fault in it reach the hook: a write fault
    runs the hook's write callback and any other fault its read callback, with the
    faulting addresses and the private data given to hook_guest_mem, and the fault
    handler fails exactly when that emulation fails.  The other addresses keep their
    host region type. *)
Theorem hook_guest_mem_dispatch {S} rd wr map l entry hook gs ge read write priv :
  wf_map map l -> entry <> NULL -> hook <> NULL -> entry ∉ l -> gs < ge ->
  (forall r, r ∈ view (regions map) l -> ge <= guest_start r \/ guest_end r <= gs) ->
  exists map', hook_guest_mem map entry hook gs ge read write priv = Done (0, map') /\
    (forall (st : S) gva gpa err, gs <= gpa < ge ->
      handle_special_page_fault rd wr map' st gva gpa err =
        ('(ret, st) ← (if pf_write err =? 1 then wr st gva write gpa priv
                       else rd st gva read gpa priv);
         Done (if ret =? -1 then -1 else 0, st))) /\
    (forall a, ~ gs <= a < ge -> get_shadow_addr_type map' a = get_shadow_addr_type map a).
Proof.
  intros Hm Hnull Hhook Hin Hlt Hap. unfold hook_guest_mem, init_shadow_region.
  rewrite (proj2 (Z.eqb_neq _ _) Hhook), (proj2 (Z.eqb_neq _ _) Hnull).
  simpl regions. rewrite outcome_bind_done.
  erewrite modify_some, outcome_bind_done by apply lookup_insert_eq.
  rewrite insert_insert_eq. set (map0 := map <| hooks := _ |>).
  set (r := (mk_shadow_region _ _ _ _ _ _ _) <| host_addr := hook |>).
  assert (wf_map map0 l) as Hm0 by (by destruct Hm; split).
  pose proof (wf_map_fresh map0 l entry r Hm0 Hin) as Hm1.
  destruct (add_shadow_region_apart _ l entry r Hm1) as (map' & l' & Heq & Hm' & Hp & Hl' & Hh);
    [apply lookup_insert_eq|done..| |].
  { simpl. rewrite view_insert_ne by done. rewrite Forall_forall. intros x Hx.
    destruct (Hap x Hx); [left|right]; done. }
  simpl in Hp. rewrite view_insert_ne in Hp by done.
  exists map'. split_and!; [exact Heq| |].
  - intros st gva gpa err Hg.
    rewrite (handle_special_page_fault_hit _ _ map' l' _ _ _ _ (data r)); [|done| |done].
    + unfold mem_hook_dispatch. rewrite Hh. cbn [hooks host_addr].
      erewrite deref_some, outcome_bind_done by apply lookup_insert_eq.
      cbn [hook_write hook_read hook_priv_data].
      destruct (if pf_write err =? 1 then _ else _) as [[ret st']| |]; [|done..].
      rewrite !outcome_bind_done. by destruct (ret =? -1).
    + rewrite (lookup_list_perm (view (regions map) l) (data r) gpa _ (wf_content _ _ Hm') Hp
        (wf_content _ _ Hm)). by rewrite decide_True.
  - intros a Ha. destruct (queries_after_add (A := V3_32BIT) map l map' l' r Hm Hm' Hp a)
      as [-> _]. by rewrite decide_False.
Qed.

(** Callbacks that log the callback run and its private data. *)
Definition log_call (st : list (Z * Z)) (gva f gpa p : Z) : outcome (Z * list (Z * Z)) :=
  Done (0, (f, p) :: st).

Lemma hook_guest_mem_dispatch_witness :
  exists map', hook_guest_mem one_map 3 4 0x2000 0x3000 11 12 13 = Done (0, map') /\
    handle_special_page_fault log_call log_call map' [] 0x2004 0x2004
      (mk_pf_error 0 1 0 0 0 0) = Done (0, [(12, 13)]).
Proof.
  destruct (hook_guest_mem_dispatch log_call log_call one_map [1] 3 4 0x2000 0x3000 11 12 13)
    as (map' & H1 & H2 & _); [apply wf_one_map|done|done|set_solver|lia| |].
  { intros r ->%list_elem_of_singleton. right. simpl. lia. }
  exists map'. split; [done|]. rewrite H2 by lia. reflexivity.
Defined.

End ShadowMap.
