(* ===== verification/IoMap.v ===== *)
(** The I/O port map: vmm_io.c and vmm_io.h.

    [struct vmm_io_map] is a doubly linked list of hooks sorted by port.  [Module IoMap]
    translates its operations on the pointers; the theorems show that the list is a
    finite map from port numbers to handlers: hooking is insertion of an absent key,
    unhooking is deletion and v3_get_io_hook is lookup. *)
From stdpp Require Import base tactics numbers list gmap sorting.
From S2P Require Import Prelude Chain.

Module IoMap.

(** ** Data *)

(** The callbacks are function pointers. *)
Record vmm_io_hook := mk_vmm_io_hook {
  port : Z;
  io_read : Z;
  io_write : Z;
  io_priv_data : Z;
  io_next : Z;
  io_prev : Z;
}.

#[export] Instance eta_vmm_io_hook : Eta vmm_io_hook := fun h =>
  mk_vmm_io_hook (port h) (io_read h) (io_write h) (io_priv_data h) (io_next h) (io_prev h).

(** [struct vmm_io_map] with the heap its pointers lead to. *)
Record vmm_io_map := mk_vmm_io_map {
  num_ports : Z;
  io_head : Z;
  io_hooks : gmap Z vmm_io_hook;
}.

#[export] Instance eta_vmm_io_map : Eta vmm_io_map := fun m =>
  mk_vmm_io_map (num_ports m) (io_head m) (io_hooks m).

(** ** Operations *)

Definition v3_init_vmm_io_map (io_map : vmm_io_map) : vmm_io_map :=
  io_map <| num_ports := 0 |> <| io_head := NULL |>.

(** The loop of add_io_hook: the last hook whose successor has a larger port. *)
Fixpoint add_io_hook_loop (fuel : nat) (h : gmap Z vmm_io_hook) (tmp_hook prt : Z)
    : outcome Z :=
  match fuel with
  | O => OutOfFuel
  | S fuel =>
    t ← deref h tmp_hook;
    if io_next t =? NULL then Done tmp_hook else
    n ← deref h (io_next t);
    if port n <=? prt then add_io_hook_loop fuel h (io_next t) prt else Done tmp_hook
  end.

Definition add_io_hook (io_map : vmm_io_map) (io_hook : Z) : outcome (Z * vmm_io_map) :=
  if io_head io_map =? NULL then
    Done (0, io_map <| io_head := io_hook |> <| num_ports := 1 |>)
  else
    hd ← deref (io_hooks io_map) (io_head io_map);
    hk ← deref (io_hooks io_map) io_hook;
    if port hd >? port hk then
      h ← modify (io_hooks io_map) io_hook (fun n => n <| io_next := io_head io_map |>);
      h ← modify h (io_head io_map) (fun n => n <| io_prev := io_hook |>);
      Done (0, io_map <| io_hooks := h |> <| io_head := io_hook |>
                      <| num_ports := u32 (num_ports io_map + 1) |>)
    else
      tmp_hook ← add_io_hook_loop (S (size (io_hooks io_map))) (io_hooks io_map)
                   (io_head io_map) (port hk);
      t ← deref (io_hooks io_map) tmp_hook;
      if port t =? port hk then Done (-1, io_map)
      else
        h ← modify (io_hooks io_map) io_hook (fun n => n <| io_prev := tmp_hook |>);
        h ← modify h io_hook (fun n => n <| io_next := io_next t |>);
        h ← (if io_next t =? NULL then Done h
             else modify h (io_next t) (fun n => n <| io_prev := io_hook |>));
        h ← modify h tmp_hook (fun n => n <| io_next := io_hook |>);
        Done (0, io_map <| io_hooks := h |> <| num_ports := u32 (num_ports io_map + 1) |>).

Definition remove_io_hook (io_map : vmm_io_map) (io_hook : Z) : outcome (Z * vmm_io_map) :=
  hk ← deref (io_hooks io_map) io_hook;
  let finish (io_map : vmm_io_map) :=
    hk ← deref (io_hooks io_map) io_hook;
    h ← (if io_next hk =? NULL then Done (io_hooks io_map)
         else modify (io_hooks io_map) (io_next hk) (fun n => n <| io_prev := io_prev hk |>));
    Done (0, io_map <| io_hooks := h |> <| num_ports := u32 (num_ports io_map - 1) |>) in
  if io_head io_map =? io_hook then finish (io_map <| io_head := io_next hk |>)
  else if io_prev hk =? NULL then Done (-1, io_map)
  else
    h ← modify (io_hooks io_map) (io_prev hk) (fun n => n <| io_next := io_next hk |>);
    finish (io_map <| io_hooks := h |>).

Fixpoint get_io_hook_loop (fuel : nat) (h : gmap Z vmm_io_hook) (tmp_hook prt : Z)
    : outcome Z :=
  match fuel with
  | O => OutOfFuel
  | S fuel =>
    if tmp_hook =? NULL then Done NULL else
    t ← deref h tmp_hook;
    if port t =? prt then Done tmp_hook else get_io_hook_loop fuel h (io_next t) prt
  end.

Definition v3_get_io_hook (io_map : vmm_io_map) (prt : Z) : outcome Z :=
  get_io_hook_loop (S (size (io_hooks io_map))) (io_hooks io_map) (io_head io_map) prt.

(** The handlers of a port hooked without callbacks: they transfer nothing. *)
Definition default_write (prt : Z) (src : list Z) (length : Z) (priv_data : Z) : Z := 0.

Definition default_read (prt : Z) (dst : list Z) (length : Z) (priv_data : Z)
    : Z * list Z := (0, dst).

Section hook.
(** The addresses of default_read and default_write. *)
Context (default_read_ptr default_write_ptr : Z).

(** The struct v3_hook_io_port fills in; the port is stored in an unsigned short. *)
Definition new_hook (prt read write priv_data : Z) : vmm_io_hook :=
  mk_vmm_io_hook (u16 prt)
    (if read =? NULL then default_read_ptr else read)
    (if write =? NULL then default_write_ptr else write) priv_data NULL NULL.

(** [io_hook] is the pointer V3_Malloc returns. *)
Definition v3_hook_io_port (io_map : vmm_io_map) (io_hook : Z)
    (prt read write priv_data : Z) : outcome (Z * vmm_io_map) :=
  if io_hook =? NULL then Undef else
  let h := <[io_hook := new_hook prt read write priv_data]> (io_hooks io_map) in
  '(ret, io_map) ← add_io_hook (io_map <| io_hooks := h |>) io_hook;
  if negb (ret =? 0) then
    h ← v3_free (io_hooks io_map) io_hook;
    Done (-1, io_map <| io_hooks := h |>)
  else Done (0, io_map).
End hook.

Definition v3_unhook_io_port (io_map : vmm_io_map) (prt : Z) : outcome (Z * vmm_io_map) :=
  hook ← v3_get_io_hook io_map prt;
  if hook =? NULL then Done (-1, io_map)
  else
    '(_, io_map) ← remove_io_hook io_map hook;
    Done (0, io_map).

(** ** The port map as a finite map *)

Record io_handler := mk_io_handler { hd_read : Z; hd_write : Z; hd_priv : Z }.

Definition handler (n : vmm_io_hook) : io_handler :=
  mk_io_handler (io_read n) (io_write n) (io_priv_data n).

Definition entry (n : vmm_io_hook) : Z * io_handler := (port n, handler n).

Definition entries (h : gmap Z vmm_io_hook) (l : list Z) : list (Z * io_handler) :=
  entry <$> nodes h l.

Definition abs (h : gmap Z vmm_io_hook) (l : list Z) : gmap Z io_handler :=
  list_to_map (entries h l).

(** The hooks are linked both ways and sorted by strictly increasing port. *)
Record wf (io_map : vmm_io_map) (l : list Z) : Prop := {
  wf_dchain : dchain io_next io_prev (io_hooks io_map) (io_head io_map) l;
  wf_sorted : StronglySorted Z.lt (entries (io_hooks io_map) l).*1;
  wf_count : num_ports io_map = u32 (Z.of_nat (length l));
}.

Lemma entries_cons h x l n : h !! x = Some n -> entries h (x :: l) = entry n :: entries h l.
Proof. intros Hx. unfold entries. by rewrite (nodes_cons _ _ _ _ Hx). Qed.

Lemma entries_app h l1 l2 : entries h (l1 ++ l2) = entries h l1 ++ entries h l2.
Proof. unfold entries. by rewrite nodes_app, fmap_app. Qed.

Lemma entries_insert_ne h l x n : x ∉ l -> entries (<[x := n]> h) l = entries h l.
Proof. intros Hx. unfold entries. by rewrite nodes_insert_ne. Qed.

(** Writing only the links of a hook does not change the entries. *)
Lemma entries_insert_same h l x n n' :
  h !! x = Some n -> entry n' = entry n -> entries (<[x := n']> h) l = entries h l.
Proof.
  intros Hx Hd. induction l as [|y l IH]; [done|]. unfold entries in *.
  rewrite !nodes_step. destruct (decide (x = y)) as [->|].
  - rewrite lookup_insert_eq, Hx, !fmap_cons. by rewrite IH, Hd.
  - rewrite lookup_insert_ne by done. destruct (h !! y); [|done].
    rewrite !fmap_cons. by rewrite IH.
Qed.

Lemma sorted_NoDup (l : list Z) : StronglySorted Z.lt l -> NoDup l.
Proof.
  induction 1 as [|x l _ IH Hx]; constructor; [|done].
  intros Hin. rewrite Forall_forall in Hx. apply Hx in Hin. lia.
Qed.

Lemma abs_lookup h l x n :
  StronglySorted Z.lt (entries h l).*1 -> x ∈ l -> h !! x = Some n ->
  abs h l !! port n = Some (handler n).
Proof.
  intros Hs Hx Hn. apply elem_of_list_to_map_1; [by apply sorted_NoDup|].
  apply (list_elem_of_fmap_2 entry). apply list_elem_of_omap. eauto.
Qed.

Lemma abs_lookup_None h l prt : abs h l !! prt = None <-> prt ∉ (entries h l).*1.
Proof. symmetry. apply not_elem_of_list_to_map. Qed.

(** ** Lookup *)

Lemma get_loop_spec fuel h p l prt :
  (length l < fuel)%nat -> chain io_next h p l ->
  exists q, get_io_hook_loop fuel h p prt = Done q /\
    ((q = NULL /\ prt ∉ (entries h l).*1) \/
     (exists n, q <> NULL /\ q ∈ l /\ h !! q = Some n /\ port n = prt)).
Proof.
  revert fuel p. induction l as [|x l IH]; intros fuel p Hf Hc.
  all: destruct fuel as [|fuel]; [simpl in Hf; lia|]; cbn [get_io_hook_loop].
  - apply chain_nil in Hc as ->. exists NULL. split; [done|]. left. split; [done|].
    apply not_elem_of_nil.
  - apply chain_cons in Hc as (-> & Hnull & Hx & n & Hn & Hc).
    rewrite (proj2 (Z.eqb_neq _ _) Hnull), (deref_some _ _ _ Hn), outcome_bind_done.
    rewrite (entries_cons _ _ _ _ Hn), fmap_cons. destruct (Z.eqb_spec (port n) prt) as [<-|Hne].
    + exists x. split; [done|]. right. exists n. split_and!; [done| |done|done]. set_solver.
    + destruct (IH fuel (io_next n)) as (q & -> & Hq); [simpl in Hf; lia|done|].
      exists q. split; [done|]. destruct Hq as [[-> ?]|(m & ? & ? & ? & ?)].
      * left. set_solver.
      * right. exists m. split_and!; try done. set_solver.
Qed.

Lemma get_io_hook_spec io_map l prt :
  wf io_map l ->
  exists q, v3_get_io_hook io_map prt = Done q /\
    ((q = NULL /\ abs (io_hooks io_map) l !! prt = None) \/
     (exists n, q <> NULL /\ q ∈ l /\ io_hooks io_map !! q = Some n /\ port n = prt /\
                abs (io_hooks io_map) l !! prt = Some (handler n))).
Proof.
  intros [Hd Hs _]. apply dchain_chain in Hd.
  destruct (get_loop_spec (S (size (io_hooks io_map))) (io_hooks io_map) (io_head io_map) l prt)
    as (q & Heq & Hq); [pose proof (chain_length _ _ _ _ Hd); lia|done|].
  exists q. split; [done|]. destruct Hq as [[-> ?]|(n & ? & ? & ? & <-)].
  - left. by rewrite abs_lookup_None.
  - right. exists n. split_and!; try done. by eapply abs_lookup.
Qed.

(** ** Insertion *)

Lemma add_loop_spec fuel h t rest prt :
  (length rest < fuel)%nat -> chain io_next h t (t :: rest) ->
  exists l1 u l2 un, t :: rest = l1 ++ u :: l2 /\ add_io_hook_loop fuel h t prt = Done u /\
    h !! u = Some un /\ (l1 = [] \/ port un <= prt) /\
    (forall y n, hd_error l2 = Some y -> h !! y = Some n -> prt < port n).
Proof.
  revert fuel t. induction rest as [|x rest IH]; intros fuel t Hf Hc.
  all: destruct fuel as [|fuel]; [simpl in Hf; lia|]; cbn [add_io_hook_loop].
  all: apply chain_cons in Hc as (_ & Hnull & Ht & tn & Htn & Hc).
  all: rewrite (deref_some _ _ _ Htn), outcome_bind_done.
  - apply chain_nil in Hc as ->. exists [], t, [], tn. split_and!; auto. done.
  - pose proof Hc as Hc'. apply chain_cons in Hc' as (Hx & Hxnull & _ & xn & Hxn & _).
    rewrite Hx, (proj2 (Z.eqb_neq _ _) Hxnull), (deref_some _ _ _ Hxn), outcome_bind_done.
    destruct (port xn <=? prt) eqn:E.
    + rewrite Hx in Hc.
      destruct (IH fuel x) as (l1 & u & l2 & un & Hl & Heq & Hun & Hle & Hgt);
        [simpl in Hf; lia|done|].
      exists (t :: l1), u, l2, un. split_and!; try done; [by rewrite Hl|]. right.
      destruct Hle as [->|]; [|done]. simplify_list_eq. lia.
    + exists [], t, (x :: rest), tn. split_and!; auto. intros y n [= <-] Hn.
      simplify_eq. lia.
Qed.

Lemma entries_ext h h' l :
  (forall y, y ∈ l -> entry <$> h' !! y = entry <$> h !! y) -> entries h' l = entries h l.
Proof.
  intros Hh. induction l as [|x l IH]; [done|]. unfold entries in *. rewrite !nodes_step.
  pose proof (Hh x ltac:(set_solver)) as Hx.
  destruct (h' !! x), (h !! x); [|discriminate Hx..|by rewrite IH by set_solver].
  apply (inj Some) in Hx. rewrite !fmap_cons. by rewrite Hx, IH by set_solver.
Qed.

Lemma entry_write (h : gmap Z vmm_io_hook) z n n' y :
  h !! z = Some n -> entry n' = entry n -> entry <$> <[z := n']> h !! y = entry <$> h !! y.
Proof.
  intros Hz He. destruct (decide (y = z)) as [->|].
  - rewrite lookup_insert_eq, Hz. simpl. by rewrite He.
  - by rewrite lookup_insert_ne.
Qed.

(** Linking [x] after [t], the way add_io_hook does it. *)
Lemma link_after {B} (k : gmap Z vmm_io_hook -> outcome B) h p l1 t tn l2 x xn :
  dchain io_next io_prev h p (l1 ++ t :: l2) -> h !! t = Some tn -> h !! x = Some xn ->
  x ∉ l1 ++ t :: l2 -> x <> NULL ->
  exists h',
    (h ← modify h x (fun n => n <| io_prev := t |>);
     h ← modify h x (fun n => n <| io_next := io_next tn |>);
     h ← (if io_next tn =? NULL then Done h
          else modify h (io_next tn) (fun n => n <| io_prev := x |>));
     h ← modify h t (fun n => n <| io_next := x |>); k h) = k h' /\
    dchain io_next io_prev h' p ((l1 ++ [t]) ++ x :: l2) /\
    (forall y, entry <$> h' !! y = entry <$> h !! y).
Proof.
  intros Hd Ht Hx Hin Hnull.
  destruct (dchain_split _ _ _ _ _ _ _ Hd) as (tn' & lst & Ht' & Htnull & Htl1 & Htl2 & Hn1 & Hn2
    & Hdis & H1 & H2). rewrite Ht in Ht'. injection Ht' as <-.
  assert (x ∉ l1 /\ x <> t /\ x ∉ l2) as (Hxl1 & Hxt & Hxl2) by set_solver.
  set (xn' := xn <| io_prev := t |> <| io_next := io_next tn |>).
  rewrite (modify_some _ _ _ _ Hx), outcome_bind_done.
  erewrite modify_some, outcome_bind_done by apply lookup_insert_eq.
  rewrite insert_insert_eq. change (_ <| io_next := io_next tn |>) with xn'.
  set (tn' := tn <| io_next := x |>).
  assert (p = default x (hd_error (l1 ++ [t]))) as ->.
  { destruct Hd as [[? Hd] _]. apply dseg_first in Hd. by destruct l1. }
  apply dseg_first in H2 as Hnx.
  assert (dchain io_next io_prev h (default x (hd_error (l1 ++ [t]))) ((l1 ++ [t]) ++ l2)) as Hd'.
  { rewrite <- app_assoc. simpl. done. }
  destruct l2 as [|y l2].
  - simpl in Hnx. rewrite Hnx. simpl. eexists. split.
    { erewrite modify_some by (rewrite lookup_insert_ne by done; exact Ht). reflexivity. }
    split.
    + eapply (dchain_insert _ _ h); [done|set_solver|done| | | | |].
      * by rewrite lookup_insert_ne, lookup_insert_eq.
      * by rewrite last_snoc.
      * done.
      * eapply relinked_snoc; [done| |done|apply lookup_insert_eq|done|done].
        intros z Hz. by rewrite !lookup_insert_ne by set_solver.
      * apply relinked_nil.
    + intros z. rewrite (entry_write _ _ tn), (entry_write _ _ xn); try done.
      by rewrite lookup_insert_ne.
  - destruct H2 as (Hy & Hynull & yn & Hyn & Hyp & Hl2). rewrite Hy.
    rewrite (proj2 (Z.eqb_neq _ _) Hynull). eexists. split.
    { erewrite modify_some, outcome_bind_done
        by (rewrite lookup_insert_ne by set_solver; exact Hyn).
      erewrite modify_some, outcome_bind_done
        by (rewrite !lookup_insert_ne by set_solver; exact Ht). reflexivity. }
    split.
    + apply NoDup_cons in Hn2 as [Hyl2 _].
      eapply (dchain_insert _ _ h); [done|set_solver|done| | | | |].
      * by rewrite 2!lookup_insert_ne, lookup_insert_eq by set_solver.
      * by rewrite last_snoc.
      * done.
      * eapply relinked_snoc; [done| |done|apply lookup_insert_eq|done|done].
        intros z Hz. by rewrite !lookup_insert_ne by set_solver.
      * eapply relinked_cons; [done| |done
          |by rewrite lookup_insert_ne, lookup_insert_eq by set_solver|done|done].
        intros z Hz. by rewrite !lookup_insert_ne by set_solver.
    + intros z. rewrite (entry_write _ _ tn), (entry_write _ _ yn), (entry_write _ _ xn);
        try done; by rewrite !lookup_insert_ne by set_solver.
Qed.

Lemma sorted_insert (E1 E2 : list (Z * io_handler)) e :
  StronglySorted Z.lt (E1 ++ E2).*1 ->
  (forall k, k ∈ E1.*1 -> k < e.1) -> (forall k, k ∈ E2.*1 -> e.1 < k) ->
  StronglySorted Z.lt (E1 ++ e :: E2).*1 /\
  list_to_map (M := gmap Z io_handler) (E1 ++ e :: E2) =
    <[e.1 := e.2]> (list_to_map (E1 ++ E2)).
Proof.
  intros Hs H1 H2. rewrite fmap_app in Hs. apply StronglySorted_app in Hs as (H12 & Hs1 & Hs2).
  assert (StronglySorted Z.lt (E1 ++ e :: E2).*1) as Hs.
  { rewrite fmap_app, fmap_cons. apply StronglySorted_app. split_and!; [|done|].
    - intros a b Ha Hb. apply elem_of_cons in Hb as [->|Hb]; [by apply H1|by apply H12].
    - apply StronglySorted_cons. split; [|done]. rewrite Forall_forall. exact H2. }
  split; [done|].
  rewrite (list_to_map_proper (E1 ++ e :: E2) (e :: E1 ++ E2));
    [by destruct e|by apply sorted_NoDup|by rewrite Permutation_middle].
Qed.

(** Once the new hook is linked at the place its port belongs, the list stands for the
    map with the handler added. *)
Lemma wf_add io_map l1 l2 x xn h' p' :
  wf io_map (l1 ++ l2) -> io_hooks io_map !! x = Some xn ->
  (forall y, entry <$> h' !! y = entry <$> io_hooks io_map !! y) ->
  dchain io_next io_prev h' p' (l1 ++ x :: l2) ->
  (forall k, k ∈ (entries (io_hooks io_map) l1).*1 -> k < port xn) ->
  (forall k, k ∈ (entries (io_hooks io_map) l2).*1 -> port xn < k) ->
  wf (mk_vmm_io_map (u32 (num_ports io_map + 1)) p' h') (l1 ++ x :: l2) /\
  abs h' (l1 ++ x :: l2) = <[port xn := handler xn]> (abs (io_hooks io_map) (l1 ++ l2)).
Proof.
  intros [_ Hs Hn] Hx He Hd H1 H2. rewrite entries_app in Hs.
  destruct (sorted_insert _ _ (entry xn) Hs H1 H2) as [Hs' Hmap].
  assert (entries h' (l1 ++ x :: l2) =
    entries (io_hooks io_map) l1 ++ entry xn :: entries (io_hooks io_map) l2) as Hent.
  { rewrite (entries_ext (io_hooks io_map) h') by (intros; apply He).
    by rewrite entries_app, (entries_cons _ _ _ _ Hx). }
  split; [split; simpl; [done|by rewrite Hent|]|].
  - rewrite Hn, !length_app. simpl length. unfold wrap. rewrite Zplus_mod_idemp_l.
    f_equal. lia.
  - unfold abs. rewrite Hent, Hmap, entries_app. done.
Qed.

(** The keys around the place the loop of add_io_hook finds. *)
Lemma sorted_keys_around h l1 u un l2 prt :
  StronglySorted Z.lt (entries h (l1 ++ u :: l2)).*1 -> h !! u = Some un ->
  (forall y, y ∈ l2 -> is_Some (h !! y)) -> port un < prt ->
  (forall y n, hd_error l2 = Some y -> h !! y = Some n -> prt < port n) ->
  (forall k, k ∈ (entries h (l1 ++ [u])).*1 -> k < prt) /\
  (forall k, k ∈ (entries h l2).*1 -> prt < k).
Proof.
  intros Hs Hu Hl2 Hlt Hhd. rewrite entries_app, (entries_cons _ _ _ _ Hu), fmap_app, fmap_cons in Hs.
  apply StronglySorted_app in Hs as (H12 & _ & Hs2). split.
  - intros k. rewrite entries_app, (entries_cons _ _ _ _ Hu), fmap_app, fmap_cons.
    intros [Hk|Hk]%elem_of_app.
    + specialize (H12 k (port un) Hk ltac:(set_solver)). lia.
    + change (entries h []) with (@nil (Z * io_handler)) in Hk. simpl in Hk. set_solver by lia.
  - destruct l2 as [|y l2]; [intros k Hk; by apply not_elem_of_nil in Hk|].
    destruct (Hl2 y) as [yn Hy]; [set_solver|]. specialize (Hhd y yn eq_refl Hy).
    rewrite (entries_cons _ _ _ _ Hy), fmap_cons in *.
    apply StronglySorted_cons in Hs2 as [_ Hs2]. apply StronglySorted_cons in Hs2 as [Hf _].
    rewrite Forall_forall in Hf. intros k [->|Hk]%elem_of_cons; [done|].
    apply Hf in Hk. simpl in Hk. lia.
Qed.

(** The outcome of a successful insertion of [x]. *)
Definition added (io_map : vmm_io_map) (l : list Z) (x : Z) (xn : vmm_io_hook)
    (res : outcome (Z * vmm_io_map)) : Prop :=
  exists io_map' l', res = Done (0, io_map') /\ wf io_map' l' /\ l' ≡ₚ x :: l /\
    abs (io_hooks io_map') l' = <[port xn := handler xn]> (abs (io_hooks io_map) l).

Section add.
Context (io_map : vmm_io_map) (l : list Z) (x : Z) (xn : vmm_io_hook).
Context (Hwf : wf io_map l) (Hx : io_hooks io_map !! x = Some xn).
Context (Hnx : io_next xn = NULL) (Hpx : io_prev xn = NULL).
Context (Hin : x ∉ l) (Hnull : x <> NULL).

Lemma add_empty_spec :
  l = [] -> added io_map l x xn (Done (0, io_map <| io_head := x |> <| num_ports := 1 |>)).
Proof.
  intros ->. do 2 eexists. split; [reflexivity|].
  destruct (wf_add io_map [] [] x xn (io_hooks io_map) x) as [Hwf' Habs]; [done..| | | |].
  - eapply (dchain_insert _ _ (io_hooks io_map) _ _ []); [apply Hwf|set_solver|done..| |];
      apply relinked_nil.
  - intros k Hk. by apply not_elem_of_nil in Hk.
  - intros k Hk. by apply not_elem_of_nil in Hk.
  - split_and!; [|done|exact Habs]. destruct Hwf' as [? ? Hcount]. by split.
Qed.

Lemma add_head_spec c rest cn :
  l = c :: rest -> io_head io_map = c -> io_hooks io_map !! c = Some cn ->
  port xn < port cn ->
  abs (io_hooks io_map) l !! port xn = None /\
  added io_map l x xn
    (h ← modify (io_hooks io_map) x (fun n => n <| io_next := c |>);
     h ← modify h c (fun n => n <| io_prev := x |>);
     Done (0, io_map <| io_hooks := h |> <| io_head := x |>
                     <| num_ports := u32 (num_ports io_map + 1) |>)).
Proof.
  intros -> Hhd Hcn Hlt.
  assert (c ∉ rest) as Hcr by (destruct (wf_dchain _ _ Hwf) as [_ [? _]%NoDup_cons]; done).
  assert (forall k, k ∈ (entries (io_hooks io_map) (c :: rest)).*1 -> port xn < k) as Hk.
  { pose proof (wf_sorted _ _ Hwf) as Hs. rewrite (entries_cons _ _ _ _ Hcn), fmap_cons in *.
    apply StronglySorted_cons in Hs as [Hf _]. rewrite Forall_forall in Hf.
    intros k [->|Hk]%elem_of_cons; [simpl; lia|]. apply Hf in Hk. simpl in Hk. lia. }
  split; [apply abs_lookup_None; intros Hp; apply Hk in Hp; lia|].
  rewrite (modify_some _ _ _ _ Hx), outcome_bind_done.
  erewrite modify_some, outcome_bind_done by (rewrite lookup_insert_ne by set_solver; exact Hcn).
  do 2 eexists. split; [reflexivity|].
  destruct (wf_add io_map [] (c :: rest) x xn
    (<[c := cn <| io_prev := x |>]> (<[x := xn <| io_next := c |>]> (io_hooks io_map))) x)
    as [Hwf' Habs]; [done|done| | | |done|].
  - intros y. rewrite (entry_write _ _ cn), (entry_write _ _ xn); try done.
    by rewrite lookup_insert_ne by set_solver.
  - eapply (dchain_insert _ _ (io_hooks io_map) _ _ []);
      [apply Hwf|done|done|by rewrite lookup_insert_ne, lookup_insert_eq by set_solver
      |done|done|apply relinked_nil|].
    eapply relinked_cons; [done| |done|apply lookup_insert_eq|done|done].
    intros y Hy. by rewrite !lookup_insert_ne by set_solver.
  - intros k Hk'. by apply not_elem_of_nil in Hk'.
  - split_and!; [exact Hwf'|done|exact Habs].
Qed.

Lemma add_after_spec l1 u un l2 :
  l = l1 ++ u :: l2 -> io_hooks io_map !! u = Some un -> port un < port xn ->
  (forall y n, hd_error l2 = Some y -> io_hooks io_map !! y = Some n -> port xn < port n) ->
  abs (io_hooks io_map) l !! port xn = None /\
  added io_map l x xn
    (h ← modify (io_hooks io_map) x (fun n => n <| io_prev := u |>);
     h ← modify h x (fun n => n <| io_next := io_next un |>);
     h ← (if io_next un =? NULL then Done h
          else modify h (io_next un) (fun n => n <| io_prev := x |>));
     h ← modify h u (fun n => n <| io_next := x |>);
     Done (0, io_map <| io_hooks := h |> <| num_ports := u32 (num_ports io_map + 1) |>)).
Proof.
  intros -> Hu Hlt Hgt. pose proof (wf_dchain _ _ Hwf) as Hd.
  destruct (sorted_keys_around (io_hooks io_map) l1 u un l2 (port xn)) as [Hk1 Hk2];
    [apply Hwf|done| |lia|done|].
  { intros y Hy. eapply lseg_lookup; [apply (dchain_chain _ _ _ _ _ Hd)|]. set_solver. }
  assert (l1 ++ u :: l2 = (l1 ++ [u]) ++ l2) as Hsplit by (by rewrite <- app_assoc).
  split.
  { apply abs_lookup_None. rewrite Hsplit, entries_app, fmap_app.
    intros [Hp|Hp]%elem_of_app; [apply Hk1 in Hp|apply Hk2 in Hp]; lia. }
  destruct (link_after (fun h => Done (0, io_map <| io_hooks := h |>
      <| num_ports := u32 (num_ports io_map + 1) |>)) (io_hooks io_map) (io_head io_map)
      l1 u un l2 x xn) as (h' & Hcode & Hd' & He); [done..|].
  exists (mk_vmm_io_map (u32 (num_ports io_map + 1)) (io_head io_map) h'), ((l1 ++ [u]) ++ x :: l2).
  destruct (wf_add io_map (l1 ++ [u]) l2 x xn h' (io_head io_map)) as [Hwf' Habs];
    [by rewrite <- Hsplit|done..|].
  split_and!; [exact Hcode|done| |].
  - by rewrite <- Permutation_middle, Hsplit.
  - by rewrite Hsplit.
Qed.

Lemma add_io_hook_spec :
  match abs (io_hooks io_map) l !! port xn with
  | Some _ => add_io_hook io_map x = Done (-1, io_map)
  | None => added io_map l x xn (add_io_hook io_map x)
  end.
Proof.
  unfold add_io_hook. pose proof (dchain_chain _ _ _ _ _ (wf_dchain _ _ Hwf)) as Hc.
  pose proof (chain_length _ _ _ _ Hc) as Hlen.
  assert (l = [] \/ exists c rest, l = c :: rest) as [El|(c & rest & El)]
    by (destruct l; eauto); rewrite El in Hc, Hlen.
  { apply chain_nil in Hc as ->. simpl. pose proof (add_empty_spec El).
    destruct (abs _ _ !! _) eqn:E; [|done]. by rewrite El in E. }
  pose proof Hc as (Hhd & Hcnull & Hcr & cn & Hcn & _)%chain_cons. rewrite Hhd in *.
  rewrite (proj2 (Z.eqb_neq _ _) Hcnull), (deref_some _ _ _ Hcn), (deref_some _ _ _ Hx),
    !outcome_bind_done.
  destruct (port cn >? port xn) eqn:Egt.
  { destruct (add_head_spec c rest cn) as [-> ?]; [done..|lia|done]. }
  destruct (add_loop_spec (S (size (io_hooks io_map))) (io_hooks io_map) c rest (port xn))
    as (l1 & u & l2 & un & Hl & -> & Hu & Hle & Hgt); [simpl in Hlen; lia|done|].
  rewrite outcome_bind_done, (deref_some _ _ _ Hu), outcome_bind_done.
  assert (port un <= port xn) as Hle'.
  { destruct Hle as [->|]; [|done]. simplify_list_eq. lia. }
  destruct (Z.eqb_spec (port un) (port xn)) as [<-|Hne].
  - rewrite (abs_lookup _ _ u un); [done|apply Hwf|rewrite El, Hl; set_solver|done].
  - destruct (add_after_spec l1 u un l2) as [-> ?]; [congruence|done|lia|done|done].
Qed.
End add.

(** ** Removal *)

Lemma abs_remove h l1 x xn l2 :
  StronglySorted Z.lt (entries h (l1 ++ x :: l2)).*1 -> h !! x = Some xn ->
  StronglySorted Z.lt (entries h (l1 ++ l2)).*1 /\
  abs h (l1 ++ l2) = delete (port xn) (abs h (l1 ++ x :: l2)).
Proof.
  intros Hs Hx. pose proof (sorted_NoDup _ Hs) as Hnd. unfold abs.
  rewrite !entries_app, (entries_cons _ _ _ _ Hx) in *. split.
  - rewrite fmap_app, fmap_cons in Hs. apply StronglySorted_app in Hs as (H12 & ? & Hs2).
    apply StronglySorted_cons in Hs2 as [_ ?]. rewrite fmap_app. apply StronglySorted_app.
    split_and!; [|done..]. intros a b Ha Hb. apply H12; set_solver.
  - rewrite (list_to_map_proper (_ ++ entry xn :: _) (entry xn :: entries h l1 ++ entries h l2));
      [|done|by rewrite Permutation_middle].
    rewrite fmap_app, fmap_cons in Hnd. simpl. rewrite delete_insert_id; [done|].
    apply not_elem_of_list_to_map. rewrite fmap_app.
    rewrite <- Permutation_middle in Hnd. by apply NoDup_cons in Hnd as [? _].
Qed.

(** The back link of the hook after the removed one. *)
Lemma unlink_back {B} (k : gmap Z vmm_io_hook -> outcome B) h h0 l2 pv nx lst prev :
  dseg io_next io_prev h prev nx l2 NULL lst -> NoDup l2 ->
  (forall y, y ∈ l2 -> h0 !! y = h !! y) ->
  exists h', (h ← (if nx =? NULL then Done h0 else modify h0 nx (fun n => n <| io_prev := pv |>));
              k h) = k h' /\
    relinked io_next io_prev h h' l2 (Some pv) None /\
    (forall y, y ∉ l2 -> h' !! y = h0 !! y) /\
    (forall y, entry <$> h' !! y = entry <$> h0 !! y).
Proof.
  intros Hs Hnd Heq. destruct l2 as [|y l2].
  - destruct Hs as [-> _]. exists h0. split_and!; try done. apply relinked_nil.
  - destruct Hs as (-> & Hnull & yn & Hyn & _ & _). apply NoDup_cons in Hnd as [Hy _].
    rewrite (proj2 (Z.eqb_neq _ _) Hnull). eexists.
    assert (h0 !! y = Some yn) as Hyn0 by (rewrite Heq; [done|set_solver]).
    split; [by rewrite (modify_some _ _ _ _ Hyn0)|]. split_and!.
    + eapply relinked_cons; [done| |done|apply lookup_insert_eq|done|done].
      intros z Hz. rewrite lookup_insert_ne by set_solver. apply Heq. set_solver.
    + intros z Hz. rewrite lookup_insert_ne by set_solver. done.
    + intros z. by rewrite (entry_write _ _ yn).
Qed.

Lemma wf_remove io_map l1 x xn l2 p h' :
  wf io_map (l1 ++ x :: l2) -> io_hooks io_map !! x = Some xn ->
  dchain io_next io_prev h' p (l1 ++ l2) ->
  (forall y, entry <$> h' !! y = entry <$> io_hooks io_map !! y) ->
  wf (mk_vmm_io_map (u32 (num_ports io_map - 1)) p h') (l1 ++ l2) /\
  abs h' (l1 ++ l2) = delete (port xn) (abs (io_hooks io_map) (l1 ++ x :: l2)).
Proof.
  intros [_ Hs Hn] Hx Hd He. destruct (abs_remove _ _ _ _ _ Hs Hx) as [Hs' Habs].
  unfold abs in *.
  assert (entries h' (l1 ++ l2) = entries (io_hooks io_map) (l1 ++ l2)) as Hent
    by (apply entries_ext; auto).
  split; [split; simpl; [done|by rewrite Hent|]|by rewrite Hent].
  rewrite Hn, !length_app. simpl length. unfold wrap. rewrite Zminus_mod_idemp_l. f_equal. lia.
Qed.

Lemma remove_io_hook_spec io_map l1 x xn l2 :
  wf io_map (l1 ++ x :: l2) -> io_hooks io_map !! x = Some xn ->
  exists io_map', remove_io_hook io_map x = Done (0, io_map') /\ wf io_map' (l1 ++ l2) /\
    abs (io_hooks io_map') (l1 ++ l2) = delete (port xn) (abs (io_hooks io_map) (l1 ++ x :: l2)).
Proof.
  intros Hwf Hx. pose proof (wf_dchain _ _ Hwf) as Hd.
  destruct (dchain_split _ _ _ _ _ _ _ Hd) as (xn' & lst & Hx' & Hnull & Hxl1 & Hxl2 & Hn1 & Hn2
    & Hdis & H1 & H2). rewrite Hx in Hx'. injection Hx' as <-.
  unfold remove_io_hook. rewrite (deref_some _ _ _ Hx), outcome_bind_done.
  pose proof (dseg_first _ _ _ _ _ _ _ _ H1) as Hhd.
  pose proof (dseg_first _ _ _ _ _ _ _ _ H2) as Hnx.
  pose proof (dseg_last _ _ _ _ _ _ _ _ H1) as Hpv.
  destruct l1 as [|t l1 _] using rev_ind.
  - simpl in Hhd, Hpv. rewrite Hhd, Z.eqb_refl. simpl io_hooks.
    rewrite (deref_some _ _ _ Hx), outcome_bind_done.
    destruct (unlink_back (fun h => Done (0, io_map <| io_head := io_next xn |>
        <| io_hooks := h |> <| num_ports := u32 (num_ports io_map - 1) |>))
        _ (io_hooks io_map) l2 (io_prev xn) _ _ _ H2 Hn2) as (h' & Hcode & Hrel & _ & He); [done|].
    eexists. split; [exact Hcode|]. apply (wf_remove io_map [] x); [done..| |done].
    rewrite Hnx. eapply (dchain_remove _ _ _ h' _ []); [exact Hd|apply relinked_nil|].
    by rewrite <- Hpv.
  - rewrite last_snoc in Hpv. simpl in Hpv.
    destruct (dchain_split io_next io_prev (io_hooks io_map) (io_head io_map) l1 t (x :: l2))
      as (tn & _ & Ht & Htnull & Htl1 & _); [by rewrite <- app_assoc in Hd|].
    assert (io_head io_map <> x /\ x <> t) as [Hne Hxt].
    { rewrite Hhd. destruct l1; set_solver. }
    rewrite (proj2 (Z.eqb_neq _ _) Hne), Hpv, (proj2 (Z.eqb_neq _ _) Htnull).
    rewrite (modify_some _ _ _ _ Ht), outcome_bind_done. simpl io_hooks.
    erewrite deref_some, outcome_bind_done by (rewrite lookup_insert_ne by done; exact Hx).
    set (h1 := <[t := tn <| io_next := io_next xn |>]> (io_hooks io_map)).
    destruct (unlink_back (fun h => Done (0, io_map <| io_hooks := h1 |>
        <| io_hooks := h |> <| num_ports := u32 (num_ports io_map - 1) |>))
        _ h1 l2 (io_prev xn) _ _ _ H2 Hn2) as (h' & Hcode & Hrel & Hout & He).
    { intros y Hy. unfold h1. rewrite lookup_insert_ne; [done|]. set_solver. }
    eexists. split; [exact Hcode|]. apply (wf_remove io_map (l1 ++ [t]) x); [done..| |].
    + simpl io_head. replace (io_head io_map) with
        (default (default NULL (hd_error l2)) (hd_error (l1 ++ [t]))) by (rewrite Hhd; by destruct l1).
      eapply dchain_remove; [exact Hd| |by rewrite last_snoc, <- Hpv].
      eapply relinked_snoc; [done| |exact Ht
        |by rewrite Hout by set_solver; apply lookup_insert_eq|done|done].
      intros y Hy. rewrite Hout by set_solver. unfold h1. by rewrite lookup_insert_ne by set_solver.
    + intros y. rewrite He. unfold h1. by rewrite (entry_write _ _ tn).
Qed.

(** Hooking a port inserts its handler, or restores the map when the port is taken. *)
Lemma hook_io_port_spec dr dw io_map l x prt read write priv :
  wf io_map l -> io_hooks io_map !! x = None -> x <> NULL ->
  let m := abs (io_hooks io_map) l in
  let hd := handler (new_hook dr dw prt read write priv) in
  match m !! u16 prt with
  | Some _ => v3_hook_io_port dr dw io_map x prt read write priv = Done (-1, io_map)
  | None => exists io_map' l',
      v3_hook_io_port dr dw io_map x prt read write priv = Done (0, io_map') /\
      wf io_map' l' /\ l' ≡ₚ x :: l /\ abs (io_hooks io_map') l' = <[u16 prt := hd]> m
  end.
Proof.
  intros Hwf Hx Hnull m hd. unfold v3_hook_io_port. rewrite (proj2 (Z.eqb_neq _ _) Hnull).
  set (xn := new_hook dr dw prt read write priv).
  assert (x ∉ l) as Hin.
  { intros Hin. destruct (lseg_lookup io_next (io_hooks io_map) (io_head io_map) l NULL x)
      as [_ [? ?]]; [apply (dchain_chain _ _ _ _ _ (wf_dchain _ _ Hwf))|done|congruence]. }
  set (io0 := io_map <| io_hooks := <[x := xn]> (io_hooks io_map) |>).
  assert (abs (io_hooks io0) l = m) as Hm by (unfold abs, io0; simpl; by rewrite entries_insert_ne).
  assert (wf io0 l) as Hwf0.
  { destruct Hwf as [[[lst Hd] Hnd] Hs Hn]. split; simpl; [|by rewrite entries_insert_ne|done].
    split; [|done]. exists lst. by apply dseg_insert_ne. }
  pose proof (add_io_hook_spec io0 l x xn Hwf0) as Hadd. rewrite Hm in Hadd.
  change (port xn) with (u16 prt) in Hadd.
  specialize (Hadd (lookup_insert_eq _ _ _) eq_refl eq_refl Hin Hnull).
  destruct (m !! u16 prt).
  - rewrite Hadd, outcome_bind_done. simpl. unfold v3_free.
    erewrite deref_some, outcome_bind_done by apply lookup_insert_eq. simpl.
    unfold io0, update_field; simpl. rewrite delete_insert_id by done. by destruct io_map.
  - destruct Hadd as (io_map' & l' & -> & ? & ? & Habs). rewrite Hm in Habs.
    rewrite outcome_bind_done. simpl. eauto 6.
Qed.

(** A map with the hook of port 0x70 at address 1. *)
Definition nvram_hook : vmm_io_hook := mk_vmm_io_hook 0x70 11 12 13 NULL NULL.
Definition io_map_70 : vmm_io_map := mk_vmm_io_map 1 1 {[ 1 := nvram_hook ]}.

Lemma wf_io_map_70 : wf io_map_70 [1].
Proof.
  split; [|repeat constructor|reflexivity]. split; [|apply NoDup_singleton].
  exists 1. split_and!; [done..|]. exists nvram_hook. split_and!; [reflexivity|done..].
Qed.

(** Unhooking deletes the handler of the port. *)
Lemma unhook_io_port_spec io_map l prt :
  wf io_map l ->
  let m := abs (io_hooks io_map) l in
  match m !! prt with
  | None => v3_unhook_io_port io_map prt = Done (-1, io_map)
  | Some _ => exists io_map' l', v3_unhook_io_port io_map prt = Done (0, io_map') /\
      wf io_map' l' /\ abs (io_hooks io_map') l' = delete prt m
  end.
Proof.
  intros Hwf. cbv zeta. unfold v3_unhook_io_port.
  destruct (get_io_hook_spec io_map l prt Hwf) as (q & -> & [[-> ->]|(n & Hq & Hin & Hn & <- & ->)]);
    rewrite outcome_bind_done; [done|].
  rewrite (proj2 (Z.eqb_neq _ _) Hq). apply list_elem_of_split in Hin as (l1 & l2 & Hl).
  rewrite Hl in *.
  destruct (remove_io_hook_spec io_map l1 q n l2 Hwf Hn) as (io_map' & -> & ? & ?). eauto.
Qed.

(** C40. The port map implements a finite map.  On a well-formed map, v3_get_io_hook is
    lookup; v3_hook_io_port with a fresh hook inserts the handler of a port that has none
    and keeps the map well-formed, or fails with -1 and restores the map when the port is
    taken; v3_unhook_io_port deletes the handler of a hooked port and nothing else, and fails
    on any other port. *)
Theorem io_map_refines dr dw io_map l x prt read write priv :
  wf io_map l -> io_hooks io_map !! x = None -> x <> NULL ->
  let m := abs (io_hooks io_map) l in
  (exists q, v3_get_io_hook io_map prt = Done q /\
     match m !! prt with
     | None => q = NULL
     | Some hd => exists n, io_hooks io_map !! q = Some n /\ port n = prt /\ handler n = hd
     end) /\
  match m !! u16 prt with
  | Some _ => v3_hook_io_port dr dw io_map x prt read write priv = Done (-1, io_map)
  | None => exists io_map' l',
      v3_hook_io_port dr dw io_map x prt read write priv = Done (0, io_map') /\ wf io_map' l' /\
      abs (io_hooks io_map') l' = <[u16 prt := handler (new_hook dr dw prt read write priv)]> m
  end /\
  match m !! prt with
  | None => v3_unhook_io_port io_map prt = Done (-1, io_map)
  | Some _ => exists io_map' l', v3_unhook_io_port io_map prt = Done (0, io_map') /\
      wf io_map' l' /\ abs (io_hooks io_map') l' = delete prt m
  end.
Proof.
  intros Hwf Hx Hn m. split_and!.
  - destruct (get_io_hook_spec io_map l prt Hwf) as (q & Hq & [[Hqn Hm]|(n & ? & ? & ? & ? & Hm)]);
      exists q; (split; [done|]); fold m in Hm; rewrite Hm; naive_solver.
  - pose proof (hook_io_port_spec dr dw io_map l x prt read write priv Hwf Hx Hn) as H. cbv zeta in H.
    fold m in H. destruct (m !! u16 prt); [done|]. destruct H as (io' & l' & ? & ? & _ & ?). by exists io', l'.
  - by apply unhook_io_port_spec.
Qed.

Lemma io_map_refines_witness :
  v3_get_io_hook io_map_70 0x71 = Done NULL /\
  exists io_map' l', v3_hook_io_port 1 2 io_map_70 2 0x71 21 22 23 = Done (0, io_map') /\ wf io_map' l' /\
    abs (io_hooks io_map') l' !! 0x71 = Some (mk_io_handler 21 22 23).
Proof.
  destruct (io_map_refines 1 2 io_map_70 [1] 2 0x71 21 22 23 wf_io_map_70 eq_refl ltac:(done))
    as ((q & Hq & Hn) & (io' & l' & H1 & H2 & H3) & _).
  split; [by rewrite Hq; cbn in Hn; rewrite Hn|]. exists io', l'. split_and!; [done..|]. by rewrite H3.
Defined.

End IoMap.
