(* ===== verification/Host.v ===== *)
(** The services of the host operating system: [struct v3_os_hooks] of vmm.h.

    The hooks are function pointers of the host that embeds the VMM.  The address
    conversions are arguments of the model ([OsHooks]), with what the page table code
    relies on as laws ([OsHooksOk]); the results of the page allocator are an
    arbitrary supply of pages, so that a theorem covers every allocator. *)
From stdpp Require Import base tactics numbers list.
From S2P Require Import Prelude.

(** The two address conversions; a hook the host does not provide is [None]. *)
Class OsHooks := {
  paddr_to_vaddr : option (Z -> Z);
  vaddr_to_paddr : option (Z -> Z);
}.

Definition V3_VAddr `{OsHooks} (addr : Z) : Z :=
  match paddr_to_vaddr with Some f => f addr | None => NULL end.

Definition V3_PAddr `{OsHooks} (addr : Z) : Z :=
  match vaddr_to_paddr with Some f => f addr | None => NULL end.

Abbreviation PAGE_SIZE := 4096.

Definition page_aligned (a : Z) : Prop := a mod PAGE_SIZE = 0.

(** The host maps each physical page at consecutive virtual addresses, distinct
    physical addresses at distinct virtual ones, and converts back. *)
Class OsHooksOk `{OsHooks} : Prop := {
  os_back p : V3_PAddr (V3_VAddr p) = p;
  os_linear p k : page_aligned p -> 0 <= k < PAGE_SIZE -> V3_VAddr (p + k) = V3_VAddr p + k;
}.

(** A host whose physical memory is mapped at a fixed offset. *)
Definition direct_map (off : Z) : OsHooks :=
  {| paddr_to_vaddr := Some (fun p => p + off); vaddr_to_paddr := Some (fun v => v - off) |}.

Lemma direct_map_ok off : @OsHooksOk (direct_map off).
Proof. split; intros; cbn; lia. Qed.

(** The page allocator: the results of the calls of allocate_pages(1) to come (NULL
    when it fails) and the pages given to free_page. *)
Record page_pool := mk_page_pool {
  supply : list Z;
  freed : list Z;
}.

#[export] Instance eta_page_pool : Eta page_pool := fun p => mk_page_pool (supply p) (freed p).

Definition V3_AllocPages (p : page_pool) : Z * page_pool :=
  match supply p with
  | [] => (NULL, p)
  | a :: rest => (a, p <| supply := rest |>)
  end.

Definition V3_FreePage (p : page_pool) (page : Z) : page_pool :=
  p <| freed := page :: freed p |>.

Section aligned.
Context {H : OsHooks} {Hok : OsHooksOk}.

(** Distinct pages do not overlap in the host's virtual address space. *)
Lemma pages_disjoint p q i j :
  page_aligned p -> page_aligned q -> p <> q ->
  0 <= i < PAGE_SIZE -> 0 <= j < PAGE_SIZE -> V3_VAddr p + i <> V3_VAddr q + j.
Proof.
  intros Hp Hq Hpq Hi Hj Heq. rewrite <- !os_linear in Heq by done.
  apply (f_equal V3_PAddr) in Heq. rewrite !os_back in Heq.
  unfold page_aligned in *. apply Hpq.
  pose proof (Z.div_mod p PAGE_SIZE). pose proof (Z.div_mod q PAGE_SIZE). lia.
Qed.

Lemma pages_apart p q :
  page_aligned p -> page_aligned q -> p <> q ->
  V3_VAddr p + PAGE_SIZE <= V3_VAddr q \/ V3_VAddr q + PAGE_SIZE <= V3_VAddr p.
Proof.
  intros Hp Hq Hpq.
  destruct (Z.le_gt_cases (V3_VAddr p) (V3_VAddr q)).
  - left. destruct (Z.le_gt_cases (V3_VAddr p + PAGE_SIZE) (V3_VAddr q)); [done|].
    exfalso. apply (pages_disjoint p q (V3_VAddr q - V3_VAddr p) 0); done || lia.
  - right. destruct (Z.le_gt_cases (V3_VAddr q + PAGE_SIZE) (V3_VAddr p)); [done|].
    exfalso. apply (pages_disjoint p q 0 (V3_VAddr p - V3_VAddr q)); done || lia.
Qed.
End aligned.
