(* ===== verification/Paging.v ===== *)
(** Page table structures and walks: vmm_paging.h and vmm_paging.c.

    Each entry type of vmm_paging.h is a record of its bit fields with a [BitStruct]
    instance, so that the memory word and the fields determine each other.
    [Module Paging] translates the address macros, the lookups and the access checks
    on page tables that lie in host memory. *)
From stdpp Require Import base tactics numbers list gmap.
From S2P Require Import Prelude Host MemMap.

(** [struct pde32] *)
Module Pde32.
Record pde32 := mk {
  present : Z;
  writable : Z;
  user_page : Z;
  write_through : Z;
  cache_disable : Z;
  accessed : Z;
  reserved : Z;
  large_page : Z;
  global_page : Z;
  vmm_info : Z;
  pt_base_addr : Z;
}.

#[global] Instance eta_pde32 : Eta pde32 := fun e => mk (present e) (writable e) (user_page e)
  (write_through e) (cache_disable e) (accessed e) (reserved e) (large_page e)
  (global_page e) (vmm_info e) (pt_base_addr e).

#[global, program] Instance bits_pde32 : BitStruct pde32 := {|
  bs_widths := [1; 1; 1; 1; 1; 1; 1; 1; 1; 3; 20];
  bs_values e := [present e; writable e; user_page e; write_through e; cache_disable e;
    accessed e; reserved e; large_page e; global_page e; vmm_info e; pt_base_addr e];
  bs_make vs := mk (nth 0 vs 0) (nth 1 vs 0) (nth 2 vs 0) (nth 3 vs 0) (nth 4 vs 0)
    (nth 5 vs 0) (nth 6 vs 0) (nth 7 vs 0) (nth 8 vs 0) (nth 9 vs 0) (nth 10 vs 0)
|}.
Solve All Obligations with solve_bitstruct.
End Pde32.

(** [struct pde32_4MB]: a page directory entry that maps a 4MB page. *)
Module Pde32_4MB.
Record pde32_4MB := mk {
  present : Z;
  writable : Z;
  user_page : Z;
  write_through : Z;
  cache_disable : Z;
  accessed : Z;
  dirty : Z;
  one : Z;
  global_page : Z;
  vmm_info : Z;
  pat : Z;
  rsvd : Z;
  page_base_addr : Z;
}.

#[global] Instance eta_pde32_4MB : Eta pde32_4MB := fun e => mk (present e) (writable e)
  (user_page e) (write_through e) (cache_disable e) (accessed e) (dirty e) (one e)
  (global_page e) (vmm_info e) (pat e) (rsvd e) (page_base_addr e).

#[global, program] Instance bits_pde32_4MB : BitStruct pde32_4MB := {|
  bs_widths := [1; 1; 1; 1; 1; 1; 1; 1; 1; 3; 1; 9; 10];
  bs_values e := [present e; writable e; user_page e; write_through e; cache_disable e;
    accessed e; dirty e; one e; global_page e; vmm_info e; pat e; rsvd e; page_base_addr e];
  bs_make vs := mk (nth 0 vs 0) (nth 1 vs 0) (nth 2 vs 0) (nth 3 vs 0) (nth 4 vs 0)
    (nth 5 vs 0) (nth 6 vs 0) (nth 7 vs 0) (nth 8 vs 0) (nth 9 vs 0) (nth 10 vs 0)
    (nth 11 vs 0) (nth 12 vs 0)
|}.
Solve All Obligations with solve_bitstruct.
End Pde32_4MB.

(** [struct pte32] *)
Module Pte32.
Record pte32 := mk {
  present : Z;
  writable : Z;
  user_page : Z;
  write_through : Z;
  cache_disable : Z;
  accessed : Z;
  dirty : Z;
  pte_attr : Z;
  global_page : Z;
  vmm_info : Z;
  page_base_addr : Z;
}.

#[global] Instance eta_pte32 : Eta pte32 := fun e => mk (present e) (writable e) (user_page e)
  (write_through e) (cache_disable e) (accessed e) (dirty e) (pte_attr e) (global_page e)
  (vmm_info e) (page_base_addr e).

#[global, program] Instance bits_pte32 : BitStruct pte32 := {|
  bs_widths := [1; 1; 1; 1; 1; 1; 1; 1; 1; 3; 20];
  bs_values e := [present e; writable e; user_page e; write_through e; cache_disable e;
    accessed e; dirty e; pte_attr e; global_page e; vmm_info e; page_base_addr e];
  bs_make vs := mk (nth 0 vs 0) (nth 1 vs 0) (nth 2 vs 0) (nth 3 vs 0) (nth 4 vs 0)
    (nth 5 vs 0) (nth 6 vs 0) (nth 7 vs 0) (nth 8 vs 0) (nth 9 vs 0) (nth 10 vs 0)
|}.
Solve All Obligations with solve_bitstruct.
End Pte32.

(** [struct pml4e64] *)
Module Pml4e64.
Record pml4e64 := mk {
  present : Z;
  writable : Z;
  user_page : Z;
  write_through : Z;
  cache_disable : Z;
  accessed : Z;
  reserved : Z;
  zero : Z;
  vmm_info : Z;
  pdp_base_addr : Z;
  available : Z;
  no_execute : Z;
}.

#[global] Instance eta_pml4e64 : Eta pml4e64 := fun e => mk (present e) (writable e)
  (user_page e) (write_through e) (cache_disable e) (accessed e) (reserved e) (zero e)
  (vmm_info e) (pdp_base_addr e) (available e) (no_execute e).

#[global, program] Instance bits_pml4e64 : BitStruct pml4e64 := {|
  bs_widths := [1; 1; 1; 1; 1; 1; 1; 2; 3; 40; 11; 1];
  bs_values e := [present e; writable e; user_page e; write_through e; cache_disable e;
    accessed e; reserved e; zero e; vmm_info e; pdp_base_addr e; available e; no_execute e];
  bs_make vs := mk (nth 0 vs 0) (nth 1 vs 0) (nth 2 vs 0) (nth 3 vs 0) (nth 4 vs 0)
    (nth 5 vs 0) (nth 6 vs 0) (nth 7 vs 0) (nth 8 vs 0) (nth 9 vs 0) (nth 10 vs 0)
    (nth 11 vs 0)
|}.
Solve All Obligations with solve_bitstruct.
End Pml4e64.

(** [struct pdpe64] *)
Module Pdpe64.
Record pdpe64 := mk {
  present : Z;
  writable : Z;
  user_page : Z;
  write_through : Z;
  cache_disable : Z;
  accessed : Z;
  reserved : Z;
  large_page : Z;
  zero : Z;
  vmm_info : Z;
  pd_base_addr : Z;
  available : Z;
  no_execute : Z;
}.

#[global] Instance eta_pdpe64 : Eta pdpe64 := fun e => mk (present e) (writable e)
  (user_page e) (write_through e) (cache_disable e) (accessed e) (reserved e) (large_page e)
  (zero e) (vmm_info e) (pd_base_addr e) (available e) (no_execute e).

#[global, program] Instance bits_pdpe64 : BitStruct pdpe64 := {|
  bs_widths := [1; 1; 1; 1; 1; 1; 1; 1; 1; 3; 40; 11; 1];
  bs_values e := [present e; writable e; user_page e; write_through e; cache_disable e;
    accessed e; reserved e; large_page e; zero e; vmm_info e; pd_base_addr e; available e;
    no_execute e];
  bs_make vs := mk (nth 0 vs 0) (nth 1 vs 0) (nth 2 vs 0) (nth 3 vs 0) (nth 4 vs 0)
    (nth 5 vs 0) (nth 6 vs 0) (nth 7 vs 0) (nth 8 vs 0) (nth 9 vs 0) (nth 10 vs 0)
    (nth 11 vs 0) (nth 12 vs 0)
|}.
Solve All Obligations with solve_bitstruct.
End Pdpe64.

(** [struct pde64] *)
Module Pde64.
Record pde64 := mk {
  present : Z;
  writable : Z;
  user_page : Z;
  write_through : Z;
  cache_disable : Z;
  accessed : Z;
  reserved : Z;
  large_page : Z;
  reserved2 : Z;
  vmm_info : Z;
  pt_base_addr : Z;
  available : Z;
  no_execute : Z;
}.

#[global] Instance eta_pde64 : Eta pde64 := fun e => mk (present e) (writable e) (user_page e)
  (write_through e) (cache_disable e) (accessed e) (reserved e) (large_page e) (reserved2 e)
  (vmm_info e) (pt_base_addr e) (available e) (no_execute e).

#[global, program] Instance bits_pde64 : BitStruct pde64 := {|
  bs_widths := [1; 1; 1; 1; 1; 1; 1; 1; 1; 3; 40; 11; 1];
  bs_values e := [present e; writable e; user_page e; write_through e; cache_disable e;
    accessed e; reserved e; large_page e; reserved2 e; vmm_info e; pt_base_addr e;
    available e; no_execute e];
  bs_make vs := mk (nth 0 vs 0) (nth 1 vs 0) (nth 2 vs 0) (nth 3 vs 0) (nth 4 vs 0)
    (nth 5 vs 0) (nth 6 vs 0) (nth 7 vs 0) (nth 8 vs 0) (nth 9 vs 0) (nth 10 vs 0)
    (nth 11 vs 0) (nth 12 vs 0)
|}.
Solve All Obligations with solve_bitstruct.
End Pde64.

(** [struct pte64] *)
Module Pte64.
Record pte64 := mk {
  present : Z;
  writable : Z;
  user_page : Z;
  write_through : Z;
  cache_disable : Z;
  accessed : Z;
  dirty : Z;
  pte_attr : Z;
  global_page : Z;
  vmm_info : Z;
  page_base_addr : Z;
  available : Z;
  no_execute : Z;
}.

#[global] Instance eta_pte64 : Eta pte64 := fun e => mk (present e) (writable e) (user_page e)
  (write_through e) (cache_disable e) (accessed e) (dirty e) (pte_attr e) (global_page e)
  (vmm_info e) (page_base_addr e) (available e) (no_execute e).

#[global, program] Instance bits_pte64 : BitStruct pte64 := {|
  bs_widths := [1; 1; 1; 1; 1; 1; 1; 1; 1; 3; 40; 11; 1];
  bs_values e := [present e; writable e; user_page e; write_through e; cache_disable e;
    accessed e; dirty e; pte_attr e; global_page e; vmm_info e; page_base_addr e;
    available e; no_execute e];
  bs_make vs := mk (nth 0 vs 0) (nth 1 vs 0) (nth 2 vs 0) (nth 3 vs 0) (nth 4 vs 0)
    (nth 5 vs 0) (nth 6 vs 0) (nth 7 vs 0) (nth 8 vs 0) (nth 9 vs 0) (nth 10 vs 0)
    (nth 11 vs 0) (nth 12 vs 0)
|}.
Solve All Obligations with solve_bitstruct.
End Pte64.

Module Paging.
Import Pde32 Pde32_4MB Pte32 Pml4e64 Pdpe64 Pde64 Pte64 ShadowMap.

Abbreviation MAX_PTE32_ENTRIES := 1024.
Abbreviation MAX_PDE32_ENTRIES := 1024.
Abbreviation MAX_PTE64_ENTRIES := 512.
Abbreviation MAX_PDE64_ENTRIES := 512.

(** ** Address macros *)

Definition PDE32_INDEX (x : Z) : Z := Z.land (Z.shiftr (u32 x) 22) 0x3ff.
Definition PTE32_INDEX (x : Z) : Z := Z.land (Z.shiftr (u32 x) 12) 0x3ff.

Definition PD32_BASE_ADDR (x : Z) : Z := Z.shiftr (u32 x) 12.
Definition PT32_BASE_ADDR (x : Z) : Z := Z.shiftr (u32 x) 12.
Definition PTE64_BASE_ADDR (x : Z) : Z := Z.shiftr (u64 x) 12.

Definition PT32_PAGE_ADDR (x : Z) : Z := Z.land (u32 x) 0xfffff000.
Definition PT32_PAGE_OFFSET (x : Z) : Z := Z.land (u32 x) 0xfff.
Definition PD32_4MB_PAGE_OFFSET (x : Z) : Z := Z.land (u32 x) 0x003fffff.

Definition PAGE_ALIGNED_ADDR (x : Z) : Z := Z.shiftr (u32 x) 12.
Definition PAGE_ADDR (x : Z) : Z := u32 (Z.shiftl (PAGE_ALIGNED_ADDR x) 12).

Definition CR3_TO_PDE32 `{OsHooks} {A : Arch} (cr3 : Z) : Z :=
  V3_VAddr (Z.land (ulong cr3) 0xfffff000).

(** The members are bit fields narrower than an [int], so that the shifts are done on
    signed integers. *)
Definition PDE32_T_ADDR (x : pde32) : Z := int32 (Z.shiftl (Pde32.pt_base_addr x) 12).
Definition PTE32_T_ADDR (x : pte32) : Z := int32 (Z.shiftl (Pte32.page_base_addr x) 12).
Definition PDE32_4MB_T_ADDR (x : pde32_4MB) : Z :=
  int32 (Z.shiftl (Pde32_4MB.page_base_addr x) 22).

(** Page Table Flag Values *)
Abbreviation PT32_HOOK := 0x1.
Abbreviation PT32_GUEST_PT := 0x2.

Inductive pde32_entry_type := PDE32_ENTRY_NOT_PRESENT | PDE32_ENTRY_PTE32 | PDE32_ENTRY_LARGE_PAGE.
Inductive pt_access_status := PT_ACCESS_OK | PT_ENTRY_NOT_PRESENT | PT_WRITE_ERROR | PT_USER_ERROR.

#[export] Instance pt_access_status_eq_dec : EqDecision pt_access_status.
Proof. solve_decision. Defined.

(** ** Entries in memory: [pd[i]] and [pt[i]] *)

Definition get_pde32 (m : mem) (pd i : Z) : pde32 := decode (load32 m (pd + 4 * i)).
Definition get_pte32 (m : mem) (pt i : Z) : pte32 := decode (load32 m (pt + 4 * i)).
Definition get_pde32_4MB (m : mem) (pd i : Z) : pde32_4MB := decode (load32 m (pd + 4 * i)).
Definition set_pde32 (m : mem) (pd i : Z) (e : pde32) : mem := store32 m (pd + 4 * i) (encode e).
Definition set_pte32 (m : mem) (pt i : Z) (e : pte32) : mem := store32 m (pt + 4 * i) (encode e).
Definition set_pde32_4MB (m : mem) (pd i : Z) (e : pde32_4MB) : mem :=
  store32 m (pd + 4 * i) (encode e).

(** ** Lookups: the result and the value of [*entry] *)

Definition pde32_lookup {A : Arch} (m : mem) (pd addr : Z) : pde32_entry_type * Z :=
  let pde_entry := get_pde32 m pd (PDE32_INDEX addr) in
  if Pde32.present pde_entry =? 0 then (PDE32_ENTRY_NOT_PRESENT, 0)
  else if negb (Pde32.large_page pde_entry =? 0) then
    let large_pde := get_pde32_4MB m pd (PDE32_INDEX addr) in
    (PDE32_ENTRY_LARGE_PAGE,
     ulong (ulong (PDE32_4MB_T_ADDR large_pde) + PD32_4MB_PAGE_OFFSET addr))
  else (PDE32_ENTRY_PTE32, ulong (PDE32_T_ADDR pde_entry)).

(** The sum of an [int] and an unsigned int is unsigned. *)
Definition pte32_lookup (m : mem) (pt addr : Z) : Z * Z :=
  let pte_entry := get_pte32 m pt (PTE32_INDEX addr) in
  if Pte32.present pte_entry =? 0 then (-1, 0)
  else (0, u32 (PTE32_T_ADDR pte_entry + PT32_PAGE_OFFSET addr)).

(** [paddr] is the value of [*paddr] before the call. *)
Definition pt32_lookup {A : Arch} (m : mem) (pd vaddr paddr : Z) : Z * Z :=
  if pd =? 0 then (-1, paddr) else
  let '(pde_entry_type, pde_entry) := pde32_lookup m pd vaddr in
  match pde_entry_type with
  | PDE32_ENTRY_PTE32 => pte32_lookup m pde_entry vaddr
  | PDE32_ENTRY_LARGE_PAGE => (0, pde_entry)
  | PDE32_ENTRY_NOT_PRESENT => (-1, paddr)
  end.

Definition can_access_pde32 (m : mem) (pde addr : Z) (access_type : pf_error)
    : pt_access_status :=
  let entry := get_pde32 m pde (PDE32_INDEX addr) in
  if Pde32.present entry =? 0 then PT_ENTRY_NOT_PRESENT
  else if (Pde32.writable entry =? 0) && (pf_write access_type =? 1) then PT_WRITE_ERROR
  else if (Pde32.user_page entry =? 0) && (pf_user access_type =? 1) then PT_USER_ERROR
  else PT_ACCESS_OK.

Definition can_access_pte32 (m : mem) (pte addr : Z) (access_type : pf_error)
    : pt_access_status :=
  let entry := get_pte32 m pte (PTE32_INDEX addr) in
  if Pte32.present entry =? 0 then PT_ENTRY_NOT_PRESENT
  else if (Pte32.writable entry =? 0) && (pf_write access_type =? 1) then PT_WRITE_ERROR
  else if (Pte32.user_page entry =? 0) && (pf_user access_type =? 1) then PT_USER_ERROR
  else PT_ACCESS_OK.

(** The loop of delete_page_tables_pde32 from entry [i], [n] entries before the end. *)
Fixpoint delete_loop (n : nat) (m : mem) (pool : page_pool) (pde i : Z) : page_pool :=
  match n with
  | O => pool
  | S n =>
    let e := get_pde32 m pde i in
    let pool := if Pde32.present e =? 0 then pool
                else V3_FreePage pool (u32 (Z.shiftl (Pde32.pt_base_addr e) 12)) in
    delete_loop n m pool pde (i + 1)
  end.

Definition delete_page_tables_pde32 `{OsHooks} (m : mem) (pool : page_pool) (pde : Z)
    : page_pool :=
  if pde =? NULL then pool else
  V3_FreePage (delete_loop (Z.to_nat MAX_PDE32_ENTRIES) m pool pde 0) (V3_PAddr pde).

(** ** The macros as arithmetic *)

Lemma land_ones_mod x n m : 0 <= n -> m = Z.ones n -> Z.land x m = x mod 2 ^ n.
Proof. intros ? ->. by apply Z.land_ones. Qed.

Lemma PDE32_INDEX_eq x : is_u 32 x -> PDE32_INDEX x = x / 2 ^ 22.
Proof.
  unfold is_u, PDE32_INDEX. intros. rewrite wrap_small, (land_ones_mod _ 10), Z.shiftr_div_pow2
    by done. rewrite Z.mod_small; [done|]. split; [apply Z.div_pos; lia|].
  apply Z.div_lt_upper_bound; lia.
Qed.

Lemma PTE32_INDEX_eq x : is_u 32 x -> PTE32_INDEX x = x / 2 ^ 12 mod 2 ^ 10.
Proof.
  intros. unfold PTE32_INDEX.
  by rewrite wrap_small, (land_ones_mod _ 10), Z.shiftr_div_pow2 by done.
Qed.

Lemma PDE32_INDEX_range x : 0 <= PDE32_INDEX x < 1024.
Proof. unfold PDE32_INDEX. rewrite (land_ones_mod _ 10) by done. by apply Z.mod_pos_bound. Qed.

Lemma PTE32_INDEX_range x : 0 <= PTE32_INDEX x < 1024.
Proof. unfold PTE32_INDEX. rewrite (land_ones_mod _ 10) by done. by apply Z.mod_pos_bound. Qed.

Lemma PT32_PAGE_OFFSET_eq x : is_u 32 x -> PT32_PAGE_OFFSET x = x mod 2 ^ 12.
Proof. intros. unfold PT32_PAGE_OFFSET. by rewrite wrap_small, (land_ones_mod _ 12) by done. Qed.

Lemma PD32_4MB_PAGE_OFFSET_eq x : is_u 32 x -> PD32_4MB_PAGE_OFFSET x = x mod 2 ^ 22.
Proof.
  intros. unfold PD32_4MB_PAGE_OFFSET. by rewrite wrap_small, (land_ones_mod _ 22) by done.
Qed.

Lemma PT32_BASE_ADDR_eq x : is_u 32 x -> PT32_BASE_ADDR x = x / 2 ^ 12.
Proof. intros. unfold PT32_BASE_ADDR. by rewrite wrap_small, Z.shiftr_div_pow2 by done. Qed.

(** [x & (ones << k)] clears the low [k] bits of a value of [k + w] bits. *)
Lemma land_high x k w :
  0 <= k -> 0 <= w -> 0 <= x < 2 ^ (k + w) ->
  Z.land x (Z.shiftl (Z.ones w) k) = 2 ^ k * (x / 2 ^ k).
Proof.
  intros Hk Hw Hx. rewrite (Z.mul_comm (2 ^ k)), <- Z.shiftl_mul_pow2 by done.
  rewrite <- Z.shiftr_div_pow2 by done. apply Z.bits_inj'. intros i Hi.
  rewrite Z.land_spec, !Z.shiftl_spec by done. destruct (Z.lt_ge_cases i k).
  - rewrite !(Z.testbit_neg_r _ (i - k)) by lia. by rewrite andb_false_r.
  - rewrite Z.shiftr_spec by lia. replace (i - k + k) with i by lia.
    destruct (Z.lt_ge_cases i (k + w)).
    + rewrite Z.ones_spec_low by lia. by rewrite andb_true_r.
    + rewrite Z.ones_spec_high, andb_false_r by lia. symmetry.
      destruct (decide (x = 0)) as [->|]; [apply Z.testbit_0_l|].
      apply Z.bits_above_log2; [lia|]. apply Z.log2_lt_pow2; [lia|].
      eapply Z.lt_le_trans; [apply Hx|]. apply Z.pow_le_mono_r; lia.
Qed.

Lemma PT32_PAGE_ADDR_eq x : is_u 32 x -> PT32_PAGE_ADDR x = 4096 * (x / 4096).
Proof.
  intros. unfold PT32_PAGE_ADDR. rewrite wrap_small by done.
  change 0xfffff000 with (Z.shiftl (Z.ones 20) 12). by apply (land_high x 12 20).
Qed.

Lemma PAGE_ADDR_eq x : PAGE_ADDR x = 4096 * (u32 x / 4096).
Proof.
  pose proof (wrap_range 32 x ltac:(done)) as Hx. unfold is_u in Hx.
  unfold PAGE_ADDR, PAGE_ALIGNED_ADDR. rewrite Z.shiftl_mul_pow2, Z.shiftr_div_pow2 by done.
  rewrite Z.mul_comm. apply wrap_small. unfold is_u.
  change (2 ^ 12) with 4096. pose proof (Z.div_mod (u32 x) 4096).
  pose proof (Z.mod_pos_bound (u32 x) 4096). lia.
Qed.

(** ** Reading entries back *)

Lemma get_set_pde32_eq m pd i e : bs_wf e -> get_pde32 (set_pde32 m pd i e) pd i = e.
Proof.
  intros He. unfold get_pde32, set_pde32. rewrite loadn_storen_eq, wrap_small.
  - by apply decode_encode.
  - by apply encode_u.
Qed.

Lemma get_set_pte32_eq m pt i e : bs_wf e -> get_pte32 (set_pte32 m pt i e) pt i = e.
Proof.
  intros He. unfold get_pte32, set_pte32. rewrite loadn_storen_eq, wrap_small.
  - by apply decode_encode.
  - by apply encode_u.
Qed.

(** The two views of a page directory entry agree on the flag bits. *)
Lemma pde32_views w :
  let e := decode w : pde32 in let l := decode w : pde32_4MB in
  Pde32.present e = Pde32_4MB.present l /\ Pde32.writable e = Pde32_4MB.writable l /\
  Pde32.user_page e = Pde32_4MB.user_page l /\ Pde32.large_page e = Pde32_4MB.one l.
Proof. done. Qed.

(** The bit fields of every page table entry type and its memory word determine each
    other: no bit of the word is lost and no field overlaps another. *)
Theorem entry_roundtrip :
  (forall w, is_u 32 w -> encode (decode w : pde32) = w /\ encode (decode w : pde32_4MB) = w /\
                          encode (decode w : pte32) = w) /\
  (forall w, is_u 64 w -> encode (decode w : pml4e64) = w /\ encode (decode w : pdpe64) = w /\
                          encode (decode w : pde64) = w /\ encode (decode w : pte64) = w) /\
  (forall e : pte32, bs_wf e -> decode (encode e) = e) /\
  (forall e : pde32, bs_wf e -> decode (encode e) = e) /\
  (forall e : pte64, bs_wf e -> decode (encode e) = e).
Proof.
  split_and!; [intros w Hw..| | |]; try (intros; by apply decode_encode);
    rewrite !encode_decode; split_and!; by apply Z.mod_small.
Qed.

(** The arithmetic of the x86 page walk in non-PAE 32-bit mode. *)
Definition x86_walk32 (m : mem) (cr3 va : Z) : option Z :=
  let w := load32 m (cr3 + 4 * (va / 2 ^ 22)) in
  if Z.odd w then
    if Z.testbit w 7 then Some (2 ^ 22 * (w / 2 ^ 22) + va mod 2 ^ 22)
    else
      let w := load32 m (2 ^ 12 * (w / 2 ^ 12) + 4 * (va / 2 ^ 12 mod 2 ^ 10)) in
      if Z.odd w then Some (2 ^ 12 * (w / 2 ^ 12) + va mod 2 ^ 12) else None
  else None.

Lemma field_bit w i : 0 <= i -> field w i 1 =? 0 = negb (Z.testbit w i).
Proof.
  intros Hi. unfold field. rewrite <- Z.testbit_spec' by done. by destruct (Z.testbit w i).
Qed.

Lemma odd_testbit w : Z.odd w = Z.testbit w 0.
Proof. symmetry. apply Z.bit0_odd. Qed.

(** What an [int] holding the bits [y] becomes when it is converted to an [addr_t]. *)
Definition sext {A : Arch} (y : Z) : Z :=
  match the_arch with
  | V3_32BIT => y
  | V3_64BIT => if y <? 2 ^ 31 then y else y + (2 ^ 64 - 2 ^ 32)
  end.

Lemma ulong_int32 {A : Arch} y : is_u 32 y -> ulong (int32 y) = sext y.
Proof.
  intros Hy. unfold ulong, sext, BITS_PER_LONG. destruct the_arch.
  - rewrite sint_wrap by done. by apply wrap_small.
  - unfold sint. rewrite (wrap_small 32) by done. unfold is_u in Hy.
    change (32 - 1) with 31. destruct (y <? 2 ^ 31) eqn:E.
    + apply wrap_small. unfold is_u. lia.
    + unfold wrap. rewrite <- (Z.mod_add _ 1 (2 ^ 64)) by done.
      replace (y - 2 ^ 32 + 1 * 2 ^ 64) with (y + (2 ^ 64 - 2 ^ 32)) by lia.
      apply Z.mod_small. lia.
Qed.

Lemma u32_int32 x y : u32 (int32 y + x) = u32 (y + x).
Proof.
  pose proof (sint_wrap 32 y ltac:(done)) as H. unfold wrap in *.
  by rewrite Zplus_mod, H, <- Zplus_mod.
Qed.

(** The base address fields of a word, as addresses. *)
Lemma base_addr_shifted w k :
  0 <= k <= 32 -> is_u 32 w ->
  Z.shiftl (field w k (32 - k)) k = 2 ^ k * (w / 2 ^ k) /\ is_u 32 (2 ^ k * (w / 2 ^ k)).
Proof.
  intros Hk Hw. unfold is_u, field in *. pose proof (Z.pow_pos_nonneg 2 k).
  assert (2 ^ 32 = 2 ^ k * 2 ^ (32 - k)) by (rewrite <- Z.pow_add_r by lia; f_equal; lia).
  assert (0 <= w / 2 ^ k < 2 ^ (32 - k)) as Hq.
  { split; [apply Z.div_pos; lia|]. apply Z.div_lt_upper_bound; lia. }
  rewrite Z.mod_small, Z.shiftl_mul_pow2 by lia.
  pose proof (Z.mul_div_le w (2 ^ k)). nia.
Qed.

Lemma sext_high {A : Arch} w k :
  the_arch = V3_64BIT -> 2 ^ 31 <= w -> 0 <= k <= 31 ->
  sext (2 ^ k * (w / 2 ^ k)) = 2 ^ k * (w / 2 ^ k) + (2 ^ 64 - 2 ^ 32).
Proof.
  intros HA Hw Hk. unfold sext. rewrite HA, (proj2 (Z.ltb_ge _ _)); [done|].
  replace (2 ^ 31) with (2 ^ k * 2 ^ (31 - k)) in * by (rewrite <- Z.pow_add_r by lia; f_equal; lia).
  apply Z.mul_le_mono_nonneg_l; [by apply Z.pow_nonneg|]. apply Z.div_le_lower_bound; [by apply Z.pow_pos_nonneg; lia|done].
Qed.

Lemma pde32_lookup_eq {A : Arch} m pd va :
  is_u 32 va ->
  let w := load32 m (pd + 4 * (va / 2 ^ 22)) in
  pde32_lookup m pd va =
  if Z.odd w then
    if Z.testbit w 7 then
      (PDE32_ENTRY_LARGE_PAGE, ulong (sext (2 ^ 22 * (w / 2 ^ 22)) + va mod 2 ^ 22))
    else (PDE32_ENTRY_PTE32, sext (2 ^ 12 * (w / 2 ^ 12)))
  else (PDE32_ENTRY_NOT_PRESENT, 0).
Proof.
  intros Hva w. unfold pde32_lookup, get_pde32, get_pde32_4MB.
  rewrite PDE32_INDEX_eq, PD32_4MB_PAGE_OFFSET_eq by done. fold w.
  pose proof (loadn_range 4 m (pd + 4 * (va / 2 ^ 22))) as Hw. fold w in Hw.
  change (Pde32.present (decode w)) with (field w 0 1).
  change (Pde32.large_page (decode w)) with (field w 7 1).
  rewrite !field_bit, odd_testbit by done.
  destruct (Z.testbit w 0); [|done]. cbn [negb]. destruct (Z.testbit w 7); cbn [negb].
  - unfold PDE32_4MB_T_ADDR. change (Pde32_4MB.page_base_addr _) with (field w 22 (32 - 22)).
    destruct (base_addr_shifted w 22) as [-> Hr]; [lia|done|]. by rewrite ulong_int32.
  - unfold PDE32_T_ADDR. change (Pde32.pt_base_addr _) with (field w 12 (32 - 12)).
    destruct (base_addr_shifted w 12) as [-> Hr]; [lia|done|]. by rewrite ulong_int32.
Qed.

Lemma pte32_lookup_eq m pt va :
  is_u 32 va ->
  let w := load32 m (pt + 4 * (va / 2 ^ 12 mod 2 ^ 10)) in
  pte32_lookup m pt va =
  if Z.odd w then (0, 2 ^ 12 * (w / 2 ^ 12) + va mod 2 ^ 12) else (-1, 0).
Proof.
  intros Hva w. unfold pte32_lookup, get_pte32.
  rewrite PTE32_INDEX_eq, PT32_PAGE_OFFSET_eq by done. fold w.
  pose proof (loadn_range 4 m (pt + 4 * (va / 2 ^ 12 mod 2 ^ 10))) as Hw. fold w in Hw.
  change (Pte32.present (decode w)) with (field w 0 1).
  rewrite field_bit, odd_testbit by done. destruct (Z.testbit w 0); [|done]. cbn [negb].
  unfold PTE32_T_ADDR. change (Pte32.page_base_addr _) with (field w 12 (32 - 12)).
  destruct (base_addr_shifted w 12) as [-> Hr]; [lia|done|].
  rewrite u32_int32. f_equal. apply wrap_small. unfold is_u in *.
  pose proof (Z.mod_pos_bound va (2 ^ 12)). pose proof (Z.div_mod w (2 ^ 12)).
  pose proof (Z.mod_pos_bound w (2 ^ 12)). lia.
Qed.

(** C35. pt32_lookup follows the x86 page walk: it finds the physical address of every
    mapped virtual address, through page tables and 4MB pages, and returns -1 on the
    others, on 32-bit hosts, and on 64-bit hosts while the page directory entry points
    below 2GB.  On a 64-bit host an entry that points at or above 2GB is followed to the
    wrong address: the shifted base address is a negative [int], and its conversion to
    [addr_t] sets the upper 32 bits, of the 4MB page or of the page table that is read. *)
Theorem pt32_lookup_walks {A : Arch} m pd va x :
  pd <> 0 -> is_u 32 va ->
  let w := load32 m (pd + 4 * (va / 2 ^ 22)) in
  (the_arch = V3_32BIT \/ w < 2 ^ 31 ->
   match x86_walk32 m pd va with
   | Some pa => pt32_lookup m pd va x = (0, pa)
   | None => fst (pt32_lookup m pd va x) = -1
   end) /\
  (the_arch = V3_64BIT -> 2 ^ 31 <= w ->
   pt32_lookup m pd va x =
     if Z.odd w then
       if Z.testbit w 7 then (0, 2 ^ 22 * (w / 2 ^ 22) + va mod 2 ^ 22 + (2 ^ 64 - 2 ^ 32))
       else pte32_lookup m (2 ^ 12 * (w / 2 ^ 12) + (2 ^ 64 - 2 ^ 32)) va
     else (-1, x)).
Proof.
  intros Hpd Hva w. pose proof (loadn_range 4 m (pd + 4 * (va / 2 ^ 22))) as Hw. fold w in Hw.
  pose proof (Z.mod_pos_bound va (2 ^ 22) ltac:(done)) as Hm. pose proof (Z.div_mod w (2 ^ 22) ltac:(done)) as Hdm.
  pose proof (Z.mod_pos_bound w (2 ^ 22) ltac:(done)) as Hmw.
  assert (w / 2 ^ 22 < 2 ^ 10) as Hw22 by (unfold is_u in Hw; apply Z.div_lt_upper_bound; lia).
  unfold pt32_lookup. rewrite (proj2 (Z.eqb_neq _ _) Hpd), pde32_lookup_eq by done. fold w. split.
  - intros Hlow. unfold x86_walk32. fold w.
    assert (forall k, 0 <= k <= 32 -> sext (2 ^ k * (w / 2 ^ k)) = 2 ^ k * (w / 2 ^ k)) as Hsext.
    { intros k Hk. unfold sext. destruct Hlow as [->|Hlow]; [done|]. destruct the_arch; [done|].
      pose proof (Z.mul_div_le w (2 ^ k)). by rewrite (proj2 (Z.ltb_lt _ _)) by lia. }
    rewrite !Hsext by lia. destruct (Z.odd w); [|done]. destruct (Z.testbit w 7).
    + f_equal. apply ulong_small, is_addr_u32. unfold is_u in *. lia.
    + rewrite pte32_lookup_eq by done. by destruct (Z.odd _).
  - intros HA Hbig. destruct (Z.odd w); [|done].
    rewrite !sext_high by (done || lia). destruct (Z.testbit w 7); [|done].
    f_equal. rewrite <- Z.add_assoc, (Z.add_comm (2 ^ 64 - 2 ^ 32)), Z.add_assoc.
    apply ulong_small. unfold is_addr, is_u in *. rewrite HA. cbn [BITS_PER_LONG]. lia.
Qed.

(** A page directory at 0x1000 with a page table at 0x2000 that maps page 0, and a 4MB page at
    2GB. *)
Definition demo_tables : mem :=
  store32 (store32 (store32 (fun _ => 0) 0x1000 0x2007) 0x2000 0x5003) 0x1004 0x80000083.

Lemma pt32_lookup_walks_witness :
  pt32_lookup (A := V3_64BIT) demo_tables 0x1000 0x123 0 = (0, 0x5123) /\
  pt32_lookup (A := V3_64BIT) demo_tables 0x1000 0x400123 0 = (0, 0xffffffff80000123).
Proof.
  split.
  - apply (pt32_lookup_walks (A := V3_64BIT) demo_tables 0x1000 0x123 0); [done|done|right; vm_compute; done].
  - rewrite (proj2 (pt32_lookup_walks (A := V3_64BIT) demo_tables 0x1000 0x400123 0 ltac:(done) ltac:(done)));
      [reflexivity|reflexivity|vm_compute; discriminate].
Defined.

(** ** Entries as memory slots

    Entry [i] of a table in the page [p] of physical memory. *)

Section slots.
Context {Hos : OsHooks} {Hok : OsHooksOk}.

Definition slot (p i : Z) : Z := V3_VAddr p + 4 * i.
Definition is_slot (p i : Z) : Prop := page_aligned p /\ 0 <= i < 1024.

Lemma slots_apart p i q j :
  is_slot p i -> is_slot q j -> (p, i) <> (q, j) ->
  slot p i + 4 <= slot q j \/ slot q j + 4 <= slot p i.
Proof.
  intros [Hp Hi] [Hq Hj] Hne. unfold slot. destruct (decide (p = q)) as [->|Hpq].
  - assert (i <> j) by congruence. lia.
  - pose proof (pages_apart p q Hp Hq Hpq). lia.
Qed.

Lemma load_store_slot m p i w : is_u 32 w -> load32 (store32 m (slot p i) w) (slot p i) = w.
Proof. intros Hw. rewrite loadn_storen_eq. by apply wrap_small. Qed.

Lemma load_store_slot_ne m p i q j w :
  is_slot p i -> is_slot q j -> (p, i) <> (q, j) ->
  load32 (store32 m (slot q j) w) (slot p i) = load32 m (slot p i).
Proof. intros Hp Hq Hne. apply loadn_storen_ne. pose proof (slots_apart p i q j Hp Hq Hne). lia. Qed.

Lemma load_memset_slot m p i q :
  is_slot p i -> page_aligned q -> p <> q ->
  load32 (memset0 m (V3_VAddr q) PAGE_SIZE) (slot p i) = load32 m (slot p i).
Proof.
  intros [Hp Hi] Hq Hne. apply loadn_memset0_out. unfold slot.
  pose proof (pages_apart p q Hp Hq Hne). lia.
Qed.

Lemma load_memset_slot_eq m p i :
  0 <= i < 1024 -> load32 (memset0 m (V3_VAddr p) PAGE_SIZE) (slot p i) = 0.
Proof. intros Hi. apply loadn_memset0_in; unfold slot; lia. Qed.
(** The translation of the hardware, whose tables are at the physical addresses in CR3 and
    in the entries. *)
Definition hw_walk (m : mem) (pd va : Z) : option Z :=
  let w := load32 m (slot pd (va / 2 ^ 22)) in
  if Z.odd w then
    if Z.testbit w 7 then Some (2 ^ 22 * (w / 2 ^ 22) + va mod 2 ^ 22)
    else
      let w := load32 m (slot (2 ^ 12 * (w / 2 ^ 12)) (va / 2 ^ 12 mod 2 ^ 10)) in
      if Z.odd w then Some (2 ^ 12 * (w / 2 ^ 12) + va mod 2 ^ 12) else None
  else None.

Lemma field_base w : is_u 32 w -> PAGE_SIZE * field w 12 20 = 2 ^ 12 * (w / 2 ^ 12).
Proof.
  intros Hw. destruct (base_addr_shifted w 12) as [Hb _]; [lia|done|].
  rewrite <- Hb, Z.shiftl_mul_pow2 by done. apply Z.mul_comm.
Qed.

Lemma hw_walk_entries m pd a p B :
  is_u 32 a ->
  let e := get_pde32 m (V3_VAddr pd) (PDE32_INDEX a) in
  let e' := get_pte32 m (V3_VAddr p) (PTE32_INDEX a) in
  Pde32.present e = 1 -> Pde32.large_page e = 0 -> PAGE_SIZE * Pde32.pt_base_addr e = p ->
  Pte32.page_base_addr e' = B ->
  hw_walk m pd a = if Pte32.present e' =? 0 then None else Some (PAGE_SIZE * B + a mod PAGE_SIZE).
Proof.
  intros Ha. unfold get_pde32, get_pte32, hw_walk, slot.
  rewrite PDE32_INDEX_eq, PTE32_INDEX_eq by done.
  set (w := load32 m (V3_VAddr pd + 4 * (a / 2 ^ 22))).
  assert (is_u 32 w) as Hw by apply loadn_range. cbv zeta.
  change (Pde32.present (decode w)) with (field w 0 1).
  change (Pde32.large_page (decode w)) with (field w 7 1).
  change (Pde32.pt_base_addr (decode w)) with (field w 12 20). rewrite field_base by done.
  intros Hp HL <-. set (w' := load32 m _). assert (is_u 32 w') as Hw' by apply loadn_range.
  change (Pte32.present (decode w')) with (field w' 0 1).
  change (Pte32.page_base_addr (decode w')) with (field w' 12 20).
  intros HB. rewrite <- HB, field_base by done.
  assert (Z.odd w = true) as ->.
  { rewrite odd_testbit. apply negb_false_iff. by rewrite <- field_bit, Hp. }
  assert (Z.testbit w 7 = false) as -> by (apply negb_true_iff; by rewrite <- field_bit, HL).
  rewrite field_bit, odd_testbit by done. by destruct (Z.testbit w' 0).
Qed.

Lemma hw_walk_absent m pd a :
  is_u 32 a -> Pde32.present (get_pde32 m (V3_VAddr pd) (PDE32_INDEX a)) = 0 ->
  hw_walk m pd a = None.
Proof.
  intros Ha. unfold get_pde32, hw_walk, slot. rewrite PDE32_INDEX_eq by done.
  set (w := load32 m _). change (Pde32.present (decode w)) with (field w 0 1).
  intros Hp. rewrite odd_testbit, <- (negb_involutive (Z.testbit w 0)), <- field_bit by done.
  by rewrite Hp.
Qed.
End slots.

End Paging.
