(* ===== verification/Intr.v ===== *)
(** Interrupt and exception delivery: vmm_intr.c and vmm_intr.h.

    [struct intr_ctrl_ops] is the interface between this layer and an interrupt
    controller: [IntrCtrl] holds the operations and [IntrCtrlOk] what the layer expects
    of them.  The theorems on injection are proved against that interface; Pic.v
    discharges it for the 8259A. *)
From stdpp Require Import base tactics numbers list gmap.
From S2P Require Import Prelude.

(** ** The interrupt controller interface *)

(** [struct intr_ctrl_ops], with the controller state it is given. *)
Class IntrCtrl (C : Type) := {
  intr_pending : C -> Z;
  get_intr_number : C -> Z;
  raise_intr : C -> Z -> outcome (Z * C);
  lower_intr : C -> Z -> outcome (Z * C);
  begin_irq : C -> Z -> outcome (Z * C);
}.

(** The contract: [requests c] are the lines whose request is neither masked nor in
    service, and [vector c] the interrupt number of a line.  An interrupt is pending
    exactly when there is a request, the number returned is that of a request, and
    starting it removes that request only. *)
Class IntrCtrlOk (C : Type) `{IntrCtrl C} := {
  ctrl_wf : C -> Prop;
  requests : C -> gset Z;
  vector : C -> Z -> Z;
  ok_vector c irq : ctrl_wf c -> irq ∈ requests c -> 0 <= vector c irq < 2 ^ 31;
  ok_pending c : ctrl_wf c -> intr_pending c = if decide (requests c = ∅) then 0 else 1;
  ok_begin c : ctrl_wf c -> requests c <> ∅ ->
    exists irq c', irq ∈ requests c /\ get_intr_number c = vector c irq /\
      begin_irq c (vector c irq) = Done (0, c') /\
      ctrl_wf c' /\ requests c' = requests c ∖ {[irq]} /\ vector c' = vector c;
}.

Module Intr.

Abbreviation PF_EXCEPTION := 0x0e.
Abbreviation MC_EXCEPTION := 0x12.
Abbreviation GPF_EXCEPTION := 0x0d.

Inductive intr_type := INVALID_INTR | EXTERNAL_IRQ | NMI | EXCEPTION | SOFTWARE_INTR | VIRTUAL_INTR.

#[export] Instance intr_type_eq_dec : EqDecision intr_type.
Proof. solve_decision. Defined.

(** The exception members of [struct v3_intr_state]. *)
Record v3_excp_state := mk_v3_excp_state {
  excp_pending : Z;
  excp_num : Z;
  excp_error_code_valid : Z;
  excp_error_code : Z;
}.

#[export] Instance eta_v3_excp_state : Eta v3_excp_state := fun s =>
  mk_v3_excp_state (excp_pending s) (excp_num s) (excp_error_code_valid s) (excp_error_code s).

(** The handlers v3_hook_irq registers: the pass-through handler of this file or a
    function pointer of the caller. *)
Inductive irq_handler := passthrough_irq_handler | other_handler (f : Z).

Record v3_irq_hook := mk_v3_irq_hook {
  irq_hook_handler : irq_handler;
  irq_hook_priv_data : Z;
}.

(** [struct v3_intr_state]; the controller and its state are set together. *)
Record v3_intr_state (C : Type) := mk_v3_intr_state {
  excp : v3_excp_state;
  controller : option C;
  irq_hooks : list (option v3_irq_hook);
}.
#[global] Arguments mk_v3_intr_state {C}.
#[global] Arguments excp {C}.
#[global] Arguments controller {C}.
#[global] Arguments irq_hooks {C}.

#[export] Instance eta_v3_intr_state {C} : Eta (v3_intr_state C) := fun s =>
  mk_v3_intr_state (excp s) (controller s) (irq_hooks s).

(** ** Exceptions *)

Definition v3_raise_exception_with_error (s : v3_excp_state) (ex error_code : Z)
    : Z * v3_excp_state :=
  if excp_pending s =? 0 then (0, mk_v3_excp_state 1 ex 1 error_code) else (-1, s).

Definition v3_raise_exception (s : v3_excp_state) (ex : Z) : Z * v3_excp_state :=
  if excp_pending s =? 0 then (0, mk_v3_excp_state 1 ex 0 0) else (-1, s).

Section state.
Context {C : Type} `{IntrCtrl C}.
Implicit Types s : v3_intr_state C.

(** excp_error_code_valid is not assigned. *)
Definition v3_init_interrupt_state (s : v3_intr_state C) : v3_intr_state C :=
  s <| excp := mk_v3_excp_state 0 0 (excp_error_code_valid (excp s)) 0 |>
    <| irq_hooks := replicate 256 None |>.

Definition v3_set_intr_controller (s : v3_intr_state C) (state : C) : v3_intr_state C :=
  s <| controller := Some state |>.

(** V3_ASSERT loops forever when its condition is false. *)
Definition v3_assert {A} (b : bool) (k : outcome A) : outcome A := if b then k else OutOfFuel.

(** The array has 256 elements. *)
Definition get_irq_hook (s : v3_intr_state C) (irq : Z) : outcome (option v3_irq_hook) :=
  v3_assert (irq <=? 256)
    match irq_hooks s !! Z.to_nat irq with Some h => Done h | None => Undef end.

(** [malloc_ok]: V3_Malloc succeeds; [host_ret]: the result of V3_Hook_Interrupt. *)
Definition v3_hook_irq (s : v3_intr_state C) (malloc_ok : bool) (host_ret : Z)
    (irq : Z) (handler : irq_handler) (priv_data : Z) : outcome (Z * v3_intr_state C) :=
  if negb malloc_ok then Done (-1, s) else
  old ← get_irq_hook s irq;
  match old with
  | Some _ => Done (-1, s)
  | None =>
      let s := s <| irq_hooks :=
                 <[Z.to_nat irq := Some (mk_v3_irq_hook handler priv_data)]> (irq_hooks s) |> in
      if negb (host_ret =? 0) then Done (-1, s) else Done (0, s)
  end.

Definition v3_hook_passthrough_irq (s : v3_intr_state C) (malloc_ok : bool) (host_ret irq : Z)
    : outcome (Z * v3_intr_state C) :=
  '(rc, s) ← v3_hook_irq s malloc_ok host_ret irq passthrough_irq_handler NULL;
  if negb (rc =? 0) then Done (-1, s) else Done (0, s).

(** The result of the controller's operation is ignored. *)
Definition v3_lower_irq (s : v3_intr_state C) (irq : Z) : outcome (Z * v3_intr_state C) :=
  match controller s with
  | None => OutOfFuel
  | Some c => '(_, c) ← lower_intr c irq; Done (0, s <| controller := Some c |>)
  end.

Definition v3_raise_irq (s : v3_intr_state C) (irq : Z) : outcome (Z * v3_intr_state C) :=
  match controller s with
  | None => OutOfFuel
  | Some c => '(_, c) ← raise_intr c irq; Done (0, s <| controller := Some c |>)
  end.

(** [call]: the handlers other than the pass-through one. *)
Definition v3_deliver_irq (call : Z -> v3_intr_state C -> Z -> Z -> outcome (Z * v3_intr_state C))
    (s : v3_intr_state C) (irq : Z) : outcome (Z * v3_intr_state C) :=
  hook ← get_irq_hook s irq;
  match hook with
  | None => Done (-1, s)
  | Some h =>
      match irq_hook_handler h with
      | passthrough_irq_handler => v3_raise_irq s (sint 32 irq)
      | other_handler f => call f s irq (irq_hook_priv_data h)
      end
  end.

(** ** Queries and injection; the controller pointer is not checked *)

Definition v3_intr_pending (s : v3_intr_state C) : outcome Z :=
  if excp_pending (excp s) =? 1 then Done 1
  else match controller s with
       | None => Undef
       | Some c => Done (if intr_pending c =? 1 then 1 else 0)
       end.

(** The result of the controller is an [int], the return type is unsigned. *)
Definition v3_get_intr_number (s : v3_intr_state C) : outcome Z :=
  if excp_pending (excp s) =? 1 then Done (excp_num (excp s))
  else match controller s with
       | None => Undef
       | Some c => Done (if intr_pending c =? 0 then 0 else u32 (get_intr_number c))
       end.

Definition v3_get_intr_type (s : v3_intr_state C) : outcome intr_type :=
  if negb (excp_pending (excp s) =? 0) then Done EXCEPTION
  else match controller s with
       | None => Undef
       | Some c => Done (if intr_pending c =? 0 then INVALID_INTR else EXTERNAL_IRQ)
       end.

Definition v3_injecting_intr (s : v3_intr_state C) (intr_num : Z) (type : intr_type)
    : outcome (Z * v3_intr_state C) :=
  match type with
  | EXCEPTION => Done (0, s <| excp := mk_v3_excp_state 0 0 0 0 |>)
  | EXTERNAL_IRQ =>
      match controller s with
      | None => Undef
      | Some c => '(ret, c) ← begin_irq c (sint 32 intr_num);
                  Done (ret, s <| controller := Some c |>)
      end
  | _ => Done (0, s)
  end.

(** ** Injection on guest entry: the end of v3_handle_svm_exit *)

Inductive svm_injection := SVM_INJECTION_EXTERNAL_INTR | SVM_INJECTION_NMI
  | SVM_INJECTION_EXCEPTION | SVM_INJECTION_SOFT_INTR | SVM_INJECTION_VIRTUAL_INTR.

(** The members of the VMCB control area that are written. *)
Record vmcb_inject := mk_vmcb_inject {
  V_IRQ : Z;
  V_INTR_VECTOR : Z;
  V_IGN_TPR : Z;
  V_INTR_PRIO : Z;
  ev_type : svm_injection;
  ev_vector : Z;
  ev_error_code : Z;
  ev_ev : Z;
  ev_valid : Z;
}.

#[export] Instance eta_vmcb_inject : Eta vmcb_inject := fun v =>
  mk_vmcb_inject (V_IRQ v) (V_INTR_VECTOR v) (V_IGN_TPR v) (V_INTR_PRIO v) (ev_type v)
    (ev_vector v) (ev_error_code v) (ev_ev v) (ev_valid v).

Definition svm_inject_intr (s : v3_intr_state C) (g : vmcb_inject)
    : outcome (Z * v3_intr_state C * vmcb_inject) :=
  p ← v3_intr_pending s;
  if p =? 0 then Done (0, s, g) else
  t ← v3_get_intr_type s;
  match t with
  | EXTERNAL_IRQ =>
      irq ← v3_get_intr_number s;
      let g := g <| V_IRQ := 1 |> <| V_INTR_VECTOR := u8 irq |> <| V_IGN_TPR := 1 |>
                 <| V_INTR_PRIO := 0xf |> in
      '(_, s) ← v3_injecting_intr s irq EXTERNAL_IRQ;
      Done (0, s, g)
  | NMI => Done (0, s, g <| ev_type := SVM_INJECTION_NMI |>)
  | EXCEPTION =>
      ex ← v3_get_intr_number s;
      let g := g <| ev_type := SVM_INJECTION_EXCEPTION |> in
      let g := if excp_error_code_valid (excp s) =? 0 then g
               else g <| ev_error_code := excp_error_code (excp s) |> <| ev_ev := 1 |> in
      let g := g <| ev_vector := u8 ex |> <| ev_valid := 1 |> in
      '(_, s) ← v3_injecting_intr s ex EXCEPTION;
      Done (0, s, g)
  | SOFTWARE_INTR => Done (0, s, g <| ev_type := SVM_INJECTION_SOFT_INTR |>)
  | VIRTUAL_INTR => Done (0, s, g <| ev_type := SVM_INJECTION_VIRTUAL_INTR |>)
  | INVALID_INTR => Done (-1, s, g)
  end.

(** A controller is registered and takes requests on the lines [P]. *)
Definition takes (P : Z -> Prop) (s : v3_intr_state C) : Prop :=
  is_Some (controller s) /\ forall (c : C) irq, P irq -> exists r c', raise_intr c irq = Done (r, c').

Lemma raise_takes P s irq :
  takes P s -> P irq -> exists s', v3_raise_irq s irq = Done (0, s') /\ takes P s'.
Proof.
  intros [[c Hc] Hr] Hi. unfold v3_raise_irq. rewrite Hc.
  destruct (Hr c irq Hi) as (r & c' & ->). run. eexists. split; [done|]. split; [by eexists|done].
Qed.

End state.

(** ** Injection against the controller contract *)

Section injection.
Context {C : Type} `{Hok : IntrCtrlOk C}.
Implicit Types s : v3_intr_state C.

Lemma sint_u32 v : 0 <= v < 2 ^ 31 -> int32 (u32 v) = v.
Proof. intros Hv. rewrite wrap_small by (unfold is_u; lia). by apply sint_small. Qed.

(** An exception goes first: it is injected with its error code and forgotten, and the
    controller is not consulted. *)
Lemma inject_exception s g :
  excp_pending (excp s) = 1 ->
  exists g', svm_inject_intr s g = Done (0, s <| excp := mk_v3_excp_state 0 0 0 0 |>, g') /\
    ev_type g' = SVM_INJECTION_EXCEPTION /\ ev_vector g' = u8 (excp_num (excp s)) /\
    ev_valid g' = 1 /\ V_IRQ g' = V_IRQ g /\
    (excp_error_code_valid (excp s) = 1 ->
       ev_ev g' = 1 /\ ev_error_code g' = excp_error_code (excp s)).
Proof.
  intros Hp. unfold svm_inject_intr, v3_intr_pending, v3_get_intr_type, v3_get_intr_number.
  rewrite Hp. simpl. eexists. split; [reflexivity|].
  destruct (Z.eqb_spec (excp_error_code_valid (excp s)) 0) as [->|]; simpl; naive_solver.
Qed.

(** Otherwise one request of the controller is injected and removed. *)
Lemma inject_request s c g :
  excp_pending (excp s) = 0 -> controller s = Some c -> ctrl_wf c -> requests c <> ∅ ->
  exists irq c', irq ∈ requests c /\
    svm_inject_intr s g = Done (0, s <| controller := Some c' |>,
      g <| V_IRQ := 1 |> <| V_INTR_VECTOR := u8 (vector c irq) |> <| V_IGN_TPR := 1 |>
        <| V_INTR_PRIO := 0xf |>) /\
    ctrl_wf c' /\ requests c' = requests c ∖ {[irq]} /\ vector c' = vector c.
Proof.
  intros Hp Hc Hwf Hne. destruct (ok_begin c Hwf Hne) as (irq & c' & Hin & Hnum & Hbegin & ? & ? & ?).
  exists irq, c'. pose proof (ok_vector c irq Hwf Hin) as Hv.
  unfold svm_inject_intr, v3_intr_pending, v3_get_intr_type, v3_get_intr_number,
    v3_injecting_intr.
  rewrite Hp, Hc, (ok_pending c Hwf), decide_False by done. simpl.
  rewrite Hnum, sint_u32, Hbegin by done. simpl.
  split_and!; try done. do 4 f_equal.
  unfold wrap. rewrite Z.mod_mod_divide; [done|]. by exists (2 ^ 24).
Qed.

Lemma inject_nothing s c g :
  excp_pending (excp s) = 0 -> controller s = Some c -> ctrl_wf c -> requests c = ∅ ->
  svm_inject_intr s g = Done (0, s, g).
Proof.
  intros Hp Hc Hwf He. unfold svm_inject_intr, v3_intr_pending.
  by rewrite Hp, Hc, (ok_pending c Hwf), decide_True.
Qed.

(** [n] guest entries in a row, with the vectors injected as external interrupts. *)
Fixpoint inject_run (n : nat) (s : v3_intr_state C) (g : vmcb_inject) (vs : list Z)
    : outcome (v3_intr_state C * list Z) :=
  match n with
  | O => Done (s, vs)
  | S n =>
      '(_, s', g') ← svm_inject_intr s (g <| V_IRQ := 0 |>);
      inject_run n s' g' (if V_IRQ g' =? 1 then vs ++ [V_INTR_VECTOR g'] else vs)
  end.

(** C8. Every pending request is injected exactly once.  From a state without exception
    whose controller keeps its contract, as many guest entries as there are requests
    inject the vectors of all of them, each once, and leave none pending. *)
Theorem inject_run_drains s c g :
  excp_pending (excp s) = 0 -> controller s = Some c -> ctrl_wf c ->
  exists s' c' vs, inject_run (size (requests c)) s g [] = Done (s', vs) /\
    vs ≡ₚ (fun irq => u8 (vector c irq)) <$> elements (requests c) /\
    controller s' = Some c' /\ requests c' = ∅ /\ v3_intr_pending s' = Done 0.
Proof.
  assert (forall n s c g vs, excp_pending (excp s) = 0 -> controller s = Some c -> ctrl_wf c ->
    size (requests c) = n ->
    exists s' c' vs', inject_run n s g vs = Done (s', vs ++ vs') /\
      vs' ≡ₚ (fun irq => u8 (vector c irq)) <$> elements (requests c) /\
      controller s' = Some c' /\ requests c' = ∅ /\ v3_intr_pending s' = Done 0) as Hrun.
  { clear. intros n. induction n as [|n IH]; intros s c g vs Hp Hc Hwf Hsz.
    - apply size_empty_inv in Hsz. rewrite leibniz_equiv_iff in Hsz.
      exists s, c, []. rewrite app_nil_r, Hsz, elements_empty. split_and!; try done.
      unfold v3_intr_pending. by rewrite Hp, Hc, (ok_pending c Hwf), decide_True.
    - assert (requests c <> ∅) as Hne by (intros He; rewrite He, size_empty in Hsz; done).
      destruct (inject_request s c (g <| V_IRQ := 0 |>) Hp Hc Hwf Hne)
        as (irq & c' & Hin & Heq & Hwf' & Hreq & Hvec).
      cbn [inject_run]. rewrite Heq, outcome_bind_done. simpl V_IRQ. simpl V_INTR_VECTOR.
      edestruct (IH (s <| controller := Some c' |>) c') as (s' & c'' & vs' & Hrun & Hperm & ?);
        [done|done|done| |].
      { rewrite Hreq, size_difference, size_singleton by set_solver. lia. }
      exists s', c'', (u8 (vector c irq) :: vs'). split_and!; [|  |naive_solver..].
      + etrans; [exact Hrun|]. by rewrite <- app_assoc.
      + rewrite Hperm, Hreq, Hvec. rewrite (union_difference_singleton_L irq (requests c)) at 2 by done.
        rewrite elements_disj_union by set_solver. by rewrite elements_singleton. }
  intros Hp Hc Hwf. apply (Hrun _ s c g []); done.
Qed.

(** Exceptions are not lost or reordered: raising one when none is pending makes it
    the next event injected, with its number and error code, ahead of any request of the
    controller; a second one raised before that is refused and changes nothing. *)
Theorem raise_exception_inject s ex err ex' g :
  excp_pending (excp s) = 0 -> is_u 8 ex -> is_u 32 err ->
  exists e g', v3_raise_exception_with_error (excp s) ex err = (0, e) /\
    v3_raise_exception e ex' = (-1, e) /\
    svm_inject_intr (s <| excp := e |>) g =
      Done (0, s <| excp := mk_v3_excp_state 0 0 0 0 |>, g') /\
    ev_type g' = SVM_INJECTION_EXCEPTION /\ ev_vector g' = ex /\ ev_valid g' = 1 /\
    ev_ev g' = 1 /\ ev_error_code g' = err /\ V_IRQ g' = V_IRQ g.
Proof.
  intros Hp Hex Herr. unfold v3_raise_exception_with_error. rewrite Hp. simpl.
  destruct (inject_exception (s <| excp := mk_v3_excp_state 1 ex 1 err |>) g)
    as (g' & Heq & ? & Hvec & ? & ? & Herr'); [done|]. simpl in Hvec, Herr'.
  rewrite wrap_small in Hvec by done. destruct (Herr' eq_refl).
  by eexists _, g'.
Qed.

End injection.

(** ** IRQ hooks *)

(** A hooked line reaches its handler: after v3_hook_irq succeeds on a free line,
    v3_deliver_irq of that line runs the handler with its private data, other lines are
    delivered as before, and hooking the line again fails. *)
Theorem hook_irq_deliver {C} `{IntrCtrl C} call (s : v3_intr_state C) irq f priv :
  length (irq_hooks s) = 256%nat -> 0 <= irq < 256 -> get_irq_hook s irq = Done None ->
  exists s', v3_hook_irq s true 0 irq (other_handler f) priv = Done (0, s') /\
    v3_deliver_irq call s' irq = call f s' irq priv /\
    (forall i, 0 <= i < 256 -> i <> irq -> get_irq_hook s' i = get_irq_hook s i) /\
    (forall ok ret h p, v3_hook_irq s' ok ret irq h p = Done (-1, s')).
Proof.
  intros Hlen Hirq Hfree. unfold v3_hook_irq. simpl. rewrite Hfree. simpl.
  eexists. split; [reflexivity|].
  assert (forall o,
    get_irq_hook (s <| irq_hooks := <[Z.to_nat irq := o]> (irq_hooks s) |>) irq = Done o) as Hget.
  { intros o. unfold get_irq_hook. simpl. rewrite (proj2 (Z.leb_le _ _)) by lia. simpl.
    rewrite list_lookup_insert_eq by lia. done. }
  split_and!.
  - unfold v3_deliver_irq. by rewrite Hget.
  - intros i Hi Hne. unfold get_irq_hook. simpl. rewrite list_lookup_insert_ne by lia. done.
  - intros ok ret h p. destruct ok; [|done]. simpl. by rewrite Hget.
Qed.

(** The bound get_irq_hook asserts lets the line 256 through, which is outside the
    array of 256 hooks. *)
Lemma get_irq_hook_256 {C} (s : v3_intr_state C) :
  length (irq_hooks s) = 256%nat -> get_irq_hook s 256 = Undef.
Proof. intros Hlen. unfold get_irq_hook. simpl. by rewrite lookup_ge_None_2 by (rewrite Hlen; lia). Qed.

End Intr.
