(* ===== verification/Pic.v ===== *)
(** The 8259A interrupt controller pair: devices/8259a.c.

    [Module Pic] translates the controller operations of [struct intr_ctrl_ops] and the
    handlers of the four I/O ports.  The theorems show which interrupt it delivers, that
    it keeps the controller contract of Intr.v, and how the initialisation and
    end-of-interrupt commands change its registers. *)
From stdpp Require Import base tactics numbers list gmap sets.
From S2P Require Import Prelude Intr.

Module Pic.

(** ** Data *)

Inductive pic_state := RESET | ICW1 | ICW2 | ICW3 | ICW4 | READY.

#[export] Instance pic_state_eq_dec : EqDecision pic_state.
Proof. solve_decision. Defined.

Record pic_internal := mk_pic_internal {
  master_irr : Z;
  slave_irr : Z;
  master_isr : Z;
  slave_isr : Z;
  master_icw1 : Z;
  master_icw2 : Z;
  master_icw3 : Z;
  master_icw4 : Z;
  slave_icw1 : Z;
  slave_icw2 : Z;
  slave_icw3 : Z;
  slave_icw4 : Z;
  master_imr : Z;
  slave_imr : Z;
  master_ocw2 : Z;
  master_ocw3 : Z;
  slave_ocw2 : Z;
  slave_ocw3 : Z;
  master_state : pic_state;
  slave_state : pic_state;
}.

#[export] Instance eta_pic_internal : Eta pic_internal := fun p =>
  mk_pic_internal (master_irr p) (slave_irr p) (master_isr p) (slave_isr p)
    (master_icw1 p) (master_icw2 p) (master_icw3 p) (master_icw4 p)
    (slave_icw1 p) (slave_icw2 p) (slave_icw3 p) (slave_icw4 p)
    (master_imr p) (slave_imr p) (master_ocw2 p) (master_ocw3 p) (slave_ocw2 p) (slave_ocw3 p)
    (master_state p) (slave_state p).

Definition IS_ICW1 (x : Z) : bool := Z.shiftr (Z.land x 0x10) 4 =? 0x1.
Definition IS_OCW2 (x : Z) : bool := Z.shiftr (Z.land x 0x18) 3 =? 0x0.
Definition IS_OCW3 (x : Z) : bool := Z.shiftr (Z.land x 0x18) 3 =? 0x1.

(** Members of the control words. *)
Definition icw1_ic4 (cw : Z) : Z := field cw 0 1.
Definition icw1_sngl (cw : Z) : Z := field cw 1 1.
Definition ocw2_level (cw : Z) : Z := field cw 0 3.
Definition ocw2_EOI (cw : Z) : Z := field cw 5 1.
Definition ocw2_SL (cw : Z) : Z := field cw 6 1.
Definition ocw2_R (cw : Z) : Z := field cw 7 1.

(** ** Controller operations *)

(** [reg |= 1 << i] and [reg &= ~(1 << i)] on an unsigned char. *)
Definition set_bit (reg i : Z) : Z := u8 (Z.lor reg (Z.shiftl 0x01 i)).
Definition clear_bit (reg i : Z) : Z := u8 (Z.land reg (Z.lnot (Z.shiftl 0x01 i))).

(** A shift by a negative number is undefined. *)
Definition pic_raise_intr (state : pic_internal) (irq : Z) : outcome (Z * pic_internal) :=
  let '(irq, state) :=
    if irq =? 2 then (9, state <| master_irr := u8 (Z.lor (master_irr state) 0x04) |>)
    else (irq, state) in
  if irq <? 0 then Undef
  else if irq <=? 7 then
    Done (0, state <| master_irr := set_bit (master_irr state) irq |>)
  else if (irq >? 7) && (irq <? 16) then
    Done (0, state <| slave_irr := set_bit (slave_irr state) (irq - 8) |>)
  else Done (-1, state).

Definition pic_lower_intr (state : pic_internal) (irq : Z) : outcome (Z * pic_internal) :=
  if irq <? 0 then Undef
  else if irq <=? 7 then
    Done (0, state <| master_irr := clear_bit (master_irr state) irq |>)
  else if (irq >? 7) && (irq <? 16) then
    Done (0, state <| slave_irr := clear_bit (slave_irr state) (irq - 8) |>)
  else Done (0, state).

Definition master_reqs (state : pic_internal) : Z :=
  Z.land (master_irr state) (Z.lnot (master_imr state)).
Definition slave_reqs (state : pic_internal) : Z :=
  Z.land (slave_irr state) (Z.lnot (slave_imr state)).

Definition pic_intr_pending (state : pic_internal) : Z :=
  if negb (master_reqs state =? 0) || negb (slave_reqs state =? 0) then 1 else 0.

(** The loop of pic_get_intr_number from [i], with [n] iterations left. *)
Fixpoint get_intr_number_loop (n : nat) (state : pic_internal) (i : Z) : Z :=
  match n with
  | O => -1
  | S n =>
    if i <=? 7 then
      if Z.shiftr (master_reqs state) i =? 0x01 then i + master_icw2 state
      else get_intr_number_loop n state (i + 1)
    else
      if Z.shiftr (slave_reqs state) (i - 8) =? 0x01 then (i - 8) + slave_icw2 state
      else get_intr_number_loop n state (i + 1)
  end.

Definition pic_get_intr_number (state : pic_internal) : Z := get_intr_number_loop 16 state 0.

Definition pic_begin_irq (state : pic_internal) (irq : Z) : outcome (Z * pic_internal) :=
  let found :=
    if (irq >=? master_icw2 state) && (irq <=? master_icw2 state + 7) then
      Some (Z.land irq 0x7)
    else if (irq >=? slave_icw2 state) && (irq <=? slave_icw2 state + 7) then
      Some (Z.land irq 0x7 + 8)
    else None in
  match found with
  | None => Done (-1, state)
  | Some irq =>
      if irq <=? 7 then
        if Z.shiftr (master_reqs state) irq =? 0x01 then
          Done (0, state <| master_isr := set_bit (master_isr state) irq |>
                         <| master_irr := clear_bit (master_irr state) irq |>)
        else Done (0, state)
      else
        Done (0, state <| slave_isr := set_bit (slave_isr state) (irq - 8) |>
                       <| slave_irr := clear_bit (slave_irr state) (irq - 8) |>)
  end.

(** [intr_ops] *)
#[export] Instance intr_ops : IntrCtrl pic_internal := {|
  intr_pending := pic_intr_pending;
  get_intr_number := pic_get_intr_number;
  raise_intr := pic_raise_intr;
  lower_intr := pic_lower_intr;
  begin_irq := pic_begin_irq;
|}.

(** ** Port handlers: the result and the byte read *)

Definition read_master_port1 (state : pic_internal) (dst length : Z) : Z * Z :=
  if negb (length =? 1) then (-1, dst)
  else if Z.land (master_ocw3 state) 0x03 =? 0x02 then (1, master_irr state)
  else if Z.land (master_ocw3 state) 0x03 =? 0x03 then (1, master_isr state)
  else (1, 0).

Definition read_master_port2 (state : pic_internal) (dst length : Z) : Z * Z :=
  if negb (length =? 1) then (-1, dst) else (1, master_imr state).

Definition read_slave_port1 (state : pic_internal) (dst length : Z) : Z * Z :=
  if negb (length =? 1) then (-1, dst)
  else if Z.land (slave_ocw3 state) 0x03 =? 0x02 then (1, slave_irr state)
  else if Z.land (slave_ocw3 state) 0x03 =? 0x03 then (1, slave_isr state)
  else (1, 0).

Definition read_slave_port2 (state : pic_internal) (dst length : Z) : Z * Z :=
  if negb (length =? 1) then (-1, dst) else (1, slave_imr state).

(** The loop of a non-specific end of interrupt. *)
Fixpoint eoi_loop (n : nat) (isr i : Z) : Z :=
  match n with
  | O => isr
  | S n => if negb (Z.land isr (Z.shiftl 0x01 i) =? 0) then clear_bit isr i
           else eoi_loop n isr (i + 1)
  end.

(** The new in-service register after the OCW2 [cw], if it is a handled command. *)
Definition handle_ocw2 (isr cw : Z) : option Z :=
  if negb (ocw2_EOI cw =? 0) && (ocw2_R cw =? 0) && negb (ocw2_SL cw =? 0) then
    Some (clear_bit isr (ocw2_level cw))
  else if negb (ocw2_EOI cw =? 0) && (ocw2_R cw =? 0) && (ocw2_SL cw =? 0) then
    Some (eoi_loop 8 isr 0)
  else None.

Definition write_master_port1 (state : pic_internal) (cw length : Z) : Z * pic_internal :=
  if negb (length =? 1) then (-1, state)
  else if IS_ICW1 cw then (1, state <| master_icw1 := cw |> <| master_state := ICW2 |>)
  else if decide (master_state state = READY) then
    if IS_OCW2 cw then
      match handle_ocw2 (master_isr state) cw with
      | Some isr => (1, state <| master_isr := isr |> <| master_ocw2 := cw |>)
      | None => (-1, state)
      end
    else if IS_OCW3 cw then (1, state <| master_ocw3 := cw |>)
    else (-1, state)
  else (-1, state).

Definition write_master_port2 (state : pic_internal) (cw length : Z) : Z * pic_internal :=
  if negb (length =? 1) then (-1, state) else
  match master_state state with
  | ICW2 =>
      let state := state <| master_icw2 := cw |> in
      let cw1 := master_icw1 state in
      if icw1_sngl cw1 =? 0 then (1, state <| master_state := ICW3 |>)
      else if icw1_ic4 cw1 =? 1 then (1, state <| master_state := ICW4 |>)
      else (1, state <| master_state := READY |>)
  | ICW3 =>
      let cw1 := master_icw1 state in
      let state := state <| master_icw3 := cw |> in
      if icw1_ic4 cw1 =? 1 then (1, state <| master_state := ICW4 |>)
      else (1, state <| master_state := READY |>)
  | ICW4 => (1, state <| master_icw4 := cw |> <| master_state := READY |>)
  | READY => (1, state <| master_imr := cw |>)
  | _ => (-1, state)
  end.

Definition write_slave_port1 (state : pic_internal) (cw length : Z) : Z * pic_internal :=
  if negb (length =? 1) then (-1, state)
  else if IS_ICW1 cw then (1, state <| slave_icw1 := cw |> <| slave_state := ICW2 |>)
  else if decide (slave_state state = READY) then
    if IS_OCW2 cw then
      match handle_ocw2 (slave_isr state) cw with
      | Some isr => (1, state <| slave_isr := isr |> <| slave_ocw2 := cw |>)
      | None => (-1, state)
      end
    else if IS_OCW3 cw then (1, state <| slave_ocw3 := cw |>)
    else (-1, state)
  else (-1, state).

(** The first control word consulted is the master's. *)
Definition write_slave_port2 (state : pic_internal) (cw length : Z) : Z * pic_internal :=
  if negb (length =? 1) then (-1, state) else
  match slave_state state with
  | ICW2 =>
      let cw1 := master_icw1 state in
      let state := state <| slave_icw2 := cw |> in
      if icw1_sngl cw1 =? 0 then (1, state <| slave_state := ICW3 |>)
      else if icw1_ic4 cw1 =? 1 then (1, state <| slave_state := ICW4 |>)
      else (1, state <| slave_state := READY |>)
  | ICW3 =>
      let cw1 := master_icw1 state in
      let state := state <| slave_icw3 := cw |> in
      if icw1_ic4 cw1 =? 1 then (1, state <| slave_state := ICW4 |>)
      else (1, state <| slave_state := READY |>)
  | ICW4 => (1, state <| slave_icw4 := cw |> <| slave_state := READY |>)
  | READY => (1, state <| slave_imr := cw |>)
  | _ => (-1, state)
  end.

(** The registers pic_init assigns: all of them. *)
Definition pic_init : pic_internal :=
  mk_pic_internal 0 0 0 0 0 0 0 0 0 0 0 0 0 0 0 0x02 0 0x02 ICW1 ICW1.

(** ** Which interrupt is delivered *)

Lemma shiftr_is_log2 x i : 0 <= i -> 0 < x -> Z.shiftr x i = 1 <-> i = Z.log2 x.
Proof.
  intros Hi Hx. rewrite Z.shiftr_div_pow2 by done. split.
  - intros Hd. symmetry. apply Z.log2_unique; [done|]. rewrite Z.pow_succ_r by done.
    pose proof (Z.div_mod x (2 ^ i)). pose proof (Z.mod_pos_bound x (2 ^ i)). nia.
  - intros ->. pose proof (Z.log2_spec x Hx) as Hs. rewrite Z.pow_succ_r in Hs by done.
    symmetry. apply (Z.div_unique_pos _ _ _ (x - 2 ^ Z.log2 x)); lia.
Qed.

Lemma land_u8 a b : is_u 8 a -> is_u 8 (Z.land a b).
Proof.
  unfold is_u. intros Ha. destruct (decide (Z.land a b = 0)) as [->|]; [lia|].
  assert (0 <= Z.land a b) by (apply Z.land_nonneg; lia).
  split; [done|]. apply Z.log2_lt_pow2; [lia|].
  apply (Z.le_lt_trans _ (Z.log2 a)); [|apply Z.log2_lt_pow2; [|lia]].
  - apply Z.le_ngt. intros Hlt. assert (Z.testbit (Z.land a b) (Z.log2 (Z.land a b)) = true) as Hb
      by (apply Z.bit_log2; lia).
    rewrite Z.land_spec, Z.bits_above_log2 in Hb by lia. done.
  - assert (a <> 0) by (intros ->; by rewrite Z.land_0_l in *). lia.
Qed.

Record wf (p : pic_internal) : Prop := {
  wf_mirr : is_u 8 (master_irr p);
  wf_sirr : is_u 8 (slave_irr p);
  wf_mvec : exists k, master_icw2 p = 8 * k /\ 0 <= k < 32;
  wf_svec : exists k, slave_icw2 p = 8 * k /\ 0 <= k < 32;
  wf_ne : master_icw2 p <> slave_icw2 p;
}.

Lemma reqs_u8 p : wf p -> is_u 8 (master_reqs p) /\ is_u 8 (slave_reqs p).
Proof. intros []. split; by apply land_u8. Qed.

Lemma log2_u8 x : is_u 8 x -> 0 < x -> 0 <= Z.log2 x <= 7.
Proof.
  intros Hx Hp. split; [apply Z.log2_nonneg|]. apply Z.lt_succ_r. change (Z.succ 7) with 8.
  apply Z.log2_lt_pow2; [done|apply Hx].
Qed.

(** The loop passes over the lines below the one whose request is the highest bit. *)
Lemma loop_master n p i :
  0 < master_reqs p -> 0 <= i <= Z.log2 (master_reqs p) -> Z.log2 (master_reqs p) <= 7 ->
  (Z.to_nat (8 - i) <= n)%nat ->
  get_intr_number_loop n p i = Z.log2 (master_reqs p) + master_icw2 p.
Proof.
  intros Hm. revert i. induction n as [|n IH]; intros i Hi H7 Hn; [lia|].
  cbn [get_intr_number_loop]. rewrite (proj2 (Z.leb_le i 7)) by lia.
  destruct (Z.eqb_spec (Z.shiftr (master_reqs p) i) 1) as [Heq|Hne].
  - apply shiftr_is_log2 in Heq; lia.
  - assert (i <> Z.log2 (master_reqs p)) by (rewrite shiftr_is_log2 in Hne; lia).
    apply IH; lia.
Qed.

Lemma loop_slave n p i :
  0 < slave_reqs p -> 8 <= i <= 8 + Z.log2 (slave_reqs p) -> Z.log2 (slave_reqs p) <= 7 ->
  (Z.to_nat (16 - i) <= n)%nat ->
  get_intr_number_loop n p i = Z.log2 (slave_reqs p) + slave_icw2 p.
Proof.
  intros Hm. revert i. induction n as [|n IH]; intros i Hi H7 Hn; [lia|].
  cbn [get_intr_number_loop]. rewrite (proj2 (Z.leb_gt i 7)) by lia.
  destruct (Z.eqb_spec (Z.shiftr (slave_reqs p) (i - 8)) 1) as [Heq|Hne].
  - apply shiftr_is_log2 in Heq; lia.
  - assert (i - 8 <> Z.log2 (slave_reqs p)) by (rewrite shiftr_is_log2 in Hne; lia).
    apply IH; lia.
Qed.

Lemma loop_skip_master p :
  master_reqs p = 0 -> get_intr_number_loop 16 p 0 = get_intr_number_loop 8 p 8.
Proof. intros Hm. cbn. by rewrite Hm. Qed.

Lemma get_intr_number_eq p :
  wf p ->
  pic_get_intr_number p =
    if decide (master_reqs p <> 0) then master_icw2 p + Z.log2 (master_reqs p)
    else if decide (slave_reqs p <> 0) then slave_icw2 p + Z.log2 (slave_reqs p)
    else -1.
Proof.
  intros Hwf. destruct (reqs_u8 p Hwf) as [Hm Hs]. unfold pic_get_intr_number.
  pose proof Hm as [? _]. pose proof Hs as [? _]. case_decide as H1.
  - pose proof (log2_u8 _ Hm ltac:(lia)). rewrite loop_master by (done || lia). lia.
  - rewrite loop_skip_master by done. case_decide as H2.
    + pose proof (log2_u8 _ Hs ltac:(lia)). rewrite loop_slave by (done || lia). lia.
    + cbn. by rewrite H2.
Qed.

(** pic_get_intr_number delivers the unmasked request of the highest line number:
    one of the master if there is any, otherwise one of the slave; -1 when there is
    none.  On an 8259A line 0 has the highest priority, so requests that are pending
    together are delivered in the reverse order. *)
Theorem pic_get_intr_number_highest p :
  wf p ->
  let reqs := if decide (master_reqs p <> 0) then master_reqs p else slave_reqs p in
  let base := if decide (master_reqs p <> 0) then master_icw2 p else slave_icw2 p in
  if decide (reqs = 0) then pic_get_intr_number p = -1
  else exists i, pic_get_intr_number p = base + i /\ Z.testbit reqs i = true /\
    (forall j, Z.testbit reqs j = true -> j <= i).
Proof.
  intros Hwf. cbv zeta. rewrite get_intr_number_eq by done.
  destruct (reqs_u8 p Hwf) as [[Hm _] [Hs _]].
  assert (forall x, 0 < x -> Z.testbit x (Z.log2 x) = true /\
    forall j, Z.testbit x j = true -> j <= Z.log2 x) as Hbit.
  { intros x Hx. split; [by apply Z.bit_log2|]. intros j Hj. apply Z.le_ngt. intros Hlt.
    rewrite Z.bits_above_log2 in Hj by lia. done. }
  destruct (decide (master_reqs p <> 0)) as [Hne|Hz].
  - rewrite decide_False by done. eexists. split; [done|]. apply Hbit. lia.
  - case_decide as H0; [by rewrite decide_False by auto|].
    rewrite decide_True by done. eexists. split; [done|]. apply Hbit. lia.
Qed.

(** ** The controller contract *)

Definition line (p : pic_internal) (irq : Z) : bool :=
  if irq <? 8 then Z.testbit (master_reqs p) irq else Z.testbit (slave_reqs p) (irq - 8).

Definition pic_requests (p : pic_internal) : gset Z :=
  list_to_set (filter (fun irq => line p irq = true) (seqZ 0 16)).

Definition pic_vector (p : pic_internal) (irq : Z) : Z :=
  if irq <? 8 then master_icw2 p + irq else slave_icw2 p + (irq - 8).

Lemma elem_of_requests p irq : irq ∈ pic_requests p <-> 0 <= irq < 16 /\ line p irq = true.
Proof.
  unfold pic_requests. rewrite elem_of_list_to_set, list_elem_of_filter, elem_of_seqZ. tauto.
Qed.

Lemma requests_empty p :
  wf p -> pic_requests p = ∅ <-> master_reqs p = 0 /\ slave_reqs p = 0.
Proof.
  intros Hwf. destruct (reqs_u8 p Hwf) as [Hm Hs]. split.
  - intros He. assert (forall irq, 0 <= irq < 16 -> line p irq = false) as Hno.
    { intros irq Hi. destruct (line p irq) eqn:E; [|done]. exfalso.
      assert (irq ∈ pic_requests p) by (by apply elem_of_requests). set_solver. }
    split; apply dec_stable; intros Hne.
    + pose proof (log2_u8 _ Hm ltac:(unfold is_u in *; lia)).
      specialize (Hno (Z.log2 (master_reqs p)) ltac:(lia)). unfold line in Hno.
      rewrite (proj2 (Z.ltb_lt _ _)), Z.bit_log2 in Hno by (unfold is_u in *; lia). done.
    + pose proof (log2_u8 _ Hs ltac:(unfold is_u in *; lia)).
      specialize (Hno (8 + Z.log2 (slave_reqs p)) ltac:(lia)). unfold line in Hno.
      rewrite (proj2 (Z.ltb_ge _ _)) in Hno by lia.
      replace (8 + Z.log2 (slave_reqs p) - 8) with (Z.log2 (slave_reqs p)) in Hno by lia.
      rewrite Z.bit_log2 in Hno by (unfold is_u in *; lia). done.
  - intros [H1 H2]. apply set_eq. intros irq. rewrite elem_of_requests. unfold line.
    rewrite H1, H2, !Z.testbit_0_l. destruct (irq <? 8); set_solver.
Qed.

Lemma clear_bit_spec r k i :
  is_u 8 r -> 0 <= k -> is_u 8 (clear_bit r k) /\
  (0 <= i -> Z.testbit (clear_bit r k) i = Z.testbit r i && negb (i =? k)).
Proof.
  intros Hr Hk. unfold clear_bit. pose proof (land_u8 r (Z.lnot (Z.shiftl 1 k)) Hr) as Hl.
  rewrite wrap_small by done. split; [done|]. intros Hi.
  rewrite Z.land_spec, Z.lnot_spec, Z.shiftl_spec by done. f_equal. f_equal.
  destruct (Z.eqb_spec i k) as [->|]; [by rewrite Z.sub_diag|].
  destruct (Z.lt_ge_cases i k); [by rewrite Z.testbit_neg_r by lia|].
  change 1 with (2 ^ 0). by rewrite Z.pow2_bits_false by lia.
Qed.

(** Starting the interrupt of line [k] of the master or the slave. *)
Lemma begin_master p :
  wf p -> master_reqs p <> 0 ->
  let k := Z.log2 (master_reqs p) in
  exists p', pic_begin_irq p (master_icw2 p + k) = Done (0, p') /\
    master_irr p' = clear_bit (master_irr p) k /\ slave_irr p' = slave_irr p /\
    master_isr p' = set_bit (master_isr p) k /\ slave_isr p' = slave_isr p /\
    master_icw2 p' = master_icw2 p /\ slave_icw2 p' = slave_icw2 p /\
    master_imr p' = master_imr p /\ slave_imr p' = slave_imr p /\
    p' = p <| master_isr := set_bit (master_isr p) k |>
           <| master_irr := clear_bit (master_irr p) k |>.
Proof.
  intros Hwf Hne k. destruct (reqs_u8 p Hwf) as [Hm _].
  assert (0 < master_reqs p) as Hpos by (unfold is_u in *; lia).
  pose proof (log2_u8 _ Hm Hpos) as Hk. fold k in Hk.
  destruct (wf_mvec p Hwf) as (a & Ha & _). unfold pic_begin_irq.
  rewrite (proj2 (andb_true_iff _ _)) by lia.
  assert (Z.land (master_icw2 p + k) 7 = k) as ->.
  { change 7 with (Z.ones 3). rewrite Z.land_ones by done. rewrite Ha, Z.add_comm, Z.mul_comm.
    change (2 ^ 3) with 8. rewrite Z.mod_add by done. apply Z.mod_small. lia. }
  rewrite (proj2 (Z.leb_le _ _)) by lia.
  rewrite (proj2 (Z.eqb_eq _ _)) by (apply shiftr_is_log2; lia || done).
  eexists. split_and!; [reflexivity|done..].
Qed.

Lemma begin_slave p :
  wf p -> slave_reqs p <> 0 ->
  let k := Z.log2 (slave_reqs p) in
  exists p', pic_begin_irq p (slave_icw2 p + k) = Done (0, p') /\
    master_irr p' = master_irr p /\ slave_irr p' = clear_bit (slave_irr p) k /\
    master_isr p' = master_isr p /\ slave_isr p' = set_bit (slave_isr p) k /\
    master_icw2 p' = master_icw2 p /\ slave_icw2 p' = slave_icw2 p /\
    master_imr p' = master_imr p /\ slave_imr p' = slave_imr p.
Proof.
  intros Hwf Hne k. destruct (reqs_u8 p Hwf) as [_ Hs].
  assert (0 < slave_reqs p) as Hpos by (unfold is_u in *; lia).
  pose proof (log2_u8 _ Hs Hpos) as Hk. fold k in Hk.
  destruct (wf_svec p Hwf) as (a & Ha & _). destruct (wf_mvec p Hwf) as (b & Hb & _).
  pose proof (wf_ne p Hwf) as Hd. unfold pic_begin_irq.
  rewrite (proj2 (andb_false_iff _ _)) by lia. rewrite (proj2 (andb_true_iff _ _)) by lia.
  assert (Z.land (slave_icw2 p + k) 7 = k) as ->.
  { change 7 with (Z.ones 3). rewrite Z.land_ones by done. rewrite Ha, Z.add_comm, Z.mul_comm.
    change (2 ^ 3) with 8. rewrite Z.mod_add by done. apply Z.mod_small. lia. }
  rewrite (proj2 (Z.leb_gt _ _)) by lia. replace (k + 8 - 8) with k by lia.
  eexists. split_and!; [reflexivity|done..].
Qed.

(** Clearing the request of one line leaves the others. *)
Lemma reqs_clear irr imr k i :
  is_u 8 irr -> 0 <= k -> 0 <= i ->
  Z.testbit (Z.land (clear_bit irr k) (Z.lnot imr)) i =
  Z.testbit (Z.land irr (Z.lnot imr)) i && negb (i =? k).
Proof.
  intros Hr Hk Hi. rewrite !Z.land_spec. destruct (clear_bit_spec irr k i Hr Hk) as [_ ->]; [|done].
  by destruct (Z.testbit irr i), (i =? k), (Z.testbit (Z.lnot imr) i).
Qed.

Lemma requests_step p p' irq :
  (forall i, 0 <= i < 16 -> line p' i = line p i && negb (i =? irq)) ->
  pic_requests p' = pic_requests p ∖ {[irq]}.
Proof.
  intros Hl. apply set_eq. intros i.
  rewrite elem_of_difference, elem_of_singleton, !elem_of_requests. split.
  - intros [Hi H]. rewrite Hl in H by done. destruct (Z.eqb_spec i irq); destruct (line p i); naive_solver.
  - intros [[Hi H] Hne]. split; [done|]. rewrite Hl, H by done.
    by rewrite (proj2 (Z.eqb_neq i irq)).
Qed.

Lemma requests_nonempty p :
  wf p -> pic_requests p <> ∅ -> master_reqs p <> 0 \/ (master_reqs p = 0 /\ slave_reqs p <> 0).
Proof. intros Hwf. rewrite requests_empty by done. lia. Qed.

(** The interrupt of line [irq] is delivered and started, from [p] to [p']. *)
Record starts (p : pic_internal) (irq : Z) (p' : pic_internal) : Prop := {
  st_request : irq ∈ pic_requests p;
  st_number : pic_get_intr_number p = pic_vector p irq;
  st_begin : pic_begin_irq p (pic_vector p irq) = Done (0, p');
  st_wf : wf p';
  st_removed : pic_requests p' = pic_requests p ∖ {[irq]};
  st_vector : pic_vector p' = pic_vector p;
  st_isr : if irq <? 8
           then master_isr p' = set_bit (master_isr p) irq /\ slave_isr p' = slave_isr p
           else slave_isr p' = set_bit (slave_isr p) (irq - 8) /\ master_isr p' = master_isr p;
}.

Lemma begin_master_ok p :
  wf p -> master_reqs p <> 0 ->
  exists irq p', starts p irq p'.
Proof.
  intros Hwf Hne. destruct (reqs_u8 p Hwf) as [Hm _].
  assert (0 < master_reqs p) as Hpos by (unfold is_u in *; lia).
  pose proof (log2_u8 _ Hm Hpos) as Hk.
  destruct (begin_master p Hwf Hne) as (p' & Hb & Hmi & Hsi & Hisr & Hisr' & Hv1 & Hv2 & Hi1 & Hi2 & _).
  exists (Z.log2 (master_reqs p)), p'.
  assert (pic_vector p (Z.log2 (master_reqs p)) = master_icw2 p + Z.log2 (master_reqs p)) as Hvec.
  { unfold pic_vector. by rewrite (proj2 (Z.ltb_lt _ _)) by lia. }
  split; rewrite ?Hvec; [| |done| | | |].
  - rewrite elem_of_requests. split; [lia|]. unfold line.
    rewrite (proj2 (Z.ltb_lt _ _)) by lia. by apply Z.bit_log2.
  - rewrite get_intr_number_eq by done. by rewrite decide_True.
  - destruct Hwf. split; rewrite ?Hmi, ?Hsi, ?Hv1, ?Hv2; try done.
    apply (clear_bit_spec _ _ 0); [done|lia].
  - set (k := Z.log2 (master_reqs p)) in *. clearbody k.
    apply requests_step. intros i Hi. unfold line, master_reqs, slave_reqs.
    rewrite Hmi, Hsi, Hi1, Hi2. destruct (Z.ltb_spec i 8).
    + apply reqs_clear; [apply Hwf|lia|lia].
    + rewrite (proj2 (Z.eqb_neq i _)) by lia. by rewrite andb_true_r.
  - unfold pic_vector. by rewrite Hv1, Hv2.
  - by rewrite (proj2 (Z.ltb_lt _ _)) by lia.
Qed.

Lemma begin_slave_ok p :
  wf p -> master_reqs p = 0 -> slave_reqs p <> 0 ->
  exists irq p', starts p irq p'.
Proof.
  intros Hwf Hz Hne. destruct (reqs_u8 p Hwf) as [_ Hs].
  assert (0 < slave_reqs p) as Hpos by (unfold is_u in *; lia).
  pose proof (log2_u8 _ Hs Hpos) as Hk.
  destruct (begin_slave p Hwf Hne) as (p' & Hb & Hmi & Hsi & Hisr & Hisr' & Hv1 & Hv2 & Hi1 & Hi2).
  exists (8 + Z.log2 (slave_reqs p)), p'.
  assert (pic_vector p (8 + Z.log2 (slave_reqs p)) = slave_icw2 p + Z.log2 (slave_reqs p)) as Hvec.
  { unfold pic_vector. rewrite (proj2 (Z.ltb_ge _ _)) by lia. lia. }
  split; rewrite ?Hvec; [| |done| | | |].
  - rewrite elem_of_requests. split; [lia|]. unfold line.
    rewrite (proj2 (Z.ltb_ge _ _)) by lia.
    replace (8 + Z.log2 (slave_reqs p) - 8) with (Z.log2 (slave_reqs p)) by lia.
    by apply Z.bit_log2.
  - rewrite get_intr_number_eq by done. rewrite decide_False by auto. by rewrite decide_True.
  - destruct Hwf. split; rewrite ?Hmi, ?Hsi, ?Hv1, ?Hv2; try done.
    apply (clear_bit_spec _ _ 0); [done|lia].
  - set (k := Z.log2 (slave_reqs p)) in *. clearbody k.
    apply requests_step. intros i Hi. unfold line, master_reqs, slave_reqs.
    rewrite Hmi, Hsi, Hi1, Hi2. destruct (Z.ltb_spec i 8).
    + rewrite (proj2 (Z.eqb_neq i _)) by lia. by rewrite andb_true_r.
    + rewrite reqs_clear by (apply Hwf || lia). f_equal. f_equal.
      destruct (Z.eqb_spec i (8 + k)), (Z.eqb_spec (i - 8) k); done || lia.
  - unfold pic_vector. by rewrite Hv1, Hv2.
  - rewrite (proj2 (Z.ltb_ge _ _)) by lia.
    by replace (8 + Z.log2 (slave_reqs p) - 8) with (Z.log2 (slave_reqs p)) by lia.
Qed.

Lemma begin_ok p : wf p -> pic_requests p <> ∅ -> exists irq p', starts p irq p'.
Proof.
  intros Hwf Hne. destruct (requests_nonempty p Hwf Hne) as [?|[? ?]].
  - by apply begin_master_ok.
  - by apply begin_slave_ok.
Qed.

Lemma pending_requests p : wf p -> pic_intr_pending p = if decide (pic_requests p = ∅) then 0 else 1.
Proof.
  intros Hwf. unfold pic_intr_pending. pose proof (requests_empty p Hwf) as He.
  case_decide as Hd; [by destruct (proj1 He Hd) as [-> ->]|].
  destruct (Z.eqb_spec (master_reqs p) 0), (Z.eqb_spec (slave_reqs p) 0); tauto.
Qed.

#[export, program] Instance pic_ok : IntrCtrlOk pic_internal := {|
  ctrl_wf := wf;
  requests := pic_requests;
  vector := pic_vector;
|}.
Next Obligation.
  intros p irq Hwf Hin. apply elem_of_requests in Hin as [Hi _]. unfold pic_vector.
  destruct (wf_mvec p Hwf) as (a & -> & ?), (wf_svec p Hwf) as (b & -> & ?).
  destruct (irq <? 8) eqn:E; lia.
Qed.
Next Obligation.
  exact pending_requests.
Qed.
Next Obligation.
  intros p Hwf Hne. destruct (begin_ok p Hwf Hne) as (irq & p' & Hs). exists irq, p'.
  destruct Hs. done.
Qed.

(** pic_begin_irq of the number pic_get_intr_number returned starts that interrupt:
    its request bit is cleared and its in-service bit set, and every other request and
    the masks and vectors stay.  The vector bases must be distinct multiples of 8. *)
Theorem pic_begin_irq_starts p :
  wf p -> pic_intr_pending p = 1 ->
  exists irq p', irq ∈ pic_requests p /\ pic_begin_irq p (pic_get_intr_number p) = Done (0, p') /\
    wf p' /\ pic_requests p' = pic_requests p ∖ {[irq]} /\
    (if irq <? 8 then master_isr p' = set_bit (master_isr p) irq /\ slave_isr p' = slave_isr p
     else slave_isr p' = set_bit (slave_isr p) (irq - 8) /\ master_isr p' = master_isr p).
Proof.
  intros Hwf Hp. rewrite pending_requests in Hp by done. case_decide as Hd; [done|].
  destruct (begin_ok p Hwf Hd) as (irq & p' & [? Hn ? ? ? ? ?]). exists irq, p'.
  by rewrite Hn.
Qed.

(** The controllers as a PC BIOS sets them up, with lines 1 and 4 requested. *)
Definition pic_demo : pic_internal :=
  pic_init <| master_icw2 := 0x20 |> <| slave_icw2 := 0x28 |> <| master_irr := 0x12 |>
           <| master_state := READY |> <| slave_state := READY |>.

Lemma wf_pic_demo : wf pic_demo.
Proof.
  split; [done|done|exists 4; done|exists 5; done|done].
Qed.

Lemma pic_begin_irq_starts_witness :
  exists p', pic_begin_irq pic_demo (pic_get_intr_number pic_demo) = Done (0, p') /\ wf p'.
Proof.
  destruct (pic_begin_irq_starts pic_demo wf_pic_demo eq_refl) as (irq & p' & _ & H1 & H2 & _).
  by exists p'.
Defined.

Lemma pic_get_intr_number_highest_witness :
  exists i, pic_get_intr_number pic_demo = 0x20 + i /\ 4 <= i.
Proof.
  destruct (pic_get_intr_number_highest pic_demo wf_pic_demo) as (i & Heq & _ & Hmax).
  exists i. split; [exact Heq|by apply (Hmax 4)].
Defined.

(** ** One interrupt from request to end *)

(** A non-specific end of interrupt clears the lowest bit that is set. *)
Lemma eoi_lowest isr : is_u 8 isr -> eoi_loop 8 isr 0 = Z.land isr (isr - 1).
Proof.
  intros Hi. assert (forallb (fun x => eoi_loop 8 x 0 =? Z.land x (x - 1)) (seqZ 0 256) = true)
    as Hall by (vm_compute; reflexivity).
  rewrite forallb_forall in Hall. apply Z.eqb_eq, Hall. apply list_elem_of_In, elem_of_seqZ.
  unfold is_u in Hi. lia.
Qed.

Lemma land_lnot_pow2 k imr :
  0 <= k -> Z.testbit imr k = false -> Z.land (2 ^ k) (Z.lnot imr) = 2 ^ k.
Proof.
  intros Hk Hm. apply Z.bits_inj'. intros i Hi. rewrite Z.land_spec, Z.lnot_spec by done.
  destruct (decide (i = k)) as [->|]; [by rewrite Hm, andb_true_r|].
  by rewrite Z.pow2_bits_false.
Qed.

Lemma land_pow2_pred k : 0 <= k -> Z.land (2 ^ k) (2 ^ k - 1) = 0.
Proof.
  intros Hk. rewrite Z.sub_1_r, <- Z.ones_equiv, Z.land_ones by done.
  apply Z.mod_same. lia.
Qed.

(** C23. The cycle of an interrupt: on idle, initialised controllers a request on an
    unmasked master line other than the cascade is delivered with the vector of that
    line, is in service once started, and the end-of-interrupt command returns the
    controllers to the state they were in (but for the copy of the command word). *)
Theorem pic_interrupt_cycle p k :
  wf p -> master_state p = READY -> master_irr p = 0 -> master_isr p = 0 ->
  0 <= k <= 7 -> k <> 2 -> Z.testbit (master_imr p) k = false ->
  exists p1 p2, pic_raise_intr p k = Done (0, p1) /\
    pic_get_intr_number p1 = master_icw2 p + k /\
    pic_begin_irq p1 (master_icw2 p + k) = Done (0, p2) /\
    master_irr p2 = 0 /\ master_isr p2 = 2 ^ k /\
    write_master_port1 p2 0x20 1 = (1, p <| master_ocw2 := 0x20 |>).
Proof.
  intros Hwf Hst Hirr Hisr Hk H2 Hmask.
  set (p1 := p <| master_irr := 2 ^ k |>).
  assert (is_u 8 (2 ^ k)) as Hu.
  { unfold is_u. split; [lia|]. apply Z.pow_lt_mono_r; lia. }
  assert (wf p1) as Hwf1 by (destruct Hwf; by split).
  assert (master_reqs p1 = 2 ^ k) as Hreq by (apply land_lnot_pow2; [lia|done]).
  assert (Z.log2 (master_reqs p1) = k) as Hlog by (rewrite Hreq; apply Z.log2_pow2; lia).
  assert (master_reqs p1 <> 0) as Hne by lia.
  assert (forall k, 0 <= k <= 7 -> set_bit 0 k = 2 ^ k /\ clear_bit (2 ^ k) k = 0) as Hbits.
  { assert (forallb (fun k => (set_bit 0 k =? 2 ^ k) && (clear_bit (2 ^ k) k =? 0)) (seqZ 0 8)
      = true) as Hall by reflexivity.
    intros i Hi. rewrite forallb_forall in Hall.
    specialize (Hall i ltac:(apply list_elem_of_In, elem_of_seqZ; lia)).
    apply andb_true_iff in Hall as [?%Z.eqb_eq ?%Z.eqb_eq]. done. }
  destruct (Hbits k Hk) as [Hset Hclr].
  set (p2 := p1 <| master_isr := set_bit (master_isr p1) k |>
                <| master_irr := clear_bit (master_irr p1) k |>).
  exists p1, p2. split_and!.
  - unfold pic_raise_intr. rewrite (proj2 (Z.eqb_neq k 2)) by done.
    rewrite (proj2 (Z.ltb_ge k 0)), (proj2 (Z.leb_le k 7)) by lia. by rewrite Hirr, Hset.
  - rewrite get_intr_number_eq, decide_True, Hlog by done. done.
  - destruct (begin_master p1 Hwf1 Hne) as (p2' & Hb & _ & _ & _ & _ & _ & _ & _ & _ & ->).
    rewrite Hlog in Hb. exact Hb.
  - exact Hclr.
  - unfold p2, p1. simpl. by rewrite Hisr.
  - assert (handle_ocw2 (master_isr p2) 0x20 = Some 0) as Heoi.
    { change (master_isr p2) with (set_bit (master_isr p) k). rewrite Hisr, Hset.
      change (Some (eoi_loop 8 (2 ^ k) 0) = Some 0). f_equal.
      rewrite eoi_lowest by done. apply land_pow2_pred. lia. }
    unfold write_master_port1. rewrite Heoi, decide_True by done.
    unfold p2, p1, update_field. simpl. by rewrite Hclr, Hirr, Hisr.
Qed.

Lemma pic_interrupt_cycle_witness :
  exists p1 p2, pic_raise_intr (pic_demo <| master_irr := 0 |>) 4 = Done (0, p1) /\
    pic_begin_irq p1 (pic_get_intr_number p1) = Done (0, p2).
Proof.
  destruct (pic_interrupt_cycle (pic_demo <| master_irr := 0 |>) 4)
    as (p1 & p2 & H1 & H2 & H3 & _); [|done..|].
  - split; [done|done|exists 4; done|exists 5; done|done].
  - exists p1, p2. split; [done|]. by rewrite H2.
Defined.

(** ** Initialisation *)

(** The writes of [ws] to a command port, all accepted. *)
Fixpoint writes (port : pic_internal -> Z -> Z -> Z * pic_internal) (p : pic_internal)
    (ws : list Z) : option pic_internal :=
  match ws with
  | [] => Some p
  | w :: ws => let '(ret, p) := port p w 1 in if ret =? 1 then writes port p ws else None
  end.

(** The words a controller expects after ICW1: ICW2, then ICW3 unless ICW1 says the
    controller is single, then ICW4 if ICW1 announces it. *)
Definition icw_count (cw1 : Z) : nat :=
  1 + (if icw1_sngl cw1 =? 0 then 1 else 0) + (if icw1_ic4 cw1 =? 1 then 1 else 0).

(** The initialisation sequence: whatever state the master is in, ICW1 followed by
    exactly the words it announces makes it ready with its vector base set, and keeps
    its request, service and mask registers; the next word sets the mask. *)
Theorem master_init_sequence p cw1 v ws mask :
  IS_ICW1 cw1 = true -> length (v :: ws) = icw_count cw1 ->
  exists p1 p2, write_master_port1 p cw1 1 = (1, p1) /\
    writes write_master_port2 p1 (v :: ws) = Some p2 /\
    master_state p2 = READY /\ master_icw1 p2 = cw1 /\ master_icw2 p2 = v /\
    master_irr p2 = master_irr p /\ master_isr p2 = master_isr p /\
    master_imr p2 = master_imr p /\ slave_state p2 = slave_state p /\
    write_master_port2 p2 mask 1 = (1, p2 <| master_imr := mask |>).
Proof.
  intros H1 Hlen. unfold write_master_port1. rewrite H1. simpl negb. eexists.
  unfold icw_count in Hlen.
  destruct (icw1_sngl cw1 =? 0) eqn:Es; destruct (icw1_ic4 cw1 =? 1) eqn:E4; simpl in Hlen.
  all: repeat (destruct ws as [|? ws]; simpl in Hlen; try lia).
  all: eexists; split; [reflexivity|]; split;
    [unfold writes, write_master_port2; repeat (simpl; rewrite ?Es, ?E4); reflexivity|done].
Qed.

Lemma master_init_sequence_witness :
  exists p1 p2, write_master_port1 pic_init 0x11 1 = (1, p1) /\
    writes write_master_port2 p1 [0x20; 0x04; 0x01] = Some p2 /\ master_state p2 = READY.
Proof.
  destruct (master_init_sequence pic_init 0x11 0x20 [0x04; 0x01] 0xff)
    as (p1 & p2 & H1 & H2 & H3 & _); [done|done|]. by exists p1, p2.
Defined.

(** The slave follows the master's ICW1 instead of its own: with a master set up as
    single, the ICW3 of the slave is taken for its interrupt mask. *)
Lemma slave_init_follows_master p cw1 v v3 :
  IS_ICW1 cw1 = true -> icw1_sngl (master_icw1 p) = 1 -> icw1_ic4 (master_icw1 p) = 0 ->
  exists p1 p2, write_slave_port1 p cw1 1 = (1, p1) /\
    writes write_slave_port2 p1 [v; v3] = Some p2 /\ slave_imr p2 = v3.
Proof.
  intros H1 Hs H4. unfold write_slave_port1. rewrite H1. simpl negb. do 2 eexists.
  split; [reflexivity|]. split; [|shelve]. unfold writes, write_slave_port2.
  repeat (simpl; rewrite ?Hs, ?H4). reflexivity. Unshelve. done.
Qed.

(** ** The interrupt layer over the 8259A *)

Definition state_demo : Intr.v3_intr_state pic_internal :=
  Intr.mk_v3_intr_state (Intr.mk_v3_excp_state 0 0 0 0) (Some pic_demo) (replicate 256 None).

Definition vmcb_demo : Intr.vmcb_inject :=
  Intr.mk_vmcb_inject 0 0 0 0 Intr.SVM_INJECTION_EXTERNAL_INTR 0 0 0 0.

Lemma inject_run_drains_witness :
  exists s' vs, Intr.inject_run 2 state_demo vmcb_demo [] = Done (s', vs) /\
    vs ≡ₚ [0x21; 0x24].
Proof.
  destruct (Intr.inject_run_drains state_demo pic_demo vmcb_demo)
    as (s' & c' & vs & H1 & H2 & _); [done|done|apply wf_pic_demo|].
  exists s', vs. split; [exact H1|]. rewrite H2. vm_compute.
  first [reflexivity | apply Permutation_swap].
Defined.

Lemma raise_exception_inject_witness :
  exists e g', Intr.v3_raise_exception_with_error (Intr.excp state_demo) 0x0e 2 = (0, e) /\
    Intr.ev_vector g' = 0x0e /\ Intr.ev_error_code g' = 2.
Proof.
  destruct (Intr.raise_exception_inject state_demo 0x0e 2 0x0d vmcb_demo)
    as (e & g' & H1 & _ & _ & _ & H2 & _ & _ & H3 & _); [done..|]. by exists e, g'.
Defined.

Lemma hook_irq_deliver_witness :
  exists s', Intr.v3_hook_irq state_demo true 0 14 (Intr.other_handler 7) 3 = Done (0, s') /\
    Intr.v3_deliver_irq (fun f s irq priv => Done (f + priv, s)) s' 14 = Done (10, s').
Proof.
  destruct (Intr.hook_irq_deliver (fun f s irq priv => Done (f + priv, s)) state_demo 14 7 3)
    as (s' & H1 & H2 & _); [done|lia|done|]. by exists s'.
Defined.

End Pic.
