(* ===== verification/Hashtable.v ===== *)
(** Hash tables: vmm_hashtable.c and vmm_hashtable.h.

    A table is an array of chains; [Module Hashtable] keeps each chain as the list of its
    entries in chain order and translates the operations on it.  The theorems show that a
    table stands for a finite map through insertion, expansion, change and removal, and
    that hash_long multiplies by the golden ratio prime of the word size. *)
From Stdlib Require Import SpecFloat.
From stdpp Require Import base tactics numbers list gmap.
From S2P Require Import Prelude.

Module Hashtable.

(** ** Data *)

Record hash_entry := mk_hash_entry {
  he_key : Z;
  he_value : Z;
  he_hash : Z;
}.

#[export] Instance eta_hash_entry : Eta hash_entry := fun e =>
  mk_hash_entry (he_key e) (he_value e) (he_hash e).

Record hashtable := mk_hashtable {
  table_length : Z;
  table : list (list hash_entry);
  entry_count : Z;
  load_limit : Z;
  prime_index : Z;
  hash_fn : Z -> Z;
  eq_fn : Z -> Z -> Z;
}.

#[export] Instance eta_hashtable : Eta hashtable := fun h =>
  mk_hashtable (table_length h) (table h) (entry_count h) (load_limit h) (prime_index h)
    (hash_fn h) (eq_fn h).

(** ** Hash functions *)

Definition do_hash (htable : hashtable) (key : Z) : Z :=
  let i := hash_fn htable key in
  let i := u32 (i + (2 ^ 32 - 1 - u32 (Z.shiftl i 9))) in
  let i := Z.lxor i (Z.lor (Z.shiftr i 14) (u32 (Z.shiftl i 18))) in
  let i := u32 (i + u32 (Z.shiftl i 4)) in
  Z.lxor i (Z.lor (Z.shiftr i 10) (u32 (Z.shiftl i 22))).

Definition GOLDEN_RATIO_PRIME {A : Arch} : Z :=
  match the_arch with V3_32BIT => 0x9e370001 | V3_64BIT => 0x9e37fffffffc0001 end.

(** The shift sequence of the 64-bit build, [n] and [hash] being 64-bit. *)
Definition hash_shifts (val : Z) : Z :=
  let hash := val in
  let n := hash in
  let n := u64 (Z.shiftl n 18) in let hash := u64 (hash - n) in
  let n := u64 (Z.shiftl n 33) in let hash := u64 (hash - n) in
  let n := u64 (Z.shiftl n 3) in let hash := u64 (hash + n) in
  let n := u64 (Z.shiftl n 3) in let hash := u64 (hash - n) in
  let n := u64 (Z.shiftl n 4) in let hash := u64 (hash + n) in
  let n := u64 (Z.shiftl n 2) in u64 (hash + n).

(** The shift count is a long minus an unsigned int. *)
Definition hash_long {A : Arch} (val bits : Z) : Z :=
  let hash := match the_arch with
              | V3_64BIT => hash_shifts val
              | V3_32BIT => ulong (val * GOLDEN_RATIO_PRIME)
              end in
  Z.shiftr hash (BITS_PER_LONG the_arch - bits).

Definition hash_buffer {A : Arch} (msg : list Z) : Z :=
  let step '(hash, i) b :=
    let hash := ulong (ulong (Z.shiftl hash 4) + b + i) in
    let temp := Z.land hash 0xF0000000 in
    let hash := if temp =? 0 then hash else Z.lxor hash (Z.shiftr temp 24) in
    (Z.land hash (Z.lnot temp), i + 1) in
  fst (foldl step (0, 0) msg).

Definition indexFor (table_length hash_value : Z) : Z := hash_value mod table_length.

(** ** Sizes *)

Definition primes : list Z :=
  [53; 97; 193; 389; 769; 1543; 3079; 6151; 12289; 24593; 49157; 98317; 196613; 393241;
   786433; 1572869; 3145739; 6291469; 12582917; 25165843; 50331653; 100663319; 201326611;
   402653189; 805306457; 1610612741].

Definition prime_table_length : Z := 26.

(** The float 0.65 and the float [e] of v3_ceil. *)
Definition max_load_factor : spec_float := S754_finite false 10905190 (-24).
Definition ceil_eps : spec_float := S754_finite false 11258999 (-50).

Definition float_of_Z (x : Z) : spec_float := binary_normalize 24 128 x 0 false.
Definition double_of_Z (x : Z) : spec_float := binary_normalize 53 1024 x 0 false.

(** The conversion to [int], which truncates. *)
Definition int_of_float (f : spec_float) : Z :=
  match f with
  | S754_finite s m e =>
      let a := if 0 <=? e then Zpos m * 2 ^ e else Zpos m / 2 ^ (- e) in
      if s then - a else a
  | _ => 0
  end.

Definition v3_ceil (x : spec_float) : Z :=
  match SFsub 53 1024 x (double_of_Z (int_of_float x)) with
  | S754_zero _ => int_of_float x
  | _ => int_of_float (SFadd 53 1024 x ceil_eps) + 1
  end.

(** [(uint_t) v3_ceil(size * max_load_factor)]: the product is a float. *)
Definition limit_of (size : Z) : Z := u32 (v3_ceil (SFmul 24 128 (float_of_Z size) max_load_factor)).

(** ** Operations *)

(** The first prime above [min_size], with its index; the index is past the end and the
    size is the first prime if there is none. *)
Fixpoint find_prime (ps : list Z) (i min_size : Z) : Z * Z :=
  match ps with
  | [] => (i, 53)
  | p :: ps => if p >? min_size then (i, p) else find_prime ps (i + 1) min_size
  end.

(** [ok1], [ok2]: the two V3_Malloc calls succeed. *)
Definition create_hashtable (ok1 ok2 : bool) (min_size : Z) (hash_fn : Z -> Z)
    (eq_fn : Z -> Z -> Z) : option hashtable :=
  if min_size >? 2 ^ 30 then None else
  let '(prime_index, size) := find_prime primes 0 min_size in
  if negb ok1 then None else
  if negb ok2 then None else
  Some (mk_hashtable size (replicate (Z.to_nat size) []) 0 (limit_of size) prime_index
          hash_fn eq_fn).

(** [table[index]], which is in range for an index computed by [indexFor]. *)
Definition bucket (t : list (list hash_entry)) (index : Z) : list hash_entry :=
  default [] (t !! Z.to_nat index).

Definition set_bucket (t : list (list hash_entry)) (index : Z) (c : list hash_entry)
    : list (list hash_entry) := <[Z.to_nat index := c]> t.

(** Moving one entry to the head of its chain in the new table, and all entries of the
    old table in order. *)
Definition move_entry (new_size : Z) (new_table : list (list hash_entry)) (e : hash_entry)
    : list (list hash_entry) :=
  let index := indexFor new_size (he_hash e) in
  set_bucket new_table index (e :: bucket new_table index).

Definition rehash (new_size : Z) (old : list (list hash_entry)) : list (list hash_entry) :=
  foldl (move_entry new_size) (replicate (Z.to_nat new_size) []) (concat old).

(** [ok1]: the new array is allocated; [ok2]: the allocation of tmp_realloc succeeds, after
    which the memset writes through an uninitialised pointer. *)
Definition hashtable_expand (ok1 ok2 : bool) (htable : hashtable) : outcome (Z * hashtable) :=
  if prime_index htable =? prime_table_length - 1 then Done (0, htable) else
  let htable := htable <| prime_index := u32 (prime_index htable + 1) |> in
  match primes !! Z.to_nat (prime_index htable) with
  | None => Undef
  | Some new_size =>
      if ok1 then
        let new_table := rehash new_size (table htable) in
        Done (-1, htable <| table := new_table |> <| table_length := new_size |>
                         <| load_limit := limit_of new_size |>)
      else if ok2 then Undef
      else Done (0, htable <| prime_index := u32 (prime_index htable - 1) |>)
  end.

Definition hashtable_count (htable : hashtable) : Z := entry_count htable.

(** [ok3]: the entry is allocated. *)
Definition hashtable_insert (ok1 ok2 ok3 : bool) (htable : hashtable) (key value : Z)
    : outcome (Z * hashtable) :=
  let htable := htable <| entry_count := u32 (entry_count htable + 1) |> in
  htable ← (if entry_count htable >? load_limit htable
            then '(_, h) ← hashtable_expand ok1 ok2 htable; Done h
            else Done htable);
  if negb ok3 then Done (0, htable <| entry_count := u32 (entry_count htable - 1) |>)
  else
    let hash := do_hash htable key in
    let index := indexFor (table_length htable) hash in
    Done (-1, htable <| table := set_bucket (table htable) index
                          (mk_hash_entry key value hash :: bucket (table htable) index) |>).

(** The test of a chain walk. *)
Definition matches (htable : hashtable) (hash_value key : Z) (e : hash_entry) : bool :=
  (hash_value =? he_hash e) && negb (eq_fn htable key (he_key e) =? 0).

Fixpoint change_chain (m : hash_entry -> bool) (c : list hash_entry) (value : Z)
    : option (list hash_entry) :=
  match c with
  | [] => None
  | e :: c => if m e then Some (e <| he_value := value |> :: c)
              else cons e <$> change_chain m c value
  end.

(** The pointer V3_Free is given when [free_value] is not zero is the old value. *)
Definition hashtable_change (htable : hashtable) (key value : Z) : Z * hashtable :=
  let hash_value := do_hash htable key in
  let index := indexFor (table_length htable) hash_value in
  match change_chain (matches htable hash_value key) (bucket (table htable) index) value with
  | Some c => (-1, htable <| table := set_bucket (table htable) index c |>)
  | None => (0, htable)
  end.

Fixpoint search_chain (m : hash_entry -> bool) (c : list hash_entry) : option Z :=
  match c with
  | [] => None
  | e :: c => if m e then Some (he_value e) else search_chain m c
  end.

Definition hashtable_search (htable : hashtable) (key : Z) : Z :=
  let hash_value := do_hash htable key in
  let index := indexFor (table_length htable) hash_value in
  default NULL (search_chain (matches htable hash_value key) (bucket (table htable) index)).

Fixpoint remove_chain (m : hash_entry -> bool) (c : list hash_entry)
    : option (Z * list hash_entry) :=
  match c with
  | [] => None
  | e :: c => if m e then Some (he_value e, c)
              else '(v, c) ← remove_chain m c; Some (v, e :: c)
  end.

Definition hashtable_remove (htable : hashtable) (key : Z) : Z * hashtable :=
  let hash_value := do_hash htable key in
  let index := indexFor (table_length htable) hash_value in
  match remove_chain (matches htable hash_value key) (bucket (table htable) index) with
  | Some (v, c) => (v, htable <| table := set_bucket (table htable) index c |>
                              <| entry_count := u32 (entry_count htable - 1) |>)
  | None => (NULL, htable)
  end.

(** What hashtable_destroy gives V3_Free, in order: the keys and values it is asked to
    free and the entries, then the array and the table. *)
Inductive freed := FreedKey (k : Z) | FreedValue (v : Z) | FreedEntry (e : hash_entry)
                 | FreedTable | FreedHashtable.

Definition destroy_entry (free_values free_keys : bool) (e : hash_entry) : list freed :=
  (if free_keys then [FreedKey (he_key e)] else []) ++
  (if free_values then [FreedValue (he_value e)] else []) ++ [FreedEntry e].

Definition hashtable_destroy (htable : hashtable) (free_values free_keys : bool) : list freed :=
  flat_map (flat_map (destroy_entry free_values free_keys)) (table htable) ++
  [FreedTable; FreedHashtable].

(** ** Iterators *)

(** A pointer into a chain is the rest of the chain from there, so that [entry->next] is
    the tail and NULL the empty list; [iter_parent] is the chain up to the parent, nearest
    entry first. *)
Record hashtable_iter := mk_hashtable_iter {
  iter_entry : list hash_entry;
  iter_parent : list hash_entry;
  iter_index : Z;
}.

#[export] Instance eta_hashtable_iter : Eta hashtable_iter := fun i =>
  mk_hashtable_iter (iter_entry i) (iter_parent i) (iter_index i).

(** The first chain that is not empty, counting from [j]. *)
Fixpoint first_chain (cs : list (list hash_entry)) (j : Z) : option (Z * list hash_entry) :=
  match cs with
  | [] => None
  | [] :: cs => first_chain cs (j + 1)
  | c :: _ => Some (j, c)
  end.

(** [ok]: the iterator is allocated. *)
Definition create_hashtable_iterator (ok : bool) (htable : hashtable) : option hashtable_iter :=
  if negb ok then None else
  let iter := mk_hashtable_iter [] [] (table_length htable) in
  if entry_count htable =? 0 then Some iter else
  match first_chain (table htable) 0 with
  | Some (i, c) => Some (iter <| iter_entry := c |> <| iter_index := i |>)
  | None => Some iter
  end.

Definition hashtable_get_iter_key (iter : hashtable_iter) : outcome Z :=
  match iter_entry iter with [] => Undef | e :: _ => Done (he_key e) end.

Definition hashtable_get_iter_value (iter : hashtable_iter) : outcome Z :=
  match iter_entry iter with [] => Undef | e :: _ => Done (he_value e) end.

Definition hashtable_iterator_advance (htable : hashtable) (iter : hashtable_iter)
    : Z * hashtable_iter :=
  match iter_entry iter with
  | [] => (0, iter)
  | e :: next =>
      match next with
      | _ :: _ => (-1, iter <| iter_parent := e :: iter_parent iter |> <| iter_entry := next |>)
      | [] =>
          let iter := iter <| iter_parent := [] |> in
          let j := u32 (iter_index iter + 1) in
          let iter := iter <| iter_index := j |> in
          if table_length htable <=? j then (0, iter <| iter_entry := [] |>) else
          match first_chain (drop (Z.to_nat j) (table htable)) j with
          | None => (0, iter <| iter_index := table_length htable |> <| iter_entry := [] |>)
          | Some (j, c) => (-1, iter <| iter_index := j |> <| iter_entry := c |>)
          end
      end
  end.

(** Unlinking an entry makes the chain what is before it followed by what is after it.
    The advance leaves the parent NULL or the removed entry, and only the latter is
    replaced.  The key, when it is freed, is no part of the table any more. *)
Definition hashtable_iterator_remove (htable : hashtable) (iter : hashtable_iter)
    : outcome (Z * hashtable_iter * hashtable) :=
  match iter_entry iter with
  | [] => Undef
  | remember_entry :: next =>
      let htable := htable <| table := set_bucket (table htable) (iter_index iter)
                                (rev (iter_parent iter) ++ next) |> in
      let htable := htable <| entry_count := u32 (entry_count htable - 1) |> in
      let remember_parent := iter_parent iter in
      let '(ret, iter) := hashtable_iterator_advance htable iter in
      let iter := match iter_parent iter with
                  | [] => iter
                  | _ :: _ => iter <| iter_parent := remember_parent |>
                  end in
      Done (ret, iter, htable)
  end.

(** The walk of hashtable_iterator_search, with the chain already passed. *)
Fixpoint iterator_search_chain (m : hash_entry -> bool) (parent c : list hash_entry)
    : option (list hash_entry * list hash_entry) :=
  match c with
  | [] => None
  | e :: c' => if m e then Some (parent, c) else iterator_search_chain m (e :: parent) c'
  end.

Definition hashtable_iterator_search (iter : hashtable_iter) (htable : hashtable) (key : Z)
    : Z * hashtable_iter :=
  let hash_value := do_hash htable key in
  let index := indexFor (table_length htable) hash_value in
  match iterator_search_chain (matches htable hash_value key) [] (bucket (table htable) index) with
  | Some (parent, c) =>
      (-1, iter <| iter_index := index |> <| iter_entry := c |> <| iter_parent := parent |>)
  | None => (0, iter)
  end.

(** ** Hashing *)

(** The shifts and additions of the 64-bit build multiply by the golden ratio prime. *)
Lemma hash_shifts_eq val : hash_shifts val = u64 (val * 0x9e37fffffffc0001).
Proof.
  unfold hash_shifts. cbv zeta. rewrite !Z.shiftl_mul_pow2 by done. apply wrap_eqw.
  repeat setoid_rewrite eqw_wrap. split. f_equal. lia.
Qed.

(** hash_long is multiplicative hashing on both word sizes: the 64-bit shift sequence
    computes the product with the golden ratio prime modulo 2^64, and the result is its
    upper [bits] bits. *)
Theorem hash_long_eq {A : Arch} val bits :
  0 <= bits <= BITS_PER_LONG the_arch ->
  hash_long val bits =
    ulong (val * GOLDEN_RATIO_PRIME) / 2 ^ (BITS_PER_LONG the_arch - bits) /\
  is_u bits (hash_long val bits).
Proof.
  intros Hb. assert (hash_long val bits =
    ulong (val * GOLDEN_RATIO_PRIME) / 2 ^ (BITS_PER_LONG the_arch - bits)) as Heq.
  { unfold hash_long, GOLDEN_RATIO_PRIME, ulong. destruct the_arch; simpl BITS_PER_LONG in *.
    - by rewrite Z.shiftr_div_pow2 by lia.
    - by rewrite hash_shifts_eq, Z.shiftr_div_pow2 by lia. }
  split; [done|]. rewrite Heq. pose proof (ulong_range (val * GOLDEN_RATIO_PRIME)) as [Hl Hu].
  assert (0 < 2 ^ (BITS_PER_LONG the_arch - bits)) by (apply Z.pow_pos_nonneg; lia).
  split; [by apply Z.div_pos|]. apply Z.div_lt_upper_bound; [done|].
  rewrite <- Z.pow_add_r by lia. by replace (_ - bits + bits) with (BITS_PER_LONG the_arch) by lia.
Qed.

Lemma hash_long_eq_witness :
  hash_long (A := V3_64BIT) 0x1000 32 = 0x1000 * 0x9e37fffffffc0001 mod 2 ^ 64 / 2 ^ 32.
Proof. apply (hash_long_eq (A := V3_64BIT) 0x1000 32). simpl. lia. Defined.

(** ** Tables as finite maps *)

Definition entries (h : hashtable) : list hash_entry := concat (table h).

Definition pair_of (e : hash_entry) : Z * Z := (he_key e, he_value e).

Definition abs (h : hashtable) : gmap Z Z := list_to_map (pair_of <$> entries h).

(** Every entry is in the chain its hash selects. *)
Definition placed (size : Z) (t : list (list hash_entry)) : Prop :=
  forall i c e, t !! i = Some c -> e ∈ c -> Z.of_nat i = indexFor size (he_hash e).

Record wf (h : hashtable) : Prop := {
  wf_len : Z.of_nat (length (table h)) = table_length h;
  wf_size : primes !! Z.to_nat (prime_index h) = Some (table_length h);
  wf_index : 0 <= prime_index h;
  wf_placed : placed (table_length h) (table h);
  wf_hash e : e ∈ entries h -> he_hash e = do_hash h (he_key e);
  wf_keys : NoDup (he_key <$> entries h);
  wf_eq a b : eq_fn h a b <> 0 <-> a = b;
}.

Lemma primes_pos i p : primes !! i = Some p -> 0 < p.
Proof.
  intros Hp. assert (Forall (fun p => 0 < p) primes) as Hall by (repeat constructor).
  rewrite Forall_lookup in Hall. eauto.
Qed.

Lemma index_range size hash : 0 < size -> 0 <= indexFor size hash < size.
Proof. intros. by apply Z.mod_pos_bound. Qed.

(** Replacing one chain. *)
Lemma concat_set_bucket (t : list (list hash_entry)) i c :
  t !! i = Some c -> exists l r, concat t = l ++ c ++ r /\
    forall c', concat (<[i := c']> t) = l ++ c' ++ r.
Proof.
  intros Hi. exists (concat (take i t)), (concat (drop (S i) t)).
  assert (i < length t)%nat by (by eapply lookup_lt_Some). split.
  - rewrite <- (take_drop_middle t i c) at 1 by done. by rewrite concat_app.
  - intros c'. rewrite insert_take_drop by done. by rewrite concat_app.
Qed.

Lemma bucket_lookup t size hash :
  Z.of_nat (length t) = size -> 0 < size ->
  t !! Z.to_nat (indexFor size hash) = Some (bucket t (indexFor size hash)).
Proof.
  intros Hlen Hpos. pose proof (index_range size hash Hpos).
  destruct (lookup_lt_is_Some_2 t (Z.to_nat (indexFor size hash))) as [c Hc]; [lia|].
  unfold bucket. by rewrite Hc.
Qed.

Lemma elem_of_concat_lookup (t : list (list hash_entry)) e :
  e ∈ concat t <-> exists i c, t !! i = Some c /\ e ∈ c.
Proof.
  rewrite list_elem_of_In, in_concat. split.
  - intros (c & Hc & He). apply list_elem_of_In, list_elem_of_lookup in Hc as [i Hi].
    exists i, c. split; [done|]. by apply list_elem_of_In.
  - intros (i & c & Hi & He). exists c. split; apply list_elem_of_In; [|done].
    by eapply list_elem_of_lookup_2.
Qed.

(** An entry is in the table exactly when it is in the chain of its key. *)
Lemma elem_of_bucket h e :
  wf h -> e ∈ bucket (table h) (indexFor (table_length h) (do_hash h (he_key e))) <-> e ∈ entries h.
Proof.
  intros Hwf. pose proof (primes_pos _ _ (wf_size h Hwf)) as Hpos. split.
  - intros He. apply elem_of_concat_lookup. eexists _, _. split; [|exact He].
    apply bucket_lookup; [apply Hwf|done].
  - intros He. pose proof (wf_hash h Hwf e He) as Hh.
    apply elem_of_concat_lookup in He as (i & c & Hi & He).
    pose proof (wf_placed h Hwf i c e Hi He) as Hp. unfold bucket.
    rewrite <- Hh, <- Hp, Nat2Z.id, Hi. done.
Qed.

Lemma matches_spec h key e :
  wf h -> e ∈ entries h -> matches h (do_hash h key) key e = bool_decide (he_key e = key).
Proof.
  intros Hwf He. unfold matches. pose proof (wf_eq h Hwf key (he_key e)) as Heq.
  rewrite (wf_hash h Hwf e He). case_bool_decide as Hk.
  - rewrite Hk, Z.eqb_refl. simpl. apply negb_true_iff, Z.eqb_neq. apply (wf_eq h Hwf). done.
  - apply andb_false_iff. right. apply negb_false_iff, Z.eqb_eq.
    destruct (decide (eq_fn h key (he_key e) = 0)); [done|]. naive_solver.
Qed.

Lemma abs_some h k v :
  wf h -> abs h !! k = Some v <-> exists e, e ∈ entries h /\ he_key e = k /\ he_value e = v.
Proof.
  intros Hwf. unfold abs. rewrite <- elem_of_list_to_map.
  - rewrite list_elem_of_fmap. unfold pair_of. naive_solver.
  - rewrite <- list_fmap_compose. apply (wf_keys h Hwf).
Qed.

Lemma abs_none h k : abs h !! k = None <-> k ∉ he_key <$> entries h.
Proof.
  unfold abs. rewrite <- not_elem_of_list_to_map, <- list_fmap_compose. done.
Qed.

(** ** Search *)

Lemma search_chain_some m c v :
  search_chain m c = Some v -> exists e, e ∈ c /\ m e = true /\ he_value e = v.
Proof.
  induction c as [|e c IH]; simpl; [done|]. destruct (m e) eqn:E.
  - intros [= <-]. exists e. set_solver.
  - intros H. destruct (IH H) as (e' & ? & ? & ?). exists e'. set_solver.
Qed.

Lemma search_chain_none m c : search_chain m c = None <-> forall e, e ∈ c -> m e = false.
Proof.
  induction c as [|e c IH]; simpl; [set_solver|]. destruct (m e) eqn:E.
  - split; [done|]. intros H. specialize (H e ltac:(set_solver)). congruence.
  - rewrite IH. set_solver.
Qed.

Lemma search_eq h key :
  wf h ->
  search_chain (matches h (do_hash h key) key)
    (bucket (table h) (indexFor (table_length h) (do_hash h key))) = abs h !! key.
Proof.
  intros Hwf. destruct (search_chain _ _) as [v|] eqn:E.
  - apply search_chain_some in E as (e & He & Hm & Hv). symmetry. apply abs_some; [done|].
    assert (e ∈ entries h) as Hin.
    { apply elem_of_concat_lookup. eexists _, _. split; [|exact He].
      apply bucket_lookup; [apply Hwf|]. by eapply primes_pos, wf_size. }
    rewrite matches_spec in Hm by done. apply bool_decide_eq_true in Hm. eauto.
  - symmetry. apply abs_none. intros (e & -> & He)%list_elem_of_fmap.
    rewrite search_chain_none in E.
    specialize (E e (proj2 (elem_of_bucket h e Hwf) He)).
    rewrite matches_spec, bool_decide_eq_true_2 in E by done. done.
Qed.

(** ** Expansion *)

Lemma move_entry_spec size t e :
  0 < size -> Z.of_nat (length t) = size -> placed size t ->
  length (move_entry size t e) = length t /\ placed size (move_entry size t e) /\
  concat (move_entry size t e) ≡ₚ e :: concat t.
Proof.
  intros Hpos Hlen Hp. unfold move_entry, set_bucket.
  pose proof (bucket_lookup t size (he_hash e) Hlen Hpos) as Hb.
  set (i := Z.to_nat (indexFor size (he_hash e))) in *. split_and!.
  - apply length_insert.
  - intros j c x Hj Hx. apply list_lookup_insert_Some in Hj as [(<- & <- & _)|[Hne Hj]].
    + apply elem_of_cons in Hx as [->|Hx]; [|by eapply Hp].
      unfold i. pose proof (index_range size (he_hash e) Hpos). lia.
    + by eapply Hp.
  - destruct (concat_set_bucket t i _ Hb) as (l & r & -> & ->). simpl. symmetry. apply Permutation_middle.
Qed.

Lemma rehash_spec size es t :
  0 < size -> Z.of_nat (length t) = size -> placed size t ->
  let t' := foldl (move_entry size) t es in
  Z.of_nat (length t') = size /\ placed size t' /\ concat t' ≡ₚ es ++ concat t.
Proof.
  intros Hpos. revert t. induction es as [|e es IH]; intros t Hlen Hp; simpl; [done|].
  destruct (move_entry_spec size t e Hpos Hlen Hp) as (Hl & Hp' & Hc).
  destruct (IH (move_entry size t e)) as (? & ? & Hperm); [lia|done|].
  split_and!; [done..|]. rewrite Hperm, Hc. by rewrite Permutation_middle.
Qed.

(** What the operations may change without changing the map: the order of the entries
    and the sizes. *)
Record same_entries (h h' : hashtable) : Prop := {
  se_entries : entries h' ≡ₚ entries h;
  se_hash : hash_fn h' = hash_fn h;
  se_eq : eq_fn h' = eq_fn h;
}.

Lemma abs_same h h' : wf h -> same_entries h h' -> abs h' = abs h.
Proof.
  intros Hwf [He _ _]. unfold abs. apply list_to_map_proper; [|by rewrite He].
  rewrite <- list_fmap_compose. change (fst ∘ pair_of) with he_key. rewrite He. apply Hwf.
Qed.

Lemma wf_same h h' :
  wf h -> same_entries h h' -> Z.of_nat (length (table h')) = table_length h' ->
  primes !! Z.to_nat (prime_index h') = Some (table_length h') -> 0 <= prime_index h' ->
  placed (table_length h') (table h') -> wf h'.
Proof.
  intros Hwf [He Hh Heq] ? ? ? ?. split; try done.
  - intros e. rewrite He. intros Hin. rewrite (wf_hash h Hwf e Hin). unfold do_hash.
    by rewrite Hh.
  - rewrite He. apply Hwf.
  - rewrite Heq. apply Hwf.
Qed.

Lemma primes_next i p :
  0 <= i -> primes !! Z.to_nat i = Some p -> i <> prime_table_length - 1 ->
  exists q, primes !! Z.to_nat (u32 (i + 1)) = Some q /\ p < q /\ u32 (i + 1) = i + 1.
Proof.
  intros Hi Hp Hne. pose proof (lookup_lt_Some _ _ _ Hp) as Hlt.
  change (length primes) with 26%nat in Hlt. unfold prime_table_length in Hne.
  assert (i = 0 \/ i = 1 \/ i = 2 \/ i = 3 \/ i = 4 \/ i = 5 \/ i = 6 \/ i = 7 \/ i = 8 \/ i = 9
    \/ i = 10 \/ i = 11 \/ i = 12 \/ i = 13 \/ i = 14 \/ i = 15 \/ i = 16 \/ i = 17 \/ i = 18
    \/ i = 19 \/ i = 20 \/ i = 21 \/ i = 22 \/ i = 23 \/ i = 24) as Hc by lia.
  repeat (destruct Hc as [->|Hc]; [injection Hp as <-; eexists; split_and!; [done|lia|done]|]).
  subst i. injection Hp as <-. eexists; split_and!; [done|lia|done].
Qed.

Lemma placed_empty size n : placed size (replicate n []).
Proof. intros i c e Hi He. apply lookup_replicate in Hi as [-> _]. set_solver. Qed.

Lemma concat_empty n : concat (replicate n (@nil hash_entry)) = [].
Proof. by induction n. Qed.

(** An expansion keeps the entries, whatever the allocations do short of the fallback. *)
Lemma expand_spec ok1 h :
  wf h -> exists ret h', hashtable_expand ok1 false h = Done (ret, h') /\ wf h' /\
    same_entries h h' /\ entry_count h' = entry_count h.
Proof.
  intros Hwf. unfold hashtable_expand. case_cmp; [by eexists _, _|]. cbn.
  destruct (primes_next _ _ (wf_index h Hwf) (wf_size h Hwf)) as (q & Hq & Hlt & Hi); [done|].
  rewrite Hq. destruct ok1.
  - pose proof (primes_pos _ _ Hq) as Hpos.
    destruct (rehash_spec q (concat (table h)) (replicate (Z.to_nat q) [])) as (Hl & Hp & Hc);
      [done|rewrite length_replicate; lia|apply placed_empty|].
    rewrite concat_empty, app_nil_r in Hc. eexists _, _. split; [done|].
    assert (same_entries h (h <| prime_index := u32 (prime_index h + 1) |>
      <| table := rehash q (table h) |> <| table_length := q |>
      <| load_limit := limit_of q |>)) as Hs by done.
    split_and!; [|done..]. apply (wf_same h); try done. cbn. rewrite Hi.
    pose proof (wf_index h Hwf). lia.
  - eexists _, _. split; [done|]. split_and!; [|done..].
    assert (u32 (u32 (prime_index h + 1) - 1) = prime_index h) as Hback.
    { pose proof (lookup_lt_Some _ _ _ (wf_size h Hwf)) as Hl. pose proof (wf_index h Hwf).
      change (length primes) with 26%nat in Hl. rewrite Hi, wrap_small; unfold is_u; lia. }
    apply (wf_same h); cbn; rewrite ?Hback; try done; apply Hwf.
Qed.

(** ** Operations on well-formed tables *)

Definition set_table (h : hashtable) (key : Z) (c : list hash_entry) : hashtable :=
  h <| table := set_bucket (table h) (indexFor (table_length h) (do_hash h key)) c |>.

Definition chain_of (h : hashtable) (key : Z) : list hash_entry :=
  bucket (table h) (indexFor (table_length h) (do_hash h key)).

Lemma set_table_entries h key :
  wf h -> exists l r, entries h = l ++ chain_of h key ++ r /\
    forall c, entries (set_table h key c) = l ++ c ++ r.
Proof.
  intros Hwf. apply concat_set_bucket, bucket_lookup; [apply Hwf|].
  by eapply primes_pos, wf_size.
Qed.

Lemma set_table_wf h key c :
  wf h ->
  (forall e, e ∈ c -> he_hash e = do_hash h (he_key e) /\
     indexFor (table_length h) (he_hash e) = indexFor (table_length h) (do_hash h key)) ->
  NoDup (he_key <$> entries (set_table h key c)) -> wf (set_table h key c).
Proof.
  intros Hwf Hc Hnd. destruct (set_table_entries h key Hwf) as (l & r & He & He').
  pose proof (primes_pos _ _ (wf_size h Hwf)) as Hpos.
  split; try done;
    try exact (wf_size h Hwf); try exact (wf_index h Hwf); try exact (wf_eq h Hwf).
  - cbn. unfold set_bucket. rewrite length_insert. by apply wf_len.
  - cbn. intros i c' e Hi Hin.
    apply list_lookup_insert_Some in Hi as [(<- & <- & _)|[_ Hi]]; [|by eapply wf_placed].
    pose proof (index_range _ (do_hash h key) Hpos). destruct (Hc e Hin) as [_ ->]. lia.
  - intros e. rewrite He'. intros [Hin|[Hin|Hin]%elem_of_app]%elem_of_app;
      [|by apply Hc|]; apply (wf_hash h Hwf e); rewrite He; set_solver.
Qed.

(** The entries of a chain have the index of the chain. *)
Lemma chain_of_wf h key e :
  wf h -> e ∈ chain_of h key -> he_hash e = do_hash h (he_key e) /\
    indexFor (table_length h) (he_hash e) = indexFor (table_length h) (do_hash h key).
Proof.
  intros Hwf He. pose proof (primes_pos _ _ (wf_size h Hwf)) as Hpos.
  pose proof (bucket_lookup _ _ (do_hash h key) (wf_len h Hwf) Hpos) as Hb. split.
  - apply (wf_hash h Hwf). apply elem_of_concat_lookup. by eexists _, _.
  - rewrite <- (wf_placed h Hwf _ _ _ Hb He).
    pose proof (index_range _ (do_hash h key) Hpos). lia.
Qed.

Lemma abs_perm h es :
  NoDup (he_key <$> es) -> entries h ≡ₚ es -> abs h = list_to_map (pair_of <$> es).
Proof.
  intros Hnd He. unfold abs. apply list_to_map_proper; [|by rewrite He].
  rewrite <- list_fmap_compose. change (fst ∘ pair_of) with he_key. by rewrite He.
Qed.

Lemma set_table_perm h key value :
  wf h -> entries (set_table h key (mk_hash_entry key value (do_hash h key) :: chain_of h key))
            ≡ₚ mk_hash_entry key value (do_hash h key) :: entries h.
Proof.
  intros Hwf. set (e := mk_hash_entry _ _ _).
  destruct (set_table_entries h key Hwf) as (l & r & -> & ->).
  simpl. symmetry. apply Permutation_middle.
Qed.

Lemma insert_entry_spec h key value :
  wf h -> abs h !! key = None ->
  let h' := set_table h key (mk_hash_entry key value (do_hash h key) :: chain_of h key) in
  wf h' /\ abs h' = <[key := value]> (abs h).
Proof.
  intros Hwf Hk. pose proof (set_table_perm h key value Hwf) as Hp.
  set (e := mk_hash_entry _ _ _) in *.
  assert (NoDup (he_key <$> e :: entries h)) as Hnd.
  { cbn. apply NoDup_cons. split; [by apply abs_none|apply Hwf]. }
  split; [|by rewrite (abs_perm _ _ Hnd Hp)].
  apply set_table_wf; [done| |by rewrite Hp].
  intros x [->|Hx]%elem_of_cons; [done|by apply chain_of_wf].
Qed.

(** The count is the number of entries, at its width. *)
Definition counted (h : hashtable) : Prop :=
  entry_count h = u32 (Z.of_nat (length (entries h))).

Lemma wf_count h n : wf h -> wf (h <| entry_count := n |>).
Proof. intros []; by split. Qed.

(** Inserting a key the table does not have. *)
Lemma insert_refines ok1 h key value :
  wf h -> counted h -> abs h !! key = None ->
  exists h', hashtable_insert ok1 false true h key value = Done (-1, h') /\
    wf h' /\ counted h' /\ abs h' = <[key := value]> (abs h) /\
    forall k, hashtable_search h' k = default NULL (<[key := value]> (abs h) !! k).
Proof.
  intros Hwf Hn Hk. unfold hashtable_insert.
  set (h1 := h <| entry_count := _ |>).
  assert (exists h2, (if entry_count h1 >? load_limit h1
      then '(_, h) ← hashtable_expand ok1 false h1; Done h else Done h1) = Done h2 /\
    wf h2 /\ same_entries h1 h2 /\ entry_count h2 = entry_count h1)
    as (h2 & -> & Hwf2 & Hs & Hc).
  { assert (wf h1) by by apply wf_count. case_cmp; [|by exists h1].
    destruct (expand_spec ok1 h1) as (ret & h2 & -> & ? & ? & ?); [done|]. by exists h2. }
  assert (abs h2 = abs h) as Ha by (rewrite (abs_same h1 h2); [done|by apply wf_count|done]).
  rewrite <- Ha in Hk |- *.
  destruct (insert_entry_spec h2 key value Hwf2 Hk) as [Hwf' Ha'].
  eexists. split; [done|]. split; [exact Hwf'|]. split; [|split; [exact Ha'|]].
  - change (entry_count h2 = u32 (Z.of_nat (length (entries (set_table h2 key
      (mk_hash_entry key value (do_hash h2 key) :: chain_of h2 key)))))).
    rewrite (set_table_perm h2 key value Hwf2), Hc. cbn. rewrite Hn, (se_entries _ _ Hs).
    unfold u32. apply wrap_eqw. setoid_rewrite eqw_wrap. split. f_equal.
    change (entries h1) with (entries h). lia.
  - intros k. rewrite <- Ha'. unfold hashtable_search. by rewrite search_eq.
Qed.

(** A chain walk that finds its entry splits the chain there. *)
Lemma remove_chain_some m c v c' :
  remove_chain m c = Some (v, c') ->
  exists l e r, c = l ++ e :: r /\ c' = l ++ r /\ m e = true /\ he_value e = v.
Proof.
  revert v c'. induction c as [|e c IH]; intros v c' H; simpl in H; [done|].
  destruct (m e) eqn:E; [injection H as <- <-; by exists [], e, c|].
  destruct (remove_chain m c) as [[v1 c1]|] eqn:Hc; [|done]. injection H as <- <-.
  destruct (IH _ _ eq_refl) as (l & e' & r & -> & -> & ? & ?). by exists (e :: l), e', r.
Qed.

Lemma remove_chain_search m c : fst <$> remove_chain m c = search_chain m c.
Proof.
  induction c as [|e c IH]; simpl; [done|]. destruct (m e); [done|]. rewrite <- IH.
  by destruct (remove_chain m c) as [[]|].
Qed.

Lemma change_chain_some m c value c' :
  change_chain m c value = Some c' ->
  exists l e r, c = l ++ e :: r /\ c' = l ++ e <| he_value := value |> :: r /\ m e = true.
Proof.
  revert c'. induction c as [|e c IH]; intros c' H; simpl in H; [done|].
  destruct (m e) eqn:E; [injection H as <-; by exists [], e, c|].
  destruct (change_chain m c value) as [c1|] eqn:Hc; [|done]. injection H as <-.
  destruct (IH _ eq_refl) as (l & e' & r & -> & -> & ?). by exists (e :: l), e', r.
Qed.

Lemma change_chain_search m c value :
  is_Some (change_chain m c value) <-> is_Some (search_chain m c).
Proof.
  induction c as [|e c IH]; simpl; [done|].
  destruct (m e); [by split; eauto|]. by rewrite fmap_is_Some.
Qed.

(** The entry a walk of the chain of [key] finds is the entry of [key], and the entries
    around it have other keys. *)
Lemma chain_split h key l e r :
  wf h -> chain_of h key = l ++ e :: r -> matches h (do_hash h key) key e = true ->
  exists l' r', he_key e = key /\ entries h = l' ++ e :: r' /\
    (forall c, entries (set_table h key (l ++ c ++ r)) = l' ++ c ++ r') /\
    key ∉ he_key <$> l' ++ r'.
Proof.
  intros Hwf Hc Hm. pose proof Hm as Hk.
  assert (e ∈ chain_of h key) as Hin by (rewrite Hc; set_solver).
  destruct (set_table_entries h key Hwf) as (l1 & r1 & He & Hs).
  rewrite matches_spec in Hk by (done || (rewrite He; set_solver)).
  apply bool_decide_eq_true in Hk. exists (l1 ++ l), (r ++ r1). split_and!; [done| | |].
  - by rewrite He, Hc, <- !app_assoc.
  - intros c. by rewrite Hs, <- !app_assoc.
  - pose proof (wf_keys h Hwf) as Hnd. rewrite He, Hc in Hnd.
    replace (l1 ++ (l ++ e :: r) ++ r1) with ((l1 ++ l) ++ e :: r ++ r1) in Hnd
      by by rewrite <- !app_assoc.
    rewrite <- Permutation_middle in Hnd. cbn in Hnd. rewrite Hk in Hnd.
    by apply NoDup_cons in Hnd as [? _].
Qed.

(** The table after the entry of [key] is replaced by the entries [c], at most one and
    for the same key. *)
Lemma chain_replace h key l e r c :
  wf h -> chain_of h key = l ++ e :: r -> matches h (do_hash h key) key e = true ->
  (c = [] \/ exists v, c = [e <| he_value := v |>]) ->
  let h' := set_table h key (l ++ c ++ r) in
  wf h' /\ (length (entries h') + 1 = length (entries h) + length c)%nat /\
  abs h' = foldr (fun x => <[key := he_value x]>) (delete key (abs h)) c.
Proof.
  intros Hwf Hc Hm Hce. destruct (chain_split h key l e r Hwf Hc Hm)
    as (l' & r' & Hk & He & Hs & Hni).
  assert (entries h ≡ₚ e :: l' ++ r') as Hp by by rewrite He, Permutation_middle.
  assert (NoDup (he_key <$> l' ++ r')) as Hnd.
  { pose proof (wf_keys h Hwf) as Hnd. rewrite Hp in Hnd. by apply NoDup_cons in Hnd as [_ ?]. }
  set (h' := set_table _ _ _). assert (entries h' ≡ₚ c ++ l' ++ r') as Hp'.
  { unfold h'. rewrite Hs. by rewrite Permutation_app_swap_app. }
  assert (NoDup (he_key <$> c ++ l' ++ r')) as Hnd'.
  { destruct Hce as [->|[v ->]]; [done|]. cbn. rewrite Hk. by apply NoDup_cons. }
  cbn zeta. split_and!.
  - apply set_table_wf; [done| |by fold h'; rewrite Hp']. intros x Hx.
    assert (forall y, y ∈ chain_of h key -> _) as Hch by (intros y; exact (chain_of_wf h key y Hwf)).
    rewrite Hc in Hch. destruct Hce as [->|[v ->]]; [apply Hch; set_solver|].
    apply elem_of_app in Hx as [Hx|[->|Hx]%elem_of_cons]; [apply Hch; set_solver| |apply Hch; set_solver].
    apply (Hch e). set_solver.
  - rewrite Hp', Hp, !length_app. cbn. rewrite length_app. lia.
  - rewrite (abs_perm h' _ Hnd' Hp'). rewrite (abs_perm h (e :: l' ++ r')); [|cbn; rewrite Hk; by apply NoDup_cons|done].
    assert (list_to_map (M := gmap Z Z) (pair_of <$> l' ++ r') !! key = None) as Hn.
    { apply not_elem_of_list_to_map. by rewrite <- list_fmap_compose. }
    rewrite fmap_cons. cbn. rewrite Hk. rewrite delete_insert_id by done.
    destruct Hce as [->|[v ->]]; [done|]. cbn. by rewrite Hk.
Qed.

(** Removing a key. *)
Lemma remove_refines h key :
  wf h -> counted h ->
  let '(v, h') := hashtable_remove h key in
  v = default NULL (abs h !! key) /\ wf h' /\ counted h' /\ abs h' = delete key (abs h).
Proof.
  intros Hwf Hn. unfold hashtable_remove. fold (chain_of h key).
  pose proof (search_eq h key Hwf) as Hs. fold (chain_of h key) in Hs.
  rewrite <- remove_chain_search in Hs.
  destruct (remove_chain _ _) as [[v c]|] eqn:E; cbn in Hs |- *; rewrite <- Hs; cbn.
  - apply remove_chain_some in E as (l & e & r & Hc & -> & Hm & Hv).
    destruct (chain_replace h key l e r [] Hwf Hc Hm) as (Hwf' & Hl & Ha); [by left|].
    split; [done|]. split; [by apply wf_count|]. split; [|exact Ha].
    change (u32 (entry_count h - 1) = u32 (Z.of_nat (length (entries (set_table h key (l ++ r)))))).
    rewrite Hn.
    unfold u32. apply wrap_eqw. setoid_rewrite eqw_wrap. split. f_equal. cbn in Hl |- *. lia.
  - split_and!; [done..|]. by rewrite delete_id.
Qed.

(** Changing the value of a key. *)
Lemma change_refines h key value :
  wf h -> counted h ->
  let '(ret, h') := hashtable_change h key value in
  wf h' /\ counted h' /\
  match abs h !! key with
  | Some _ => ret = -1 /\ abs h' = <[key := value]> (abs h)
  | None => ret = 0 /\ h' = h
  end.
Proof.
  intros Hwf Hn. unfold hashtable_change. fold (chain_of h key).
  pose proof (search_eq h key Hwf) as Hs. fold (chain_of h key) in Hs. rewrite <- Hs.
  pose proof (change_chain_search (matches h (do_hash h key) key) (chain_of h key) value) as Hi.
  destruct (change_chain _ _ _) as [c|] eqn:E.
  - destruct (proj1 Hi ltac:(by eexists)) as [v Hv]. rewrite Hv.
    apply change_chain_some in E as (l & e & r & Hc & -> & Hm).
    destruct (chain_replace h key l e r [e <| he_value := value |>] Hwf Hc Hm)
      as (Hwf' & Hl & Ha); [eauto|]. split; [exact Hwf'|]. split; [|split; [done|]].
    + change (entry_count h = u32 (Z.of_nat (length (entries
        (set_table h key (l ++ [e <| he_value := value |>] ++ r)))))).
      rewrite Hn. do 2 f_equal. cbn in Hl |- *. lia.
    + etrans; [exact Ha|]. cbn. by rewrite insert_delete_eq.
  - destruct (search_chain _ _); [|done]. by destruct (proj2 Hi ltac:(by eexists)).
Qed.

(** C30. A table implements a finite map.  Inserting an absent key, when the entry can be
    allocated and the fallback of a failed expansion cannot, adds its binding, whether the
    table is expanded and every chain rebuilt or not; removing a key returns its value and
    deletes exactly its binding; changing a present key replaces its value, and an absent one
    is refused.  Each keeps the table well formed and its count the number of entries, and a
    search for any key gives the value of the map. *)
Theorem hashtable_refines ok1 h key value :
  wf h -> counted h ->
  (forall k, hashtable_search h k = default NULL (abs h !! k)) /\
  (abs h !! key = None -> exists h', hashtable_insert ok1 false true h key value = Done (-1, h') /\
     wf h' /\ counted h' /\ abs h' = <[key := value]> (abs h)) /\
  (let '(v, h') := hashtable_remove h key in
   v = default NULL (abs h !! key) /\ wf h' /\ counted h' /\ abs h' = delete key (abs h)) /\
  (let '(ret, h') := hashtable_change h key value in
   wf h' /\ counted h' /\
   match abs h !! key with
   | Some _ => ret = -1 /\ abs h' = <[key := value]> (abs h)
   | None => ret = 0 /\ h' = h
   end).
Proof.
  intros Hwf Hn. split_and!.
  - intros k. unfold hashtable_search. by rewrite search_eq.
  - intros Hk. destruct (insert_refines ok1 h key value Hwf Hn Hk) as (h' & ? & ? & ? & ? & _). by exists h'.
  - by apply remove_refines.
  - by apply change_refines.
Qed.

Lemma find_prime_spec ps i min_size :
  Exists (fun p => min_size < p) ps ->
  exists j p, find_prime ps i min_size = (i + Z.of_nat j, p) /\ ps !! j = Some p /\ min_size < p.
Proof.
  intros He. revert i. induction ps as [|p ps IH]; intros i; [by inversion He|].
  simpl. case_cmp; [exists 0%nat, p; split_and!; [f_equal; lia|done..]|].
  destruct (IH ltac:(inversion He; [lia|done]) (i + 1)) as (j & q & -> & ? & ?).
  exists (S j), q. split_and!; [f_equal; lia|done..].
Qed.

(** A created table is empty and larger than asked. *)
Lemma create_hashtable_spec min_size hash eq :
  (forall a b, eq a b <> 0 <-> a = b) -> min_size <= 2 ^ 30 ->
  exists h, create_hashtable true true min_size hash eq = Some h /\ wf h /\ counted h /\
    abs h = ∅ /\ min_size < table_length h.
Proof.
  intros Heq Hmin. unfold create_hashtable. case_cmp; [lia|].
  destruct (find_prime_spec primes 0 min_size) as (i & p & -> & Hp & Hlt).
  { apply Exists_exists. exists 1610612741. split; [|lia].
    apply (list_elem_of_lookup_2 _ 25). done. }
  eexists. split; [done|]. pose proof (primes_pos _ _ Hp).
  set (h := mk_hashtable _ _ _ _ _ _ _).
  assert (entries h = []) as He by apply concat_empty.
  split_and!; [split| | |done].
  - cbn. rewrite length_replicate. lia.
  - cbn. by replace (Z.to_nat (0 + Z.of_nat i)) with i by lia.
  - cbn. lia.
  - apply placed_empty.
  - rewrite He. set_solver.
  - rewrite He. constructor.
  - done.
  - unfold counted. by rewrite He.
  - unfold abs. by rewrite He.
Qed.

(** ** Iteration *)

(** Where an iterator stands, and what it has yet to visit. *)
Definition iter_valid (h : hashtable) (it : hashtable_iter) : Prop :=
  iter_entry it = [] \/
  0 <= iter_index it /\
  table h !! Z.to_nat (iter_index it) = Some (rev (iter_parent it) ++ iter_entry it).

Definition remaining (h : hashtable) (it : hashtable_iter) : list hash_entry :=
  match iter_entry it with
  | [] => []
  | c => c ++ concat (drop (S (Z.to_nat (iter_index it))) (table h))
  end.

Lemma first_chain_spec cs j :
  match first_chain cs j with
  | Some (k, c) => exists n, k = j + Z.of_nat n /\ cs !! n = Some c /\ c <> [] /\
                   concat cs = c ++ concat (drop (S n) cs)
  | None => concat cs = []
  end.
Proof.
  revert j. induction cs as [|[|e c] cs IH]; intros j; simpl; [done| |].
  - specialize (IH (j + 1)). destruct (first_chain cs (j + 1)) as [[k c]|]; [|done].
    destruct IH as (n & -> & ? & ? & ?). exists (S n). split; [lia|done].
  - exists 0%nat. split_and!; [lia|done|done|]. simpl. by rewrite drop_0.
Qed.

Lemma iter_index_small h i c :
  wf h -> 0 <= i -> table h !! Z.to_nat i = Some c -> i < table_length h /\ u32 (i + 1) = i + 1.
Proof.
  intros Hwf Hi Hc. pose proof (lookup_lt_Some _ _ _ Hc). pose proof (wf_len h Hwf).
  assert (table_length h < 2 ^ 32) as Hb.
  { pose proof (wf_size h Hwf) as Hp. assert (Forall (fun p => p < 2 ^ 32) primes) as Hall
      by (repeat constructor). rewrite Forall_lookup in Hall. eauto. }
  split; [lia|]. apply wrap_small. unfold is_u. lia.
Qed.

Lemma advance_spec h it :
  wf h -> iter_valid h it ->
  let '(ret, it') := hashtable_iterator_advance h it in
  iter_valid h it' /\ remaining h it' = tail (remaining h it) /\
  ((ret = -1 /\ remaining h it' <> []) \/ (ret = 0 /\ remaining h it' = [])).
Proof.
  intros Hwf. destruct it as [c p i]. unfold hashtable_iterator_advance, iter_valid, remaining.
  cbn. intros [->|[Hi Hc]]; [cbn; by auto|]. destruct c as [|e [|e' c]]; [by auto| |].
  - destruct (iter_index_small h i _ Hwf Hi Hc) as [Hlt Hu]. rewrite Hu.
    pose proof (wf_len h Hwf). case_cmp; cbn.
    + rewrite drop_ge by lia. by auto.
    + pose proof (first_chain_spec (drop (Z.to_nat (i + 1)) (table h)) (i + 1)) as Hf.
      replace (S (Z.to_nat i)) with (Z.to_nat (i + 1)) by lia.
      destruct (first_chain _ _) as [[k c]|]; cbn; [|by rewrite Hf; auto].
      destruct Hf as (n & -> & Hn & Hne & ->). rewrite lookup_drop, drop_drop in *.
      replace (Z.to_nat (i + 1 + Z.of_nat n)) with (Z.to_nat (i + 1) + n)%nat by lia.
      destruct c as [|x c]; [done|]. split_and!; [right; split; [lia|done]| |by left].
      by rewrite Nat.add_succ_r.
  - cbn. rewrite <- app_assoc. cbn. split_and!; [right; done|done|by left].
Qed.

(** Reading the entry at the iterator and advancing it until it returns zero. *)
Fixpoint visit (fuel : nat) (h : hashtable) (it : hashtable_iter) : outcome (list (Z * Z)) :=
  match fuel with
  | O => OutOfFuel
  | S fuel =>
      match iter_entry it with
      | [] => Done []
      | _ =>
          k ← hashtable_get_iter_key it;
          v ← hashtable_get_iter_value it;
          let '(ret, it) := hashtable_iterator_advance h it in
          if ret =? 0 then Done [(k, v)]
          else rest ← visit fuel h it; Done ((k, v) :: rest)
      end
  end.

Lemma visit_remaining fuel h it :
  wf h -> iter_valid h it -> (length (remaining h it) < fuel)%nat ->
  visit fuel h it = Done (pair_of <$> remaining h it).
Proof.
  intros Hwf. revert it. induction fuel as [|fuel IH]; intros it Hv Hf; [lia|]. simpl.
  pose proof (advance_spec h it Hwf Hv) as Ha.
  assert (forall e c, iter_entry it = e :: c -> exists r, remaining h it = e :: r) as Hr.
  { intros e c E. unfold remaining. rewrite E. by eexists. }
  unfold hashtable_get_iter_key, hashtable_get_iter_value.
  destruct (iter_entry it) as [|e c] eqn:E; [unfold remaining; by rewrite E|].
  destruct (Hr e c eq_refl) as [r Hrem]. cbn.
  destruct (hashtable_iterator_advance h it) as [ret it']. destruct Ha as (Hv' & Ht & Hret).
  rewrite Hrem in *. cbn in Ht, Hf. destruct Hret as [[-> Hne]|[-> Hn]]; cbn.
  - rewrite IH; [|done|rewrite Ht; lia]. by rewrite Ht.
  - rewrite Hn in Ht. by subst r.
Qed.

(** An iterator visits every binding of the table exactly once: from its creation,
    advanced until it returns zero, it yields the keys and values of all entries in the
    order of the chains, within one step per entry. *)
Theorem iterator_visits h :
  wf h -> counted h -> Z.of_nat (length (entries h)) < 2 ^ 32 ->
  exists it, create_hashtable_iterator true h = Some it /\
    visit (S (length (entries h))) h it = Done (pair_of <$> entries h) /\
    NoDup (fst <$> (pair_of <$> entries h)).
Proof.
  intros Hwf Hn Hb. unfold create_hashtable_iterator. cbn [negb].
  assert (NoDup (fst <$> (pair_of <$> entries h))) by
    (rewrite <- list_fmap_compose; apply (wf_keys h Hwf)).
  pose proof (first_chain_spec (table h) 0) as Hf. unfold counted in Hn.
  rewrite (wrap_small 32) in Hn by (unfold is_u; lia).
  case_cmp.
  - assert (entries h = []) as -> by (destruct (entries h); [done|cbn in *; lia]).
    eexists. split_and!; [done..|constructor].
  - destruct (first_chain (table h) 0) as [[k c]|].
    + destruct Hf as (n0 & -> & Hc & Hne & Hcat). rewrite Z.add_0_l.
      set (it := mk_hashtable_iter c [] (Z.of_nat n0)). exists it. split; [done|].
      assert (remaining h it = entries h) as Hr.
      { unfold remaining, it, entries. cbn [iter_entry iter_index]. rewrite Nat2Z.id, Hcat.
        by destruct c. }
      split; [|done]. rewrite visit_remaining; rewrite ?Hr; [done|done| |lia].
      right. cbn. rewrite Nat2Z.id. split; [lia|done].
    + assert (entries h = []) as -> by done. eexists. split_and!; [done..|constructor].
Qed.

Lemma iterator_search_chain_remove m p c :
  match iterator_search_chain m p c with
  | Some (p', c') => exists e n l, c' = e :: n /\ remove_chain m c = Some (he_value e, l) /\
                     rev p ++ l = rev p' ++ n
  | None => remove_chain m c = None
  end.
Proof.
  revert p. induction c as [|e c IH]; intros p; simpl; [done|].
  destruct (m e); [by exists e, c, c|]. specialize (IH (e :: p)).
  destruct (iterator_search_chain m (e :: p) c) as [[p' c']|]; [|by rewrite IH].
  destruct IH as (e' & n & l & -> & -> & Hl). exists e', n, (e :: l). split_and!; [done..|].
  rewrite <- Hl. simpl. by rewrite <- app_assoc.
Qed.

(** Positioning an iterator on a key and removing there is hashtable_remove: the two
    leave the same table, and the search fails exactly where hashtable_remove finds
    nothing. *)
Theorem iterator_remove_equiv h it key :
  match hashtable_iterator_search it h key with
  | (0, it') => it' = it /\ hashtable_remove h key = (NULL, h)
  | (_, it') => exists v ret it'', hashtable_get_iter_value it' = Done v /\
      hashtable_iterator_remove h it' = Done (ret, it'', snd (hashtable_remove h key)) /\
      fst (hashtable_remove h key) = v
  end.
Proof.
  unfold hashtable_iterator_search, hashtable_remove.
  pose proof (iterator_search_chain_remove (matches h (do_hash h key) key) []
    (bucket (table h) (indexFor (table_length h) (do_hash h key)))) as H.
  destruct (iterator_search_chain _ _ _) as [[p c]|]; [|by rewrite H].
  destruct H as (e & n & l & -> & -> & Hl). simpl in Hl. subst l.
  unfold hashtable_get_iter_value, hashtable_iterator_remove. cbn -[hashtable_iterator_advance].
  match goal with |- context [hashtable_iterator_advance ?a ?b] =>
    destruct (hashtable_iterator_advance a b) as [ret it'']
  end.
  by eexists _, _, _.
Qed.

(** ** Witnesses *)

Definition sample_eq (a b : Z) : Z := if a =? b then 1 else 0.

Definition sample : hashtable :=
  mk_hashtable 53 (replicate 53 []) 0 35 0 (fun k => u32 k) sample_eq.

Lemma sample_ok : wf sample /\ counted sample /\ abs sample = ∅.
Proof.
  destruct (create_hashtable_spec 0 (fun k => u32 k) sample_eq) as (h & Hc & ? & ? & ? & _).
  - intros a b. unfold sample_eq. by case_cmp.
  - done.
  - assert (create_hashtable true true 0 (fun k => u32 k) sample_eq = Some sample) as Hc'
      by reflexivity.
    rewrite Hc' in Hc. by injection Hc as <-.
Qed.

Definition sample_full : hashtable :=
  (set_table sample 7 (mk_hash_entry 7 9 (do_hash sample 7) :: chain_of sample 7))
    <| entry_count := 1 |>.

Lemma sample_full_ok : wf sample_full /\ counted sample_full /\ abs sample_full = {[7 := 9]}.
Proof.
  destruct sample_ok as (Hwf & _ & Ha).
  destruct (insert_entry_spec sample 7 9) as [Hwf' Ha']; [done|by rewrite Ha|].
  split_and!; [by apply wf_count|vm_compute; reflexivity|]. rewrite Ha in Ha'. exact Ha'.
Qed.


Lemma hashtable_refines_witness : exists h',
  hashtable_insert true false true sample_full 8 10 = Done (-1, h') /\
  abs h' = <[8 := 10]> {[7 := 9]}.
Proof.
  destruct (hashtable_refines true sample_full 8 10) as (_ & Hi & _).
  - apply sample_full_ok.
  - apply sample_full_ok.
  - destruct Hi as (h' & ? & _ & _ & Ha); [by rewrite (proj2 (proj2 sample_full_ok))|].
    exists h'. by rewrite <- (proj2 (proj2 sample_full_ok)).
Defined.

Lemma iterator_visits_witness : exists it,
  create_hashtable_iterator true sample_full = Some it /\ visit 2 sample_full it = Done [(7, 9)].
Proof.
  destruct (iterator_visits sample_full) as (it & ? & ? & _).
  - apply sample_full_ok.
  - apply sample_full_ok.
  - vm_compute. reflexivity.
  - by exists it.
Defined.


End Hashtable.
