(* ===== verification/GuestInfo.v ===== *)
(** The state of a guest: vm_guest.h, vm_guest.c and the control register structs of
    vmm_ctrl_regs.h.

    [guest_info] has the members of [struct guest_info] that the memory and control
    register code works on; the states of the other components (interrupt controller,
    I/O map, devices) are the records of their own files.  The theorem relates the mode
    functions to the control register bits the processor manuals define the modes by. *)
From stdpp Require Import base tactics numbers list gmap.
From S2P Require Import Prelude MemMap Intr Hashtable.

(** [struct cr0_32] *)
Module Cr0.
Record cr0_32 := mk {
  pe : Z;
  mp : Z;
  em : Z;
  ts : Z;
  et : Z;
  ne : Z;
  rsvd1 : Z;
  wp : Z;
  rsvd2 : Z;
  am : Z;
  rsvd3 : Z;
  nw : Z;
  cd : Z;
  pg : Z;
}.

#[global] Instance eta_cr0_32 : Eta cr0_32 := fun c => mk (pe c) (mp c) (em c) (ts c) (et c)
  (ne c) (rsvd1 c) (wp c) (rsvd2 c) (am c) (rsvd3 c) (nw c) (cd c) (pg c).

#[global, program] Instance bits_cr0_32 : BitStruct cr0_32 := {|
  bs_widths := [1; 1; 1; 1; 1; 1; 10; 1; 1; 1; 10; 1; 1; 1];
  bs_values c := [pe c; mp c; em c; ts c; et c; ne c; rsvd1 c; wp c; rsvd2 c; am c; rsvd3 c;
    nw c; cd c; pg c];
  bs_make vs := mk (nth 0 vs 0) (nth 1 vs 0) (nth 2 vs 0) (nth 3 vs 0) (nth 4 vs 0)
    (nth 5 vs 0) (nth 6 vs 0) (nth 7 vs 0) (nth 8 vs 0) (nth 9 vs 0) (nth 10 vs 0)
    (nth 11 vs 0) (nth 12 vs 0) (nth 13 vs 0)
|}.
Solve All Obligations with solve_bitstruct.
End Cr0.

(** [struct cr3_32] *)
Module Cr3.
Record cr3_32 := mk {
  rsvd1 : Z;
  pwt : Z;
  pcd : Z;
  rsvd2 : Z;
  pdt_base_addr : Z;
}.

#[global] Instance eta_cr3_32 : Eta cr3_32 := fun c =>
  mk (rsvd1 c) (pwt c) (pcd c) (rsvd2 c) (pdt_base_addr c).

#[global, program] Instance bits_cr3_32 : BitStruct cr3_32 := {|
  bs_widths := [3; 1; 1; 7; 20];
  bs_values c := [rsvd1 c; pwt c; pcd c; rsvd2 c; pdt_base_addr c];
  bs_make vs := mk (nth 0 vs 0) (nth 1 vs 0) (nth 2 vs 0) (nth 3 vs 0) (nth 4 vs 0)
|}.
Solve All Obligations with solve_bitstruct.
End Cr3.

(** [struct cr4_32] *)
Module Cr4.
Record cr4_32 := mk {
  vme : Z;
  pvi : Z;
  tsd : Z;
  de : Z;
  pse : Z;
  pae : Z;
  mce : Z;
  pge : Z;
  pce : Z;
  osf_xsr : Z;
  osx : Z;
  rsvd1 : Z;
}.

#[global, program] Instance bits_cr4_32 : BitStruct cr4_32 := {|
  bs_widths := [1; 1; 1; 1; 1; 1; 1; 1; 1; 1; 1; 21];
  bs_values c := [vme c; pvi c; tsd c; de c; pse c; pae c; mce c; pge c; pce c; osf_xsr c;
    osx c; rsvd1 c];
  bs_make vs := mk (nth 0 vs 0) (nth 1 vs 0) (nth 2 vs 0) (nth 3 vs 0) (nth 4 vs 0)
    (nth 5 vs 0) (nth 6 vs 0) (nth 7 vs 0) (nth 8 vs 0) (nth 9 vs 0) (nth 10 vs 0)
    (nth 11 vs 0)
|}.
Solve All Obligations with solve_bitstruct.
End Cr4.

(** The word of [struct efer_64] that its members up to rsvd4 share; rsvd5 is the next. *)
Module Efer.
Record efer_64 := mk {
  sce : Z;
  rsvd1 : Z;
  lme : Z;
  rsvd2 : Z;
  lma : Z;
  nxe : Z;
  svme : Z;
  rsvd3 : Z;
  ffxsr : Z;
  rsvd4 : Z;
}.

#[global, program] Instance bits_efer_64 : BitStruct efer_64 := {|
  bs_widths := [1; 7; 1; 1; 1; 1; 1; 1; 1; 12];
  bs_values c := [sce c; rsvd1 c; lme c; rsvd2 c; lma c; nxe c; svme c; rsvd3 c; ffxsr c;
    rsvd4 c];
  bs_make vs := mk (nth 0 vs 0) (nth 1 vs 0) (nth 2 vs 0) (nth 3 vs 0) (nth 4 vs 0)
    (nth 5 vs 0) (nth 6 vs 0) (nth 7 vs 0) (nth 8 vs 0) (nth 9 vs 0)
|}.
Solve All Obligations with solve_bitstruct.
End Efer.

Module GuestInfo.
Import ShadowMap Intr Hashtable.

(** ** Data *)

Record v3_gprs := mk_v3_gprs {
  rdi : Z;
  rsi : Z;
  rbp : Z;
  rsp : Z;
  rbx : Z;
  rdx : Z;
  rcx : Z;
  rax : Z;
}.

#[export] Instance eta_v3_gprs : Eta v3_gprs := fun r =>
  mk_v3_gprs (rdi r) (rsi r) (rbp r) (rsp r) (rbx r) (rdx r) (rcx r) (rax r).

Record v3_ctrl_regs := mk_v3_ctrl_regs {
  cr0 : Z;
  cr2 : Z;
  cr3 : Z;
  cr4 : Z;
  cr8 : Z;
  rflags : Z;
  efer : Z;
}.

#[export] Instance eta_v3_ctrl_regs : Eta v3_ctrl_regs := fun r =>
  mk_v3_ctrl_regs (cr0 r) (cr2 r) (cr3 r) (cr4 r) (cr8 r) (rflags r) (efer r).

Record v3_dbg_regs := mk_v3_dbg_regs {
  dr0 : Z;
  dr1 : Z;
  dr2 : Z;
  dr3 : Z;
  dr6 : Z;
  dr7 : Z;
}.

#[export] Instance eta_v3_dbg_regs : Eta v3_dbg_regs := fun r =>
  mk_v3_dbg_regs (dr0 r) (dr1 r) (dr2 r) (dr3 r) (dr6 r) (dr7 r).

Record v3_segment := mk_v3_segment {
  selector : Z;
  limit : Z;
  base : Z;
  seg_type : Z;
  system : Z;
  dpl : Z;
  seg_present : Z;
  avail : Z;
  long_mode : Z;
  db : Z;
  granularity : Z;
}.

Record v3_segments := mk_v3_segments {
  cs : v3_segment;
  ds : v3_segment;
  es : v3_segment;
  fs : v3_segment;
  gs : v3_segment;
  ss : v3_segment;
  ldtr : v3_segment;
  gdtr : v3_segment;
  idtr : v3_segment;
  tr : v3_segment;
}.

Inductive v3_paging_mode := SHADOW_PAGING | NESTED_PAGING.
Inductive v3_vm_operating_mode := VM_RUNNING | VM_STOPPED | VM_SUSPENDED | VM_ERROR | VM_EMULATING.
Inductive v3_vm_cpu_mode := REAL | PROTECTED | PROTECTED_PAE | LONG | LONG_32_COMPAT | LONG_16_COMPAT.
Inductive v3_vm_mem_mode := PHYSICAL_MEM | VIRTUAL_MEM.

#[export] Instance v3_vm_cpu_mode_eq_dec : EqDecision v3_vm_cpu_mode.
Proof. solve_decision. Defined.
#[export] Instance v3_vm_mem_mode_eq_dec : EqDecision v3_vm_mem_mode.
Proof. solve_decision. Defined.

(** [struct shadow_page_state]; the hash tables are reached through no other pointer. *)
Record shadow_page_state := mk_shadow_page_state {
  guest_cr3 : Z;
  guest_cr0 : Z;
  shadow_cr3 : Z;
  cr3_cache : option hashtable;
  cached_ptes : option hashtable;
  cached_cr3 : Z;
}.

#[export] Instance eta_shadow_page_state : Eta shadow_page_state := fun s =>
  mk_shadow_page_state (guest_cr3 s) (guest_cr0 s) (shadow_cr3 s) (cr3_cache s)
    (cached_ptes s) (cached_cr3 s).

(** The structs of vmm_emulator.h; entries of page tables are their words. *)
Record emulated_page := mk_emulated_page {
  page_addr : Z;
  em_va : Z;
  em_pte : Z;
}.

Record saved_page := mk_saved_page {
  sv_va : Z;
  sv_pte : Z;
}.

Record write_region := mk_write_region {
  write_data : Z;
  wr_length : Z;
  wr_write : Z;
  write_addr : Z;
  private_data : Z;
}.

(** The lists, from the entry after the head. *)
Record emulation_state := mk_emulation_state {
  num_emulated_pages : Z;
  emulated_pages : list emulated_page;
  num_saved_pages : Z;
  saved_pages : list saved_page;
  num_write_regions : Z;
  write_regions : list write_region;
  running : Z;
  emu_instr_length : Z;
  tf_enabled : Z;
}.

#[export] Instance eta_emulation_state : Eta emulation_state := fun e =>
  mk_emulation_state (num_emulated_pages e) (emulated_pages e) (num_saved_pages e)
    (saved_pages e) (num_write_regions e) (write_regions e) (running e) (emu_instr_length e)
    (tf_enabled e).

Record guest_info := mk_guest_info {
  rip : Z;
  cpl : Z;
  mem_map : shadow_map;
  shdw_pg_mode : v3_paging_mode;
  shdw_pg_state : shadow_page_state;
  direct_map_pt : Z;
  intr_excp : v3_excp_state;
  cpu_mode : v3_vm_cpu_mode;
  mem_mode : v3_vm_mem_mode;
  vm_regs : v3_gprs;
  ctrl_regs : v3_ctrl_regs;
  dbg_regs : v3_dbg_regs;
  segments : v3_segments;
  emulator : emulation_state;
  run_state : v3_vm_operating_mode;
}.

#[export] Instance eta_guest_info : Eta guest_info := fun i =>
  mk_guest_info (rip i) (cpl i) (mem_map i) (shdw_pg_mode i) (shdw_pg_state i)
    (direct_map_pt i) (intr_excp i) (cpu_mode i) (mem_mode i) (vm_regs i) (ctrl_regs i)
    (dbg_regs i) (segments i) (emulator i) (run_state i).

(** A 64-bit register seen as a 32-bit struct: reading it, and assigning the struct. *)
Definition low32 {T} `{BitStruct T} (r : Z) : T := decode (u32 r).
Definition set_low32 {T} `{BitStruct T} (r : Z) (s : T) : Z :=
  2 ^ 32 * (r / 2 ^ 32) + encode s.

(** ** Modes *)

(** The register the guest believes to be CR0. *)
Definition visible_cr0 (info : guest_info) : Z :=
  match shdw_pg_mode info with
  | SHADOW_PAGING => guest_cr0 (shdw_pg_state info)
  | NESTED_PAGING => cr0 (ctrl_regs info)
  end.

Definition v3_get_cpu_mode (info : guest_info) : v3_vm_cpu_mode :=
  let cr0 := low32 (visible_cr0 info) in
  let cr4 := low32 (cr4 (ctrl_regs info)) in
  let efer := low32 (efer (ctrl_regs info)) in
  if Cr0.pe cr0 =? 0 then REAL
  else if (Cr4.pae cr4 =? 0) && (Efer.lma efer =? 0) then PROTECTED
  else if Efer.lma efer =? 0 then PROTECTED_PAE
  else if (Efer.lma efer =? 1) && (long_mode (cs (segments info)) =? 1) then LONG
  else LONG_32_COMPAT.

Definition v3_get_mem_mode (info : guest_info) : v3_vm_mem_mode :=
  if Cr0.pg (low32 (visible_cr0 info)) =? 0 then PHYSICAL_MEM else VIRTUAL_MEM.

(** The members of a word at their bit positions. *)
Lemma set_low32_low {T} `{BitStruct T} r (s : T) :
  total bs_widths = 32 -> bs_wf s -> low32 (set_low32 r s) = s.
Proof.
  intros Ht Hs. unfold low32, set_low32. pose proof (encode_u 32 s Ht) as Hu.
  unfold wrap. rewrite Z.add_comm, Z.mul_comm, Z.mod_add by done.
  rewrite Z.mod_small by exact Hu. by apply decode_encode.
Qed.

Lemma testbit_u32 x i : 0 <= i < 32 -> Z.testbit (u32 x) i = Z.testbit x i.
Proof. intros Hi. apply Z.mod_pow2_bits_low. lia. Qed.

Lemma field_u32_bit x i : 0 <= i < 32 -> field (u32 x) i 1 = Z.b2z (Z.testbit x i).
Proof.
  intros Hi. unfold field. rewrite <- Z.testbit_spec' by lia. by rewrite testbit_u32.
Qed.

(** The modes are those the architecture defines by the control registers the guest
    sees: real mode when CR0.PE is clear, otherwise long mode and its compatibility mode
    by EFER.LMA and the code segment, and PAE or legacy protected mode by CR4.PAE; memory
    is virtual exactly when CR0.PG is set. *)
Theorem get_mode_spec info :
  let bit r i := Z.testbit r i in
  let c0 := visible_cr0 info in
  let c4 := cr4 (ctrl_regs info) in
  let lma := bit (efer (ctrl_regs info)) 10 in
  v3_get_cpu_mode info =
    (if bit c0 0 then
       if lma then if long_mode (cs (segments info)) =? 1 then LONG else LONG_32_COMPAT
       else if bit c4 5 then PROTECTED_PAE else PROTECTED
     else REAL) /\
  v3_get_mem_mode info = (if bit c0 31 then VIRTUAL_MEM else PHYSICAL_MEM).
Proof.
  cbv zeta. unfold v3_get_cpu_mode, v3_get_mem_mode, low32. split.
  - change (Cr0.pe (decode ?w)) with (field w 0 1).
    change (Cr4.pae (decode ?w)) with (field w 5 1).
    change (Efer.lma (decode ?w)) with (field w 10 1).
    rewrite !field_u32_bit by done.
    by destruct (Z.testbit _ 0), (Z.testbit _ 5), (Z.testbit _ 10), (long_mode _ =? 1).
  - change (Cr0.pg (decode ?w)) with (field w 31 1).
    rewrite !field_u32_bit by done. by destruct (Z.testbit _ 31).
Qed.

End GuestInfo.
