(* ===== verification/GuestMem.v ===== *)
(** Guest memory: vm_guest_mem.c.

    [Module GuestMem] translates the conversions between guest virtual, guest physical,
    host physical and host virtual addresses, and the three copy loops that split an
    access at page boundaries.  The theorems show that a copy transfers exactly the bytes
    of the longest mapped prefix of its range, page by page, wherever the pages lie in host
    memory, and that what is written is read back. *)
From stdpp Require Import base tactics numbers list gmap.
From S2P Require Import Prelude Chain Host MemMap Paging Intr Hashtable GuestInfo.

Module GuestMem.
Import ShadowMap Paging GuestInfo.

(** The regions of the shadow map of a guest whose list has the nodes [l]. *)
Abbreviation regions_of info l := (view (regions (mem_map info)) l).

Section guest_mem.
Context {A : Arch} {Hos : OsHooks}.
Implicit Types (info : guest_info) (m : mem).

(** ** Address conversions

    Each returns the result and the value of the variable its last argument points to,
    whose value before the call is the last argument here. *)

Definition host_va_to_host_pa (host_va host_pa : Z) : Z * Z :=
  match vaddr_to_paddr with
  | Some f => let host_pa := f host_va in
              if host_pa =? 0 then (-1, host_pa) else (0, host_pa)
  | None => (-1, host_pa)
  end.

Definition host_pa_to_host_va (host_pa host_va : Z) : Z * Z :=
  match paddr_to_vaddr with
  | Some f => let host_va := f host_pa in
              if host_va =? 0 then (-1, host_va) else (0, host_va)
  | None => (-1, host_va)
  end.

Definition guest_pa_to_host_pa info (guest_pa host_pa : Z) : outcome (Z * Z) :=
  '(reg_type, host_pa) ← lookup_shadow_map_addr (mem_map info) guest_pa host_pa;
  match reg_type with
  | HOST_REGION_PHYSICAL_MEMORY => Done (0, host_pa)
  | _ => Done (-1, host_pa)
  end.

Definition host_pa_to_guest_pa info (host_pa : Z) : Z * Z := (-1, 0).

Definition host_va_to_guest_pa info (host_va : Z) : Z * Z :=
  let '(r, host_pa) := host_va_to_host_pa host_va 0 in
  if negb (r =? 0) then (-1, 0) else
  let '(r, guest_pa) := host_pa_to_guest_pa info host_pa in
  if negb (r =? 0) then (-1, guest_pa) else (0, guest_pa).

Definition guest_pa_to_host_va info (guest_pa : Z) : outcome (Z * Z) :=
  '(r, host_pa) ← guest_pa_to_host_pa info guest_pa 0;
  if negb (r =? 0) then Done (-1, 0) else
  let '(r, host_va) := host_pa_to_host_va host_pa 0 in
  if negb (r =? 0) then Done (-1, host_va) else Done (0, host_va).

Definition guest_va_to_guest_pa info m (guest_va guest_pa : Z) : outcome (Z * Z) :=
  match mem_mode info with
  | PHYSICAL_MEM => Done (0, guest_va)
  | VIRTUAL_MEM =>
    match cpu_mode info with
    | PROTECTED =>
      let guest_pde :=
        match shdw_pg_mode info with
        | SHADOW_PAGING => V3_PAddr (CR3_TO_PDE32 (guest_cr3 (shdw_pg_state info)))
        | NESTED_PAGING => V3_PAddr (CR3_TO_PDE32 (cr3 (ctrl_regs info)))
        end in
      '(r, pde) ← guest_pa_to_host_va info guest_pde;
      if r =? -1 then Done (-1, guest_pa) else
      let '(entry, tmp_pa) := pde32_lookup m pde guest_va in
      match entry with
      | PDE32_ENTRY_NOT_PRESENT => Done (-1, 0)
      | PDE32_ENTRY_LARGE_PAGE => Done (0, tmp_pa)
      | PDE32_ENTRY_PTE32 =>
        '(r, pte) ← guest_pa_to_host_va info tmp_pa;
        if r =? -1 then Done (-1, guest_pa) else
        let '(r, guest_pa) := pte32_lookup m pte guest_va in
        if negb (r =? 0) then Done (-1, guest_pa) else Done (0, guest_pa)
      end
    | _ => Done (-1, guest_pa)
    end
  end.

Definition guest_pa_to_guest_va info (guest_pa : Z) : Z * Z := (-1, 0).

Definition guest_va_to_host_pa info m (guest_va : Z) : outcome (Z * Z) :=
  '(r, guest_pa) ← guest_va_to_guest_pa info m guest_va 0;
  if negb (r =? 0) then Done (-1, 0) else
  '(r, host_pa) ← guest_pa_to_host_pa info guest_pa 0;
  if negb (r =? 0) then Done (-1, host_pa) else Done (0, host_pa).

Definition host_pa_to_guest_va info (host_pa : Z) : Z * Z :=
  let '(r, guest_pa) := host_pa_to_guest_pa info host_pa in
  if negb (r =? 0) then (-1, 0) else
  let '(r, guest_va) := guest_pa_to_guest_va info guest_pa in
  if negb (r =? 0) then (-1, guest_va) else (0, guest_va).

Definition guest_va_to_host_va info m (guest_va : Z) : outcome (Z * Z) :=
  '(r, guest_pa) ← guest_va_to_guest_pa info m guest_va 0;
  if negb (r =? 0) then Done (-1, 0) else
  '(r, host_pa) ← guest_pa_to_host_pa info guest_pa 0;
  if negb (r =? 0) then Done (-1, 0) else
  let '(r, host_va) := host_pa_to_host_va host_pa 0 in
  if negb (r =? 0) then Done (-1, host_va) else Done (0, host_va).

Definition host_va_to_guest_va info (host_va : Z) : Z * Z :=
  let '(r, host_pa) := host_va_to_host_pa host_va 0 in
  if negb (r =? 0) then (-1, 0) else
  let '(r, guest_pa) := host_pa_to_guest_pa info host_pa in
  if negb (r =? 0) then (-1, 0) else
  let '(r, guest_va) := guest_pa_to_guest_va info guest_pa in
  if negb (r =? 0) then (-1, guest_va) else (0, guest_va).

(** ** Copies *)

(** [memcpy] from and to host memory. *)
Definition copy_from m (a n : Z) : list Z := (fun i => load8 m (a + i)) <$> seqZ 0 n.

Definition copy_to m (a : Z) (bs : list Z) : mem :=
  fun x => if (a <=? x) && (x <? a + Z.of_nat (length bs))
           then u8 (nth (Z.to_nat (x - a)) bs 0) else m x.

(** The distance to the end of the page, computed in an [addr_t] and kept in an [int]. *)
Definition dist_to_pg_edge (cursor : Z) : Z :=
  int32 (ulong (u32 (PAGE_ADDR cursor + PAGE_SIZE) - cursor)).

Definition bytes_to_copy (cursor count : Z) : Z :=
  if dist_to_pg_edge cursor >? count then count else dist_to_pg_edge cursor.

(** The read loops: [xlate] is the conversion the loop calls and [dest] what has been
    read; [count] iterations are enough, since each copies a byte or returns. *)
Fixpoint read_loop (fuel : nat) (xlate : Z -> outcome (Z * Z)) m (cursor count : Z)
    (dest : list Z) : outcome (list Z) :=
  if count >? 0 then
    match fuel with
    | O => OutOfFuel
    | S fuel =>
      let n := bytes_to_copy cursor count in
      '(r, host_addr) ← xlate cursor;
      if negb (r =? 0) then Done dest else
      read_loop fuel xlate m (ulong (cursor + n)) (count - n) (dest ++ copy_from m host_addr n)
    end
  else Done dest.

Definition read_guest_va_memory info m (guest_va count : Z) : outcome (Z * list Z) :=
  dest ← read_loop (Z.to_nat count) (guest_va_to_host_va info m) m guest_va count [];
  Done (Z.of_nat (length dest), dest).

Definition read_guest_pa_memory info m (guest_pa count : Z) : outcome (Z * list Z) :=
  dest ← read_loop (Z.to_nat count) (guest_pa_to_host_va info) m guest_pa count [];
  Done (Z.of_nat (length dest), dest).

Fixpoint write_loop (fuel : nat) (xlate : Z -> outcome (Z * Z)) m (cursor count : Z)
    (src : list Z) (bytes_written : Z) : outcome (Z * mem) :=
  if count >? 0 then
    match fuel with
    | O => OutOfFuel
    | S fuel =>
      let n := bytes_to_copy cursor count in
      '(r, host_addr) ← xlate cursor;
      if negb (r =? 0) then Done (bytes_written, m) else
      let m := copy_to m host_addr (take (Z.to_nat n) (drop (Z.to_nat bytes_written) src)) in
      write_loop fuel xlate m (ulong (cursor + n)) (count - n) src (bytes_written + n)
    end
  else Done (bytes_written, m).

Definition write_guest_pa_memory info m (guest_pa count : Z) (src : list Z)
    : outcome (Z * mem) :=
  write_loop (Z.to_nat count) (guest_pa_to_host_va info) m guest_pa count src 0.

(** ** The loops against a reference

    [T] is the conversion as a partial function. *)

Definition implements (xlate : Z -> outcome (Z * Z)) (T : Z -> option Z) : Prop :=
  forall c, is_addr c -> exists r v, xlate c = Done (r, v) /\
    match T c with Some v' => r = 0 /\ v = v' | None => r = -1 end.

(** Consecutive addresses of a page are converted to consecutive addresses. *)
Definition page_coherent (T : Z -> option Z) : Prop :=
  forall a k, is_addr a -> 0 <= k -> a mod PAGE_SIZE + k < PAGE_SIZE ->
    T (a + k) = (fun v => v + k) <$> T a.

(** The bytes of a range, and how much of it is mapped. *)
Definition guest_bytes (T : Z -> option Z) m (a n : Z) : list Z :=
  (fun x => load8 m (default 0 (T x))) <$> seqZ a n.

Definition mapped_prefix (T : Z -> option Z) (a count n : Z) : Prop :=
  0 <= n <= count /\ (forall i, 0 <= i < n -> is_Some (T (a + i))) /\
  (n < count -> T (a + n) = None).

Lemma dist_to_pg_edge_eq c : is_addr c -> dist_to_pg_edge c = PAGE_SIZE - c mod PAGE_SIZE.
Proof.
  intros Hc. unfold dist_to_pg_edge, ulong. rewrite PAGE_ADDR_eq.
  assert (forall x, u32 (wrap (BITS_PER_LONG the_arch) x) = u32 x) as Hu.
  { intros x. unfold wrap, BITS_PER_LONG. destruct the_arch; [apply Zmod_mod|].
    change (2 ^ 64) with (2 ^ 32 * 2 ^ 32). rewrite Z.rem_mul_r by done.
    by rewrite Z.mul_comm, Z.mod_add, Zmod_mod by done. }
  unfold sint. rewrite Hu. replace (u32 _) with (PAGE_SIZE - c mod PAGE_SIZE).
  - pose proof (Z.mod_pos_bound c PAGE_SIZE). case_cmp; lia.
  - symmetry. transitivity (u32 (PAGE_SIZE - c mod PAGE_SIZE)).
    + apply wrap_eqw. setoid_rewrite eqw_wrap.
      assert (4096 * (u32 c / 4096) = u32 c - c mod PAGE_SIZE) as ->.
      { pose proof (Z.div_mod (u32 c) 4096). unfold wrap in *.
        rewrite Z.mod_mod_divide in * by (by exists (2 ^ 20)).
        lia. }
      setoid_rewrite eqw_wrap. split. f_equal. lia.
    + apply wrap_small. unfold is_u. pose proof (Z.mod_pos_bound c PAGE_SIZE). lia.
Qed.

Lemma bytes_to_copy_spec c count :
  is_addr c -> 0 < count ->
  0 < bytes_to_copy c count <= count /\ c mod PAGE_SIZE + bytes_to_copy c count <= PAGE_SIZE /\
  (bytes_to_copy c count < count -> (c + bytes_to_copy c count) mod PAGE_SIZE = 0).
Proof.
  intros Hc Hn. unfold bytes_to_copy. rewrite dist_to_pg_edge_eq by done.
  pose proof (Z.mod_pos_bound c PAGE_SIZE). case_cmp; [lia|]. split_and!; [lia..|].
  intros _. replace (c + _) with ((c / PAGE_SIZE + 1) * PAGE_SIZE).
  - apply Z.mod_mul. done.
  - pose proof (Z.div_mod c PAGE_SIZE). lia.
Qed.

Lemma guest_bytes_app T m a n k :
  0 <= n -> 0 <= k -> guest_bytes T m a (n + k) = guest_bytes T m a n ++ guest_bytes T m (a + n) k.
Proof. intros. unfold guest_bytes. by rewrite seqZ_app, fmap_app by done. Qed.

(** One iteration copies the bytes of its part of the page. *)
Lemma copy_from_guest T m a v n :
  page_coherent T -> is_addr a -> T a = Some v -> a mod PAGE_SIZE + n <= PAGE_SIZE ->
  copy_from m v n = guest_bytes T m a n.
Proof.
  intros HT Ha Hv Hn. unfold copy_from, guest_bytes.
  rewrite <- (Z.add_0_r a) at 1. rewrite <- fmap_add_seqZ, <- list_fmap_compose.
  apply list_fmap_ext. intros i x Hx. apply lookup_seqZ in Hx as [-> Hi]. simpl.
  rewrite (HT a) by (done || lia). by rewrite Hv.
Qed.

Lemma mapped_chunk T a v n count k :
  page_coherent T -> is_addr a -> T a = Some v -> 0 <= n -> a mod PAGE_SIZE + n <= PAGE_SIZE ->
  mapped_prefix T (a + n) (count - n) k -> mapped_prefix T a count (n + k).
Proof.
  intros HT Ha Hv Hn Hp (Hk & Hs & Hnone). split_and!; [lia..| |].
  - intros i Hi. destruct (Z.lt_ge_cases i n).
    + rewrite (HT a) by (done || lia). rewrite Hv. by eexists.
    + replace (a + i) with (a + n + (i - n)) by lia. apply Hs. lia.
  - intros Hlt. rewrite Z.add_assoc. apply Hnone. lia.
Qed.

Lemma next_cursor c n count :
  is_addr c -> 0 <= n < count -> c + count <= 2 ^ BITS_PER_LONG the_arch ->
  ulong (c + n) = c + n /\ is_addr (c + n).
Proof.
  intros Hc Hn Hb. assert (is_addr (c + n)) as Ha by (unfold is_addr, is_u in *; lia).
  split; [by apply ulong_small|done].
Qed.

Lemma read_loop_done fuel xlate m c dest : read_loop fuel xlate m c 0 dest = Done dest.
Proof. by destruct fuel. Qed.

Lemma read_loop_spec xlate T m fuel c count dest :
  implements xlate T -> page_coherent T -> is_addr c -> 0 <= count ->
  c + count <= 2 ^ BITS_PER_LONG the_arch -> (Z.to_nat count <= fuel)%nat ->
  exists n, mapped_prefix T c count n /\
    read_loop fuel xlate m c count dest = Done (dest ++ guest_bytes T m c n).
Proof.
  intros Hx HT. revert c count dest.
  induction fuel as [|fuel IH]; intros c count dest Hc Hn Hb Hf.
  - assert (count = 0) as -> by lia. exists 0. split; [split_and!; lia|].
    by rewrite read_loop_done, app_nil_r.
  - destruct (decide (count = 0)) as [->|Hne].
    { exists 0. split; [split_and!; lia|]. by rewrite read_loop_done, app_nil_r. }
    destruct (bytes_to_copy_spec c count Hc ltac:(lia)) as (Hn1 & Hn2 & _).
    cbn [read_loop]. rewrite (proj2 (Z.gtb_lt _ _)) by lia.
    set (n := bytes_to_copy c count) in *. clearbody n.
    destruct (Hx c Hc) as (r & v & -> & HTc). cbn. destruct (T c) as [v'|] eqn:Hv.
    + destruct HTc as [-> ->]. cbn. rewrite (copy_from_guest T m c) by done.
      destruct (decide (n = count)) as [->|].
      * rewrite Z.sub_diag, read_loop_done. exists count. split; [|done].
        rewrite <- (Z.add_0_r count) at 2. eapply mapped_chunk; [done..|lia|done|].
        rewrite Z.sub_diag. split_and!; lia.
      * destruct (next_cursor c n count Hc ltac:(lia) Hb) as [-> Hc'].
        destruct (IH (c + n) (count - n) (dest ++ guest_bytes T m c n)) as (k & Hk & ->);
          [done|lia..|]. exists (n + k).
        split; [by eapply mapped_chunk; [..|lia|done|]|].
        rewrite <- app_assoc. rewrite guest_bytes_app; [done|lia|apply Hk].
    + subst r. cbn. exists 0.
      split; [split_and!; [lia..|]; intros _; by rewrite Z.add_0_r|]. by rewrite app_nil_r.
Qed.

Lemma write_loop_done fuel xlate m c src w : write_loop fuel xlate m c 0 src w = Done (w, m).
Proof. by destruct fuel. Qed.

(** What a write of the bytes [src] to the addresses [T] gives for [a], [a + 1], ... leaves
    in memory: those bytes, provided no two of the addresses coincide, and elsewhere what
    was there. *)
Definition injective_on (T : Z -> option Z) (a n : Z) : Prop :=
  forall i j v, 0 <= i < n -> 0 <= j < n -> T (a + i) = Some v -> T (a + j) = Some v -> i = j.

Definition written (T : Z -> option Z) m (a n : Z) (src : list Z) (m' : mem) : Prop :=
  (forall x, (forall i, 0 <= i < n -> T (a + i) <> Some x) -> m' x = m x) /\
  (forall i v, injective_on T a n -> 0 <= i < n -> T (a + i) = Some v ->
     m' v = u8 (nth (Z.to_nat i) src 0)).

Lemma written_nil T m a src : written T m a 0 src m.
Proof. split; intros; [done|lia]. Qed.

Lemma copy_to_written T m a v n src :
  page_coherent T -> is_addr a -> T a = Some v -> a mod PAGE_SIZE + n <= PAGE_SIZE ->
  0 <= n <= Z.of_nat (length src) ->
  written T m a n src (copy_to m v (take (Z.to_nat n) src)).
Proof.
  intros HT Ha Hv Hp Hn.
  assert (Z.of_nat (length (take (Z.to_nat n) src)) = n) as Hl by (rewrite length_take; lia).
  assert (forall i, 0 <= i < n -> T (a + i) = Some (v + i)) as Hi.
  { intros i Hi. rewrite (HT a) by (done || lia). by rewrite Hv. }
  unfold copy_to. rewrite Hl. split.
  - intros x Hx. destruct (_ && _) eqn:E; [|done].
    exfalso. apply (Hx (x - v)); [lia|]. rewrite Hi by lia. f_equal. lia.
  - intros i w _ Hr. rewrite Hi by done. intros [= <-].
    rewrite (proj2 (andb_true_iff _ _)) by lia. f_equal. replace (v + i - v) with i by lia.
    rewrite !nth_lookup, lookup_take_lt by lia. done.
Qed.

Lemma written_app T m m1 m2 a n k src :
  0 <= n -> 0 <= k -> (forall i, 0 <= i < n + k -> is_Some (T (a + i))) ->
  written T m a n src m1 -> written T m1 (a + n) k (drop (Z.to_nat n) src) m2 ->
  written T m a (n + k) src m2.
Proof.
  intros Hn Hk Hs [H1 H2] [H3 H4]. split.
  - intros x Hx. rewrite H3; [apply H1; intros i Hi; apply Hx; lia|].
    intros i Hi. rewrite <- Z.add_assoc. apply Hx. lia.
  - intros i v Hinj Hi Hv. destruct (Z.lt_ge_cases i n).
    + rewrite H3.
      * apply H2; [|lia|done]. intros i' j w ? ? ? ?. apply (Hinj i' j w); done || lia.
      * intros j Hj Hj'. rewrite <- Z.add_assoc in Hj'. pose proof (Hinj i (n + j) v Hi ltac:(lia) Hv Hj').
        lia.
    + rewrite (H4 (i - n)).
      * rewrite !nth_lookup, lookup_drop. do 3 f_equal. lia.
      * intros i' j w ? ? Hw1 Hw2. rewrite <- Z.add_assoc in Hw1, Hw2.
        pose proof (Hinj (n + i') (n + j) w). lia || (assert (n + i' = n + j); [eauto with lia|lia]).
      * lia.
      * rewrite <- Hv. f_equal. lia.
Qed.

Lemma write_loop_spec xlate T fuel m c count src w :
  implements xlate T -> page_coherent T -> is_addr c -> 0 <= count ->
  c + count <= 2 ^ BITS_PER_LONG the_arch -> (Z.to_nat count <= fuel)%nat ->
  0 <= w -> w + count <= Z.of_nat (length src) ->
  exists n m', mapped_prefix T c count n /\
    write_loop fuel xlate m c count src w = Done (w + n, m') /\
    written T m c n (drop (Z.to_nat w) src) m'.
Proof.
  intros Hx HT. revert m c count w.
  induction fuel as [|fuel IH]; intros m c count w Hc Hn Hb Hf Hw Hl.
  - assert (count = 0) as -> by lia. exists 0, m.
    rewrite write_loop_done, Z.add_0_r. split_and!; [split_and!; lia|done|apply written_nil].
  - destruct (decide (count = 0)) as [->|Hne].
    { exists 0, m. rewrite write_loop_done, Z.add_0_r.
      split_and!; [split_and!; lia|done|apply written_nil]. }
    destruct (bytes_to_copy_spec c count Hc ltac:(lia)) as (Hn1 & Hn2 & _).
    cbn [write_loop]. rewrite (proj2 (Z.gtb_lt _ _)) by lia.
    set (n := bytes_to_copy c count) in *. clearbody n.
    destruct (Hx c Hc) as (r & v & -> & HTc). cbn. destruct (T c) as [v'|] eqn:Hv.
    + destruct HTc as [-> ->]. cbn. set (src' := drop (Z.to_nat w) src).
      assert (Z.of_nat (length src') = Z.of_nat (length src) - w) as Hl'
        by (unfold src'; rewrite length_drop; lia).
      pose proof (copy_to_written T m c v' n src' HT Hc Hv Hn2 ltac:(lia)) as Hw1.
      set (m1 := copy_to _ _ _) in *. clearbody m1.
      assert (exists k m', mapped_prefix T (c + n) (count - n) k /\
        write_loop fuel xlate m1 (ulong (c + n)) (count - n) src (w + n) = Done (w + n + k, m') /\
        written T m1 (c + n) k (drop (Z.to_nat n) src') m') as (k & m' & Hk & -> & Hw2).
      { destruct (decide (n = count)) as [->|].
        - exists 0, m1. rewrite Z.sub_diag, write_loop_done, Z.add_0_r.
          split_and!; [split_and!; lia|done|apply written_nil].
        - destruct (next_cursor c n count Hc ltac:(lia) Hb) as [-> Hc'].
          unfold src'. rewrite drop_drop, <- Z2Nat.inj_add by lia. apply IH; done || lia. }
      assert (mapped_prefix T c count (n + k)) as Hm by (eapply mapped_chunk; done || lia).
      exists (n + k), m'. split_and!; [done|by rewrite Z.add_assoc|].
      eapply written_app; [lia|apply Hk|apply Hm|done..].
    + subst r. cbn. exists 0, m. rewrite Z.add_0_r.
      split_and!; [split_and!; [lia..|]; intros _; by rewrite Z.add_0_r|done|apply written_nil].
Qed.

(** ** Guest physical addresses *)

(** The host virtual address of a guest physical address that memory backs. *)
Definition gpa_hva (v : list shadow_region) (a : Z) : option Z :=
  r ← lookup_list v a;
  match host_type r with
  | HOST_REGION_PHYSICAL_MEMORY => Some (V3_VAddr (host_addr r + (a - guest_start r)))
  | _ => None
  end.

(** Memory regions cover whole pages and lie in the physical address space. *)
Definition paged_region (r : shadow_region) : Prop :=
  host_type r = HOST_REGION_PHYSICAL_MEMORY ->
  page_aligned (guest_start r) /\ page_aligned (guest_end r) /\ page_aligned (host_addr r) /\
  0 <= guest_start r /\ 0 <= host_addr r /\
  host_addr r + (guest_end r - guest_start r) <= 2 ^ BITS_PER_LONG the_arch.

(** What the copies rely on: a well-formed map of whole pages, and a host that has its
    conversion hook and gives no physical address the null pointer. *)
Record paged info (l : list Z) : Prop := {
  paged_wf : wf_map (mem_map info) l;
  paged_regions : Forall paged_region (view (regions (mem_map info)) l);
  paged_host : is_Some paddr_to_vaddr;
  paged_nonnull p : 0 <= p -> V3_VAddr p <> NULL;
}.

Lemma paged_lookup info l a r :
  paged info l -> lookup_list (regions_of info l) a = Some r ->
  host_type r = HOST_REGION_PHYSICAL_MEMORY ->
  guest_start r <= a < guest_end r /\ paged_region r /\
  addr_at (regions_of info l) a = host_addr r + (a - guest_start r) /\
  0 <= host_addr r + (a - guest_start r).
Proof.
  intros [Hwf Hreg _ _] Hr Ht. pose proof Hr as Hr'.
  apply lookup_list_some in Hr' as [Hin Ha]; [|apply Hwf]. rewrite Forall_forall in Hreg.
  pose proof (Hreg r Hin) as Hp. destruct (Hp Ht) as (_ & _ & _ & Hs & Hh & Hb).
  unfold inside in Ha. unfold addr_at. rewrite Hr. split_and!; [lia..|done| |lia].
  rewrite !ulong_small by (rewrite ?ulong_small; unfold is_addr, is_u; lia). lia.
Qed.

Lemma host_pa_to_host_va_eq info l p x :
  paged info l -> 0 <= p -> host_pa_to_host_va p x = (0, V3_VAddr p).
Proof.
  intros [_ _ [f Hf] Hn] Hp. specialize (Hn p Hp). unfold host_pa_to_host_va, V3_VAddr in *.
  rewrite Hf in *. unfold NULL in Hn. by case_cmp.
Qed.

Lemma guest_pa_to_host_pa_eq info l a x :
  paged info l ->
  exists r p, guest_pa_to_host_pa info a x = Done (r, p) /\
    match gpa_hva (regions_of info l) a with
    | Some v => r = 0 /\ 0 <= p /\ v = V3_VAddr p
    | None => r = -1
    end.
Proof.
  intros Hp. unfold guest_pa_to_host_pa.
  rewrite (lookup_shadow_map_addr_eq _ _ _ _ (paged_wf _ _ Hp)). cbv zeta.
  unfold gpa_hva. destruct (lookup_list _ a) as [r|] eqn:E; [|by eexists _, _].
  cbn. destruct (host_type r) eqn:Ht; try (by eexists _, _).
  destruct (paged_lookup info l a r Hp E Ht) as (_ & _ & -> & Hpos). by eexists _, _.
Qed.

Lemma guest_pa_to_host_va_eq info l a :
  paged info l ->
  exists r v, guest_pa_to_host_va info a = Done (r, v) /\
    match gpa_hva (regions_of info l) a with
    | Some v' => r = 0 /\ v = v'
    | None => r = -1
    end.
Proof.
  intros Hp. unfold guest_pa_to_host_va.
  destruct (guest_pa_to_host_pa_eq info l a 0 Hp) as (r & p & -> & Hr). cbn.
  destruct (gpa_hva _ a) as [v|].
  - destruct Hr as (-> & Hpos & ->). cbn. rewrite (host_pa_to_host_va_eq info l) by done.
    by eexists _, _.
  - subst r. by eexists _, _.
Qed.

Lemma guest_pa_to_host_va_implements info l :
  paged info l -> implements (guest_pa_to_host_va info) (gpa_hva (regions_of info l)).
Proof.
  intros Hp c _. destruct (guest_pa_to_host_va_eq info l c Hp) as (r & v & Hx & Hr).
  exists r, v. split; [done|]. destruct (gpa_hva _ c); [done|]. by subst.
Qed.

(** An address in the same page is in the same region. *)
Lemma same_page_region s a k :
  page_aligned s -> 0 <= k -> a mod PAGE_SIZE + k < PAGE_SIZE -> (s <= a <-> s <= a + k) /\ (a < s <-> a + k < s).
Proof.
  unfold page_aligned. intros Hs Hk Ha. pose proof (Z.div_mod s PAGE_SIZE).
  pose proof (Z.div_mod a PAGE_SIZE). pose proof (Z.mod_pos_bound a PAGE_SIZE). lia.
Qed.

Context {Hok : OsHooksOk}.

Lemma os_linear_page x k :
  0 <= k -> x mod PAGE_SIZE + k < PAGE_SIZE -> V3_VAddr (x + k) = V3_VAddr x + k.
Proof.
  intros Hk Hx. assert (exists p o, x = p + o /\ page_aligned p /\ 0 <= o /\ o + k < PAGE_SIZE)
    as (p & o & -> & Hp & Ho & Hok').
  { exists (PAGE_SIZE * (x / PAGE_SIZE)), (x mod PAGE_SIZE).
    pose proof (Z.mod_pos_bound x PAGE_SIZE). split_and!; [by apply Z.div_mod| |lia..].
    unfold page_aligned. by rewrite Z.mul_comm, Z.mod_mul. }
  rewrite <- Z.add_assoc, !os_linear by (done || lia). lia.
Qed.

Lemma gpa_hva_some v a w :
  wf_list v ->
  gpa_hva v a = Some w <-> exists r, r ∈ v /\ inside r a /\
    host_type r = HOST_REGION_PHYSICAL_MEMORY /\
    w = V3_VAddr (host_addr r + (a - guest_start r)).
Proof.
  intros Hwf. unfold gpa_hva. split.
  - destruct (lookup_list v a) as [r|] eqn:E; [|done].
    apply lookup_list_some in E as [Hin Ha]; [|done]. cbn.
    destruct (host_type r) eqn:Ht; intros [=]. eauto.
  - intros (r & Hin & Ha & Ht & ->).
    rewrite (proj2 (lookup_list_some v a r Hwf)) by done. cbn. by rewrite Ht.
Qed.

Lemma gpa_hva_coherent info l : paged info l -> page_coherent (gpa_hva (regions_of info l)).
Proof.
  intros Hp a k Ha Hk Hpg. destruct Hp as [Hwf Hreg _ _]. rewrite Forall_forall in Hreg.
  assert (forall r, r ∈ regions_of info l -> host_type r = HOST_REGION_PHYSICAL_MEMORY ->
    (inside r a <-> inside r (a + k)) /\
    V3_VAddr (host_addr r + (a + k - guest_start r)) =
      V3_VAddr (host_addr r + (a - guest_start r)) + k) as Hr.
  { intros r Hin Ht. destruct (Hreg r Hin Ht) as (Hs & He & Hh & _).
    pose proof (same_page_region _ a k Hs Hk Hpg). pose proof (same_page_region _ a k He Hk Hpg).
    split; [unfold inside; lia|]. rewrite <- os_linear_page; [f_equal; lia|lia|].
    unfold page_aligned in *. rewrite Zplus_mod, Zminus_mod, Hs, Hh, Z.sub_0_r, Zmod_mod.
    by rewrite Z.add_0_l, Zmod_mod. }
  apply option_eq. intros w. rewrite fmap_Some. setoid_rewrite (gpa_hva_some _ _ _ (wf_content _ _ Hwf)).
  split.
  - intros (r & Hin & Hi & Ht & ->). destruct (Hr r Hin Ht) as [H1 H2].
    eexists. split; [|exact H2]. exists r. naive_solver.
  - intros (w' & (r & Hin & Hi & Ht & ->) & ->). destruct (Hr r Hin Ht) as [H1 <-].
    exists r. naive_solver.
Qed.

(** Reading guest physical memory returns the bytes of the longest prefix of the range
    that memory regions back, each from the host address of its own page, and how many
    they are; the loop terminates whatever the range. *)
Theorem read_guest_pa_memory_spec info l m guest_pa count :
  paged info l -> is_addr guest_pa -> 0 <= count ->
  guest_pa + count <= 2 ^ BITS_PER_LONG the_arch ->
  exists n, mapped_prefix (gpa_hva (regions_of info l)) guest_pa count n /\
    read_guest_pa_memory info m guest_pa count =
      Done (n, guest_bytes (gpa_hva (regions_of info l)) m guest_pa n).
Proof.
  intros Hp Ha Hn Hb. unfold read_guest_pa_memory.
  destruct (read_loop_spec (guest_pa_to_host_va info) (gpa_hva (regions_of info l)) m
    (Z.to_nat count) guest_pa count []) as (n & Hm & ->);
    [by apply guest_pa_to_host_va_implements|by apply gpa_hva_coherent|done..|].
  exists n. split; [done|]. cbn. unfold guest_bytes. rewrite length_fmap, length_seqZ.
  destruct Hm as [? _]. by rewrite Z2Nat.id by lia.
Qed.

Lemma guest_bytes_written T m m' a n src :
  written T m a n src m' -> injective_on T a n -> n <= Z.of_nat (length src) ->
  (forall i, 0 <= i < n -> is_Some (T (a + i))) ->
  guest_bytes T m' a n = take (Z.to_nat n) (u8 <$> src).
Proof.
  intros [_ Hw] Hinj Hl Hs. apply list_eq. intros i. unfold guest_bytes.
  rewrite list_lookup_fmap. destruct (decide (i < Z.to_nat n)%nat).
  - rewrite lookup_seqZ_lt, lookup_take_lt, list_lookup_fmap by lia. cbn.
    destruct (Hs (Z.of_nat i)) as [v Hv]; [lia|]. rewrite Hv. cbn.
    destruct (lookup_lt_is_Some_2 src i) as [b Hb]; [lia|]. rewrite Hb. cbn. f_equal.
    unfold load8. rewrite (Hw (Z.of_nat i)) by (done || lia).
    rewrite Nat2Z.id, nth_lookup, Hb. cbn. by apply wrap_idemp.
  - rewrite lookup_seqZ_ge, lookup_take_ge by lia. done.
Qed.

(** C16. What is written to guest physical memory is read back from it: a write stores the
    longest prefix of the bytes that fits backed memory, page by page, a read of the same
    range then returns them, and no other byte of the host changes.  The pages of the range
    must not share host memory. *)
Theorem guest_pa_write_read info l m guest_pa src :
  paged info l -> is_addr guest_pa ->
  guest_pa + Z.of_nat (length src) <= 2 ^ BITS_PER_LONG the_arch ->
  injective_on (gpa_hva (regions_of info l)) guest_pa (Z.of_nat (length src)) ->
  exists n m',
    mapped_prefix (gpa_hva (regions_of info l)) guest_pa (Z.of_nat (length src)) n /\
    write_guest_pa_memory info m guest_pa (Z.of_nat (length src)) src = Done (n, m') /\
    read_guest_pa_memory info m' guest_pa (Z.of_nat (length src)) =
      Done (n, take (Z.to_nat n) (u8 <$> src)) /\
    (forall x, (forall i, 0 <= i < n -> gpa_hva (regions_of info l) (guest_pa + i) <> Some x) ->
       m' x = m x).
Proof.
  intros Hp Ha Hb Hinj. set (T := gpa_hva (regions_of info l)) in *.
  assert (page_coherent T) as HT by by apply gpa_hva_coherent.
  assert (implements (guest_pa_to_host_va info) T) as Hx
    by by apply guest_pa_to_host_va_implements.
  destruct (write_loop_spec (guest_pa_to_host_va info) T (Z.to_nat (Z.of_nat (length src))) m
    guest_pa (Z.of_nat (length src)) src 0) as (n & m' & Hm & Hw & Hwr); [done..|lia|done|lia|lia|lia|].
  rewrite drop_0 in Hwr. exists n, m'. split_and!; [done|exact Hw| |apply Hwr].
  unfold read_guest_pa_memory.
  destruct (read_loop_spec (guest_pa_to_host_va info) T m' (Z.to_nat (Z.of_nat (length src)))
    guest_pa (Z.of_nat (length src)) []) as (n' & Hm' & ->); [done..|lia|done|lia|].
  assert (n' = n) as ->.
  { destruct Hm as (? & Hs & Hnone), Hm' as (? & Hs' & Hnone').
    destruct (Z.lt_trichotomy n n') as [Hlt|[|Hlt]]; [|done|].
    - destruct (Hs' n) as [? Hv]; [lia|]. rewrite Hnone in Hv by lia. done.
    - destruct (Hs n') as [? Hv]; [lia|]. rewrite Hnone' in Hv by lia. done. }
  destruct Hm as (Hle & Hs & _). rewrite (guest_bytes_written T m m' guest_pa n src); [|done| |lia|done].
  - cbn. rewrite length_take, length_fmap. do 2 f_equal. lia.
  - intros i j v ? ? ? ?. apply (Hinj i j v); done || lia.
Qed.

(** ** Guest virtual addresses *)

(** The page directory of the guest, as the guest physical address in its CR3. *)
Definition guest_pd info : Z :=
  4096 * (u32 match shdw_pg_mode info with
              | SHADOW_PAGING => guest_cr3 (shdw_pg_state info)
              | NESTED_PAGING => cr3 (ctrl_regs info)
              end / 4096).

(** The page walk of the guest, with its tables in guest physical memory; [conv] is the
    conversion of the address in a page directory entry. *)
Definition walk_gpa (conv : Z -> Z) info (v : list shadow_region) m (va : Z) : option Z :=
  match mem_mode info, cpu_mode info with
  | PHYSICAL_MEM, _ => Some va
  | VIRTUAL_MEM, PROTECTED =>
    let va := u32 va in
    pd ← gpa_hva v (guest_pd info);
    let w := load32 m (pd + 4 * (va / 2 ^ 22)) in
    if Z.odd w then
      if Z.testbit w 7 then Some (conv (2 ^ 22 * (w / 2 ^ 22)) + va mod 2 ^ 22)
      else
        pt ← gpa_hva v (conv (2 ^ 12 * (w / 2 ^ 12)));
        let w := load32 m (pt + 4 * (va / 2 ^ 12 mod 2 ^ 10)) in
        if Z.odd w then Some (2 ^ 12 * (w / 2 ^ 12) + va mod 2 ^ 12) else None
    else None
  | _, _ => None
  end.

(** The walk of the x86, and that of the VMM, which sign-extends on 64-bit hosts. *)
Abbreviation x86_gpa := (walk_gpa (fun y => y)).
Abbreviation gva_gpa := (walk_gpa sext).

(** The page directory entries of the guest point below 2GB, or the host is 32-bit. *)
Definition pd_below_2GB info (v : list shadow_region) m : Prop :=
  the_arch = V3_32BIT \/
  forall pd i, gpa_hva v (guest_pd info) = Some pd -> load32 m (pd + 4 * i) < 2 ^ 31.

Lemma cr3_va x : CR3_TO_PDE32 x = V3_VAddr (4096 * (u32 x / 4096)).
Proof.
  unfold CR3_TO_PDE32. f_equal.
  assert (Z.land (ulong x) 0xfffff000 = Z.land (u32 x) 0xfffff000) as ->.
  { apply Z.bits_inj'. intros i Hi. rewrite !Z.land_spec. destruct (Z.lt_ge_cases i 32).
    - unfold ulong, wrap. rewrite !Z.mod_pow2_bits_low; [done|lia|].
      pose proof bits_per_long_bounds. lia.
    - rewrite (Z.bits_above_log2 0xfffff000), !andb_false_r; [done|done|]. simpl. lia. }
  change 0xfffff000 with (Z.shiftl (Z.ones 20) 12). apply (land_high (u32 x) 12 20); [done..|].
  apply wrap_range. done.
Qed.

Lemma cr3_page x : V3_PAddr (CR3_TO_PDE32 x) = 4096 * (u32 x / 4096).
Proof. by rewrite cr3_va, os_back. Qed.

Lemma pde32_lookup_u32 m pd va : pde32_lookup m pd va = pde32_lookup m pd (u32 va).
Proof.
  unfold pde32_lookup, PDE32_INDEX, PD32_4MB_PAGE_OFFSET. by rewrite !(wrap_idemp 32).
Qed.

Lemma pte32_lookup_u32 m pt va : pte32_lookup m pt va = pte32_lookup m pt (u32 va).
Proof.
  unfold pte32_lookup, PTE32_INDEX, PT32_PAGE_OFFSET. by rewrite !(wrap_idemp 32).
Qed.

Lemma walk_large_small w va :
  is_u 32 w -> is_u 32 (2 ^ 22 * (w / 2 ^ 22) + va mod 2 ^ 22).
Proof.
  unfold is_u. intros Hw. pose proof (Z.mod_pos_bound va (2 ^ 22)).
  assert (w / 2 ^ 22 < 2 ^ 10) by (apply Z.div_lt_upper_bound; lia).
  assert (0 <= w / 2 ^ 22) by (apply Z.div_pos; lia). lia.
Qed.

Lemma walk_large_addr w va :
  is_u 32 w -> is_addr (sext (2 ^ 22 * (w / 2 ^ 22)) + va mod 2 ^ 22).
Proof.
  intros Hw. pose proof (walk_large_small w va Hw) as Hs. pose proof (Z.mod_pos_bound va (2 ^ 22) ltac:(done)).
  pose proof (walk_large_small w 0 Hw) as Hz. change (0 mod 2 ^ 22) with 0 in Hz. rewrite Z.add_0_r in Hz.
  unfold sext. destruct the_arch eqn:HA; [by apply is_addr_u32|]. case_cmp; [by apply is_addr_u32|].
  unfold is_addr, is_u in *. rewrite HA. cbn [BITS_PER_LONG]. lia.
Qed.

Lemma sext_page y : sext y mod PAGE_SIZE = y mod PAGE_SIZE.
Proof.
  unfold sext. destruct the_arch; [done|]. case_cmp; [done|].
  change (2 ^ 64 - 2 ^ 32) with ((2 ^ 52 - 2 ^ 20) * PAGE_SIZE). by apply Z.mod_add.
Qed.

Lemma guest_va_to_guest_pa_eq info l m va x :
  paged info l ->
  exists r pa, guest_va_to_guest_pa info m va x = Done (r, pa) /\
    match gva_gpa info (regions_of info l) m va with
    | Some p => r = 0 /\ pa = p
    | None => r = -1
    end.
Proof.
  intros Hp. unfold guest_va_to_guest_pa, walk_gpa.
  destruct (mem_mode info); [by eexists _, _|].
  destruct (cpu_mode info); try (by eexists _, _).
  assert (match shdw_pg_mode info with
    | SHADOW_PAGING => V3_PAddr (CR3_TO_PDE32 (guest_cr3 (shdw_pg_state info)))
    | NESTED_PAGING => V3_PAddr (CR3_TO_PDE32 (cr3 (ctrl_regs info)))
    end = guest_pd info) as -> by (unfold guest_pd; destruct (shdw_pg_mode info); apply cr3_page).
  destruct (guest_pa_to_host_va_eq info l (guest_pd info) Hp) as (r & pd & -> & Hr).
  destruct (gpa_hva (regions_of info l) (guest_pd info)) as [pd'|]; [|subst r; by eexists _, _].
  destruct Hr as [-> ->]. run.
  pose proof (wrap_range 32 va ltac:(done)) as Hva.
  rewrite pde32_lookup_u32, pde32_lookup_eq by done.
  set (w := load32 m (pd' + 4 * (u32 va / 2 ^ 22))).
  assert (is_u 32 w) as Hw by apply loadn_range.
  destruct (Z.odd w); [|by eexists _, _]. destruct (Z.testbit w 7).
  - rewrite ulong_small by (by apply walk_large_addr). by eexists _, _.
  - destruct (guest_pa_to_host_va_eq info l (sext (2 ^ 12 * (w / 2 ^ 12))) Hp) as (r & pt & -> & Hr).
    destruct (gpa_hva _ (sext (2 ^ 12 * (w / 2 ^ 12)))) as [pt'|]; [|subst r; by eexists _, _].
    destruct Hr as [-> ->]. run.
    rewrite pte32_lookup_u32, pte32_lookup_eq by done.
    destruct (Z.odd _); by eexists _, _.
Qed.

(** The host virtual address of a guest virtual address. *)
Definition gva_hva info (v : list shadow_region) m (va : Z) : option Z :=
  pa ← gva_gpa info v m va; gpa_hva v pa.

(** The same through the tables as the x86 walks them. *)
Definition x86_hva info (v : list shadow_region) m (va : Z) : option Z :=
  pa ← x86_gpa info v m va; gpa_hva v pa.

Lemma gva_hva_x86 info v m va : pd_below_2GB info v m -> gva_hva info v m va = x86_hva info v m va.
Proof.
  intros Hlow. unfold gva_hva, x86_hva, walk_gpa, pd_below_2GB in *.
  destruct (mem_mode info), (cpu_mode info); try done.
  destruct (gpa_hva v (guest_pd info)) as [pd|]; [|done]. run. set (w := load32 m _).
  assert (forall k, 0 <= k <= 32 -> sext (2 ^ k * (w / 2 ^ k)) = 2 ^ k * (w / 2 ^ k)) as Hsext.
  { intros k Hk. unfold sext. destruct Hlow as [->|Hlow]; [done|].
    specialize (Hlow pd (u32 va / 2 ^ 22) eq_refl). fold w in Hlow. destruct the_arch; [done|].
    pose proof (Z.mul_div_le w (2 ^ k)). by rewrite (proj2 (Z.ltb_lt _ _)) by lia. }
  by rewrite !Hsext by lia.
Qed.

Lemma guest_va_to_host_va_implements info l m :
  paged info l ->
  implements (guest_va_to_host_va info m) (gva_hva info (regions_of info l) m).
Proof.
  intros Hp va _. unfold guest_va_to_host_va, gva_hva.
  destruct (guest_va_to_guest_pa_eq info l m va 0 Hp) as (r & pa & -> & Hr).
  destruct (gva_gpa _ _ _ _) as [p|]; [|subst r; by eexists _, _].
  destruct Hr as [-> ->]. run.
  destruct (guest_pa_to_host_pa_eq info l p 0 Hp) as (r & hp & -> & Hr).
  destruct (gpa_hva _ p) as [v|]; [|subst r; by eexists _, _].
  destruct Hr as (-> & Hpos & ->). run. rewrite (host_pa_to_host_va_eq info l) by done.
  by eexists _, _.
Qed.

(** An offset within a page stays within every larger aligned block. *)
Lemma block_split a k b :
  0 <= k -> a mod PAGE_SIZE + k < PAGE_SIZE -> 0 < b ->
  (a + k) / (PAGE_SIZE * b) = a / (PAGE_SIZE * b) /\
  (a + k) mod (PAGE_SIZE * b) = a mod (PAGE_SIZE * b) + k.
Proof.
  intros Hk Ha Hb. set (q := a / (PAGE_SIZE * b)). set (r := a mod (PAGE_SIZE * b)).
  assert (a = PAGE_SIZE * b * q + r) as Hq by (apply Z.div_mod; lia).
  assert (0 <= r < PAGE_SIZE * b) as Hr by (apply Z.mod_pos_bound; lia).
  assert (r + k < PAGE_SIZE * b) as Hrk.
  { assert (a mod PAGE_SIZE = r mod PAGE_SIZE) as Hm.
    { rewrite Hq. replace (PAGE_SIZE * b * q + r) with (r + b * q * PAGE_SIZE) by lia.
      by apply Z.mod_add. }
    pose proof (Z.div_mod r PAGE_SIZE).
    assert (r / PAGE_SIZE < b) by (apply Z.div_lt_upper_bound; lia). lia. }
  assert (a + k = PAGE_SIZE * b * q + (r + k)) as -> by lia.
  split; [symmetry; apply (Z.div_unique _ _ q (r + k))|symmetry; apply (Z.mod_unique _ _ q)]; lia.
Qed.

Lemma gva_gpa_coherent info v m a k :
  is_addr a -> 0 <= k -> a mod PAGE_SIZE + k < PAGE_SIZE ->
  gva_gpa info v m (a + k) = (fun p => p + k) <$> gva_gpa info v m a /\
  (forall p, gva_gpa info v m a = Some p -> is_addr p /\ p mod PAGE_SIZE = a mod PAGE_SIZE).
Proof.
  intros Ha Hk Hpg. unfold walk_gpa. destruct (mem_mode info).
  { split; [done|]. by intros p [= <-]. }
  destruct (cpu_mode info); try done.
  assert (u32 (a + k) = u32 a + k) as ->
    by apply (block_split a k (2 ^ 20) Hk Hpg ltac:(done)).
  assert (u32 a mod PAGE_SIZE = a mod PAGE_SIZE) as Hm
    by (unfold wrap; apply Z.mod_mod_divide; by exists (2 ^ 20)).
  rewrite <- Hm in *. set (b := u32 a) in *.
  destruct (block_split b k (2 ^ 10) Hk Hpg ltac:(done)) as [Hd1 Hm1].
  destruct (block_split b k 1 Hk Hpg ltac:(done)) as [Hd2 Hm2].
  change (PAGE_SIZE * 2 ^ 10) with (2 ^ 22) in *. change (PAGE_SIZE * 1) with (2 ^ 12) in *.
  rewrite Hd1, Hm1, Hd2, Hm2.
  destruct (gpa_hva v (guest_pd info)) as [pd|]; [|done]. run.
  set (w := load32 m _). assert (is_u 32 w) as Hw by apply loadn_range. clearbody w.
  destruct (Z.odd w); [|done]. destruct (Z.testbit w 7).
  - split; [cbn [fmap option_fmap option_map]; f_equal; lia|]. intros p [= <-].
    split; [by apply walk_large_addr|].
    rewrite Zplus_mod, sext_page. change (2 ^ 22) with (PAGE_SIZE * 2 ^ 10) at 1.
    rewrite <- Z.mul_assoc, (Z.mul_comm PAGE_SIZE), Z.mod_mul, Z.add_0_l, Zmod_mod by done.
    apply Z.mod_mod_divide. by exists (2 ^ 10).
  - destruct (gpa_hva v _) as [pt|]; [|done]. run.
    set (w' := load32 m _). assert (is_u 32 w') as Hw' by apply loadn_range. clearbody w'.
    destruct (Z.odd w'); [|done]. split; [cbn [fmap option_fmap option_map]; f_equal; lia|].
    intros p [= <-]. change (2 ^ 12) with PAGE_SIZE. split.
    + apply is_addr_u32. unfold is_u in *. pose proof (Z.mod_pos_bound b PAGE_SIZE).
      assert (0 <= w' / PAGE_SIZE < 2 ^ 20).
      { split; [apply Z.div_pos; lia|]. apply Z.div_lt_upper_bound; lia. } lia.
    + rewrite Z.add_comm, Z.mul_comm, Z.mod_add by done. by rewrite Z.mod_mod.
Qed.

Lemma gva_hva_coherent info l m :
  paged info l -> page_coherent (gva_hva info (regions_of info l) m).
Proof.
  intros Hp a k Ha Hk Hpg. unfold gva_hva.
  destruct (gva_gpa_coherent info (regions_of info l) m a k Ha Hk Hpg) as [-> Hs].
  destruct (gva_gpa _ _ _ a) as [p|]; [|done]. destruct (Hs p eq_refl) as [Hpa Hm]. cbn.
  apply (gpa_hva_coherent info l Hp); [done..|]. by rewrite Hm.
Qed.

(** C17. Reading guest virtual memory returns the bytes of the longest prefix of the range
    that the guest's own page tables map to backed memory, through the page walk [gva_hva]
    of tables that are themselves in guest memory, across page boundaries and 4MB pages.
    On 32-bit hosts that walk is the x86's, and on 64-bit hosts it is where the guest's page
    directory entries point below 2GB; the address in an entry that points higher is
    sign-extended.  The range does not wrap around at the end of the address space. *)
Theorem read_guest_va_memory_spec info l m guest_va count :
  paged info l -> is_addr guest_va -> 0 <= count ->
  guest_va + count <= 2 ^ BITS_PER_LONG the_arch ->
  (exists n, mapped_prefix (gva_hva info (regions_of info l) m) guest_va count n /\
    read_guest_va_memory info m guest_va count =
      Done (n, guest_bytes (gva_hva info (regions_of info l) m) m guest_va n)) /\
  (pd_below_2GB info (regions_of info l) m ->
   forall va, gva_hva info (regions_of info l) m va = x86_hva info (regions_of info l) m va).
Proof.
  intros Hp Ha Hn Hb. split; [|intros Hlow va; by apply gva_hva_x86]. unfold read_guest_va_memory.
  destruct (read_loop_spec (guest_va_to_host_va info m) (gva_hva info (regions_of info l) m) m
    (Z.to_nat count) guest_va count []) as (n & Hm & ->);
    [by apply guest_va_to_host_va_implements|by apply gva_hva_coherent|done..|].
  exists n. split; [done|]. cbn. unfold guest_bytes. rewrite length_fmap, length_seqZ.
  destruct Hm as [? _]. by rewrite Z2Nat.id by lia.
Qed.

End guest_mem.

(** ** Witnesses

    A guest with two memory regions that are adjacent in guest physical memory and apart
    in the host, whose page directory is its page 0 and whose first page table is page 1. *)

Definition demo_map : shadow_map :=
  mk_shadow_map 2 1
    {[ 1 := mk_shadow_region GUEST_REGION_PHYSICAL_MEMORY 0 0x2000
              HOST_REGION_PHYSICAL_MEMORY 0x50000 2 NULL;
       2 := mk_shadow_region GUEST_REGION_PHYSICAL_MEMORY 0x2000 0x4000
              HOST_REGION_PHYSICAL_MEMORY 0x20000 NULL 1 ]} ∅.

Lemma wf_demo_map : wf_map demo_map [1; 2].
Proof.
  split; [|split; repeat constructor; done|reflexivity].
  apply chain_cons. split_and!; [done..|set_solver|]. eexists. split; [reflexivity|].
  apply chain_cons. split_and!; [done..|set_solver|]. eexists. split; [reflexivity|].
  by apply chain_nil.
Qed.

Definition demo_segment : v3_segment := mk_v3_segment 0 0 0 0 0 0 0 0 0 0 0.

Definition demo_guest : guest_info :=
  mk_guest_info 0 0 demo_map SHADOW_PAGING (mk_shadow_page_state 0 0x80000001 0 None None 0) 0
    (Intr.mk_v3_excp_state 0 0 0 0) PROTECTED VIRTUAL_MEM (mk_v3_gprs 0 0 0 0 0 0 0 0)
    (mk_v3_ctrl_regs 0 0 0 0 0 0 0) (mk_v3_dbg_regs 0 0 0 0 0 0)
    (mk_v3_segments demo_segment demo_segment demo_segment demo_segment demo_segment demo_segment
      demo_segment demo_segment demo_segment demo_segment)
    (mk_emulation_state 0 [] 0 [] 0 [] 0 0 0) VM_RUNNING.

Abbreviation demo_host := (direct_map 0x1000000).

Lemma demo_paged : paged (A := V3_32BIT) (Hos := demo_host) demo_guest [1; 2].
Proof.
  split.
  - apply wf_demo_map.
  - do 2 (apply Forall_cons; split; [intros _; split_and!; done|]). constructor.
  - by eexists.
  - intros p Hp. unfold V3_VAddr, NULL. cbn. lia.
Qed.

Lemma mapped_prefix_all T a count n :
  mapped_prefix T a count n -> (forall i, 0 <= i < count -> is_Some (T (a + i))) -> n = count.
Proof.
  intros (Hle & _ & Hnone) Hs. destruct (decide (n = count)) as [|Hne]; [done|].
  destruct (Hs n) as [v Hv]; [lia|]. rewrite Hnone in Hv by lia. done.
Qed.

(** Properties of a few consecutive offsets by evaluation. *)
Lemma offsets_small (P : Z -> Prop) n :
  Forall (fun i => P (Z.of_nat i)) (seq 0 (Z.to_nat n)) -> forall i, 0 <= i < n -> P i.
Proof.
  intros Hf i Hi. rewrite Forall_forall in Hf. rewrite <- (Z2Nat.id i) by lia. apply Hf.
  apply elem_of_seq. lia.
Qed.

Lemma read_guest_pa_memory_spec_witness :
  read_guest_pa_memory (A := V3_32BIT) (Hos := demo_host) demo_guest (fun x => x) 0x1ffe 4 =
    Done (4, [0xfe; 0xff; 0x00; 0x01]).
Proof.
  destruct (read_guest_pa_memory_spec (A := V3_32BIT) (Hos := demo_host) (Hok := direct_map_ok _)
    demo_guest [1; 2] (fun x => x) 0x1ffe 4) as (n & Hm & ->);
    [apply demo_paged|done|done|vm_compute; done|].
  apply mapped_prefix_all in Hm as ->; [reflexivity|].
  apply offsets_small. repeat constructor; by eexists.
Defined.

Lemma guest_pa_write_read_witness : exists m',
  write_guest_pa_memory (A := V3_32BIT) (Hos := demo_host) demo_guest (fun _ => 0) 0x1ffe 4
    [1; 2; 3; 4] = Done (4, m') /\
  read_guest_pa_memory (A := V3_32BIT) (Hos := demo_host) demo_guest m' 0x1ffe 4 =
    Done (4, [1; 2; 3; 4]).
Proof.
  destruct (guest_pa_write_read (A := V3_32BIT) (Hos := demo_host) (Hok := direct_map_ok _)
    demo_guest [1; 2] (fun _ => 0) 0x1ffe [1; 2; 3; 4]) as (n & m' & Hm & Hw & Hr & _);
    [apply demo_paged|done|vm_compute; done| |].
  - intros i j v Hi Hj.
    assert (i = 0 \/ i = 1 \/ i = 2 \/ i = 3) as Hi' by (simpl in Hi; lia).
    assert (j = 0 \/ j = 1 \/ j = 2 \/ j = 3) as Hj' by (simpl in Hj; lia).
    destruct Hi' as [->|[->|[->| ->]]], Hj' as [->|[->|[->| ->]]]; vm_compute; congruence.
  - apply mapped_prefix_all in Hm as ->; [by exists m'|].
    apply offsets_small. repeat constructor; by eexists.
Defined.

Definition demo_tables_mem : mem :=
  store32 (store32 (fun x => x) 0x1050000 0x1003) 0x1051004 0x3003.

Lemma read_guest_va_memory_spec_witness :
  read_guest_va_memory (A := V3_32BIT) (Hos := demo_host) demo_guest demo_tables_mem 0x1010 2 =
    Done (2, [0x10; 0x11]).
Proof.
  destruct (read_guest_va_memory_spec (A := V3_32BIT) (Hos := demo_host) (Hok := direct_map_ok _)
    demo_guest [1; 2] demo_tables_mem 0x1010 2) as [(n & Hm & ->) _];
    [apply demo_paged|done|done|vm_compute; done|].
  apply mapped_prefix_all in Hm as ->; [reflexivity|].
  apply offsets_small. repeat constructor; eexists; vm_compute; reflexivity.
Defined.

End GuestMem.
