(* ===== verification/Decoder.v ===== *)
(** Instruction decoding helpers: vmm_decoder.c and vmm_decoder.h.

    [Module Decoder] has the opcode arrays, the prefix and mode helpers and the ModRM operand
    decoders that do not use the XED library (Xed.v has those that do).  Pointers into the
    register file are the register and a byte offset.  The theorems compare the operand
    decoder with the addressing modes of the architecture, and show what
    v3_strip_rep_prefix leaves. *)
From stdpp Require Import base tactics numbers list.
From S2P Require Import Prelude GuestInfo.

(** [struct modrm_byte] *)
Module Modrm.
Record modrm_byte := mk { rm : Z; reg : Z; mod_ : Z }.

#[global, program] Instance bits_modrm_byte : BitStruct modrm_byte := {|
  bs_widths := [3; 3; 2];
  bs_values c := [rm c; reg c; mod_ c];
  bs_make vs := mk (nth 0 vs 0) (nth 1 vs 0) (nth 2 vs 0)
|}.
Solve All Obligations with solve_bitstruct.
End Modrm.

(** [struct sib_byte] *)
Module Sib.
Record sib_byte := mk { base : Z; index : Z; scale : Z }.

#[global, program] Instance bits_sib_byte : BitStruct sib_byte := {|
  bs_widths := [3; 3; 2];
  bs_values c := [base c; index c; scale c];
  bs_make vs := mk (nth 0 vs 0) (nth 1 vs 0) (nth 2 vs 0)
|}.
Solve All Obligations with solve_bitstruct.
End Sib.

Module Decoder.
Import GuestInfo.

Inductive v3_operand_type := INVALID_OPERAND | REG_OPERAND | MEM_OPERAND | IMM_OPERAND.
#[export] Instance v3_operand_type_eq_dec : EqDecision v3_operand_type.
Proof. solve_decision. Defined.

Inductive modrm_mode := INVALID_ADDR_TYPE | REG | DISP0 | DISP8 | DISP16 | DISP32.
#[export] Instance modrm_mode_eq_dec : EqDecision modrm_mode.
Proof. solve_decision. Defined.

Inductive reg_size := INVALID_REG_SIZE | REG64 | REG32 | REG16 | REG8.
#[export] Instance reg_size_eq_dec : EqDecision reg_size.
Proof. solve_decision. Defined.

(** ** Opcodes: the length and the bytes *)

Definition V3_OPCODE_INVD : list Z := [2; 0x0f; 0x08].
Definition V3_OPCODE_CPUID : list Z := [2; 0x0f; 0xa2].
Definition V3_OPCODE_RDMSR : list Z := [2; 0x0f; 0x32].
Definition V3_OPCODE_WRMSR : list Z := [2; 0x0f; 0x30].
Definition V3_OPCODE_RDTSC : list Z := [2; 0x0f; 0x31].
Definition V3_OPCODE_RDTSCP : list Z := [3; 0x0f; 0x01; 0xf9].
Definition V3_OPCODE_CLI : list Z := [1; 0xfa].
Definition V3_OPCODE_STI : list Z := [1; 0xfb].
Definition V3_OPCODE_RDPMC : list Z := [2; 0x0f; 0x33].
Definition V3_OPCODE_CLGI : list Z := [3; 0x0f; 0x01; 0xdd].
Definition V3_OPCODE_STGI : list Z := [3; 0x0f; 0x01; 0xdc].
Definition V3_OPCODE_VMRUN : list Z := [3; 0x0f; 0x01; 0xd8].
Definition V3_OPCODE_VMLOAD : list Z := [3; 0x0f; 0x01; 0xda].
Definition V3_OPCODE_VMSAVE : list Z := [3; 0x0f; 0x01; 0xdb].
Definition V3_OPCODE_VMCALL : list Z := [3; 0x0f; 0x01; 0xd9].
Definition V3_OPCODE_PAUSE : list Z := [2; 0xf3; 0x90].
Definition V3_OPCODE_SKINIT : list Z := [3; 0x0f; 0x01; 0xde].
Definition V3_OPCODE_MOV2CR : list Z := [3; 0x0f; 0x22; 0x00].
Definition V3_OPCODE_MOVCR2 : list Z := [3; 0x0f; 0x20; 0x00].
Definition V3_OPCODE_MOV2DR : list Z := [3; 0x0f; 0x23; 0x00].
Definition V3_OPCODE_MOVDR2 : list Z := [3; 0x0f; 0x21; 0x00].
Definition V3_OPCODE_PUSHF : list Z := [1; 0x9c].
Definition V3_OPCODE_POPF : list Z := [1; 0x9d].
Definition V3_OPCODE_RSM : list Z := [2; 0x0f; 0xaa].
Definition V3_OPCODE_INVLPG : list Z := [3; 0x0f; 0x01; 0x00].
Definition V3_OPCODE_INVLPGA : list Z := [3; 0x0f; 0x01; 0xdf].
Definition V3_OPCODE_HLT : list Z := [1; 0xf4].
Definition V3_OPCODE_CLTS : list Z := [2; 0x0f; 0x06].
Definition V3_OPCODE_LMSW : list Z := [3; 0x0f; 0x01; 0x00].
Definition V3_OPCODE_SMSW : list Z := [3; 0x0f; 0x01; 0x00].

(** memcmp of the C library on [n] bytes: the sign of the first difference. *)
Fixpoint memcmp (n : nat) (a b : list Z) : Z :=
  match n with
  | O => 0
  | S n => let x := List.hd 0 a in let y := List.hd 0 b in
           if x =? y then memcmp n (tail a) (tail b) else Z.sgn (x - y)
  end.

Definition v3_opcode_cmp (op1 op2 : list Z) : Z :=
  if negb (List.hd 0 op1 =? List.hd 0 op2) then List.hd 0 op1 - List.hd 0 op2
  else memcmp (Z.to_nat (List.hd 0 op1)) (tail op1) (tail op2).

(** The loop of v3_strip_rep_prefix, [n] bytes before the end: the buffer. *)
Fixpoint strip_loop (n : nat) (instr : list Z) (read_ctr write_ctr : nat) (found : bool) : list Z :=
  match n with
  | O => instr
  | S n =>
      let b := nth read_ctr instr 0 in
      if negb found && ((b =? 0xF2) || (b =? 0xF3)) then
        strip_loop n instr (S read_ctr) write_ctr true
      else
        strip_loop n (<[write_ctr := b]> instr) (S read_ctr) (S write_ctr) found
  end.

Definition v3_strip_rep_prefix (instr : list Z) (length : Z) : list Z :=
  strip_loop (Z.to_nat length) instr 0 0 false.

Definition is_prefix_byte (byte : Z) : bool :=
  match byte with
  | 0xF0 | 0xF2 | 0xF3 | 0x2E | 0x36 | 0x3E | 0x26 | 0x64 | 0x65 | 0x66 | 0x67 => true
  | _ => false
  end.

(** [v3_reg_t] is 64 bits wide. *)
Definition get_gpr_mask (info : guest_info) : Z :=
  match cpu_mode info with
  | REAL => 0xffff
  | PROTECTED => 0xffffffff
  | _ => u64 (-1)
  end.

Definition get_addr_linear {A : Arch} (info : guest_info) (addr : Z) (seg : v3_segment) : Z :=
  match cpu_mode info with
  | REAL | PROTECTED | LONG => ulong (addr + base seg)
  | _ => ulong (-1)
  end.

(** ** Operands *)

(** The general purpose registers of [struct v3_gprs]. *)
Inductive gpr_name := RDI | RSI | RBP | RSP | RBX | RDX | RCX | RAX.
#[export] Instance gpr_name_eq_dec : EqDecision gpr_name.
Proof. solve_decision. Defined.

Definition get_gpr (r : v3_gprs) (x : gpr_name) : Z :=
  match x with
  | RDI => rdi r | RSI => rsi r | RBP => rbp r | RSP => rsp r
  | RBX => rbx r | RDX => rdx r | RCX => rcx r | RAX => rax r
  end.

(** The address of a register, [off] bytes in; [None] is the null pointer. *)
Definition decode_register (reg_code : Z) (sz : reg_size) : option (gpr_name * Z) :=
  match reg_code with
  | 0 => Some (RAX, 0)
  | 1 => Some (RCX, 0)
  | 2 => Some (RDX, 0)
  | 3 => Some (RBX, 0)
  | 4 => if decide (sz = REG8) then Some (RAX, 1) else Some (RSP, 0)
  | 5 => if decide (sz = REG8) then Some (RCX, 1) else Some (RBP, 0)
  | 6 => if decide (sz = REG8) then Some (RDX, 1) else Some (RSI, 0)
  | 7 => if decide (sz = REG8) then Some (RBX, 1) else Some (RDI, 0)
  | _ => None
  end.

(** An operand: a pointer into the registers, or an address. *)
Inductive operand_addr := At_reg (p : option (gpr_name * Z)) | At_addr (a : Z).

Record operands := mk_operands {
  op_type : v3_operand_type;
  op_length : Z;
  first_operand : operand_addr;
  second_operand : operand_addr;
}.

Section operands.
Context {A : Arch} (gprs : v3_gprs) (code : Z -> Z).

(** The base of the 16-bit addressing modes. *)
Definition base16 (rm mod_ : Z) : Z :=
  match rm with
  | 0 => rbx gprs + rsi gprs
  | 1 => rbx gprs + rdi gprs
  | 2 => rbp gprs + rsi gprs
  | 3 => rbp gprs + rdi gprs
  | 4 => rsi gprs
  | 5 => rdi gprs
  | 6 => if mod_ =? 0 then 0 else rbp gprs
  | 7 => rbx gprs
  | _ => 0
  end.

(** The instruction is a [char *]: a 16-bit displacement is one byte, sign-extended. *)
Definition decode_operands16 (sz : reg_size) : operands :=
  let modrm : Modrm.modrm_byte := decode (code 0) in
  let instr_cursor := 1 in
  let second := At_reg (decode_register (Modrm.reg modrm) sz) in
  if Modrm.mod_ modrm =? 3 then
    mk_operands REG_OPERAND instr_cursor (At_reg (decode_register (Modrm.rm modrm) sz)) second
  else
    let mod_mode := if Modrm.mod_ modrm =? 0 then DISP0
                    else if Modrm.mod_ modrm =? 1 then DISP8 else DISP16 in
    let base_addr := ulong (base16 (Modrm.rm modrm) (Modrm.mod_ modrm)) in
    let mod_mode := if (Modrm.rm modrm =? 6) && (Modrm.mod_ modrm =? 0) then DISP16 else mod_mode in
    let '(base_addr, instr_cursor) :=
      match mod_mode with
      | DISP8 => (ulong (base_addr + u8 (code instr_cursor)), instr_cursor + 1)
      | DISP16 => (ulong (base_addr + u16 (char_to_int (code instr_cursor))), instr_cursor + 2)
      | _ => (base_addr, instr_cursor)
      end in
    mk_operands MEM_OPERAND instr_cursor (At_addr base_addr) second.

(** The register of a number in the 32-bit addressing modes, but for the cases that mean
    something else. *)
Definition reg32 (n : Z) : Z :=
  match n with
  | 0 => rax gprs | 1 => rcx gprs | 2 => rdx gprs | 3 => rbx gprs
  | 4 => rsp gprs | 5 => rbp gprs | 6 => rsi gprs | 7 => rdi gprs | _ => 0
  end.

Definition scale_of (n : Z) : Z :=
  if n =? 1 then 2 else if n =? 2 then 4 else if n =? 3 then 8 else 1.

(** The SIB byte: the cursor is advanced before it is read. *)
Definition sib_addr (sib : Sib.sib_byte) (mod_ : Z) : Z :=
  let base_addr := ulong (if Sib.index sib =? 4 then 0 else reg32 (Sib.index sib)) in
  let base_addr := ulong (base_addr * scale_of (Sib.scale sib)) in
  if Sib.base sib =? 5 then
    if negb (mod_ =? 0) then ulong (base_addr + rbp gprs) else base_addr
  else ulong (base_addr + reg32 (Sib.base sib)).

Definition decode_operands32 (sz : reg_size) : operands :=
  let modrm : Modrm.modrm_byte := decode (code 0) in
  let instr_cursor := 1 in
  let second := At_reg (decode_register (Modrm.reg modrm) sz) in
  if Modrm.mod_ modrm =? 3 then
    mk_operands REG_OPERAND instr_cursor (At_reg (decode_register (Modrm.rm modrm) sz)) second
  else
    let mod_mode := if Modrm.mod_ modrm =? 0 then DISP0
                    else if Modrm.mod_ modrm =? 1 then DISP8 else DISP32 in
    let has_sib_byte := Modrm.rm modrm =? 4 in
    let direct := (Modrm.rm modrm =? 5) && (Modrm.mod_ modrm =? 0) in
    let base_addr := if has_sib_byte || direct then 0 else ulong (reg32 (Modrm.rm modrm)) in
    let mod_mode := if direct then DISP32 else mod_mode in
    let '(base_addr, instr_cursor) :=
      if has_sib_byte then
        let instr_cursor := instr_cursor + 1 in
        (sib_addr (decode (code instr_cursor)) (Modrm.mod_ modrm), instr_cursor + 1)
      else (base_addr, instr_cursor) in
    let '(base_addr, instr_cursor) :=
      match mod_mode with
      | DISP8 => (ulong (base_addr + u8 (code instr_cursor)), instr_cursor + 1)
      | DISP32 => (ulong (base_addr + u32 (u8 (code instr_cursor))), instr_cursor + 4)
      | _ => (base_addr, instr_cursor)
      end in
    mk_operands MEM_OPERAND instr_cursor (At_addr base_addr) second.

(** How many bytes decode_operands32 reads: its callers have a buffer of 15. *)
Definition operand_reads32 : Z :=
  let modrm : Modrm.modrm_byte := decode (code 0) in
  if Modrm.mod_ modrm =? 3 then 1
  else
    let sib := if Modrm.rm modrm =? 4 then 3 else 1 in
    if (Modrm.mod_ modrm =? 0) && negb (Modrm.rm modrm =? 5) then sib else sib + 1.

(** ** The operand decoder and the architecture *)

(** A displacement byte, sign-extended. *)
Definition disp8 (b : Z) : Z := sint 8 b.

(** A register operand: the register the rm bits number. *)
Lemma decode_operands32_reg rm reg sz :
  is_u 3 rm -> is_u 3 reg -> code 0 = encode (Modrm.mk rm reg 3) ->
  decode_operands32 sz =
  mk_operands REG_OPERAND 1 (At_reg (decode_register rm sz)) (At_reg (decode_register reg sz)).
Proof.
  intros Hrm Hreg Hc. unfold decode_operands32. by rewrite Hc, decode_encode by solve_wf.
Qed.

(** [[reg]]: the address in the register, for the registers that do not stand for another
    mode. *)
Lemma decode_operands32_mem rm reg sz :
  is_u 3 rm -> is_u 3 reg -> rm <> 4 -> rm <> 5 -> code 0 = encode (Modrm.mk rm reg 0) ->
  decode_operands32 sz =
  mk_operands MEM_OPERAND 1 (At_addr (ulong (reg32 rm))) (At_reg (decode_register reg sz)).
Proof.
  intros Hrm Hreg H4 H5 Hc. unfold decode_operands32. rewrite Hc, decode_encode by solve_wf.
  cbn -[Z.eqb reg32 ulong]. apply Z.eqb_neq in H4, H5. by rewrite H4, H5.
Qed.

(** [[reg + disp8]]: right for the displacements up to 127. *)
Lemma decode_operands32_disp8 rm reg sz :
  is_u 3 rm -> is_u 3 reg -> rm <> 4 -> 0 <= code 1 < 128 -> code 0 = encode (Modrm.mk rm reg 1) ->
  decode_operands32 sz =
  mk_operands MEM_OPERAND 2 (At_addr (ulong (reg32 rm + disp8 (code 1))))
    (At_reg (decode_register reg sz)).
Proof.
  intros Hrm Hreg H4 Hd Hc. unfold decode_operands32. rewrite Hc, decode_encode by solve_wf.
  cbn -[Z.eqb reg32 ulong u8 disp8]. apply Z.eqb_neq in H4. rewrite H4, andb_false_r.
  cbn -[reg32 ulong u8 disp8].
  assert (u8 (code 1) = disp8 (code 1)) as ->.
  { unfold disp8, sint. rewrite !wrap_small by (unfold is_u; lia). by case_cmp; [|lia]. }
  do 2 f_equal. apply wrap_eqw. by setoid_rewrite eqw_wrap.
Qed.

End operands.

(** ** v3_strip_rep_prefix *)

(** A rep prefix, as the function looks for it: at any place. *)
Definition is_rep (b : Z) : bool := (b =? 0xF2) || (b =? 0xF3).

(** The bytes without the first rep prefix. *)
Fixpoint without_rep (l : list Z) : list Z :=
  match l with
  | [] => []
  | b :: l => if is_rep b then l else b :: without_rep l
  end.

Lemma strip_found n : forall pre x mid,
  length mid = n -> strip_loop n (pre ++ x :: mid) (S (length pre)) (length pre) true =
  pre ++ mid ++ [List.last (x :: mid) 0].
Proof.
  induction n as [|n IH]; intros pre x mid Hn.
  - by destruct mid.
  - destruct mid as [|b mid]; [done|]. injection Hn as Hn. cbn [strip_loop negb andb].
    assert (nth (S (length pre)) (pre ++ x :: b :: mid) 0 = b) as ->.
    { rewrite app_nth2 by lia. by replace (S (length pre) - length pre)%nat with 1%nat by lia. }
    assert (<[length pre := b]> (pre ++ x :: b :: mid) = (pre ++ [b]) ++ b :: mid) as ->.
    { rewrite insert_app_r_alt by done. by rewrite Nat.sub_diag, <- app_assoc. }
    specialize (IH (pre ++ [b]) b mid Hn). rewrite length_app, Nat.add_1_r in IH.
    by rewrite IH, <- app_assoc.
Qed.

(** The buffer holds the bytes without the first rep prefix, and after them its last byte
    again when there was one. *)
Lemma strip_rep instr :
  v3_strip_rep_prefix instr (Z.of_nat (length instr)) =
  without_rep instr ++ (if existsb is_rep instr then [List.last instr 0] else []).
Proof.
  unfold v3_strip_rep_prefix. rewrite Nat2Z.id.
  enough (forall l pre, strip_loop (length l) (pre ++ l) (length pre) (length pre) false =
    pre ++ without_rep l ++ (if existsb is_rep l then [List.last l 0] else [])) as H
    by apply (H instr []).
  induction l as [|b l IH]; intros pre; [done|]. cbn [length strip_loop negb andb].
  assert (nth (length pre) (pre ++ b :: l) 0 = b) as -> by (rewrite app_nth2 by lia; by rewrite Nat.sub_diag).
  fold (is_rep b). cbn [without_rep existsb]. destruct (is_rep b); cbn [orb].
  - by apply strip_found.
  - assert (<[length pre := b]> (pre ++ b :: l) = (pre ++ [b]) ++ l) as ->.
    { rewrite insert_app_r_alt by done. by rewrite Nat.sub_diag, <- app_assoc. }
    specialize (IH (pre ++ [b])). rewrite length_app, Nat.add_1_r in IH. rewrite IH, <- app_assoc.
    by destruct l.
Qed.

End Decoder.
