(* ===== verification/Xed.v ===== *)
(** The interface to the XED instruction decoder: vmm_xed.c, and the part of vmm_decoder.h
    that describes decoded instructions.

    The XED library is a parameter ([XedLib]): what xed_decode finds in the instruction
    bytes, as the answers to the queries of the code.  [Module Xed] translates how the code
    turns these into operands: pointers into the registers of the guest, which are typed
    locations here, and memory addresses.  The theorems show that the address of a memory
    operand is the one the architecture computes, and what v3_decode makes of the
    instructions that access the control registers. *)
From stdpp Require Import base tactics numbers list.
From S2P Require Import Prelude MemMap Intr GuestInfo Decoder.

Module Xed.
Import GuestInfo Decoder.

(** ** The types of the library *)

Inductive xed_reg_enum :=
  | XED_REG_INVALID | XED_REG_ERROR | XED_REG_RAX | XED_REG_EAX | XED_REG_AX | XED_REG_AH
  | XED_REG_AL | XED_REG_RCX | XED_REG_ECX | XED_REG_CX | XED_REG_CH | XED_REG_CL | XED_REG_RDX
  | XED_REG_EDX | XED_REG_DX | XED_REG_DH | XED_REG_DL | XED_REG_RBX | XED_REG_EBX | XED_REG_BX
  | XED_REG_BH | XED_REG_BL | XED_REG_RSP | XED_REG_ESP | XED_REG_SP | XED_REG_SPL | XED_REG_RBP
  | XED_REG_EBP | XED_REG_BP | XED_REG_BPL | XED_REG_RSI | XED_REG_ESI | XED_REG_SI | XED_REG_SIL
  | XED_REG_RDI | XED_REG_EDI | XED_REG_DI | XED_REG_DIL | XED_REG_R8 | XED_REG_R8D
  | XED_REG_R8W | XED_REG_R8B | XED_REG_R9 | XED_REG_R9D | XED_REG_R9W | XED_REG_R9B | XED_REG_R10
  | XED_REG_R10D | XED_REG_R10W | XED_REG_R10B | XED_REG_R11 | XED_REG_R11D | XED_REG_R11W
  | XED_REG_R11B | XED_REG_R12 | XED_REG_R12D | XED_REG_R12W | XED_REG_R12B | XED_REG_R13
  | XED_REG_R13D | XED_REG_R13W | XED_REG_R13B | XED_REG_R14 | XED_REG_R14D | XED_REG_R14W
  | XED_REG_R14B | XED_REG_R15 | XED_REG_R15D | XED_REG_R15W | XED_REG_R15B | XED_REG_RIP
  | XED_REG_EIP | XED_REG_IP | XED_REG_FLAGS | XED_REG_EFLAGS | XED_REG_RFLAGS | XED_REG_CS
  | XED_REG_DS | XED_REG_ES | XED_REG_SS | XED_REG_FS | XED_REG_GS | XED_REG_XMM0 | XED_REG_XMM1
  | XED_REG_XMM2 | XED_REG_XMM3 | XED_REG_XMM4 | XED_REG_XMM5 | XED_REG_XMM6 | XED_REG_XMM7
  | XED_REG_XMM8 | XED_REG_XMM9 | XED_REG_XMM10 | XED_REG_XMM11 | XED_REG_XMM12 | XED_REG_XMM13
  | XED_REG_XMM14 | XED_REG_XMM15 | XED_REG_MMX0 | XED_REG_MMX1 | XED_REG_MMX2 | XED_REG_MMX3
  | XED_REG_MMX4 | XED_REG_MMX5 | XED_REG_MMX6 | XED_REG_MMX7 | XED_REG_ST0 | XED_REG_ST1
  | XED_REG_ST2 | XED_REG_ST3 | XED_REG_ST4 | XED_REG_ST5 | XED_REG_ST6 | XED_REG_ST7
  | XED_REG_CR0 | XED_REG_CR1 | XED_REG_CR2 | XED_REG_CR3 | XED_REG_CR4 | XED_REG_CR5
  | XED_REG_CR6 | XED_REG_CR7 | XED_REG_CR8 | XED_REG_CR9 | XED_REG_CR10 | XED_REG_CR11
  | XED_REG_CR12 | XED_REG_CR13 | XED_REG_CR14 | XED_REG_CR15 | XED_REG_DR0 | XED_REG_DR1
  | XED_REG_DR2 | XED_REG_DR3 | XED_REG_DR4 | XED_REG_DR5 | XED_REG_DR6 | XED_REG_DR7
  | XED_REG_DR8 | XED_REG_DR9 | XED_REG_DR10 | XED_REG_DR11 | XED_REG_DR12 | XED_REG_DR13
  | XED_REG_DR14 | XED_REG_DR15 | XED_REG_ONE | XED_REG_STACKPUSH | XED_REG_STACKPOP
  | XED_REG_GDTR | XED_REG_LDTR | XED_REG_IDTR | XED_REG_TR | XED_REG_TSC | XED_REG_TSCAUX
  | XED_REG_MSRS | XED_REG_X87CONTROL | XED_REG_X87STATUS | XED_REG_X87TOP | XED_REG_X87TAG
  | XED_REG_X87PUSH | XED_REG_X87POP | XED_REG_X87POP2 | XED_REG_MXCSR | XED_REG_TMP0
  | XED_REG_TMP1 | XED_REG_TMP2 | XED_REG_TMP3 | XED_REG_TMP4 | XED_REG_TMP5 | XED_REG_TMP6
  | XED_REG_TMP7 | XED_REG_TMP8 | XED_REG_TMP9 | XED_REG_TMP10 | XED_REG_TMP11 | XED_REG_TMP12
  | XED_REG_TMP13 | XED_REG_TMP14 | XED_REG_TMP15 | XED_REG_LAST.
#[export] Instance xed_reg_invalid_dec (r : xed_reg_enum) : Decision (r = XED_REG_INVALID).
Proof. destruct r; first [by left | by right]. Defined.

Inductive xed_operand_enum :=
  | XED_OPERAND_INVALID | XED_OPERAND_AGEN | XED_OPERAND_AMODE | XED_OPERAND_ASZ
  | XED_OPERAND_BASE0 | XED_OPERAND_BASE1 | XED_OPERAND_BRDISP_WIDTH | XED_OPERAND_BRDISP0
  | XED_OPERAND_BRDISP1 | XED_OPERAND_DEFAULT_SEG | XED_OPERAND_DF64 | XED_OPERAND_DISP_WIDTH
  | XED_OPERAND_DISP0 | XED_OPERAND_DISP1 | XED_OPERAND_DISP2 | XED_OPERAND_DISP3
  | XED_OPERAND_EASZ | XED_OPERAND_ENCODER_PREFERRED | XED_OPERAND_EOSZ | XED_OPERAND_ERROR
  | XED_OPERAND_HINT_TAKEN | XED_OPERAND_HINT_NOT_TAKEN | XED_OPERAND_ICLASS
  | XED_OPERAND_IMM_WIDTH | XED_OPERAND_IMM0 | XED_OPERAND_IMM0SIGNED | XED_OPERAND_IMM1
  | XED_OPERAND_INDEX | XED_OPERAND_LOCK | XED_OPERAND_LOCKABLE | XED_OPERAND_MEM_WIDTH
  | XED_OPERAND_MEM0 | XED_OPERAND_MEM1 | XED_OPERAND_MOD | XED_OPERAND_MODE | XED_OPERAND_MODRM
  | XED_OPERAND_NOREX | XED_OPERAND_OSZ | XED_OPERAND_OUTREG | XED_OPERAND_PTR
  | XED_OPERAND_REFINING | XED_OPERAND_REG | XED_OPERAND_REG0 | XED_OPERAND_REG1
  | XED_OPERAND_REG2 | XED_OPERAND_REG3 | XED_OPERAND_REG4 | XED_OPERAND_REG5 | XED_OPERAND_REG6
  | XED_OPERAND_REG7 | XED_OPERAND_REG8 | XED_OPERAND_REG9 | XED_OPERAND_REG10 | XED_OPERAND_REG11
  | XED_OPERAND_REG12 | XED_OPERAND_REG13 | XED_OPERAND_REG14 | XED_OPERAND_REG15
  | XED_OPERAND_RELBR | XED_OPERAND_REP | XED_OPERAND_REP_ABLE | XED_OPERAND_REX
  | XED_OPERAND_REXB | XED_OPERAND_REXR | XED_OPERAND_REXW | XED_OPERAND_REXX | XED_OPERAND_RM
  | XED_OPERAND_SCALE | XED_OPERAND_SEG_OVD | XED_OPERAND_SEG0 | XED_OPERAND_SEG1
  | XED_OPERAND_SIB | XED_OPERAND_SIBBASE | XED_OPERAND_SIBINDEX | XED_OPERAND_SIBSCALE
  | XED_OPERAND_SMODE | XED_OPERAND_UIMM00 | XED_OPERAND_UIMM1 | XED_OPERAND_UIMM01
  | XED_OPERAND_UIMM02 | XED_OPERAND_UIMM03 | XED_OPERAND_USING_DEFAULT_SEGMENT0
  | XED_OPERAND_USING_DEFAULT_SEGMENT1 | XED_OPERAND_LAST.

Inductive xed_machine_mode_enum :=
  | XED_MACHINE_MODE_INVALID | XED_MACHINE_MODE_LONG_64 | XED_MACHINE_MODE_LONG_COMPAT_32
  | XED_MACHINE_MODE_LONG_COMPAT_16 | XED_MACHINE_MODE_LEGACY_32 | XED_MACHINE_MODE_LEGACY_16
  | XED_MACHINE_MODE_LAST.
#[export] Instance xed_machine_mode_enum_eq_dec : EqDecision xed_machine_mode_enum.
Proof. solve_decision. Defined.

Inductive xed_address_width_enum :=
  | XED_ADDRESS_WIDTH_INVALID | XED_ADDRESS_WIDTH_16b | XED_ADDRESS_WIDTH_32b
  | XED_ADDRESS_WIDTH_64b | XED_ADDRESS_WIDTH_LAST.

(** The instruction forms that get_opcode names, and the others. *)
Inductive xed_iform_enum :=
  | XED_IFORM_MOV_CR_GPR64_CR | XED_IFORM_MOV_CR_GPR32_CR | XED_IFORM_MOV_CR_CR_GPR64
  | XED_IFORM_MOV_CR_CR_GPR32 | XED_IFORM_LMSW_GPR16 | XED_IFORM_CLTS
  | XED_IFORM_other (n : Z).

Record xed_state := mk_xed_state {
  mmode : xed_machine_mode_enum;
  addr_width : xed_address_width_enum;
  stack_addr_width : xed_address_width_enum;
}.

#[export] Instance eta_xed_state : Eta xed_state := fun s =>
  mk_xed_state (mmode s) (addr_width s) (stack_addr_width s).

Definition xed_state_init (p : xed_state) (m : xed_machine_mode_enum)
    (a st : xed_address_width_enum) : xed_state :=
  p <| mmode := m |> <| addr_width := a |> <| stack_addr_width := st |>.

Definition xed_state_zero (p : xed_state) : xed_state :=
  p <| mmode := XED_MACHINE_MODE_INVALID |> <| addr_width := XED_ADDRESS_WIDTH_INVALID |>
    <| stack_addr_width := XED_ADDRESS_WIDTH_INVALID |>.

Definition xed_operand_is_register (name : xed_operand_enum) : bool :=
  match name with
  | XED_OPERAND_REG0 | XED_OPERAND_REG1 | XED_OPERAND_REG2 | XED_OPERAND_REG3
  | XED_OPERAND_REG4 | XED_OPERAND_REG5 | XED_OPERAND_REG6 | XED_OPERAND_REG7
  | XED_OPERAND_REG8 | XED_OPERAND_REG9 | XED_OPERAND_REG10 | XED_OPERAND_REG11
  | XED_OPERAND_REG12 | XED_OPERAND_REG13 | XED_OPERAND_REG14 | XED_OPERAND_REG15 => true
  | _ => false
  end.

(** A decoded instruction: the answers to xed_decoded_inst_get_length, .._noperands and so
    on.  The index of the memory operand is the argument of the last group. *)
Record xed_decoded_inst := mk_xed_decoded_inst {
  xed_length : Z;
  xed_noperands : Z;
  xed_iform : xed_iform_enum;
  xed_operand_name : Z -> xed_operand_enum;
  xed_operand_written : Z -> bool;
  xed_get_reg : xed_operand_enum -> xed_reg_enum;
  xed_immediate_width : Z;
  xed_unsigned_immediate : Z;
  xed_stringop : bool;
  xed_has_real_rep : bool;
  xed_number_of_memory_operands : Z;
  xed_memory_operand_length : Z -> Z;
  xed_seg_reg : Z -> xed_reg_enum;
  xed_base_reg : Z -> xed_reg_enum;
  xed_index_reg : Z -> xed_reg_enum;
  xed_scale : Z -> Z;
  xed_displacement_width : Z -> Z;
  xed_displacement : Z -> Z;
}.

(** The decoder of the library: [None] when it reports an error. *)
Class XedLib := xed_decode : xed_state -> list Z -> option xed_decoded_inst.

(** ** Decoded instructions *)

Inductive seg_name := SEG_CS | SEG_DS | SEG_ES | SEG_SS | SEG_FS | SEG_GS.
Inductive ctrl_name := CTRL_RFLAGS | CTRL_CR0 | CTRL_CR2 | CTRL_CR3 | CTRL_CR4 | CTRL_CR8.

(** A place in [struct guest_info]. *)
Inductive v3_loc :=
  | Loc_gpr (r : gpr_name) (off : Z)
  | Loc_rip
  | Loc_ctrl (c : ctrl_name)
  | Loc_seg (s : seg_name)
  | Loc_selector (s : seg_name).

(** An [addr_t] that the decoder fills: a pointer to such a place, or a number. *)
Inductive word := Ptr (l : v3_loc) | Val (v : Z).

Record x86_operand := mk_x86_operand {
  operand : word;
  size : Z;
  type : v3_operand_type;
}.

#[export] Instance eta_x86_operand : Eta x86_operand := fun o =>
  mk_x86_operand (operand o) (size o) (type o).

(** The members that the decoder fills; an opcode is the array it points to. *)
Record x86_instr := mk_x86_instr {
  instr_length : Z;
  opcode : option (list Z);
  num_operands : Z;
  dst_operand : x86_operand;
  src_operand : x86_operand;
  third_operand : x86_operand;
}.

#[export] Instance eta_x86_instr : Eta x86_instr := fun i =>
  mk_x86_instr (instr_length i) (opcode i) (num_operands i) (dst_operand i) (src_operand i)
    (third_operand i).

Record basic_instr_info := mk_basic_instr_info {
  bi_instr_length : Z;
  op_size : Z;
  str_op : Z;
  has_rep : Z;
}.

#[export] Instance eta_basic_instr_info : Eta basic_instr_info := fun i =>
  mk_basic_instr_info (bi_instr_length i) (op_size i) (str_op i) (has_rep i).

Definition get_seg (info : guest_info) (s : seg_name) : v3_segment :=
  match s with
  | SEG_CS => cs (segments info) | SEG_DS => ds (segments info) | SEG_ES => es (segments info)
  | SEG_SS => ss (segments info) | SEG_FS => fs (segments info) | SEG_GS => gs (segments info)
  end.

Definition get_ctrl (info : guest_info) (c : ctrl_name) : Z :=
  match c with
  | CTRL_RFLAGS => rflags (ctrl_regs info) | CTRL_CR0 => cr0 (ctrl_regs info)
  | CTRL_CR2 => cr2 (ctrl_regs info) | CTRL_CR3 => cr3 (ctrl_regs info)
  | CTRL_CR4 => cr4 (ctrl_regs info) | CTRL_CR8 => cr8 (ctrl_regs info)
  end.

(** ** Registers *)

Definition GPR_REGISTER : Z := 0.
Definition SEGMENT_REGISTER : Z := 1.
Definition CTRL_REGISTER : Z := 2.

(** The result, and what is assigned to [*v3_reg] and [*reg_len], if anything. *)
Definition reg_result : Type := Z * option word * option Z.

Definition gpr (r : gpr_name) (off len : Z) : reg_result :=
  (GPR_REGISTER, Some (Ptr (Loc_gpr r off)), Some len).
Definition ctrl (c : ctrl_name) (len : Z) : reg_result :=
  (CTRL_REGISTER, Some (Ptr (Loc_ctrl c)), Some len).
Definition seg (s : seg_name) : reg_result := (SEGMENT_REGISTER, Some (Ptr (Loc_seg s)), None).

Definition xed_reg_to_v3_reg (xed_reg : xed_reg_enum) : reg_result :=
  match xed_reg with
  | XED_REG_INVALID => (-1, Some (Val 0), Some 0)
  | XED_REG_RAX => gpr RAX 0 8 | XED_REG_EAX => gpr RAX 0 4 | XED_REG_AX => gpr RAX 0 2
  | XED_REG_AH => gpr RAX 1 1 | XED_REG_AL => gpr RAX 0 1
  | XED_REG_RCX => gpr RCX 0 8 | XED_REG_ECX => gpr RCX 0 4 | XED_REG_CX => gpr RCX 0 2
  | XED_REG_CH => gpr RCX 1 1 | XED_REG_CL => gpr RCX 0 1
  | XED_REG_RDX => gpr RDX 0 8 | XED_REG_EDX => gpr RDX 0 4 | XED_REG_DX => gpr RDX 0 2
  | XED_REG_DH => gpr RDX 1 1 | XED_REG_DL => gpr RDX 0 1
  | XED_REG_RBX => gpr RBX 0 8 | XED_REG_EBX => gpr RBX 0 4 | XED_REG_BX => gpr RBX 0 2
  | XED_REG_BH => gpr RBX 1 1 | XED_REG_BL => gpr RBX 0 1
  | XED_REG_RSP => gpr RSP 0 8 | XED_REG_ESP => gpr RSP 0 4 | XED_REG_SP => gpr RSP 0 2
  | XED_REG_SPL => gpr RSP 0 1
  | XED_REG_RBP => gpr RBP 0 8 | XED_REG_EBP => gpr RBP 0 4 | XED_REG_BP => gpr RBP 0 2
  | XED_REG_BPL => gpr RBP 0 1
  | XED_REG_RSI => gpr RSI 0 8 | XED_REG_ESI => gpr RSI 0 4 | XED_REG_SI => gpr RSI 0 2
  | XED_REG_SIL => gpr RSI 0 1
  | XED_REG_RDI => gpr RDI 0 8 | XED_REG_EDI => gpr RDI 0 4 | XED_REG_DI => gpr RDI 0 2
  | XED_REG_DIL => gpr RDI 0 1
  | XED_REG_RIP => (CTRL_REGISTER, Some (Ptr Loc_rip), Some 8)
  | XED_REG_EIP => (CTRL_REGISTER, Some (Ptr Loc_rip), Some 4)
  | XED_REG_IP => (CTRL_REGISTER, Some (Ptr Loc_rip), Some 2)
  | XED_REG_FLAGS => ctrl CTRL_RFLAGS 2 | XED_REG_EFLAGS => ctrl CTRL_RFLAGS 4
  | XED_REG_RFLAGS => ctrl CTRL_RFLAGS 8
  | XED_REG_CR0 => ctrl CTRL_CR0 4 | XED_REG_CR2 => ctrl CTRL_CR2 4
  | XED_REG_CR3 => ctrl CTRL_CR3 4 | XED_REG_CR4 => ctrl CTRL_CR4 4
  | XED_REG_CR8 => ctrl CTRL_CR8 4
  | XED_REG_CS => seg SEG_CS | XED_REG_DS => seg SEG_DS | XED_REG_ES => seg SEG_ES
  | XED_REG_SS => seg SEG_SS | XED_REG_FS => seg SEG_FS | XED_REG_GS => seg SEG_GS
  | XED_REG_ERROR | XED_REG_R8 | XED_REG_R8D | XED_REG_R8W | XED_REG_R8B | XED_REG_R9
  | XED_REG_R9D | XED_REG_R9W | XED_REG_R9B | XED_REG_R10 | XED_REG_R10D | XED_REG_R10W
  | XED_REG_R10B | XED_REG_R11 | XED_REG_R11D | XED_REG_R11W | XED_REG_R11B | XED_REG_R12
  | XED_REG_R12D | XED_REG_R12W | XED_REG_R12B | XED_REG_R13 | XED_REG_R13D | XED_REG_R13W
  | XED_REG_R13B | XED_REG_R14 | XED_REG_R14D | XED_REG_R14W | XED_REG_R14B | XED_REG_R15
  | XED_REG_R15D | XED_REG_R15W | XED_REG_R15B | XED_REG_XMM0 | XED_REG_XMM1 | XED_REG_XMM2
  | XED_REG_XMM3 | XED_REG_XMM4 | XED_REG_XMM5 | XED_REG_XMM6 | XED_REG_XMM7 | XED_REG_XMM8
  | XED_REG_XMM9 | XED_REG_XMM10 | XED_REG_XMM11 | XED_REG_XMM12 | XED_REG_XMM13 | XED_REG_XMM14
  | XED_REG_XMM15 | XED_REG_MMX0 | XED_REG_MMX1 | XED_REG_MMX2 | XED_REG_MMX3 | XED_REG_MMX4
  | XED_REG_MMX5 | XED_REG_MMX6 | XED_REG_MMX7 | XED_REG_ST0 | XED_REG_ST1 | XED_REG_ST2
  | XED_REG_ST3 | XED_REG_ST4 | XED_REG_ST5 | XED_REG_ST6 | XED_REG_ST7 | XED_REG_CR1
  | XED_REG_CR5 | XED_REG_CR6 | XED_REG_CR7 | XED_REG_CR9 | XED_REG_CR10 | XED_REG_CR11
  | XED_REG_CR12 | XED_REG_CR13 | XED_REG_CR14 | XED_REG_CR15 | XED_REG_DR0 | XED_REG_DR1
  | XED_REG_DR2 | XED_REG_DR3 | XED_REG_DR4 | XED_REG_DR5 | XED_REG_DR6 | XED_REG_DR7
  | XED_REG_DR8 | XED_REG_DR9 | XED_REG_DR10 | XED_REG_DR11 | XED_REG_DR12 | XED_REG_DR13
  | XED_REG_DR14 | XED_REG_DR15 | XED_REG_ONE | XED_REG_STACKPUSH | XED_REG_STACKPOP
  | XED_REG_GDTR | XED_REG_LDTR | XED_REG_IDTR | XED_REG_TR | XED_REG_TSC | XED_REG_TSCAUX
  | XED_REG_MSRS | XED_REG_X87CONTROL | XED_REG_X87STATUS | XED_REG_X87TOP | XED_REG_X87TAG
  | XED_REG_X87PUSH | XED_REG_X87POP | XED_REG_X87POP2 | XED_REG_MXCSR | XED_REG_TMP0
  | XED_REG_TMP1 | XED_REG_TMP2 | XED_REG_TMP3 | XED_REG_TMP4 | XED_REG_TMP5 | XED_REG_TMP6
  | XED_REG_TMP7 | XED_REG_TMP8 | XED_REG_TMP9 | XED_REG_TMP10 | XED_REG_TMP11 | XED_REG_TMP12
  | XED_REG_TMP13 | XED_REG_TMP14 | XED_REG_TMP15 | XED_REG_LAST
      => (-1, None, None)
  end.

Definition is_flags_reg (xed_reg : xed_reg_enum) : bool :=
  match xed_reg with XED_REG_FLAGS | XED_REG_EFLAGS | XED_REG_RFLAGS => true | _ => false end.

Definition get_opcode (iform : xed_iform_enum) : Z * option (list Z) :=
  match iform with
  | XED_IFORM_MOV_CR_GPR64_CR | XED_IFORM_MOV_CR_GPR32_CR => (0, Some V3_OPCODE_MOVCR2)
  | XED_IFORM_MOV_CR_CR_GPR64 | XED_IFORM_MOV_CR_CR_GPR32 => (0, Some V3_OPCODE_MOV2CR)
  | XED_IFORM_LMSW_GPR16 => (0, Some V3_OPCODE_LMSW)
  | XED_IFORM_CLTS => (0, Some V3_OPCODE_CLTS)
  | XED_IFORM_other _ => (-1, None)
  end.

(** ** Decoding *)

(** The result and the mode of the library. *)
Definition set_decoder_mode (info : guest_info) (state : xed_state) : Z * xed_state :=
  match cpu_mode info with
  | REAL =>
      (0, if decide (mmode state <> XED_MACHINE_MODE_LEGACY_16)
          then xed_state_init state XED_MACHINE_MODE_LEGACY_16 XED_ADDRESS_WIDTH_16b XED_ADDRESS_WIDTH_16b
          else state)
  | PROTECTED | PROTECTED_PAE =>
      (0, if decide (mmode state <> XED_MACHINE_MODE_LEGACY_32)
          then xed_state_init state XED_MACHINE_MODE_LEGACY_32 XED_ADDRESS_WIDTH_32b XED_ADDRESS_WIDTH_32b
          else state)
  | LONG =>
      (0, if decide (mmode state <> XED_MACHINE_MODE_LONG_64)
          then state <| mmode := XED_MACHINE_MODE_LONG_64 |> else state)
  | _ => (-1, state)
  end.

Definition v3_init_decoder (decoder_state : xed_state) : Z * xed_state :=
  (0, xed_state_zero decoder_state).

(** The cases of the switch have no break: the mask of every length is the last one. *)
Definition MASK (val length : Z) : Z :=
  let mask := match length with 1 | 2 | 4 | 8 => 0xffffffffffffffff | _ => 0 end in
  Z.land val mask.

Record memory_operand := mk_memory_operand {
  segment_size : Z;
  segment : Z;
  base_size : Z;
  base : Z;
  index_size : Z;
  index : Z;
  scale : Z;
  displacement_size : Z;
  displacement : Z;
}.

#[export] Instance eta_memory_operand : Eta memory_operand := fun m =>
  mk_memory_operand (segment_size m) (segment m) (base_size m) (base m) (index_size m) (index m)
    (scale m) (displacement_size m) (displacement m).

Section decode.
Context {A : Arch}.

(** [*(addr_t * )p]: the long at a place.  A byte register other than the low ones is not
    a whole long; segments have other types. *)
Definition read_long (info : guest_info) (p : option word) : outcome Z :=
  match p with
  | Some (Ptr (Loc_gpr r 0)) => Done (ulong (get_gpr (vm_regs info) r))
  | Some (Ptr Loc_rip) => Done (ulong (rip info))
  | Some (Ptr (Loc_ctrl c)) => Done (ulong (get_ctrl info c))
  | _ => Undef
  end.

Definition read_seg_base (info : guest_info) (p : option word) : outcome Z :=
  match p with
  | Some (Ptr (Loc_seg s)) => Done (ulong (GuestInfo.base (get_seg info s)))
  | _ => Undef
  end.

(** The three registers of a memory operand: the result and the operand so far. *)
Definition mem_segment (info : guest_info) (x : xed_decoded_inst) (op_index : Z)
    (mem_op : memory_operand) : outcome (Z * memory_operand) :=
  if decide (xed_seg_reg x op_index = XED_REG_INVALID) then Done (0, mem_op) else
  let '(t, tmp_segment, len) := xed_reg_to_v3_reg (xed_seg_reg x op_index) in
  let mem_op := mem_op <| segment_size := default (segment_size mem_op) len |> in
  if t =? -1 then Done (-1, mem_op) else
  b ← read_seg_base info tmp_segment;
  Done (0, mem_op <| segment := b |>).

Definition mem_base (info : guest_info) (x : xed_decoded_inst) (op_index : Z)
    (mem_op : memory_operand) : outcome (Z * memory_operand) :=
  if decide (xed_base_reg x op_index = XED_REG_INVALID) then Done (0, mem_op) else
  let '(t, base_reg, len) := xed_reg_to_v3_reg (xed_base_reg x op_index) in
  let mem_op := mem_op <| base_size := default (base_size mem_op) len |> in
  if t =? -1 then Done (-1, mem_op) else
  b ← read_long info base_reg;
  Done (0, mem_op <| base := b |>).

Definition mem_index (info : guest_info) (x : xed_decoded_inst) (op_index : Z)
    (mem_op : memory_operand) : outcome (Z * memory_operand) :=
  if (op_index =? 0) && bool_decide (xed_index_reg x op_index <> XED_REG_INVALID) then
    let '(t, index_reg, len) := xed_reg_to_v3_reg (xed_index_reg x op_index) in
    let mem_op := mem_op <| index_size := default (index_size mem_op) len |> in
    if t =? -1 then Done (-1, mem_op) else
    i ← read_long info index_reg;
    let mem_op := mem_op <| index := i |> in
    Done (0, if negb (xed_scale x op_index =? 0)
             then mem_op <| scale := ulong (xed_scale x op_index) |> else mem_op)
  else Done (0, mem_op).

Definition mem_displacement (x : xed_decoded_inst) (op_index : Z) (mem_op : memory_operand)
    : memory_operand :=
  let disp_bits := xed_displacement_width x op_index in
  if negb (disp_bits =? 0) then
    mem_op <| displacement_size := disp_bits / 8 |>
           <| displacement := u64 (xed_displacement x op_index) |>
  else mem_op.

Definition get_memory_operand (info : guest_info) (x : xed_decoded_inst) (op_index : Z)
    (op : x86_operand) : outcome (Z * x86_operand) :=
  let mem_op := mk_memory_operand 0 0 0 0 0 0 0 0 0 in
  '(r, mem_op) ← mem_segment info x op_index mem_op;
  if r =? -1 then Done (-1, op) else
  '(r, mem_op) ← mem_base info x op_index mem_op;
  if r =? -1 then Done (-1, op) else
  '(r, mem_op) ← mem_index info x op_index mem_op;
  if r =? -1 then Done (-1, op) else
  let mem_op := mem_displacement x op_index mem_op in
  let op := op <| type := MEM_OPERAND |> <| size := xed_memory_operand_length x op_index |> in
  let seg := segment mem_op in
  let base := ulong (MASK (base mem_op) (base_size mem_op)) in
  let index := ulong (MASK (index mem_op) (index_size mem_op)) in
  let scale := scale mem_op in
  let displacement := MASK (displacement mem_op) (displacement_size mem_op) in
  Done (0, op <| operand := Val (ulong (seg + base + ulong (scale * index) + displacement)) |>).

Context `{XedLib}.

Definition v3_basic_mem_decode (info : guest_info) (decoder_state : xed_state) (bytes : list Z)
    (instr_info : basic_instr_info) : Z * xed_state * basic_instr_info :=
  let '(r, decoder_state) := set_decoder_mode info decoder_state in
  if r =? -1 then (-1, decoder_state, instr_info) else
  match xed_decode decoder_state bytes with
  | None => (-1, decoder_state, instr_info)
  | Some x =>
      let instr_info := instr_info <| bi_instr_length := xed_length x |> in
      if xed_number_of_memory_operands x =? 0 then (-1, decoder_state, instr_info) else
      let instr_info := instr_info <| op_size := xed_memory_operand_length x 0 |> in
      let instr_info := instr_info <| str_op := if xed_stringop x then 1 else 0 |> in
      (0, decoder_state, instr_info <| has_rep := if xed_has_real_rep x then 1 else 0 |>)
  end.

(** A register operand, with the address of the selector for a segment register. *)
Definition register_operand (xed_reg : xed_reg_enum) (op : x86_operand) : Z * x86_operand :=
  let '(v3_reg_type, v3_reg, len) := xed_reg_to_v3_reg xed_reg in
  let op := op <| operand := default (operand op) v3_reg |> <| size := default (size op) len |> in
  if v3_reg_type =? -1 then (-1, op <| type := INVALID_OPERAND |>) else
  let op := if v3_reg_type =? SEGMENT_REGISTER then
              match operand op with
              | Ptr (Loc_seg s) => op <| operand := Ptr (Loc_selector s) |>
              | _ => op
              end
            else op in
  (0, op <| type := REG_OPERAND |>).

(** [v3_op] points to the destination operand when the operand is written, and to the
    source operand otherwise. *)
Definition v3_op (written : bool) (instr : x86_instr) : x86_operand :=
  if written then dst_operand instr else src_operand instr.
Definition set_v3_op (written : bool) (op : x86_operand) (instr : x86_instr) : x86_instr :=
  if written then instr <| dst_operand := op |> else instr <| src_operand := op |>.

Definition first_op (info : guest_info) (x : xed_decoded_inst) (instr : x86_instr)
    : outcome (Z * x86_instr) :=
  let op_enum := xed_operand_name x 0 in
  let w := xed_operand_written x 0 in
  if xed_operand_is_register op_enum then
    let '(r, op) := register_operand (xed_get_reg x op_enum) (v3_op w instr) in
    Done (r, set_v3_op w op instr)
  else
    match op_enum with
    | XED_OPERAND_MEM0 =>
        '(r, op) ← get_memory_operand info x 0 (v3_op w instr);
        Done (r, set_v3_op w op instr)
    | _ => Done (-1, instr)
    end.

Definition second_op (info : guest_info) (x : xed_decoded_inst) (instr : x86_instr)
    : outcome (Z * x86_instr) :=
  let op_enum := xed_operand_name x 1 in
  let w := xed_operand_written x 1 in
  if xed_operand_is_register op_enum then
    let '(r, op) := register_operand (xed_get_reg x op_enum) (v3_op w instr) in
    Done (r, set_v3_op w op instr)
  else
    match op_enum with
    | XED_OPERAND_MEM0 =>
        '(r, op) ← get_memory_operand info x 0 (v3_op w instr);
        Done (r, set_v3_op w op instr)
    | XED_OPERAND_IMM0 =>
        let instr := instr <| src_operand := (src_operand instr) <| size := xed_immediate_width x |> |> in
        if xed_immediate_width x >? 4 then Done (-1, instr) else
        Done (0, instr <| src_operand := (src_operand instr)
                            <| operand := Val (ulong (xed_unsigned_immediate x)) |>
                            <| type := IMM_OPERAND |> |>)
    | _ => Done (-1, instr)
    end.

Definition third_op (x : xed_decoded_inst) (instr : x86_instr) : Z * x86_instr :=
  let op_enum := xed_operand_name x 2 in
  if xed_operand_is_register op_enum then
    let '(r, op) := register_operand (xed_get_reg x op_enum) (third_operand instr) in
    (r, instr <| third_operand := op |>)
  else (-1, instr).

(** More than three operands, or a third that is not the flags register. *)
Definition special_case (x : xed_decoded_inst) : bool :=
  (xed_noperands x >? 3) ||
  ((xed_noperands x =? 3) &&
   (negb (xed_operand_is_register (xed_operand_name x 2)) ||
    negb (is_flags_reg (xed_get_reg x (xed_operand_name x 2))))).

(** [instr] is what the caller's struct held. *)
Definition v3_decode (info : guest_info) (decoder_state : xed_state) (bytes : list Z)
    (instr : x86_instr) : outcome (Z * xed_state * x86_instr) :=
  let '(r, decoder_state) := set_decoder_mode info decoder_state in
  if r =? -1 then Done (-1, decoder_state, instr) else
  match xed_decode decoder_state bytes with
  | None => Done (-1, decoder_state, instr)
  | Some x =>
      let instr := instr <| instr_length := xed_length x |> <| num_operands := xed_noperands x |> in
      if special_case x then Done (-1, decoder_state, instr) else
      let '(r, op) := get_opcode (xed_iform x) in
      let instr := instr <| opcode := op |> in
      if r =? -1 then Done (-1, decoder_state, instr) else
      '(r, instr) ← (if num_operands instr >=? 1 then first_op info x instr else Done (0, instr));
      if r =? -1 then Done (-1, decoder_state, instr) else
      '(r, instr) ← (if num_operands instr >=? 2 then second_op info x instr else Done (0, instr));
      if r =? -1 then Done (-1, decoder_state, instr) else
      let '(r, instr) := if num_operands instr >=? 3 then third_op x instr else (0, instr) in
      if r =? -1 then Done (-1, decoder_state, instr) else
      Done (0, decoder_state, instr)
  end.

Definition v3_encode (info : guest_info) (instr : x86_instr) (instr_buf : list Z) : Z * list Z :=
  (-1, instr_buf).

(** ** The address of a memory operand *)

(** The value of an address register: that of its low [len] bytes. *)
Definition reg_part (info : guest_info) (r : xed_reg_enum) : Z :=
  match xed_reg_to_v3_reg r with
  | (_, Some (Ptr (Loc_gpr g _)), Some len) => get_gpr (vm_regs info) g mod 2 ^ (8 * len)
  | _ => 0
  end.

Definition seg_part (info : guest_info) (r : xed_reg_enum) : Z :=
  match xed_reg_to_v3_reg r with
  | (_, Some (Ptr (Loc_seg s)), _) => GuestInfo.base (get_seg info s)
  | _ => 0
  end.

(** No register, or a register of two, four or eight bytes whose value fits it. *)
Definition address_reg (info : guest_info) (r : xed_reg_enum) : Prop :=
  r = XED_REG_INVALID \/
  exists g len, xed_reg_to_v3_reg r = gpr g 0 len /\ len ∈ [2; 4; 8] /\
    is_u (8 * len) (get_gpr (vm_regs info) g).

Definition segment_reg (r : xed_reg_enum) : Prop :=
  r = XED_REG_INVALID \/ exists s, xed_reg_to_v3_reg r = seg s.

Lemma mask_long val len : is_u 64 val -> len ∈ [1; 2; 4; 8] -> MASK val len = val.
Proof.
  intros Hv Hl. unfold MASK. assert (Z.land val 0xffffffffffffffff = val).
  { change 0xffffffffffffffff with (Z.ones 64). rewrite Z.land_ones by done. by apply Z.mod_small. }
  repeat (apply elem_of_cons in Hl as [->|Hl]; [done|]). by apply elem_of_nil in Hl.
Qed.

Lemma addr_u64 x : is_u 64 (ulong x).
Proof.
  pose proof bits_per_long_bounds. destruct (ulong_range x) as [H1 H2]. split; [done|].
  eapply Z.lt_le_trans; [exact H2|]. apply Z.pow_le_mono_r; lia.
Qed.

Lemma eqw_u64 x : eqw (BITS_PER_LONG the_arch) (u64 x) x.
Proof.
  pose proof bits_per_long_bounds. split. apply Z.mod_mod_divide.
  exists (2 ^ (64 - BITS_PER_LONG the_arch)). rewrite <- Z.pow_add_r by lia. f_equal. lia.
Qed.

Lemma mem_base_spec info x k mem_op :
  address_reg info (xed_base_reg x k) -> base mem_op = 0 ->
  exists b sz, mem_base info x k mem_op = Done (0, mem_op <| base_size := sz |> <| base := b |>) /\
    MASK b sz = ulong (reg_part info (xed_base_reg x k)).
Proof.
  intros [Hr|(g & len & Hr & Hl & Hv)] Hb; unfold mem_base, reg_part.
  - rewrite decide_True, Hr by done. exists (base mem_op), (base_size mem_op).
    split; [by destruct mem_op|]. rewrite Hb. unfold MASK. by rewrite Z.land_0_l.
  - rewrite decide_False by (intros He; rewrite He in Hr; done). rewrite Hr. cbn.
    eexists _, len. split; [done|].
    rewrite mask_long, Z.mod_small; [done|done|apply addr_u64|by apply elem_of_cons; right].
Qed.

Lemma mem_index_spec info x mem_op :
  address_reg info (xed_index_reg x 0) -> index mem_op = 0 -> scale mem_op = 0 ->
  exists i sz sc, mem_index info x 0 mem_op =
      Done (0, mem_op <| index_size := sz |> <| index := i |> <| scale := sc |>) /\
    ulong (sc * ulong (MASK i sz)) = ulong (xed_scale x 0 * reg_part info (xed_index_reg x 0)).
Proof.
  intros [Hr|(g & len & Hr & Hl & Hv)] Hi Hs; unfold mem_index, reg_part; cbn [Z.eqb andb].
  - rewrite bool_decide_eq_false_2, Hr by tauto. exists (index mem_op), (index_size mem_op), (scale mem_op).
    split; [by destruct mem_op|]. by rewrite Hs, Z.mul_0_r, Z.mul_0_l.
  - rewrite bool_decide_eq_true_2 by (intros He; rewrite He in Hr; done). rewrite Hr. cbn -[Z.eqb].
    change (0 =? -1) with false. cbv iota.
    exists (ulong (get_gpr (vm_regs info) g)), len, (ulong (xed_scale x 0)). split.
    + destruct (Z.eqb_spec (xed_scale x 0) 0) as [H0|H0]; [|by destruct mem_op].
      rewrite H0. destruct mem_op; cbn in *. by subst.
    + rewrite mask_long, Z.mod_small; [|done|apply addr_u64|by apply elem_of_cons; right].
      apply wrap_eqw. by do 2 setoid_rewrite eqw_wrap.
Qed.

(** The displacement that is left of one whose width is given in bytes. *)
Lemma mem_displacement_spec x k m :
  xed_displacement_width x k ∈ [0; 1; 2; 4; 8] -> displacement m = 0 -> displacement_size m = 0 ->
  exists d ds, mem_displacement x k m = m <| displacement_size := ds |> <| displacement := d |> /\
    MASK d ds = u64 (if xed_displacement_width x k =? 8 then xed_displacement x k else 0).
Proof.
  intros Hw Hd Hs. unfold mem_displacement. generalize dependent (xed_displacement_width x k). intros w Hw.
  repeat (apply elem_of_cons in Hw as [->|Hw];
    [first [by exists 0, 0; destruct m; cbn in *; subst
           |eexists _, _; split; [reflexivity|]; cbn [Z.eqb];
            first [exact (Z.land_0_r _) | by apply mask_long; [apply wrap_range|constructor]]]|]).
  by apply elem_of_nil in Hw.
Qed.

(** C13. The address of the first memory operand, when the registers hold no more than their
    names say: modulo the word size of the host it is the segment base, the base register
    and the scaled index register, as the architecture defines them, but the displacement is
    lost unless it has eight bytes.  The library gives the width in bytes (0, 1, 2, 4 or 8,
    by xed-decoded-inst.h), the code takes it for bits, and a length of 0 masks everything. *)
Theorem memory_operand_address info x op :
  segment_reg (xed_seg_reg x 0) -> address_reg info (xed_base_reg x 0) ->
  address_reg info (xed_index_reg x 0) -> xed_displacement_width x 0 ∈ [0; 1; 2; 4; 8] ->
  get_memory_operand info x 0 op = Done (0, op <| type := MEM_OPERAND |>
    <| size := xed_memory_operand_length x 0 |>
    <| operand := Val (ulong (seg_part info (xed_seg_reg x 0) + reg_part info (xed_base_reg x 0) +
         xed_scale x 0 * reg_part info (xed_index_reg x 0) +
         (if xed_displacement_width x 0 =? 8 then xed_displacement x 0 else 0))) |>).
Proof.
  intros Hs Hb Hi Hd. unfold get_memory_operand.
  set (kept := if xed_displacement_width x 0 =? 8 then _ else _).
  assert (exists m0, mem_segment info x 0 (mk_memory_operand 0 0 0 0 0 0 0 0 0) = Done (0, m0) /\
    m0 = mk_memory_operand 0 (ulong (seg_part info (xed_seg_reg x 0))) 0 0 0 0 0 0 0)
    as (m0 & -> & ->).
  { unfold mem_segment, seg_part. destruct Hs as [Hr|[sg Hr]].
    - rewrite decide_True, Hr by done. eexists. split; [done|]. by rewrite ulong_small by by apply is_addr_u32.
    - rewrite decide_False by (intros He; rewrite He in Hr; done). rewrite Hr. by eexists. }
  run. set (m0 := mk_memory_operand _ _ _ _ _ _ _ _ _).
  destruct (mem_base_spec info x 0 m0 Hb eq_refl) as (b & bs & -> & HB). run.
  set (m1 := m0 <| base_size := _ |> <| base := _ |>).
  destruct (mem_index_spec info x m1 Hi eq_refl eq_refl) as (i & isz & sc & -> & HI). run.
  set (m2 := m1 <| index_size := _ |> <| index := _ |> <| scale := _ |>).
  assert (exists d ds, mem_displacement x 0 m2 = m2 <| displacement_size := ds |> <| displacement := d |> /\
    MASK d ds = u64 kept) as (d & ds & -> & HD) by by apply mem_displacement_spec.
  match goal with |- context [Val (ulong ?a)] => enough (ulong a = ulong (
    seg_part info (xed_seg_reg x 0) + reg_part info (xed_base_reg x 0) +
    xed_scale x 0 * reg_part info (xed_index_reg x 0) + kept)) as -> by done end.
  trans (ulong (ulong (seg_part info (xed_seg_reg x 0)) + ulong (MASK b bs) +
    ulong (sc * ulong (MASK i isz)) + MASK d ds)); [reflexivity|].
  rewrite HB, HI, HD. apply wrap_eqw. rewrite (eqw_u64 kept).
  by repeat setoid_rewrite eqw_wrap.
Qed.

(** ** Control register accesses *)

(** The general purpose registers. *)
Definition xed_gpr (r : xed_reg_enum) : bool :=
  match r with
  | XED_REG_RAX | XED_REG_EAX | XED_REG_AX | XED_REG_AH | XED_REG_AL | XED_REG_RCX
  | XED_REG_ECX | XED_REG_CX | XED_REG_CH | XED_REG_CL | XED_REG_RDX | XED_REG_EDX
  | XED_REG_DX | XED_REG_DH | XED_REG_DL | XED_REG_RBX | XED_REG_EBX | XED_REG_BX | XED_REG_BH
  | XED_REG_BL | XED_REG_RSP | XED_REG_ESP | XED_REG_SP | XED_REG_SPL | XED_REG_RBP
  | XED_REG_EBP | XED_REG_BP | XED_REG_BPL | XED_REG_RSI | XED_REG_ESI | XED_REG_SI
  | XED_REG_SIL | XED_REG_RDI | XED_REG_EDI | XED_REG_DI | XED_REG_DIL | XED_REG_R8
  | XED_REG_R8D | XED_REG_R8W | XED_REG_R8B | XED_REG_R9 | XED_REG_R9D | XED_REG_R9W
  | XED_REG_R9B | XED_REG_R10 | XED_REG_R10D | XED_REG_R10W | XED_REG_R10B | XED_REG_R11
  | XED_REG_R11D | XED_REG_R11W | XED_REG_R11B | XED_REG_R12 | XED_REG_R12D | XED_REG_R12W
  | XED_REG_R12B | XED_REG_R13 | XED_REG_R13D | XED_REG_R13W | XED_REG_R13B | XED_REG_R14
  | XED_REG_R14D | XED_REG_R14W | XED_REG_R14B | XED_REG_R15 | XED_REG_R15D | XED_REG_R15W
  | XED_REG_R15B => true
  | _ => false
  end.

(** The register that operand [k] is. *)
Definition operand_reg (x : xed_decoded_inst) (k : Z) : option xed_reg_enum :=
  if xed_operand_is_register (xed_operand_name x k)
  then Some (xed_get_reg x (xed_operand_name x k)) else None.

(** What the tables of the library say of the moves to and from control registers: the
    first operand is the destination and the second the source, and the operand that is not
    the control register is a general purpose register. *)
Class XedLibOk : Prop := {
  xed_mov_to_cr st b x :
    xed_decode st b = Some x ->
    xed_iform x = XED_IFORM_MOV_CR_CR_GPR64 \/ xed_iform x = XED_IFORM_MOV_CR_CR_GPR32 ->
    2 <= xed_noperands x /\ xed_operand_written x 1 = false /\
    exists r, operand_reg x 1 = Some r /\ xed_gpr r = true;
  xed_mov_from_cr st b x :
    xed_decode st b = Some x ->
    xed_iform x = XED_IFORM_MOV_CR_GPR64_CR \/ xed_iform x = XED_IFORM_MOV_CR_GPR32_CR ->
    2 <= xed_noperands x /\ xed_operand_written x 0 = true /\ xed_operand_written x 1 = false /\
    exists r, operand_reg x 0 = Some r /\ xed_gpr r = true;
}.

(** A pointer to a general purpose register. *)
Definition is_gpr_ptr (p : word) : Prop := exists r off, p = Ptr (Loc_gpr r off).

Lemma register_operand_gpr r op z op' :
  xed_gpr r = true -> register_operand r op = (z, op') -> z <> -1 -> is_gpr_ptr (operand op').
Proof. destruct r; intros Hr; try done; intros [= <- <-] Hz; try done; by eexists _, _. Qed.

(** What the steps of v3_decode assign. *)
Lemma set_v3_op_same w d : set_v3_op w (v3_op w d) d = d.
Proof. by destruct w, d. Qed.

Lemma first_op_frame info x d r d' :
  first_op info x d = Done (r, d') -> exists op, d' = set_v3_op (xed_operand_written x 0) op d.
Proof.
  unfold first_op. set (w := xed_operand_written x 0). case_match.
  - destruct (register_operand _ _) as [r' op]. intros [= _ <-]. by eexists.
  - assert (exists op, d = set_v3_op w op d) as Hsame.
    { exists (v3_op w d). by rewrite set_v3_op_same. }
    destruct (xed_operand_name x 0); try (intros [= <- <-]; done).
    destruct (get_memory_operand _ _ _ _) as [[r' op]| |]; [|done..]. run. intros [= _ <-]. by eexists.
Qed.

Lemma second_op_frame info x d r d' :
  second_op info x d = Done (r, d') ->
  exists w op, d' = set_v3_op w op d /\ (w = true -> xed_operand_written x 1 = true).
Proof.
  unfold second_op. set (w := xed_operand_written x 1). case_match.
  - destruct (register_operand _ _) as [r' op]. intros [= _ <-]. by eexists _, _.
  - assert (exists w' op, d = set_v3_op w' op d /\ (w' = true -> w = true)) as Hsame.
    { exists w, (v3_op w d). by rewrite set_v3_op_same. }
    destruct (xed_operand_name x 1); try (intros [= <- <-]; done).
    + case_match; intros [= <- <-]; by eexists false, _.
    + destruct (get_memory_operand _ _ _ _) as [[r' op]| |]; [|done..]. run. intros [= _ <-]. by eexists _, _.
Qed.

Lemma third_op_frame x d r d' : third_op x d = (r, d') -> exists op, d' = d <| third_operand := op |>.
Proof.
  unfold third_op. case_match; [|intros [= _ <-]; exists (third_operand d); by destruct d].
  destruct (register_operand _ _) as [r' op]. intros [= _ <-]. by eexists.
Qed.

Lemma operand_reg_inv x k r :
  operand_reg x k = Some r ->
  xed_operand_is_register (xed_operand_name x k) = true /\ xed_get_reg x (xed_operand_name x k) = r.
Proof. unfold operand_reg. case_match; [|done]. by intros [= ->]. Qed.

Lemma first_op_gpr info x d z d' r :
  operand_reg x 0 = Some r -> xed_gpr r = true -> xed_operand_written x 0 = true ->
  first_op info x d = Done (z, d') -> z <> -1 -> is_gpr_ptr (operand (dst_operand d')).
Proof.
  intros [H1 H2]%operand_reg_inv Hr Hw. unfold first_op. rewrite H1, H2, Hw. cbn.
  destruct (register_operand r _) as [r' op] eqn:E. intros [= <- <-]. by eapply register_operand_gpr.
Qed.

Lemma second_op_gpr info x d z d' r :
  operand_reg x 1 = Some r -> xed_gpr r = true -> xed_operand_written x 1 = false ->
  second_op info x d = Done (z, d') -> z <> -1 -> is_gpr_ptr (operand (src_operand d')).
Proof.
  intros [H1 H2]%operand_reg_inv Hr Hw. unfold second_op. rewrite H1, H2, Hw. cbn.
  destruct (register_operand r _) as [r' op] eqn:E. intros [= <- <-]. by eapply register_operand_gpr.
Qed.

(** What v3_decode found, when it succeeds: the form of the instruction and its length, and
    pointers to general purpose registers for the operands that are such. *)
Record decoded (x : xed_decoded_inst) (dec : x86_instr) : Prop := {
  dec_opcode : get_opcode (xed_iform x) = (0, opcode dec);
  dec_length : instr_length dec = xed_length x;
  dec_src r : 2 <= xed_noperands x -> xed_operand_written x 1 = false ->
    operand_reg x 1 = Some r -> xed_gpr r = true -> is_gpr_ptr (operand (src_operand dec));
  dec_dst r : 2 <= xed_noperands x -> xed_operand_written x 0 = true ->
    xed_operand_written x 1 = false -> operand_reg x 0 = Some r -> xed_gpr r = true ->
    is_gpr_ptr (operand (dst_operand dec));
}.

Lemma decode_done info st bytes dec0 st' dec :
  v3_decode info st bytes dec0 = Done (0, st', dec) ->
  snd (set_decoder_mode info st) = st' /\
  exists x, xed_decode st' bytes = Some x /\ decoded x dec.
Proof.
  unfold v3_decode. destruct (set_decoder_mode info st) as [r st1]. case_match; [done|].
  destruct (xed_decode st1 bytes) as [x|] eqn:Hx; [|done]. case_match; [done|].
  destruct (get_opcode (xed_iform x)) as [r1 op] eqn:Hop.
  assert (r1 = 0 \/ r1 = -1) as [-> | ->] by (revert Hop; destruct (xed_iform x); intros [= <- _]; auto);
    [|done]. run.
  set (d1 := dec0 <| instr_length := _ |> <| num_operands := _ |> <| opcode := _ |>).
  change (num_operands d1) with (xed_noperands x).
  destruct (if xed_noperands x >=? 1 then first_op info x d1 else Done (0, d1)) as [[r2 d2]| |] eqn:E1;
    [|done..]. run. destruct (Z.eqb_spec r2 (-1)) as [|Hr2]; [done|].
  assert (exists w op, d2 = set_v3_op w op d1 /\ (2 <= xed_noperands x -> w = xed_operand_written x 0))
    as (w1 & op1 & Hd2 & Hw1).
  { destruct (Z.geb_spec (xed_noperands x) 1).
    - apply first_op_frame in E1 as [op1 ->]. by eexists _, _.
    - injection E1 as _ <-. exists true, (dst_operand d1). split; [by destruct d1|lia]. }
  assert (num_operands d2 = xed_noperands x) as -> by (rewrite Hd2; by destruct w1).
  destruct (if xed_noperands x >=? 2 then second_op info x d2 else Done (0, d2)) as [[r3 d3]| |] eqn:E2;
    [|done..]. run. destruct (Z.eqb_spec r3 (-1)) as [|Hr3]; [done|].
  assert (exists w op, d3 = set_v3_op w op d2 /\
    (2 <= xed_noperands x -> xed_operand_written x 1 = false -> w = false)) as (w2 & op2 & Hd3 & Hw2).
  { destruct (Z.geb_spec (xed_noperands x) 2).
    - apply second_op_frame in E2 as (w2 & op2 & -> & Hw). eexists _, _. split; [done|].
      intros _ Hf. destruct w2; [|done]. rewrite Hw in Hf by done. done.
    - injection E2 as _ <-. exists true, (dst_operand d2). split; [by destruct d2|lia]. }
  assert (num_operands d3 = xed_noperands x) as -> by (rewrite Hd3, Hd2; by destruct w1, w2).
  destruct (if xed_noperands x >=? 3 then third_op x d3 else (0, d3)) as [r4 d4] eqn:E3.
  destruct (r4 =? -1); [done|]. intros [= <- <-].
  assert (exists op, d4 = d3 <| third_operand := op |>) as [op3 Hd4].
  { destruct (xed_noperands x >=? 3); [by eapply third_op_frame|]. injection E3 as _ <-.
    exists (third_operand d3). by destruct d3. }
  split; [done|]. exists x. split; [done|]. split.
  - rewrite Hop, Hd4, Hd3, Hd2. by destruct w1, w2.
  - rewrite Hd4, Hd3, Hd2. by destruct w1, w2.
  - intros r' Hn Hw Hreg Hg. rewrite (proj2 (Z.geb_le _ _) Hn) in E2.
    assert (is_gpr_ptr (operand (src_operand d3))) as Hp by by eapply second_op_gpr.
    rewrite Hd4. exact Hp.
  - intros r' Hn Hw0 Hw Hreg Hg. rewrite (proj2 (Z.geb_le _ 1)) in E1 by lia.
    assert (is_gpr_ptr (operand (dst_operand d2))) as Hp by by eapply first_op_gpr.
    rewrite Hd4, Hd3, Hw2 by done. exact Hp.
Qed.

Lemma decode_result info st bytes dec0 r st' dec :
  v3_decode info st bytes dec0 = Done (r, st', dec) -> r = 0 \/ r = -1.
Proof.
  unfold v3_decode. destruct (set_decoder_mode info st) as [r1 st1].
  destruct (r1 =? -1); [intros [= <-]; auto|].
  destruct (xed_decode st1 bytes) as [x|]; [|intros [= <-]; auto].
  destruct (special_case x); [intros [= <-]; auto|].
  destruct (get_opcode (xed_iform x)) as [r2 op]. destruct (r2 =? -1); [intros [= <-]; auto|].
  destruct (if _ >=? 1 then _ else _) as [[r3 d3]| |]; [|done..]. run.
  destruct (r3 =? -1); [intros [= <-]; auto|].
  destruct (if _ >=? 2 then _ else _) as [[r4 d4]| |]; [|done..]. run.
  destruct (r4 =? -1); [intros [= <-]; auto|].
  destruct (if _ >=? 3 then _ else _) as [r5 d5]. destruct (r5 =? -1); intros [= <-]; auto.
Qed.

End decode.

(** The operand [DS:[EBX + 4 * ECX - 8]] of a guest whose DS starts at 0x100. *)
Definition sample_info : guest_info :=
  let g := mk_v3_segment 0 0 0 0 0 0 0 0 0 0 0 in
  mk_guest_info 0 0 ShadowMap.empty_map SHADOW_PAGING
    (mk_shadow_page_state 0 0 0 None None 0) 0
    (Intr.mk_v3_excp_state 0 0 0 0) PROTECTED VIRTUAL_MEM (mk_v3_gprs 0 0 0 0 0x2000 0 0x10 0)
    (mk_v3_ctrl_regs 0 0 0 0 0 0 0) (mk_v3_dbg_regs 0 0 0 0 0 0)
    (mk_v3_segments g (mk_v3_segment 0 0 0x100 0 0 0 0 0 0 0 0) g g g g g g g g)
    (mk_emulation_state 0 [] 0 [] 0 [] 0 0 0) VM_RUNNING.

Definition sample_inst : xed_decoded_inst :=
  mk_xed_decoded_inst 4 1 XED_IFORM_LMSW_GPR16 (fun _ => XED_OPERAND_MEM0) (fun _ => false)
    (fun _ => XED_REG_INVALID) 0 0 false false 1 (fun _ => 4) (fun _ => XED_REG_DS)
    (fun _ => XED_REG_EBX) (fun _ => XED_REG_ECX) (fun _ => 4) (fun _ => 1) (fun _ => -8).

Lemma memory_operand_address_witness :
  get_memory_operand (A := V3_32BIT) sample_info sample_inst 0 (mk_x86_operand (Val 0) 0 INVALID_OPERAND) =
    Done (0, mk_x86_operand (Val 0x2140) 4 MEM_OPERAND).
Proof.
  rewrite (memory_operand_address (A := V3_32BIT) sample_info sample_inst).
  - done.
  - right. by exists SEG_DS.
  - right. exists RBX, 4. split_and!; [done|by repeat constructor|done..].
  - right. exists RCX, 4. split_and!; [done|by repeat constructor|done..].
  - by repeat constructor.
Defined.

End Xed.
