(* ===== verification/Vmcb.v ===== *)
(** The virtual machine control block: vmcb.h and vmcb.c.

    The processor keeps the registers of the guest in the block while the VMM runs, and
    reads from it what to intercept.  [Module Vmcb] has its two areas as records of the
    members that the VMM works on, and translates the copies of the segment registers. *)
From stdpp Require Import base tactics numbers list.
From S2P Require Import Prelude Intr GuestInfo.

Module Vmcb.
Import Intr GuestInfo.

(** [struct vmcb_selector]; the members of [attrib.fields] in its order. *)
Record vmcb_selector := mk_vmcb_selector {
  vs_selector : Z;
  vs_type : Z;
  vs_S : Z;
  vs_dpl : Z;
  vs_P : Z;
  vs_avl : Z;
  vs_L : Z;
  vs_db : Z;
  vs_G : Z;
  vs_rsvd : Z;
  vs_limit : Z;
  vs_base : Z;
}.

#[export] Instance eta_vmcb_selector : Eta vmcb_selector := fun v =>
  mk_vmcb_selector (vs_selector v) (vs_type v) (vs_S v) (vs_dpl v) (vs_P v) (vs_avl v) (vs_L v)
    (vs_db v) (vs_G v) (vs_rsvd v) (vs_limit v) (vs_base v).

(** [attrib.raw = w] *)
Definition set_raw (v : vmcb_selector) (w : Z) : vmcb_selector :=
  v <| vs_type := field w 0 4 |> <| vs_S := field w 4 1 |> <| vs_dpl := field w 5 2 |>
    <| vs_P := field w 7 1 |> <| vs_avl := field w 8 1 |> <| vs_L := field w 9 1 |>
    <| vs_db := field w 10 1 |> <| vs_G := field w 11 1 |> <| vs_rsvd := field w 12 4 |>.

(** [struct VMCB_Control_Area].  The intercepts are the words of their structs; the members
    that the injection of events writes are together. *)
Record vmcb_ctrl_t := mk_vmcb_ctrl_t {
  cr_reads : Z;
  cr_writes : Z;
  exceptions : Z;
  instrs : Z;
  svm_instrs : Z;
  IOPM_BASE_PA : Z;
  TSC_OFFSET : Z;
  guest_ASID : Z;
  TLB_CONTROL : Z;
  V_TPR : Z;
  V_INTR_MASKING : Z;
  inject : vmcb_inject;
  exit_code : Z;
  exit_info1 : Z;
  exit_info2 : Z;
  NP_ENABLE : Z;
  N_CR3 : Z;
}.

#[export] Instance eta_vmcb_ctrl_t : Eta vmcb_ctrl_t := fun c =>
  mk_vmcb_ctrl_t (cr_reads c) (cr_writes c) (exceptions c) (instrs c) (svm_instrs c)
    (IOPM_BASE_PA c) (TSC_OFFSET c) (guest_ASID c) (TLB_CONTROL c) (V_TPR c) (V_INTR_MASKING c)
    (inject c) (exit_code c) (exit_info1 c) (exit_info2 c) (NP_ENABLE c) (N_CR3 c).

(** [struct VMCB_State_Save_Area] *)
Record vmcb_saved_state_t := mk_vmcb_saved_state_t {
  sv_es : vmcb_selector;
  sv_cs : vmcb_selector;
  sv_ss : vmcb_selector;
  sv_ds : vmcb_selector;
  sv_fs : vmcb_selector;
  sv_gs : vmcb_selector;
  sv_gdtr : vmcb_selector;
  sv_ldtr : vmcb_selector;
  sv_idtr : vmcb_selector;
  sv_tr : vmcb_selector;
  sv_cpl : Z;
  sv_efer : Z;
  sv_cr4 : Z;
  sv_cr3 : Z;
  sv_cr0 : Z;
  sv_dr7 : Z;
  sv_dr6 : Z;
  sv_rflags : Z;
  sv_rip : Z;
  sv_rsp : Z;
  sv_rax : Z;
  sv_cr2 : Z;
  sv_g_pat : Z;
}.

#[export] Instance eta_vmcb_saved_state_t : Eta vmcb_saved_state_t := fun v =>
  mk_vmcb_saved_state_t (sv_es v) (sv_cs v) (sv_ss v) (sv_ds v) (sv_fs v) (sv_gs v) (sv_gdtr v)
    (sv_ldtr v) (sv_idtr v) (sv_tr v) (sv_cpl v) (sv_efer v) (sv_cr4 v) (sv_cr3 v) (sv_cr0 v)
    (sv_dr7 v) (sv_dr6 v) (sv_rflags v) (sv_rip v) (sv_rsp v) (sv_rax v) (sv_cr2 v) (sv_g_pat v).

Record vmcb_t := mk_vmcb_t {
  ctrl_area : vmcb_ctrl_t;
  save_area : vmcb_saved_state_t;
}.

#[export] Instance eta_vmcb_t : Eta vmcb_t := fun v => mk_vmcb_t (ctrl_area v) (save_area v).

(** ** Segment registers *)

Definition set_vmcb_segment (vmcb_seg : vmcb_selector) (seg : v3_segment) : vmcb_selector :=
  vmcb_seg <| vs_selector := selector seg |> <| vs_limit := limit seg |> <| vs_base := base seg |>
    <| vs_type := seg_type seg |> <| vs_S := system seg |> <| vs_dpl := dpl seg |>
    <| vs_P := seg_present seg |> <| vs_avl := avail seg |> <| vs_L := long_mode seg |>
    <| vs_db := db seg |> <| vs_G := granularity seg |>.

Definition get_vmcb_segment (vmcb_seg : vmcb_selector) : v3_segment :=
  mk_v3_segment (vs_selector vmcb_seg) (vs_limit vmcb_seg) (vs_base vmcb_seg) (vs_type vmcb_seg)
    (vs_S vmcb_seg) (vs_dpl vmcb_seg) (vs_P vmcb_seg) (vs_avl vmcb_seg) (vs_L vmcb_seg)
    (vs_db vmcb_seg) (vs_G vmcb_seg).

Definition set_vmcb_segments (g : vmcb_saved_state_t) (segs : v3_segments) : vmcb_saved_state_t :=
  g <| sv_cs := set_vmcb_segment (sv_cs g) (cs segs) |>
    <| sv_ds := set_vmcb_segment (sv_ds g) (ds segs) |>
    <| sv_es := set_vmcb_segment (sv_es g) (es segs) |>
    <| sv_fs := set_vmcb_segment (sv_fs g) (fs segs) |>
    <| sv_gs := set_vmcb_segment (sv_gs g) (gs segs) |>
    <| sv_ss := set_vmcb_segment (sv_ss g) (ss segs) |>
    <| sv_ldtr := set_vmcb_segment (sv_ldtr g) (ldtr segs) |>
    <| sv_gdtr := set_vmcb_segment (sv_gdtr g) (gdtr segs) |>
    <| sv_idtr := set_vmcb_segment (sv_idtr g) (idtr segs) |>
    <| sv_tr := set_vmcb_segment (sv_tr g) (tr segs) |>.

Definition get_vmcb_segments (g : vmcb_saved_state_t) : v3_segments :=
  mk_v3_segments (get_vmcb_segment (sv_cs g)) (get_vmcb_segment (sv_ds g))
    (get_vmcb_segment (sv_es g)) (get_vmcb_segment (sv_fs g)) (get_vmcb_segment (sv_gs g))
    (get_vmcb_segment (sv_ss g)) (get_vmcb_segment (sv_ldtr g)) (get_vmcb_segment (sv_gdtr g))
    (get_vmcb_segment (sv_idtr g)) (get_vmcb_segment (sv_tr g)).

Lemma get_set_segments g segs : get_vmcb_segments (set_vmcb_segments g segs) = segs.
Proof. by destruct segs as [[] [] [] [] [] [] [] [] [] []]. Qed.

Lemma set_get_segments g : set_vmcb_segments g (get_vmcb_segments g) = g.
Proof. by destruct g as [[] [] [] [] [] [] [] [] [] []]. Qed.

(** The segment registers of [g] go back to where they came from. *)
Lemma set_segments_same g g' :
  sv_es g' = sv_es g -> sv_cs g' = sv_cs g -> sv_ss g' = sv_ss g -> sv_ds g' = sv_ds g -> sv_fs g' = sv_fs g ->
  sv_gs g' = sv_gs g -> sv_gdtr g' = sv_gdtr g -> sv_ldtr g' = sv_ldtr g -> sv_idtr g' = sv_idtr g ->
  sv_tr g' = sv_tr g -> set_vmcb_segments g' (get_vmcb_segments g) = g'.
Proof.
  intros. assert (get_vmcb_segments g = get_vmcb_segments g') as -> by (unfold get_vmcb_segments; congruence).
  apply set_get_segments.
Qed.

(** ** Witness *)

Definition demo_selector : vmcb_selector := mk_vmcb_selector 0 0 0 0 0 0 0 0 0 0 0 0.

Definition demo_vmcb : vmcb_t :=
  let v := demo_selector in
  mk_vmcb_t
    (mk_vmcb_ctrl_t 0 0 0 0 0 0 0 0 0 0 0
       (mk_vmcb_inject 0 0 0 0 SVM_INJECTION_EXTERNAL_INTR 0 0 0 0) 0 0 0 0 0)
    (mk_vmcb_saved_state_t v v v v v v v v v v 0 0 0 0 0 0 0 0 0 0 0 0 0).

End Vmcb.
