(* ===== verification/ShadowPaging.v ===== *)
(** Shadow paging: vmm_shadow_paging.c and vmm_shadow_paging.h.

    The processor runs the guest on shadow page tables of the VMM, which the page fault
    handlers fill from the page tables of the guest and the shadow map of its physical
    memory.  [Module ShadowPaging] translates the handlers on byte-level tables in host
    memory, with every bit-field assignment a read and a write of the entry in the order of
    the code.  The theorems show that a fault leads to the translation the guest's own
    tables and the shadow map define, and that no sequence of faults lets the shadow tables
    reach memory that is not the guest's. *)
From stdpp Require Import base tactics numbers list gmap.
From S2P Require Import Prelude Chain Host MemMap Paging Intr Hashtable GuestInfo GuestMem.
From S2P Require Import Decoder Xed Vmcb.

Module ShadowPaging.
Import ShadowMap Paging Intr Hashtable GuestInfo GuestMem Vmcb.

(** ** State *)

(** A guest, the memory of the host and its page allocator, the state that vmm_xed.c keeps
    for the decoder, and the VMCB that [vmm_data] points to. *)
Record vm := mk_vm {
  info : guest_info;
  hmem : mem;
  pool : page_pool;
  decoder : Xed.xed_state;
  vmcb : vmcb_t;
}.

#[export] Instance eta_vm : Eta vm := fun s => 
  mk_vm (info s) (hmem s) (pool s) (decoder s) (vmcb s).

Definition set_shdw (s : vm) (f : shadow_page_state -> shadow_page_state) : vm :=
  s <| info := (info s) <| shdw_pg_state := f (shdw_pg_state (info s)) |> |>.

Definition set_excp (s : vm) (f : v3_excp_state -> v3_excp_state) : vm :=
  s <| info := (info s) <| intr_excp := f (intr_excp (info s)) |> |>.

(** The word of [struct pf_error_code]. *)
Definition pf_error_word (e : pf_error) : Z :=
  pack [(1, pf_present e); (1, pf_write e); (1, pf_user e); (1, pf_rsvd_access e);
        (1, pf_ifetch e); (27, pf_rsvd e)].

(** Assignments to members of an entry in memory. *)
Definition upd_pte (s : vm) (pt i : Z) (f : Pte32.pte32 -> Pte32.pte32) : vm :=
  s <| hmem := set_pte32 (hmem s) pt i (f (get_pte32 (hmem s) pt i)) |>.
Definition upd_pde (s : vm) (pd i : Z) (f : Pde32.pde32 -> Pde32.pde32) : vm :=
  s <| hmem := set_pde32 (hmem s) pd i (f (get_pde32 (hmem s) pd i)) |>.
Definition upd_pde_4MB (s : vm) (pd i : Z) (f : Pde32_4MB.pde32_4MB -> Pde32_4MB.pde32_4MB) : vm :=
  s <| hmem := set_pde32_4MB (hmem s) pd i (f (get_pde32_4MB (hmem s) pd i)) |>.

(** ** Entries of page tables *)

(** The members of an entry that is read are in range, and stay so when a member is
    assigned a value in range. *)
Ltac wf_entry :=
  intros;
  repeat match goal with
    | H : bs_wf ?e |- _ =>
        is_var e; destruct e; unfold bs_wf in H; cbn in H; decompose_Forall_hyps
    end;
  solve_wf; unfold is_u in *; cbn; lia.

Lemma pte_flags m pt i :
  let e := get_pte32 m pt i in
  is_u 1 (Pte32.present e) /\ is_u 1 (Pte32.writable e) /\ is_u 1 (Pte32.user_page e) /\
  is_u 1 (Pte32.dirty e).
Proof. split_and!; by apply field_range. Qed.

Lemma pde_flags m pd i :
  let e := get_pde32 m pd i in
  is_u 1 (Pde32.present e) /\ is_u 1 (Pde32.writable e) /\ is_u 1 (Pde32.user_page e) /\
  is_u 1 (Pde32.large_page e).
Proof. split_and!; by apply field_range. Qed.

Definition keeps_wf {T} `{BitStruct T} (f : T -> T) : Prop := forall e, bs_wf e -> bs_wf (f e).

(** Values taken from an entry in memory fit the members they are assigned to. *)
Ltac keep_wf :=
  unfold keeps_wf;
  repeat match goal with
    | |- context [get_pte32 ?m ?pt ?i] =>
        pose proof (pte_flags m pt i) as (? & ? & ? & ?); generalize dependent (get_pte32 m pt i)
    | |- context [get_pde32 ?m ?pt ?i] =>
        pose proof (pde_flags m pt i) as (? & ? & ? & ?); generalize dependent (get_pde32 m pt i)
    end;
  wf_entry.

(** The functions of vmm_emulator.c that handle_special_page_fault calls: the state, the
    faulting virtual address, the handler, the physical address and the handler's data. *)
Class MemEmulator := {
  v3_emulate_memory_read : vm -> Z -> Z -> Z -> Z -> outcome (Z * vm);
  v3_emulate_memory_write : vm -> Z -> Z -> Z -> Z -> outcome (Z * vm);
}.

Section shadow_paging.
Context {A : Arch} {Hos : OsHooks} {Hem : MemEmulator}.

(** ** The cache of guest page tables *)

Definition pte_hash_fn (key : Z) : Z := u32 (hash_long key 32).
Definition pte_equals (key1 key2 : Z) : Z := b2z (key1 =? key2).
Definition cr3_hash_fn (key : Z) : Z := u32 (hash_long key 32).
Definition cr3_equals (key1 key2 : Z) : Z := b2z (key1 =? key2).

(** [ok]: the two V3_Malloc calls of create_hashtable succeed. *)
Definition v3_init_shadow_page_state (ok : bool * bool) (s : vm) : Z * vm :=
  (0, set_shdw s (fun st => st <| guest_cr3 := 0 |> <| shadow_cr3 := 0 |>
        <| cr3_cache := create_hashtable (fst ok) (snd ok) 0 cr3_hash_fn cr3_equals |>
        <| cached_cr3 := 0 |> <| cached_ptes := None |>)).

(** [add_pte_map] on [state->cached_ptes], whose result is ignored; [ok] are the results of
    the V3_Malloc calls. *)
Definition add_pte_map (ok : bool * bool * bool) (s : vm) (key value : Z) : outcome vm :=
  match cached_ptes (shdw_pg_state (info s)) with
  | None => Undef
  | Some h =>
      let '(ok1, ok2, ok3) := ok in
      '(_, h) ← hashtable_insert ok1 ok2 ok3 h key value;
      Done (set_shdw s (fun st => st <| cached_ptes := Some h |>))
  end.

Definition find_pte_map (s : vm) (key : Z) : outcome Z :=
  match cached_ptes (shdw_pg_state (info s)) with
  | None => Undef
  | Some h => Done (hashtable_search h key)
  end.

(** The loop over the page directory, from entry [i], [n] entries before the end. *)
Fixpoint cache_loop (n : nat) (ok : Z -> bool * bool * bool) (s : vm) (tmp_pde i : Z)
    : outcome (Z * vm) :=
  match n with
  | O => Done (0, s)
  | S n =>
      let e := get_pde32 (hmem s) tmp_pde i in
      if negb (Pde32.present e =? 0) && (Pde32.large_page e =? 0) then
        '(r, pte_host_addr) ← guest_pa_to_host_va (info s) (ulong (PDE32_T_ADDR e));
        if r =? -1 then Done (-1, s) else
        s ← add_pte_map (ok i) s (ulong (PDE32_T_ADDR e)) pte_host_addr;
        cache_loop n ok s tmp_pde (i + 1)
      else cache_loop n ok s tmp_pde (i + 1)
  end.

Definition v3_cache_page_tables32 (ok : bool * bool) (ok_pd : bool * bool * bool)
    (ok_pt : Z -> bool * bool * bool) (s : vm) (pde : Z) : outcome (Z * vm) :=
  if pde =? cached_cr3 (shdw_pg_state (info s)) then Done (1, s) else
  let s := set_shdw s (fun st => st <| cached_ptes := None |>) in
  let s := set_shdw s (fun st => st <| cached_cr3 := pde |>) in
  let s := set_shdw s (fun st => st <| cached_ptes :=
             create_hashtable (fst ok) (snd ok) 0 pte_hash_fn pte_equals |>) in
  '(r, pde_host_addr) ← guest_pa_to_host_va (info s) pde;
  if r =? -1 then Done (-1, s) else
  s ← add_pte_map ok_pd s pde pde_host_addr;
  cache_loop (Z.to_nat MAX_PDE32_ENTRIES) ok_pt s pde_host_addr 0.

(** ** Fault handlers *)

(** The page table is used at the address in the entry, which is physical.  [new_page] and
    [old_page] are the words that the pointers point to, and the second component is what
    [old_page] points to afterwards. *)
Definition v3_replace_shdw_page32 (s : vm) (location new_page old_page : Z) : Z * Z * vm :=
  let shadow_pd := CR3_TO_PDE32 (shadow_cr3 (shdw_pg_state (info s))) in
  let shadow_pde := get_pde32 (hmem s) shadow_pd (PDE32_INDEX location) in
  if Pde32.large_page shadow_pde =? 0 then
    let shadow_pte := ulong (PDE32_T_ADDR shadow_pde) + 4 * PTE32_INDEX location in
    (0, load32 (hmem s) shadow_pte, s <| hmem := store32 (hmem s) shadow_pte new_page |>)
  else (-1, old_page, s).

(** The result of V3_AllocPages is not checked: without a page the table is written to
    memory nobody allocated. *)
Definition v3_create_new_shadow_pt32 (s : vm) : outcome (Z * vm) :=
  let '(page, p) := V3_AllocPages (pool s) in
  if page =? NULL then Undef else
  let host_pde := V3_VAddr page in
  Done (host_pde, s <| pool := p |> <| hmem := memset0 (hmem s) host_pde PAGE_SIZE |>).

Definition inject_guest_pf (s : vm) (fault_addr : Z) (error_code : pf_error) : vm :=
  let s := s <| info := (info s) <| ctrl_regs := (ctrl_regs (info s)) <| cr2 := fault_addr |> |> |> in
  set_excp s (fun e => snd (v3_raise_exception_with_error e PF_EXCEPTION (pf_error_word error_code))).

Definition raise_mc (s : vm) : vm := set_excp s (fun e => snd (v3_raise_exception e MC_EXCEPTION)).

Definition is_guest_pf (guest_access shadow_access : pt_access_status) : Z :=
  if decide (guest_access <> PT_ACCESS_OK) then
    if decide (shadow_access <> PT_ENTRY_NOT_PRESENT /\ guest_access <> PT_ENTRY_NOT_PRESENT)
    then 1
    else if decide (shadow_access = PT_ENTRY_NOT_PRESENT /\ guest_access = PT_ENTRY_NOT_PRESENT)
    then 1
    else 0
  else 0.

Abbreviation special_page_fault s := (handle_special_page_fault v3_emulate_memory_read
  v3_emulate_memory_write (mem_map (info s)) s).

(** [large_guest_pde] is the entry at index PDE32_INDEX(fault_addr) of [guest_pd]. *)
Definition handle_large_pagefault32 (s : vm) (fault_addr : Z) (error_code : pf_error)
    (shadow_pt guest_pd : Z) : outcome (Z * vm) :=
  let idx := PTE32_INDEX fault_addr in
  let shadow_pte_access := can_access_pte32 (hmem s) shadow_pt fault_addr error_code in
  match shadow_pte_access with
  | PT_ACCESS_OK => Done (0, s)
  | PT_ENTRY_NOT_PRESENT =>
      let large_guest_pde := get_pde32_4MB (hmem s) guest_pd (PDE32_INDEX fault_addr) in
      let guest_fault_pa :=
        u32 (PDE32_4MB_T_ADDR large_guest_pde + PD32_4MB_PAGE_OFFSET fault_addr) in
      host_page_type ← get_shadow_addr_type (mem_map (info s)) guest_fault_pa;
      match host_page_type with
      | HOST_REGION_INVALID => Done (0, raise_mc s)
      | HOST_REGION_PHYSICAL_MEMORY =>
          shadow_pa ← get_shadow_addr (mem_map (info s)) guest_fault_pa;
          let s := upd_pte s shadow_pt idx (fun e =>
                     e <| Pte32.page_base_addr := PT32_BASE_ADDR shadow_pa |>
                       <| Pte32.present := 1 |> <| Pte32.user_page := 1 |>) in
          found ← find_pte_map s (PT32_PAGE_ADDR guest_fault_pa);
          let s := upd_pte s shadow_pt idx (fun e =>
                     if negb (found =? NULL)
                     then e <| Pte32.vmm_info := PT32_GUEST_PT |> <| Pte32.writable := 0 |>
                     else e <| Pte32.writable := 1 |>) in
          Done (0, upd_pte s shadow_pt idx (fun e =>
                     e <| Pte32.write_through := 0 |> <| Pte32.cache_disable := 0 |>
                       <| Pte32.global_page := 0 |>))
      | _ =>
          '(r, s) ← special_page_fault s fault_addr guest_fault_pa error_code;
          if r =? -1 then Done (-1, s) else Done (0, s)
      end
  | _ =>
      if bool_decide (shadow_pte_access = PT_WRITE_ERROR) &&
         (Pte32.vmm_info (get_pte32 (hmem s) shadow_pt idx) =? PT32_GUEST_PT) then
        let s := set_shdw s (fun st => st <| cached_cr3 := 0 |>) in
        Done (0, upd_pte s shadow_pt idx (fun e => e <| Pte32.writable := 1 |>))
      else Done (-1, s)
  end.

Definition handle_shadow_pte32_fault (s : vm) (fault_addr : Z) (error_code : pf_error)
    (shadow_pt guest_pt : Z) : outcome (Z * vm) :=
  let idx := PTE32_INDEX fault_addr in
  let guest_pte s := get_pte32 (hmem s) guest_pt idx in
  let guest_pte_access := can_access_pte32 (hmem s) guest_pt fault_addr error_code in
  let shadow_pte_access := can_access_pte32 (hmem s) shadow_pt fault_addr error_code in
  if is_guest_pf guest_pte_access shadow_pte_access =? 1
  then Done (0, inject_guest_pf s fault_addr error_code) else
  match shadow_pte_access with
  | PT_ACCESS_OK => Done (0, s)
  | PT_ENTRY_NOT_PRESENT =>
      let guest_pa := u32 (PTE32_T_ADDR (guest_pte s) + PT32_PAGE_OFFSET fault_addr) in
      host_page_type ← get_shadow_addr_type (mem_map (info s)) guest_pa;
      match host_page_type with
      | HOST_REGION_INVALID => Done (0, raise_mc s)
      | HOST_REGION_PHYSICAL_MEMORY =>
          shadow_pa ← get_shadow_addr (mem_map (info s)) guest_pa;
          let s := upd_pte s shadow_pt idx (fun e =>
                     e <| Pte32.page_base_addr := PT32_BASE_ADDR shadow_pa |>) in
          let s := upd_pte s shadow_pt idx (fun e =>
                     e <| Pte32.present := Pte32.present (guest_pte s) |>) in
          let s := upd_pte s shadow_pt idx (fun e =>
                     e <| Pte32.user_page := Pte32.user_page (guest_pte s) |>
                       <| Pte32.write_through := 0 |> <| Pte32.cache_disable := 0 |>
                       <| Pte32.global_page := 0 |>) in
          let s := upd_pte s guest_pt idx (fun e => e <| Pte32.accessed := 1 |>) in
          found ← find_pte_map s (PT32_PAGE_ADDR guest_pa);
          let s := if negb (found =? NULL)
                   then upd_pte s shadow_pt idx (fun e => e <| Pte32.vmm_info := PT32_GUEST_PT |>)
                   else s in
          if Pte32.dirty (guest_pte s) =? 1 then
            Done (0, upd_pte s shadow_pt idx (fun e =>
                       e <| Pte32.writable := Pte32.writable (guest_pte s) |>))
          else if (Pte32.dirty (guest_pte s) =? 0) && (pf_write error_code =? 1) then
            let s := upd_pte s shadow_pt idx (fun e =>
                       e <| Pte32.writable := Pte32.writable (guest_pte s) |>) in
            let s := upd_pte s guest_pt idx (fun e => e <| Pte32.dirty := 1 |>) in
            Done (0, if Pte32.vmm_info (get_pte32 (hmem s) shadow_pt idx) =? PT32_GUEST_PT
                     then set_shdw s (fun st => st <| cached_cr3 := 0 |>) else s)
          else if (Pte32.dirty (guest_pte s) =? 0) && (pf_write error_code =? 0) then
            Done (0, upd_pte s shadow_pt idx (fun e => e <| Pte32.writable := 0 |>))
          else Done (0, s)
      | _ =>
          '(r, s) ← special_page_fault s fault_addr guest_pa error_code;
          if r =? -1 then Done (-1, s) else Done (0, s)
      end
  | _ =>
      if bool_decide (shadow_pte_access = PT_WRITE_ERROR) && (Pte32.dirty (guest_pte s) =? 0) then
        let s := upd_pte s guest_pt idx (fun e => e <| Pte32.dirty := 1 |>) in
        let s := upd_pte s shadow_pt idx (fun e =>
                   e <| Pte32.writable := Pte32.writable (guest_pte s) |>) in
        Done (0, if Pte32.vmm_info (get_pte32 (hmem s) shadow_pt idx) =? PT32_GUEST_PT
                 then set_shdw s (fun st => st <| cached_cr3 := 0 |>) else s)
      else Done (-1, inject_guest_pf s fault_addr error_code)
  end.

(** The entry of a page directory that has no page table yet. *)
Definition new_shadow_pde (s : vm) (shadow_pd guest_pd idx : Z) : outcome vm :=
  let guest_pde s := get_pde32 (hmem s) guest_pd idx in
  '(shadow_pt, s) ← v3_create_new_shadow_pt32 s;
  let s := upd_pde s shadow_pd idx (fun e => e <| Pde32.present := 1 |>) in
  let s := upd_pde s shadow_pd idx (fun e =>
             e <| Pde32.user_page := Pde32.user_page (guest_pde s) |>
               <| Pde32.large_page := 0 |> <| Pde32.write_through := 0 |>
               <| Pde32.cache_disable := 0 |> <| Pde32.global_page := 0 |>) in
  let s := upd_pde s guest_pd idx (fun e => e <| Pde32.accessed := 1 |>) in
  let s := upd_pde s shadow_pd idx (fun e =>
             e <| Pde32.pt_base_addr := PD32_BASE_ADDR (V3_PAddr shadow_pt) |>) in
  if Pde32.large_page (guest_pde s) =? 0 then
    Done (upd_pde s shadow_pd idx (fun e => e <| Pde32.writable := Pde32.writable (guest_pde s) |>))
  else
    let s := upd_pde_4MB s guest_pd idx (fun e => e <| Pde32_4MB.dirty := 0 |>) in
    Done (upd_pde s shadow_pd idx (fun e => e <| Pde32.writable := 0 |>)).

Definition handle_shadow_pagefault32 (s : vm) (fault_addr : Z) (error_code : pf_error)
    : outcome (Z * vm) :=
  let idx := PDE32_INDEX fault_addr in
  let shadow_pd := CR3_TO_PDE32 (shadow_cr3 (shdw_pg_state (info s))) in
  let guest_cr3 := V3_PAddr (CR3_TO_PDE32 (guest_cr3 (shdw_pg_state (info s)))) in
  '(r, guest_pd) ← guest_pa_to_host_va (info s) guest_cr3;
  if r =? -1 then Done (-1, s) else
  let guest_pde := get_pde32 (hmem s) guest_pd idx in
  let guest_pde_access := can_access_pde32 (hmem s) guest_pd fault_addr error_code in
  let shadow_pde_access := can_access_pde32 (hmem s) shadow_pd fault_addr error_code in
  if is_guest_pf guest_pde_access shadow_pde_access =? 1
  then Done (0, inject_guest_pf s fault_addr error_code) else
  match shadow_pde_access with
  | PT_ENTRY_NOT_PRESENT => s ← new_shadow_pde s shadow_pd guest_pd idx; Done (0, s)
  | PT_ACCESS_OK =>
      let shadow_pt := V3_VAddr (ulong (PDE32_T_ADDR (get_pde32 (hmem s) shadow_pd idx))) in
      if Pde32.large_page guest_pde =? 0 then
        '(r, guest_pt) ← guest_pa_to_host_va (info s) (ulong (PDE32_T_ADDR guest_pde));
        if r =? -1 then Done (0, raise_mc s) else
        '(r, s) ← handle_shadow_pte32_fault s fault_addr error_code shadow_pt guest_pt;
        if r =? -1 then Done (-1, s) else Done (0, s)
      else if Pde32.large_page guest_pde =? 1 then
        '(r, s) ← handle_large_pagefault32 s fault_addr error_code shadow_pt guest_pd;
        if r =? -1 then Done (-1, s) else Done (0, s)
      else Done (0, s)
  | _ =>
      if bool_decide (shadow_pde_access = PT_WRITE_ERROR) && (Pde32.large_page guest_pde =? 1) &&
         (Pde32_4MB.dirty (get_pde32_4MB (hmem s) guest_pd idx) =? 0) then
        let s := upd_pde_4MB s guest_pd idx (fun e => e <| Pde32_4MB.dirty := 1 |>) in
        Done (0, upd_pde s shadow_pd idx (fun e =>
                   e <| Pde32.writable := Pde32.writable (get_pde32 (hmem s) guest_pd idx) |>))
      else Done (0, inject_guest_pf s fault_addr error_code)
  end.

Definition v3_handle_shadow_pagefault (s : vm) (fault_addr : Z) (error_code : pf_error)
    : outcome (Z * vm) :=
  match mem_mode (info s) with
  | PHYSICAL_MEM => special_page_fault s fault_addr fault_addr error_code
  | VIRTUAL_MEM =>
      match cpu_mode (info s) with
      | PROTECTED => handle_shadow_pagefault32 s fault_addr error_code
      | _ => Done (-1, s)
      end
  end.

Context {Hok : OsHooksOk}.
#[local] Set Default Proof Using "Type Hok".

Lemma get_upd_pte s p i f :
  keeps_wf f ->
  get_pte32 (hmem (upd_pte s (V3_VAddr p) i f)) (V3_VAddr p) i = f (get_pte32 (hmem s) (V3_VAddr p) i).
Proof. intros Hf. apply get_set_pte32_eq, Hf, decode_wf. Qed.

Lemma get_upd_pde s p i f :
  keeps_wf f ->
  get_pde32 (hmem (upd_pde s (V3_VAddr p) i f)) (V3_VAddr p) i = f (get_pde32 (hmem s) (V3_VAddr p) i).
Proof. intros Hf. apply get_set_pde32_eq, Hf, decode_wf. Qed.

Lemma get_pte_store_ne m p i q j w :
  is_slot p i -> is_slot q j -> (p, i) <> (q, j) ->
  get_pte32 (store32 m (slot q j) w) (V3_VAddr p) i = get_pte32 m (V3_VAddr p) i.
Proof. intros. unfold get_pte32. f_equal. by apply load_store_slot_ne. Qed.

Lemma get_pde_store_ne m p i q j w :
  is_slot p i -> is_slot q j -> (p, i) <> (q, j) ->
  get_pde32 (store32 m (slot q j) w) (V3_VAddr p) i = get_pde32 m (V3_VAddr p) i.
Proof. intros. unfold get_pde32. f_equal. by apply load_store_slot_ne. Qed.

(** ** Isolation *)

(** The host page that backs a page of the guest. *)
Definition guest_page (v : list shadow_region) (p : Z) : Prop :=
  page_aligned p /\ exists r a, r ∈ v /\ host_type r = HOST_REGION_PHYSICAL_MEMORY /\
    inside r a /\ p = PAGE_SIZE * ((host_addr r + (a - guest_start r)) / PAGE_SIZE).

(** A page that an entry can point to. *)
Definition frame_ok (p : Z) : Prop := page_aligned p /\ is_u 32 p /\ sext p = p.

Definition pde_ok (T : gset Z) (w : Z) : Prop :=
  let e := decode w : Pde32.pde32 in
  Pde32.present e <> 0 -> Pde32.large_page e = 0 /\ PAGE_SIZE * Pde32.pt_base_addr e ∈ T.

Definition pte_ok (v : list shadow_region) (w : Z) : Prop :=
  let e := decode w : Pte32.pte32 in
  Pte32.present e <> 0 -> guest_page v (PAGE_SIZE * Pte32.page_base_addr e).

(** The shadow tables, with page directory [pd] and page tables [T], give the guest access
    to no memory but its own: the directory points to tables of [T], their entries to pages
    that back the guest, and neither the tables nor the pages the allocator still has are
    among these.  Entries in [X] are exempt. *)
Record isolated_but (X : Z -> Z -> Prop) (v : list shadow_region) (pd : Z) (T : gset Z)
    (avail : list Z) (m : mem) : Prop := {
  iso_frames p : p ∈ {[pd]} ∪ T -> frame_ok p;
  iso_pd : pd ∉ T;
  iso_guest p : guest_page v p -> p ∉ {[pd]} ∪ T;
  iso_pde i : 0 <= i < 1024 -> ~ X pd i -> pde_ok T (load32 m (slot pd i));
  iso_pte p i : p ∈ T -> 0 <= i < 1024 -> ~ X p i -> pte_ok v (load32 m (slot p i));
  iso_avail : NoDup avail;
  iso_fresh p : p ∈ avail -> p <> NULL /\ frame_ok p /\ p ∉ {[pd]} ∪ T /\ ~ guest_page v p;
}.

Definition nowhere (p i : Z) : Prop := False.
Definition only (q j p i : Z) : Prop := p = q /\ i = j.

Lemma iso_open q j v pd T av m :
  isolated_but nowhere v pd T av m -> isolated_but (only q j) v pd T av m.
Proof. intros []. split; try done; intros; naive_solver. Qed.

(** Writes to exempt entries and to the memory of the guest. *)
Lemma iso_write X v pd T av m q j w :
  isolated_but X v pd T av m -> is_slot q j -> X q j \/ guest_page v q ->
  isolated_but X v pd T av (store32 m (slot q j) w).
Proof.
  intros [Hf Hpd Hg Hpde Hpte Ha Hfr] Hs Hq.
  assert (forall p i, p ∈ {[pd]} ∪ T -> 0 <= i < 1024 -> ~ X p i ->
    load32 (store32 m (slot q j) w) (slot p i) = load32 m (slot p i)) as Hl.
  { intros p i Hp Hi HX. apply load_store_slot_ne; [|done|].
    - split; [apply (Hf p Hp)|done].
    - intros [= -> ->]. destruct Hq as [?|Hq]; [done|]. by apply (Hg q Hq). }
  split; try done.
  - intros i Hi HX. rewrite Hl by set_solver. by apply Hpde.
  - intros p i Hp Hi HX. rewrite Hl by set_solver. by apply Hpte.
Qed.

Lemma iso_close v pd T av m q j :
  isolated_but (only q j) v pd T av m ->
  (q = pd -> pde_ok T (load32 m (slot q j))) -> (q ∈ T -> pte_ok v (load32 m (slot q j))) ->
  isolated_but nowhere v pd T av m.
Proof.
  intros [Hf Hpd Hg Hpde Hpte Ha Hfr] Hq1 Hq2. split; try done.
  - intros i Hi _. destruct (decide (pd = q /\ i = j)) as [[-> ->]|Hne]; [by apply Hq1|].
    by apply Hpde.
  - intros p i Hp Hi _. destruct (decide (p = q /\ i = j)) as [[-> ->]|Hne]; [by apply Hq2|].
    by apply Hpte.
Qed.

(** A page from the allocator, cleared, becomes a page table. *)
Lemma iso_new_table X v pd T p av m :
  isolated_but X v pd T (p :: av) m ->
  isolated_but X v pd ({[p]} ∪ T) av (memset0 m (V3_VAddr p) PAGE_SIZE).
Proof.
  intros [Hf Hpd Hg Hpde Hpte Ha Hfr]. apply NoDup_cons in Ha as [Hn Ha].
  destruct (Hfr p ltac:(set_solver)) as (Hnull & Hfp & HT & Hgp).
  split; try done.
  - intros q Hq. destruct (decide (q = p)) as [->|]; [done|]. apply Hf. set_solver.
  - set_solver.
  - intros q Hq. specialize (Hg q Hq). destruct (decide (q = p)) as [->|]; [done|set_solver].
  - intros i Hi HX. rewrite load_memset_slot; [| |apply Hfp|set_solver].
    + intros Hpr. destruct (Hpde i Hi HX Hpr). set_solver.
    + split; [|done]. apply (Hf pd). set_solver.
  - intros q i Hq Hi HX. destruct (decide (q = p)) as [->|Hne].
    + rewrite load_memset_slot_eq by done. by intros [].
    + rewrite load_memset_slot; [apply Hpte; set_solver| |apply Hfp|done].
      split; [|done]. apply (Hf q). set_solver.
  - intros q Hq. destruct (Hfr q ltac:(set_solver)) as (? & ? & ? & ?). set_solver.
Qed.

(** The page directory of the shadow tables. *)
Definition pd_of (s : vm) : Z := PAGE_SIZE * (u32 (shadow_cr3 (shdw_pg_state (info s))) / PAGE_SIZE).

(** The invariant of the fault handlers: the guest has only memory, in whole pages below
    4GB, and the shadow tables are isolated. *)
Record inv (X : Z -> Z -> Prop) (T : gset Z) (l : list Z) (s : vm) : Prop := {
  inv_paged : paged (info s) l;
  inv_mem r : r ∈ regions_of (info s) l ->
    host_type r = HOST_REGION_PHYSICAL_MEMORY /\
    host_addr r + (guest_end r - guest_start r) <= 2 ^ 32;
  inv_iso : isolated_but X (regions_of (info s) l) (pd_of s) T (supply (pool s)) (hmem s);
}.

Lemma inv_same X T l s s' :
  inv X T l s -> mem_map (info s') = mem_map (info s) ->
  shadow_cr3 (shdw_pg_state (info s')) = shadow_cr3 (shdw_pg_state (info s)) ->
  pool s' = pool s ->
  isolated_but X (regions_of (info s) l) (pd_of s) T (supply (pool s)) (hmem s') ->
  inv X T l s'.
Proof.
  intros [[H1 H2 H3 H4] Hm Hi] Em Ec Ep Hi'.
  split; [split|..]; unfold pd_of; rewrite ?Em, ?Ec, ?Ep; done.
Qed.

(** The cache of the guest's page tables: it exists once the guest has loaded CR3. *)
Definition pte_cache (s : vm) : Prop := is_Some (cached_ptes (shdw_pg_state (info s))).

Definition same_cache (s s' : vm) : Prop :=
  cached_ptes (shdw_pg_state (info s')) = cached_ptes (shdw_pg_state (info s)).

Lemma same_cache_some s s' : same_cache s s' -> pte_cache s -> pte_cache s'.
Proof. unfold pte_cache. by intros ->. Qed.

Lemma inv_excp X T l s f : inv X T l s -> inv X T l (set_excp s f).
Proof. intros Hi. apply (inv_same X T l s); [done..|]. apply Hi. Qed.

Lemma inv_inject X T l s a e : inv X T l s -> inv X T l (inject_guest_pf s a e).
Proof. intros Hi. apply (inv_same X T l s); [done..|]. apply Hi. Qed.

Lemma inv_uncache X T l s : inv X T l s -> inv X T l (set_shdw s (fun st => st <| cached_cr3 := 0 |>)).
Proof. intros Hi. apply (inv_same X T l s); [done..|]. apply Hi. Qed.

Lemma inv_write X T l s q j w :
  is_slot q j -> X q j \/ guest_page (regions_of (info s) l) q -> inv X T l s ->
  inv X T l (s <| hmem := store32 (hmem s) (slot q j) w |>).
Proof.
  intros Hs Hq Hi. apply (inv_same X T l s); [done..|]. apply iso_write; [apply Hi|done..].
Qed.

Lemma inv_upd_pte X T l s q j f :
  is_slot q j -> X q j \/ guest_page (regions_of (info s) l) q -> inv X T l s ->
  inv X T l (upd_pte s (V3_VAddr q) j f).
Proof. intros Hs Hq Hi. by apply inv_write. Qed.

Lemma inv_upd_pde X T l s q j f :
  is_slot q j -> X q j \/ guest_page (regions_of (info s) l) q -> inv X T l s ->
  inv X T l (upd_pde s (V3_VAddr q) j f).
Proof. intros Hs Hq Hi. by apply inv_write. Qed.

Lemma inv_upd_pde_4MB X T l s q j f :
  is_slot q j -> X q j \/ guest_page (regions_of (info s) l) q -> inv X T l s ->
  inv X T l (upd_pde_4MB s (V3_VAddr q) j f).
Proof. intros Hs Hq Hi. by apply inv_write. Qed.

Lemma inv_open q j T l s : inv nowhere T l s -> inv (only q j) T l s.
Proof. intros Hi. destruct Hi as [? ? Hi]. split; [done..|]. by apply iso_open. Qed.

Lemma inv_close_pte q j T l s :
  inv (only q j) T l s -> q ∈ T ->
  (Pte32.present (get_pte32 (hmem s) (V3_VAddr q) j) <> 0 ->
   guest_page (regions_of (info s) l) (PAGE_SIZE * Pte32.page_base_addr (get_pte32 (hmem s) (V3_VAddr q) j))) ->
  inv nowhere T l s.
Proof.
  intros Hi Hq Hok'. pose proof (iso_pd _ _ _ _ _ _ (inv_iso _ _ _ _ Hi)) as Hpd.
  destruct Hi as [? ? Hi]. split; [done..|]. eapply iso_close; [exact Hi| |by intros _].
  intros ->. done.
Qed.

Lemma inv_close_pde j T l s :
  inv (only (pd_of s) j) T l s ->
  (let e := get_pde32 (hmem s) (V3_VAddr (pd_of s)) j in
   Pde32.present e <> 0 -> Pde32.large_page e = 0 /\ PAGE_SIZE * Pde32.pt_base_addr e ∈ T) ->
  inv nowhere T l s.
Proof.
  intros Hi Hok'. pose proof (iso_pd _ _ _ _ _ _ (inv_iso _ _ _ _ Hi)) as Hpd.
  destruct Hi as [? ? Hi]. split; [done..|]. eapply iso_close; [exact Hi|by intros _|done].
Qed.

Lemma pte_slot T l s p a : inv nowhere T l s -> p ∈ T -> is_slot p (PTE32_INDEX a).
Proof.
  intros Hi Hp. split; [|apply PTE32_INDEX_range].
  apply (iso_frames _ _ _ _ _ _ (inv_iso _ _ _ _ Hi) p). set_solver.
Qed.

(** ** What the handlers find *)

Lemma gpa_page info l a w :
  paged info l -> page_aligned a -> gpa_hva (regions_of info l) a = Some w ->
  exists p, w = V3_VAddr p /\ guest_page (regions_of info l) p.
Proof.
  intros Hp Ha Hw. pose proof (paged_wf _ _ Hp) as Hwf.
  apply gpa_hva_some in Hw as (r & Hin & Hi & Ht & ->); [|apply Hwf].
  eexists. split; [done|]. pose proof (paged_regions _ _ Hp) as Hreg. rewrite Forall_forall in Hreg.
  destruct (Hreg r Hin Ht) as (Hs & _ & Hh & _). unfold page_aligned in *.
  assert ((host_addr r + (a - guest_start r)) mod PAGE_SIZE = 0) as Hz
    by (rewrite Zplus_mod, Zminus_mod, Hs, Ha, Hh; done).
  split; [done|]. exists r, a. split_and!; [done..|].
  pose proof (Z.div_mod (host_addr r + (a - guest_start r)) PAGE_SIZE). lia.
Qed.

(** Memory that backs the guest, or nothing. *)
Lemma shadow_lookup X T l s a :
  inv X T l s ->
  (exists pa, get_shadow_addr_type (mem_map (info s)) a = Done HOST_REGION_PHYSICAL_MEMORY /\
     get_shadow_addr (mem_map (info s)) a = Done pa /\
     guest_page (regions_of (info s) l) (PAGE_SIZE * PT32_BASE_ADDR pa) /\
     is_u 20 (PT32_BASE_ADDR pa) /\ gpa_hva (regions_of (info s) l) a = Some (V3_VAddr pa) /\
     is_u 32 pa /\ pa mod PAGE_SIZE = a mod PAGE_SIZE) \/
  (get_shadow_addr_type (mem_map (info s)) a = Done HOST_REGION_INVALID /\
   gpa_hva (regions_of (info s) l) a = None).
Proof.
  intros [Hp Hm _]. pose proof (paged_wf _ _ Hp) as Hwf.
  rewrite (get_shadow_addr_type_eq _ _ _ Hwf), (get_shadow_addr_eq _ _ _ Hwf).
  unfold type_at, gpa_hva. destruct (lookup_list _ a) as [r|] eqn:E; [|by right].
  left. pose proof E as E'. apply lookup_list_some in E' as [Hin Hi]; [|apply Hwf].
  destruct (Hm r Hin) as [Ht Hb].
  destruct (paged_lookup _ _ _ _ Hp E Ht) as (Ha & Hr & Heq & Hpos). rewrite Heq, Ht. cbn.
  set (pa := host_addr r + (a - guest_start r)) in *. exists pa.
  assert (is_u 32 pa) as Hu by (unfold is_u, pa in *; lia).
  rewrite PT32_BASE_ADDR_eq by done. unfold is_u in Hu. split_and!; try done.
  - split; [|by exists r, a]. unfold page_aligned. by rewrite Z.mul_comm, Z.mod_mul.
  - split; [apply Z.div_pos; lia|apply Z.div_lt_upper_bound; lia].
  - by rewrite Ht.
  - destruct (Hr Ht) as (Hs & _ & Hh & _). unfold pa, page_aligned in *.
    by rewrite Zplus_mod, Zminus_mod, Hs, Hh, Z.sub_0_r, Z.add_0_l, !Zmod_mod.
Qed.

Lemma find_pte_map_done s k : pte_cache s -> exists f, find_pte_map s k = Done f.
Proof. intros [h Hh]. unfold find_pte_map. rewrite Hh. by eexists. Qed.

Lemma find_pte_map_cases s k :
  (exists f, find_pte_map s k = Done f) \/ (~ pte_cache s /\ find_pte_map s k = Undef).
Proof.
  unfold find_pte_map, pte_cache. destruct (cached_ptes _); [left; by eexists|right].
  split; [by intros [? ?]|done].
Qed.

(** ** The page table handlers *)

(** The state while the handler fills entry [i] of the page table [p]. *)
Definition filling (T : gset Z) (l : list Z) (p i B : Z) (s : vm) : Prop :=
  inv (only p i) T l s /\ Pte32.page_base_addr (get_pte32 (hmem s) (V3_VAddr p) i) = B.

Lemma filling_shadow T l p i B s f :
  is_slot p i -> filling T l p i B s -> keeps_wf f ->
  (forall e, Pte32.page_base_addr (f e) = Pte32.page_base_addr e) ->
  filling T l p i B (upd_pte s (V3_VAddr p) i f).
Proof.
  intros Hs [Hi HB] Hf Hb. split; [by apply inv_upd_pte; [|left|]|].
  by rewrite get_upd_pte, Hb.
Qed.

Lemma filling_guest T l p i B s q j f :
  is_slot p i -> is_slot q j -> p <> q -> guest_page (regions_of (info s) l) q ->
  filling T l p i B s -> filling T l p i B (upd_pte s (V3_VAddr q) j f).
Proof.
  intros Hs Hq Hne Hg [Hi HB]. split; [by apply inv_upd_pte; [|right|]|].
  rewrite <- HB. f_equal. apply get_pte_store_ne; congruence.
Qed.

Lemma filling_uncache T l p i B s :
  filling T l p i B s -> filling T l p i B (set_shdw s (fun st => st <| cached_cr3 := 0 |>)).
Proof. intros [Hi HB]. split; [by apply inv_uncache|done]. Qed.

Lemma filling_done T l p i B s :
  filling T l p i B s -> p ∈ T -> guest_page (regions_of (info s) l) (PAGE_SIZE * B) ->
  inv nowhere T l s.
Proof. intros [Hi HB] Hp Hg. apply (inv_close_pte p i); [done..|]. by rewrite HB. Qed.

(** Starts filling an entry, and goes on with the entry of a mapping that is kept. *)
Lemma filling_start T l p i B s f :
  is_slot p i -> inv nowhere T l s -> keeps_wf f -> (forall e, Pte32.page_base_addr (f e) = B) ->
  filling T l p i B (upd_pte s (V3_VAddr p) i f).
Proof.
  intros Hs Hi Hf Hb. split; [apply inv_upd_pte; [done|by left|by apply inv_open]|].
  by rewrite get_upd_pte, Hb.
Qed.

Ltac keep_filling :=
  repeat match goal with
    | |- filling _ _ _ _ _ (if ?b then _ else _) => destruct b
    | |- filling _ _ _ _ _ (set_shdw _ _) => apply filling_uncache
    | |- filling _ _ ?p _ _ (upd_pte _ (V3_VAddr ?p) _ _) =>
        apply filling_shadow; [done| |keep_wf|done]
    | |- filling _ _ _ _ _ (upd_pte _ _ _ _) => apply filling_guest; [done..|]
    end.

(** A page of the guest is not one of the shadow tables. *)
Lemma inv_guest_table X T l s p q :
  inv X T l s -> p ∈ T -> guest_page (regions_of (info s) l) q -> p <> q.
Proof.
  intros Hi Hp Hq ->. apply (iso_guest _ _ _ _ _ _ (inv_iso _ _ _ _ Hi) q Hq). set_solver.
Qed.

Lemma guest_slot v p a : guest_page v p -> is_slot p (PTE32_INDEX a).
Proof. intros [Hp _]. split; [done|apply PTE32_INDEX_range]. Qed.

Lemma can_access_pte32_present m pt a err :
  can_access_pte32 m pt a err <> PT_ENTRY_NOT_PRESENT ->
  Pte32.present (get_pte32 m pt (PTE32_INDEX a)) <> 0.
Proof. unfold can_access_pte32. by case_cmp. Qed.

Lemma filling_present T l p i s :
  inv nowhere T l s -> p ∈ T -> is_slot p i ->
  Pte32.present (get_pte32 (hmem s) (V3_VAddr p) i) <> 0 ->
  let B := Pte32.page_base_addr (get_pte32 (hmem s) (V3_VAddr p) i) in
  filling T l p i B s /\ guest_page (regions_of (info s) l) (PAGE_SIZE * B).
Proof.
  intros Hi Hp [_ Hs] Hpr. split; [split; [by apply inv_open|done]|].
  exact (iso_pte _ _ _ _ _ _ (inv_iso _ _ _ _ Hi) p i Hp Hs (fun H => H) Hpr).
Qed.

(** The outcome [o] of a handler of page tables: it keeps the invariant, the pages of the
    allocator and the cache, or it uses the cache, which does not exist. *)
Definition kept_inv (T : gset Z) (l : list Z) (s : vm) (o : outcome (Z * vm)) : Prop :=
  (exists ret s', o = Done (ret, s') /\ inv nowhere T l s' /\ pool s' = pool s /\ same_cache s s') \/
  (~ pte_cache s /\ o = Undef).

Lemma kept_inv_done T l s ret s' :
  inv nowhere T l s' -> pool s' = pool s -> same_cache s s' -> kept_inv T l s (Done (ret, s')).
Proof. intros Hi Hp Hc. left. by eexists _, _. Qed.

Lemma pte32_fault_inv T l s fault_addr err p q :
  inv nowhere T l s -> p ∈ T -> guest_page (regions_of (info s) l) q ->
  kept_inv T l s (handle_shadow_pte32_fault s fault_addr err (V3_VAddr p) (V3_VAddr q)).
Proof.
  intros Hi Hp Hq. unfold handle_shadow_pte32_fault.
  pose proof (pte_slot T l s p fault_addr Hi Hp) as Hsp.
  pose proof (guest_slot _ q fault_addr Hq) as Hsq.
  pose proof (inv_guest_table _ _ _ _ _ _ Hi Hp Hq) as Hne.
  set (i := PTE32_INDEX fault_addr) in *.
  destruct (is_guest_pf _ _ =? 1); [apply kept_inv_done; [by apply inv_inject|done..]|].
  destruct (can_access_pte32 (hmem s) (V3_VAddr p) fault_addr err) eqn:Hacc.
  - by apply kept_inv_done.
  - destruct (shadow_lookup _ _ _ _ (u32 (PTE32_T_ADDR (get_pte32 (hmem s) (V3_VAddr q) i) +
      PT32_PAGE_OFFSET fault_addr)) Hi) as [(pa & -> & -> & Hg & Hu & _)|[-> _]]; run;
      [|apply kept_inv_done; [by apply inv_excp|done..]].
    set (B := PT32_BASE_ADDR pa) in *.
    assert (keeps_wf (fun e => e <| Pte32.page_base_addr := B |>)) as Hwf by keep_wf.
    pose proof (filling_start T l p i B s _ Hsp Hi Hwf ltac:(done)) as Hfl.
    match goal with |- context [find_pte_map ?s' ?k] => change (find_pte_map s' k) with (find_pte_map s k);
      destruct (find_pte_map_cases s k) as [[found ->]|[Hnc ->]]; run; [|by right] end.
    repeat case_match; (apply kept_inv_done; [|done..]);
      (eapply (filling_done T l p i B); [keep_filling; exact Hfl|done|exact Hg]).
  - destruct (filling_present T l p i s Hi Hp Hsp) as [Hfl Hg];
      [apply (can_access_pte32_present _ _ _ err); congruence|].
    destruct (_ && _); [|apply kept_inv_done; [by apply inv_inject|done..]].
    apply kept_inv_done; [|by case_match..].
    eapply (filling_done T l p i _); [keep_filling; exact Hfl|done|].
    case_match; exact Hg.
  - apply kept_inv_done; [by apply inv_inject|done..].
Qed.

(** The same with a 4MB page of the guest. *)
Lemma large_fault_inv T l s fault_addr err p q :
  inv nowhere T l s -> p ∈ T -> guest_page (regions_of (info s) l) q ->
  kept_inv T l s (handle_large_pagefault32 s fault_addr err (V3_VAddr p) (V3_VAddr q)).
Proof.
  intros Hi Hp Hq. unfold handle_large_pagefault32.
  pose proof (pte_slot T l s p fault_addr Hi Hp) as Hsp.
  set (i := PTE32_INDEX fault_addr) in *.
  destruct (can_access_pte32 (hmem s) (V3_VAddr p) fault_addr err) eqn:Hacc.
  - by apply kept_inv_done.
  - set (ga := u32 _). destruct (shadow_lookup _ _ _ _ ga Hi)
      as [(pa & -> & -> & Hg & Hu & _)|[-> _]]; run;
      [|apply kept_inv_done; [by apply inv_excp|done..]].
    set (B := PT32_BASE_ADDR pa) in *.
    assert (keeps_wf (fun e => e <| Pte32.page_base_addr := B |> <| Pte32.present := 1 |>
      <| Pte32.user_page := 1 |>)) as Hwf by keep_wf.
    pose proof (filling_start T l p i B s _ Hsp Hi Hwf ltac:(done)) as Hfl.
    match goal with |- context [find_pte_map ?s' ?k] => change (find_pte_map s' k) with (find_pte_map s k);
      destruct (find_pte_map_cases s k) as [[found ->]|[Hnc ->]]; run; [|by right] end.
    apply kept_inv_done; [|by case_match..].
    eapply (filling_done T l p i B); [|done|exact Hg].
    destruct (negb _); keep_filling; exact Hfl.
  - destruct (filling_present T l p i s Hi Hp Hsp) as [Hfl Hg];
      [apply (can_access_pte32_present _ _ _ err); congruence|].
    destruct (_ && _); [|by apply kept_inv_done]. apply kept_inv_done; [|done..].
    eapply (filling_done T l p i _); [keep_filling; exact Hfl|done|exact Hg].
  - by apply kept_inv_done.
Qed.

(** ** The page directory handler *)

(** The state while the handler fills entry [i] of the page directory, about whose content
    [F] holds so far. *)
Definition filling_pde (T : gset Z) (l : list Z) (pd i : Z) (F : Pde32.pde32 -> Prop) (s : vm)
    : Prop :=
  inv (only pd i) T l s /\ F (get_pde32 (hmem s) (V3_VAddr pd) i).

Lemma filling_pde_shadow T l pd i (F F' : Pde32.pde32 -> Prop) s f :
  is_slot pd i -> filling_pde T l pd i F s -> keeps_wf f -> (forall e, F e -> F' (f e)) ->
  filling_pde T l pd i F' (upd_pde s (V3_VAddr pd) i f).
Proof.
  intros Hs [Hi HF] Hf HF'. split; [by apply inv_upd_pde; [|left|]|].
  rewrite get_upd_pde by done. by apply HF'.
Qed.

Lemma filling_pde_guest T l pd i F s q j w :
  is_slot pd i -> is_slot q j -> pd <> q -> guest_page (regions_of (info s) l) q ->
  filling_pde T l pd i F s ->
  filling_pde T l pd i F (s <| hmem := store32 (hmem s) (slot q j) w |>).
Proof.
  intros Hs Hq Hne Hg [Hi HF]. split; [by apply inv_write; [|right|]|].
  replace (get_pde32 _ _ _) with (get_pde32 (hmem s) (V3_VAddr pd) i); [done|].
  symmetry. apply get_pde_store_ne; congruence.
Qed.

Lemma filling_pde_guest_upd T l pd i F s q j f :
  is_slot pd i -> is_slot q j -> pd <> q -> guest_page (regions_of (info s) l) q ->
  filling_pde T l pd i F s -> filling_pde T l pd i F (upd_pde s (V3_VAddr q) j f).
Proof. intros. by apply filling_pde_guest. Qed.

Lemma filling_pde_guest_upd_4MB T l pd i F s q j f :
  is_slot pd i -> is_slot q j -> pd <> q -> guest_page (regions_of (info s) l) q ->
  filling_pde T l pd i F s -> filling_pde T l pd i F (upd_pde_4MB s (V3_VAddr q) j f).
Proof. intros. by apply filling_pde_guest. Qed.

Lemma pd_slot X T l s a : inv X T l s -> is_slot (pd_of s) (PDE32_INDEX a).
Proof.
  intros Hi. split; [|apply PDE32_INDEX_range].
  apply (iso_frames _ _ _ _ _ _ (inv_iso _ _ _ _ Hi) (pd_of s)). set_solver.
Qed.

Lemma inv_guest_pd X T l s q :
  inv X T l s -> guest_page (regions_of (info s) l) q -> pd_of s <> q.
Proof.
  intros Hi Hq <-. apply (iso_guest _ _ _ _ _ _ (inv_iso _ _ _ _ Hi) _ Hq). set_solver.
Qed.

Lemma frame_base p : frame_ok p -> PAGE_SIZE * PD32_BASE_ADDR p = p /\ is_u 20 (PD32_BASE_ADDR p).
Proof.
  intros (Hp & Hu & _). pose proof Hu as [H1 H2]. unfold PD32_BASE_ADDR, page_aligned in *.
  rewrite wrap_small, Z.shiftr_div_pow2 by done. change (2 ^ 12) with PAGE_SIZE.
  pose proof (Z.div_mod p PAGE_SIZE). split; [lia|].
  split; [apply Z.div_pos; lia|apply Z.div_lt_upper_bound; lia].
Qed.

(** The page the new table is in. *)
Lemma create_pt_inv T l s :
  inv nowhere T l s -> supply (pool s) <> [] ->
  exists p s', v3_create_new_shadow_pt32 s = Done (V3_VAddr p, s') /\ frame_ok p /\
    info s' = info s /\ inv nowhere ({[p]} ∪ T) l s' /\
    supply (pool s) = p :: supply (pool s') /\
    hmem s' = memset0 (hmem s) (V3_VAddr p) PAGE_SIZE /\ p ∉ {[pd_of s]} ∪ T /\
    ~ guest_page (regions_of (info s) l) p.
Proof.
  intros Hi Hs. unfold v3_create_new_shadow_pt32, V3_AllocPages.
  destruct Hi as [Hp Hm Hi]. destruct (supply (pool s)) as [|p av] eqn:E; [done|].
  destruct (iso_fresh _ _ _ _ _ _ Hi p) as (Hn & Hf & HT & Hg); [set_solver|].
  case_cmp; [done|]. eexists p, _. split_and!; [done..| |done|done|done|done].
  split; [by destruct Hp; split|done..|]. by apply iso_new_table.
Qed.

(** The tables and the pages left come from those before. *)
Definition pages_from (T : gset Z) (s : vm) (T' : gset Z) (s' : vm) : Prop :=
  forall q, q ∈ T' \/ q ∈ supply (pool s') -> q ∈ T \/ q ∈ supply (pool s).

Lemma pages_from_same T s s' : pool s' = pool s -> pages_from T s T s'.
Proof. intros Hp q. by rewrite Hp. Qed.

Lemma pages_from_new p T s s' :
  supply (pool s) = p :: supply (pool s') -> pages_from T s ({[p]} ∪ T) s'.
Proof.
  intros Hp q Hq. rewrite Hp. destruct Hq as [[->%elem_of_singleton|Hq]%elem_of_union|Hq]; [|by left|].
  - right. by left.
  - right. by right.
Qed.

Lemma new_pde_inv T l s q a :
  inv nowhere T l s -> supply (pool s) <> [] -> guest_page (regions_of (info s) l) q ->
  exists T' s', new_shadow_pde s (V3_VAddr (pd_of s)) (V3_VAddr q) (PDE32_INDEX a) = Done s' /\
    inv nowhere T' l s' /\ pages_from T s T' s' /\ same_cache s s'.
Proof.
  intros Hi Hs Hq. unfold new_shadow_pde.
  destruct (create_pt_inv T l s Hi Hs) as (p & s1 & -> & Hf & Hinfo & Hi1 & Hsup & _). run.
  assert (forall s', pool s' = pool s1 -> pages_from T s ({[p]} ∪ T) s') as Hpf
    by (intros s' Hp'; apply pages_from_new; by rewrite Hp').
  destruct (frame_base p Hf) as [Hp Hu]. rewrite os_back. set (B := PD32_BASE_ADDR p) in *.
  assert (pd_of s = pd_of s1) as -> by (unfold pd_of; by rewrite Hinfo).
  rewrite <- Hinfo in Hq.
  pose proof (pd_slot _ _ _ _ a Hi1) as Hsl. pose proof (inv_guest_pd _ _ _ _ _ Hi1 Hq) as Hne.
  set (i := PDE32_INDEX a) in *.
  assert (is_slot q i) as Hsq by (split; [apply Hq|apply Hsl]).
  assert (filling_pde ({[p]} ∪ T) l (pd_of s1) i (fun _ => True) s1) as H0
    by (split; [by apply inv_open|done]).
  assert (forall s', filling_pde ({[p]} ∪ T) l (pd_of s1) i
      (fun e => Pde32.large_page e = 0 /\ Pde32.pt_base_addr e = B) s' ->
    pd_of s' = pd_of s1 -> inv nowhere ({[p]} ∪ T) l s') as Hfin.
  { intros s' [Hi' [HL HB]] Hpd. rewrite <- Hpd in *. apply (inv_close_pde i); [done|].
    cbv zeta. intros _. rewrite HL, HB, Hp. set_solver. }
  set (s4 := upd_pde (upd_pde (upd_pde s1 _ _ _) _ _ _) _ _ _).
  assert (filling_pde ({[p]} ∪ T) l (pd_of s1) i (fun e => Pde32.large_page e = 0) s4) as H4.
  { apply filling_pde_guest_upd; [done..|].
    apply (filling_pde_shadow _ _ _ _ (fun _ => True)); [done| |keep_wf|done].
    apply (filling_pde_shadow _ _ _ _ (fun _ => True)); [done| |keep_wf|done]. done. }
  assert (filling_pde ({[p]} ∪ T) l (pd_of s1) i
    (fun e => Pde32.large_page e = 0 /\ Pde32.pt_base_addr e = B)
    (upd_pde s4 (V3_VAddr (pd_of s1)) i (fun e => e <| Pde32.pt_base_addr := B |>))) as H5.
  { by apply (filling_pde_shadow _ _ _ _ (fun e => Pde32.large_page e = 0)); [| |keep_wf|]. }
  assert (forall s', info s' = info s1 -> same_cache s s') as Hsc by (intros s' E; unfold same_cache; by rewrite E, Hinfo).
  case_match; eexists ({[p]} ∪ T), _; (split_and!; [done| |by apply Hpf|by apply Hsc]); (apply Hfin; [|done]).
  - by apply (filling_pde_shadow _ _ _ _ (fun e => Pde32.large_page e = 0 /\ Pde32.pt_base_addr e = B));
      [| |keep_wf|].
  - apply (filling_pde_shadow _ _ _ _ (fun e => Pde32.large_page e = 0 /\ Pde32.pt_base_addr e = B));
      [done| |keep_wf|done]. by apply filling_pde_guest_upd_4MB.
Qed.

(** The shadow page table an entry of the directory points to. *)
Lemma shadow_pt_table T l s a :
  inv nowhere T l s ->
  Pde32.present (get_pde32 (hmem s) (V3_VAddr (pd_of s)) (PDE32_INDEX a)) <> 0 ->
  exists p, p ∈ T /\
    ulong (PDE32_T_ADDR (get_pde32 (hmem s) (V3_VAddr (pd_of s)) (PDE32_INDEX a))) = p.
Proof.
  intros Hi Hpr. pose proof (inv_iso _ _ _ _ Hi) as Hiso.
  destruct (iso_pde _ _ _ _ _ _ Hiso (PDE32_INDEX a) (PDE32_INDEX_range a) (fun H => H) Hpr) as [_ HT].
  destruct (iso_frames _ _ _ _ _ _ Hiso (PAGE_SIZE * Pde32.pt_base_addr
    (get_pde32 (hmem s) (V3_VAddr (pd_of s)) (PDE32_INDEX a)))) as (_ & Hu & Hsx); [set_solver|].
  eexists. split; [exact HT|]. unfold PDE32_T_ADDR. rewrite Z.shiftl_mul_pow2 by done.
  rewrite Z.mul_comm. change (2 ^ 12) with PAGE_SIZE. rewrite ulong_int32 by done. exact Hsx.
Qed.

Definition guarded (l : list Z) (s : vm) : Prop := exists T, inv nowhere T l s /\ pte_cache s.

Lemma can_access_pde32_present m pd a err :
  can_access_pde32 m pd a err <> PT_ENTRY_NOT_PRESENT ->
  Pde32.present (get_pde32 m pd (PDE32_INDEX a)) <> 0.
Proof. unfold can_access_pde32. by case_cmp. Qed.

Lemma wrap_page w x : 12 <= w -> wrap w x mod PAGE_SIZE = x mod PAGE_SIZE.
Proof.
  intros Hw. apply Z.mod_mod_divide. exists (2 ^ (w - 12)). rewrite <- (Z.pow_add_r 2 _ 12) by lia.
  f_equal. lia.
Qed.

Lemma pde_addr_aligned e : page_aligned (ulong (PDE32_T_ADDR e)).
Proof.
  pose proof bits_per_long_bounds. unfold page_aligned, PDE32_T_ADDR, ulong, sint.
  rewrite wrap_page, Z.shiftl_mul_pow2 by lia.
  assert (u32 (Pde32.pt_base_addr e * 2 ^ 12) mod PAGE_SIZE = 0) as Hm
    by (rewrite wrap_page by lia; by apply Z.mod_mul).
  case_cmp; [done|]. by rewrite Zminus_mod, Hm.
Qed.

(** A 4MB page of the guest becomes dirty. *)
Lemma large_dirty_inv T l s a q (fd : Pde32_4MB.pde32_4MB -> Pde32_4MB.pde32_4MB) :
  inv nowhere T l s -> guest_page (regions_of (info s) l) q ->
  Pde32.present (get_pde32 (hmem s) (V3_VAddr (pd_of s)) (PDE32_INDEX a)) <> 0 ->
  let s1 := upd_pde_4MB s (V3_VAddr q) (PDE32_INDEX a) fd in
  inv nowhere T l (upd_pde s1 (V3_VAddr (pd_of s)) (PDE32_INDEX a) (fun e =>
    e <| Pde32.writable := Pde32.writable (get_pde32 (hmem s1) (V3_VAddr q) (PDE32_INDEX a)) |>)).
Proof.
  intros Hi Hq Hpr s1. pose proof (pd_slot _ _ _ _ a Hi) as Hsl.
  pose proof (inv_guest_pd _ _ _ _ _ Hi Hq) as Hne. set (i := PDE32_INDEX a) in *.
  assert (is_slot q i) as Hsq by (split; [apply Hq|apply Hsl]).
  set (F := fun e => Pde32.large_page e = 0 /\ PAGE_SIZE * Pde32.pt_base_addr e ∈ T).
  assert (filling_pde T l (pd_of s) i F s) as H0.
  { split; [by apply inv_open|].
    exact (iso_pde _ _ _ _ _ _ (inv_iso _ _ _ _ Hi) i (proj2 Hsl) (fun H => H) Hpr). }
  assert (filling_pde T l (pd_of s) i F s1) as H1 by by apply filling_pde_guest_upd_4MB.
  set (f := fun e => _). assert (filling_pde T l (pd_of s) i F (upd_pde s1 (V3_VAddr (pd_of s)) i f))
    as [Hi2 HF] by (apply (filling_pde_shadow _ _ _ _ F); [done|done|unfold f; keep_wf|done]).
  apply (inv_close_pde i); [exact Hi2|]. intros e _. exact HF.
Qed.

(** The handler returns, unless the host is out of pages or the cache does not exist. *)
Lemma pagefault32_inv T l s fault_addr err :
  inv nowhere T l s ->
  (exists ret T' s', handle_shadow_pagefault32 s fault_addr err = Done (ret, s') /\
    inv nowhere T' l s' /\ pages_from T s T' s' /\ same_cache s s') \/
  ((supply (pool s) = [] \/ ~ pte_cache s) /\ handle_shadow_pagefault32 s fault_addr err = Undef).
Proof.
  intros Hi. pose proof (inv_paged _ _ _ _ Hi) as Hp. unfold handle_shadow_pagefault32.
  rewrite cr3_page, cr3_va. change (4096 * (u32 (shadow_cr3 _) / 4096)) with (pd_of s).
  set (gcr3 := 4096 * _). set (i := PDE32_INDEX fault_addr).
  assert (page_aligned gcr3) as Hg3 by (unfold page_aligned, gcr3; by rewrite Z.mul_comm, Z.mod_mul).
  destruct (guest_pa_to_host_va_eq (info s) l gcr3 Hp) as (r & w & -> & Hr). run.
  destruct (gpa_hva _ gcr3) as [w'|] eqn:Hw;
    [|subst r; left; eexists _, _, _; split_and!; [done|exact Hi|by apply pages_from_same|done]].
  destruct Hr as [-> ->]. run. destruct (gpa_page _ _ _ _ Hp Hg3 Hw) as (q & -> & Hq).
  destruct (is_guest_pf _ _ =? 1).
  { left. eexists _, _, _. split_and!; [done|by apply inv_inject|by apply pages_from_same|done]. }
  destruct (can_access_pde32 (hmem s) (V3_VAddr (pd_of s)) fault_addr err) eqn:Hacc.
  - destruct (shadow_pt_table T l s fault_addr Hi) as (p & HpT & Hpe);
      [apply (can_access_pde32_present _ _ _ err); congruence|]. fold i in Hpe. rewrite Hpe.
    case_cmp; [|case_cmp].
    + set (gpt := ulong (PDE32_T_ADDR _)).
      assert (page_aligned gpt) as Hgpt by apply pde_addr_aligned.
      destruct (guest_pa_to_host_va_eq (info s) l gpt Hp) as (r & w & -> & Hr). run.
      destruct (gpa_hva _ gpt) as [w'|] eqn:Hw2.
      * destruct Hr as [-> ->]. run. destruct (gpa_page _ _ _ _ Hp Hgpt Hw2) as (q2 & -> & Hq2).
        destruct (pte32_fault_inv T l s fault_addr err p q2 Hi HpT Hq2) as [(ret & s' & -> & Hi' & Hpl & Hsc)|[Hnc ->]];
          run; [|right; by split; [right|]].
        destruct (ret =? -1); left; eexists _, _, _; (split_and!; [done|done|by apply pages_from_same|done]).
      * subst r. run. left. eexists _, _, _. split_and!; [done|by apply inv_excp|by apply pages_from_same|done].
    + destruct (large_fault_inv T l s fault_addr err p q Hi HpT Hq) as [(ret & s' & -> & Hi' & Hpl & Hsc)|[Hnc ->]];
        run; [|right; by split; [right|]].
      destruct (ret =? -1); left; eexists _, _, _; (split_and!; [done|done|by apply pages_from_same|done]).
    + left. eexists _, _, _. split_and!; [done|exact Hi|by apply pages_from_same|done].
  - destruct (decide (supply (pool s) = [])) as [Hs|Hs].
    + right. split; [by left|]. unfold new_shadow_pde, v3_create_new_shadow_pt32, V3_AllocPages.
      by rewrite Hs.
    + destruct (new_pde_inv T l s q fault_addr Hi Hs Hq) as (T' & s' & Hn & Hi' & Hpf & Hsc).
      fold i in Hn. rewrite Hn. run. left. by eexists _, _, _.
  - left. destruct (_ && _ && _); eexists _, T, _; (split; [done|]);
      (split; [|split; [by apply pages_from_same|done]]); [|by apply inv_inject].
    apply large_dirty_inv; [done..|]. apply (can_access_pde32_present _ _ _ err). congruence.
  - left. eexists _, T, _. split_and!; [done|by apply inv_inject|by apply pages_from_same|done].
Qed.

(** ** What a fault maps *)

Lemma get_upd_pte_ne s p q i f :
  is_slot p i -> is_slot q i -> p <> q ->
  get_pte32 (hmem (upd_pte s (V3_VAddr q) i f)) (V3_VAddr p) i = get_pte32 (hmem s) (V3_VAddr p) i.
Proof. intros. apply get_pte_store_ne; congruence. Qed.

Lemma is_guest_pf_ok x : is_guest_pf PT_ACCESS_OK x = 0.
Proof. unfold is_guest_pf. by rewrite decide_False by tauto. Qed.

(** Filling a page table entry of a page that the guest may access and memory backs: the
    shadow entry gets the page of the host, the user bit of the guest's entry, and its
    writable bit unless the guest's entry is clean and the access is a read. *)
Lemma pte32_fault_maps T l s a err p q pa :
  inv nowhere T l s -> pte_cache s -> p ∈ T -> guest_page (regions_of (info s) l) q -> is_u 1 (pf_write err) ->
  let i := PTE32_INDEX a in
  let g := get_pte32 (hmem s) (V3_VAddr q) i in
  can_access_pte32 (hmem s) (V3_VAddr q) a err = PT_ACCESS_OK ->
  can_access_pte32 (hmem s) (V3_VAddr p) a err = PT_ENTRY_NOT_PRESENT ->
  get_shadow_addr (mem_map (info s)) (u32 (PTE32_T_ADDR g + PT32_PAGE_OFFSET a)) = Done pa ->
  gpa_hva (regions_of (info s) l) (u32 (PTE32_T_ADDR g + PT32_PAGE_OFFSET a)) <> None ->
  exists s', handle_shadow_pte32_fault s a err (V3_VAddr p) (V3_VAddr q) = Done (0, s') /\
    let e := get_pte32 (hmem s') (V3_VAddr p) i in
    Pte32.present e = 1 /\ Pte32.page_base_addr e = PT32_BASE_ADDR pa /\
    Pte32.user_page e = Pte32.user_page g /\
    Pte32.writable e = (if (Pte32.dirty g =? 1) || (pf_write err =? 1) then Pte32.writable g else 0) /\
    pd_of s' = pd_of s /\
    (forall p' i', is_slot p' i' -> (p', i') <> (p, i) -> (p', i') <> (q, i) ->
       load32 (hmem s') (slot p' i') = load32 (hmem s) (slot p' i')).
Proof.
  intros Hi Hca Hp Hq Herr i g HaG HaS Hpa Hback. unfold handle_shadow_pte32_fault.
  rewrite HaG, HaS, is_guest_pf_ok. cbv zeta. change (0 =? 1) with false. cbv iota.
  pose proof (pte_slot T l s p a Hi Hp) as Hsp. pose proof (guest_slot _ q a Hq) as Hsq.
  pose proof (inv_guest_table _ _ _ _ _ _ Hi Hp Hq) as Hne. fold i in Hsp, Hsq |- *. fold g.
  set (ga := u32 (PTE32_T_ADDR g + PT32_PAGE_OFFSET a)) in *.
  destruct (shadow_lookup _ _ _ _ ga Hi) as [(pa' & -> & Hpa' & _ & Hu & _)|[_ Hn]]; [|done].
  rewrite Hpa' in Hpa |- *. injection Hpa as ->. run.
  set (B := PT32_BASE_ADDR pa) in *.
  destruct (find_pte_map_done s (PT32_PAGE_ADDR ga) Hca) as [found Hfound].
  match goal with |- context [find_pte_map ?s' ?k] => change (find_pte_map s' k) with (find_pte_map s k) end.
  rewrite Hfound. run.
  assert (forall s f, get_pte32 (hmem (upd_pte s (V3_VAddr p) i f)) (V3_VAddr q) i =
    get_pte32 (hmem s) (V3_VAddr q) i) as HG by (intros; apply get_upd_pte_ne; congruence).
  assert (forall s f, get_pte32 (hmem (upd_pte s (V3_VAddr q) i f)) (V3_VAddr p) i =
    get_pte32 (hmem s) (V3_VAddr p) i) as HS by (intros; apply get_upd_pte_ne; congruence).
  assert (forall s, get_pte32 (hmem (upd_pte s (V3_VAddr q) i (fun e => e <| Pte32.accessed := 1 |>)))
    (V3_VAddr q) i = (get_pte32 (hmem s) (V3_VAddr q) i) <| Pte32.accessed := 1 |>) as HA
    by (intros; rewrite get_upd_pte; [done|keep_wf]).
  assert (HaG' : can_access_pte32 (hmem s) (V3_VAddr q) a err <> PT_ENTRY_NOT_PRESENT)
    by congruence.
  apply can_access_pte32_present in HaG'. fold i g in HaG'.
  pose proof (pte_flags (hmem s) (V3_VAddr q) i) as (Hf1 & Hf2 & Hf3 & Hf4). fold g in Hf1, Hf2, Hf3, Hf4.
  assert (Pte32.present g = 1) as Hpr by (unfold is_u in Hf1; lia).
  assert (HD : forall b (u : vm) f, hmem (if b : bool then set_shdw u f else u) = hmem u) by by intros [].
  destruct (negb (found =? NULL)).
  all: repeat first [rewrite HG | rewrite HA | rewrite HS]; fold g; clearbody g.
  all: change (Pte32.dirty (g <| Pte32.accessed := 1 |>)) with (Pte32.dirty g).
  all: change (Pte32.writable (g <| Pte32.accessed := 1 |>)) with (Pte32.writable g).
  all: destruct (Z.eqb_spec (Pte32.dirty g) 1) as [Hd|Hd]; cbn [orb];
    [|rewrite (proj2 (Z.eqb_eq (Pte32.dirty g) 0)) by (unfold is_u in Hf4; lia); cbn [andb];
      destruct (Z.eqb_spec (pf_write err) 1) as [Hw|Hw];
      [|rewrite (proj2 (Z.eqb_eq (pf_write err) 0)) by (unfold is_u in Herr; lia)]].
  all: eexists; (split; [done|]); cbv zeta; rewrite ?HD, ?HS;
    repeat first [rewrite HS | rewrite get_upd_pte by keep_wf]; cbn [orb].
  all: split_and!; [done..|by try case_match|].
  all: intros p' i' Hs' Hn1 Hn2; rewrite ?HD.
  all: assert (forall u f, load32 (hmem (upd_pte u (V3_VAddr p) i f)) (slot p' i') =
    load32 (hmem u) (slot p' i')) as HO1 by (intros; by apply load_store_slot_ne).
  all: assert (forall u f, load32 (hmem (upd_pte u (V3_VAddr q) i f)) (slot p' i') =
    load32 (hmem u) (slot p' i')) as HO2 by (intros; by apply load_store_slot_ne).
  all: by repeat first [rewrite HO1 | rewrite HO2].
Qed.

Lemma get_upd_pde_ne s p q i f :
  is_slot p i -> is_slot q i -> p <> q ->
  get_pde32 (hmem (upd_pde s (V3_VAddr q) i f)) (V3_VAddr p) i = get_pde32 (hmem s) (V3_VAddr p) i.
Proof. intros. apply get_pde_store_ne; congruence. Qed.

(** A new page table for an entry of the guest that points to one: the shadow entry has the
    permissions of the guest's, and the table is empty. *)
Lemma new_pde_maps T l s q a :
  inv nowhere T l s -> supply (pool s) <> [] -> guest_page (regions_of (info s) l) q ->
  let i := PDE32_INDEX a in
  let g := get_pde32 (hmem s) (V3_VAddr q) i in
  Pde32.large_page g = 0 ->
  exists p s', new_shadow_pde s (V3_VAddr (pd_of s)) (V3_VAddr q) i = Done s' /\
    info s' = info s /\ frame_ok p /\
    let e := get_pde32 (hmem s') (V3_VAddr (pd_of s)) i in
    Pde32.present e = 1 /\ Pde32.large_page e = 0 /\ PAGE_SIZE * Pde32.pt_base_addr e = p /\
    Pde32.user_page e = Pde32.user_page g /\ Pde32.writable e = Pde32.writable g /\
    get_pde32 (hmem s') (V3_VAddr q) i = g <| Pde32.accessed := 1 |> /\
    (forall j, 0 <= j < 1024 -> load32 (hmem s') (slot p j) = 0) /\
    (forall p' i', is_slot p' i' -> p' <> p -> (p', i') <> (pd_of s, i) -> (p', i') <> (q, i) ->
       load32 (hmem s') (slot p' i') = load32 (hmem s) (slot p' i')).
Proof.
  intros Hi Hs Hq i g HL. unfold new_shadow_pde.
  destruct (create_pt_inv T l s Hi Hs) as (p & s1 & -> & Hf & Hinfo & _ & _ & Hm & Hfr & Hgp). run.
  destruct (frame_base p Hf) as [Hp Hu]. rewrite os_back. set (B := PD32_BASE_ADDR p) in *.
  pose proof (pd_slot _ _ _ _ a Hi) as Hsl. pose proof (inv_guest_pd _ _ _ _ _ Hi Hq) as Hne.
  fold i in Hsl. set (pd := pd_of s) in *.
  assert (is_slot q i) as Hsq by (split; [apply Hq|apply Hsl]).
  assert (get_pde32 (hmem s1) (V3_VAddr q) i = g) as Hg1.
  { unfold g, get_pde32. f_equal. rewrite Hm. apply load_memset_slot; [done|apply Hf|].
    intros <-. done. }
  assert (forall u f, get_pde32 (hmem (upd_pde u (V3_VAddr pd) i f)) (V3_VAddr q) i =
    get_pde32 (hmem u) (V3_VAddr q) i) as HG by (intros; apply get_upd_pde_ne; congruence).
  assert (forall u f, get_pde32 (hmem (upd_pde u (V3_VAddr q) i f)) (V3_VAddr pd) i =
    get_pde32 (hmem u) (V3_VAddr pd) i) as HS by (intros; apply get_upd_pde_ne; congruence).
  assert (forall u, get_pde32 (hmem (upd_pde u (V3_VAddr q) i (fun e => e <| Pde32.accessed := 1 |>)))
    (V3_VAddr q) i = (get_pde32 (hmem u) (V3_VAddr q) i) <| Pde32.accessed := 1 |>) as HA
    by (intros; rewrite get_upd_pde; [done|keep_wf]).
  pose proof (pde_flags (hmem s) (V3_VAddr q) i) as (Hf1 & Hf2 & Hf3 & Hf4).
  fold g in Hf1, Hf2, Hf3, Hf4.
  repeat first [rewrite HG | rewrite HA | rewrite HS]. rewrite Hg1. clearbody g.
  change (Pde32.large_page (g <| Pde32.accessed := 1 |>)) with (Pde32.large_page g).
  change (Pde32.writable (g <| Pde32.accessed := 1 |>)) with (Pde32.writable g).
  rewrite HL. run. eexists p, _. split; [done|]. split; [exact Hinfo|]. split; [done|].
  cbv zeta. repeat first [rewrite HG | rewrite HA | rewrite HS | rewrite get_upd_pde by keep_wf].
  rewrite Hg1. split_and!; [done..| |].
  - intros j Hj. repeat (etrans; [apply load_store_slot_ne;
      [split; [apply Hf|done]|done|intros [= -> ->]; set_solver]|]).
    rewrite Hm. by apply load_memset_slot_eq.
  - intros p' i' Hs' Hp' Hn1 Hn2. repeat (etrans; [by apply load_store_slot_ne|]).
    rewrite Hm. apply load_memset_slot; [done|apply Hf|done].
Qed.

(** ** Runs of a guest

    A guest with paging enabled writes its own memory and causes page faults. *)
Inductive vm_step (l : list Z) (s : vm) : vm -> Prop :=
| step_fault fault_addr err ret s' :
    mem_mode (info s) = VIRTUAL_MEM ->
    v3_handle_shadow_pagefault s fault_addr err = Done (ret, s') -> vm_step l s s'
| step_write p k b :
    guest_page (regions_of (info s) l) p -> 0 <= k < PAGE_SIZE ->
    vm_step l s (s <| hmem := store8 (hmem s) (V3_VAddr p + k) b |>).

(** The translation of the hardware while the guest runs. *)
Definition shadow_walk (s : vm) (va : Z) : option Z := hw_walk (hmem s) (pd_of s) va.

(** Writes to a page of the guest. *)
Lemma iso_guest_bytes X v pd T av m m' p :
  isolated_but X v pd T av m -> guest_page v p ->
  (forall y, ~ V3_VAddr p <= y < V3_VAddr p + PAGE_SIZE -> m' y = m y) ->
  isolated_but X v pd T av m'.
Proof.
  intros [Hf Hpd Hg Hpde Hpte Ha Hfr] Hp Hm.
  assert (forall q i, q ∈ {[pd]} ∪ T -> 0 <= i < 1024 -> load32 m' (slot q i) = load32 m (slot q i)) as Hl.
  { intros q i Hq Hi. apply loadn_ext. intros j Hj. unfold slot.
    assert (p <> q) as Hne by (intros ->; by apply (Hg q)).
    destruct (Hf q Hq) as [Hqa _]. destruct Hp as [Hpa _].
    pose proof (pages_apart p q Hpa Hqa Hne). apply Hm. lia. }
  split; try done.
  - intros i Hi HX. rewrite Hl by set_solver. by apply Hpde.
  - intros q i Hq Hi HX. rewrite Hl by set_solver. by apply Hpte.
Qed.

Lemma iso_guest_byte X v pd T av m p k b :
  isolated_but X v pd T av m -> guest_page v p -> 0 <= k < PAGE_SIZE ->
  isolated_but X v pd T av (store8 m (V3_VAddr p + k) b).
Proof.
  intros Hi Hp Hk. eapply iso_guest_bytes; [exact Hi|exact Hp|]. intros y Hy. unfold store8. case_cmp; [lia|done].
Qed.

Lemma vm_step_guarded l s s' : vm_step l s s' -> guarded l s -> guarded l s'.
Proof.
  intros Hst (T & Hi & Hca). destruct Hst as [a err ret s' Hm Hf|p k b Hp Hk].
  - unfold v3_handle_shadow_pagefault in Hf. rewrite Hm in Hf.
    destruct (cpu_mode (info s)); try (injection Hf as <- <-; by exists T).
    destruct (pagefault32_inv T l s a err Hi) as [(r & T' & s1 & Hd & Hi' & _ & Hsc)|[_ Hu]].
    + rewrite Hd in Hf. injection Hf as <- <-. exists T'. split; [done|by eapply same_cache_some].
    + by rewrite Hu in Hf.
  - exists T. split; [|exact Hca]. apply (inv_same _ _ _ s); [done..|]. by apply iso_guest_byte; [apply Hi|..].
Qed.

Lemma odd_present w : Z.odd w = true -> field w 0 1 <> 0.
Proof.
  intros Ho. rewrite odd_testbit in Ho. apply Z.eqb_neq. by rewrite field_bit, Ho.
Qed.

Lemma isolated_walk v pd T av m va pa :
  isolated_but nowhere v pd T av m -> is_u 32 va -> hw_walk m pd va = Some pa ->
  guest_page v (PAGE_SIZE * (pa / PAGE_SIZE)).
Proof.
  intros Hiso Hva. unfold hw_walk, is_u in *.
  assert (0 <= va / 2 ^ 22 < 1024) as Hi1.
  { split; [apply Z.div_pos; lia|apply Z.div_lt_upper_bound; lia]. }
  assert (0 <= va / 2 ^ 12 mod 2 ^ 10 < 1024) as Hi2 by by apply Z.mod_pos_bound.
  pose proof (iso_pde _ _ _ _ _ _ Hiso _ Hi1 (fun H => H)) as Hpde.
  set (w := load32 m (slot pd (va / 2 ^ 22))) in *.
  assert (is_u 32 w) as Hw by apply loadn_range.
  destruct (Z.odd w) eqn:Ho; [|done]. destruct (Hpde (odd_present w Ho)) as [HL HT].
  change (Pde32.large_page (decode w)) with (field w 7 1) in HL.
  change (Pde32.pt_base_addr (decode w)) with (field w 12 20) in HT. rewrite field_base in HT by done.
  assert (Z.testbit w 7 = false) as ->.
  { apply negb_true_iff. rewrite <- field_bit by done. by apply Z.eqb_eq. }
  pose proof (iso_pte _ _ _ _ _ _ Hiso _ _ HT Hi2 (fun H => H)) as Hpte.
  set (w' := load32 m (slot (2 ^ 12 * (w / 2 ^ 12)) (va / 2 ^ 12 mod 2 ^ 10))) in *. assert (is_u 32 w') as Hw' by apply loadn_range.
  destruct (Z.odd w') eqn:Ho'; [|done]. intros [= <-].
  specialize (Hpte (odd_present w' Ho')).
  change (Pte32.page_base_addr (decode w')) with (field w' 12 20) in Hpte.
  rewrite field_base in Hpte by done. change (2 ^ 12) with PAGE_SIZE in *.
  replace ((PAGE_SIZE * (w' / PAGE_SIZE) + va mod PAGE_SIZE) / PAGE_SIZE) with (w' / PAGE_SIZE); [done|].
  apply (Z.div_unique _ _ _ (va mod PAGE_SIZE)); [|done]. left. by apply Z.mod_pos_bound.
Qed.

(** ** Faults establish the translation of the guest *)

(** Access to an entry depends on these members. *)
Lemma can_access_pde32_ok m pd m' pd' a err :
  let e := get_pde32 m pd (PDE32_INDEX a) in let e' := get_pde32 m' pd' (PDE32_INDEX a) in
  Pde32.present e <> 0 -> Pde32.writable e = Pde32.writable e' ->
  Pde32.user_page e = Pde32.user_page e' -> can_access_pde32 m' pd' a err = PT_ACCESS_OK ->
  can_access_pde32 m pd a err = PT_ACCESS_OK.
Proof.
  cbv zeta. unfold can_access_pde32. intros Hp Hw Hu. rewrite Hw, Hu, (proj2 (Z.eqb_neq _ _) Hp).
  by destruct (_ =? 0).
Qed.

Lemma can_access_pte32_ok m pt m' pt' a err :
  let e := get_pte32 m pt (PTE32_INDEX a) in let e' := get_pte32 m' pt' (PTE32_INDEX a) in
  Pte32.present e <> 0 ->
  (pf_write err = 1 -> Pte32.writable e = Pte32.writable e') ->
  Pte32.user_page e = Pte32.user_page e' -> can_access_pte32 m' pt' a err = PT_ACCESS_OK ->
  can_access_pte32 m pt a err = PT_ACCESS_OK.
Proof.
  cbv zeta. unfold can_access_pte32. intros Hp Hw Hu. rewrite Hu, (proj2 (Z.eqb_neq _ _) Hp).
  destruct (Z.eqb_spec (pf_write err) 1) as [H1|H1].
  - rewrite (Hw H1). by destruct (_ =? 0).
  - rewrite !andb_false_r. by destruct (_ =? 0).
Qed.

(** A page directory entry read as a page table entry. *)
Definition pte_of_pde (e : Pde32.pde32) : Pte32.pte32 :=
  Pte32.mk (Pde32.present e) (Pde32.writable e) (Pde32.user_page e) (Pde32.write_through e)
    (Pde32.cache_disable e) (Pde32.accessed e) (Pde32.reserved e) (Pde32.large_page e)
    (Pde32.global_page e) (Pde32.vmm_info e) (Pde32.pt_base_addr e).

Lemma get_pte32_pde m pt i : get_pte32 m pt i = pte_of_pde (get_pde32 m pt i).
Proof. done. Qed.

(** The page tables of the guest map [a] with a 4KB page to [ga] and allow the access. *)
Definition guest_allows (l : list Z) (s : vm) (a : Z) (err : pf_error) (ga : Z) : Prop :=
  exists gpd gpt,
    let v := regions_of (info s) l in
    let pde := get_pde32 (hmem s) gpd (PDE32_INDEX a) in
    gpa_hva v (guest_pd (info s)) = Some gpd /\ Pde32.large_page pde = 0 /\
    can_access_pde32 (hmem s) gpd a err = PT_ACCESS_OK /\
    gpa_hva v (ulong (PDE32_T_ADDR pde)) = Some gpt /\
    can_access_pte32 (hmem s) gpt a err = PT_ACCESS_OK /\
    ga = u32 (PTE32_T_ADDR (get_pte32 (hmem s) gpt (PTE32_INDEX a)) + PT32_PAGE_OFFSET a).

(** The shadow page table of an address. *)
Definition shadow_pt_of (s : vm) (a : Z) : Z :=
  V3_VAddr (ulong (PDE32_T_ADDR (get_pde32 (hmem s) (V3_VAddr (pd_of s)) (PDE32_INDEX a)))).

(** The handler with its tables looked up. *)
Lemma pagefault32_tables T l s a err q :
  inv nowhere T l s -> shdw_pg_mode (info s) = SHADOW_PAGING ->
  gpa_hva (regions_of (info s) l) (guest_pd (info s)) = Some (V3_VAddr q) ->
  can_access_pde32 (hmem s) (V3_VAddr q) a err = PT_ACCESS_OK ->
  handle_shadow_pagefault32 s a err =
  match can_access_pde32 (hmem s) (V3_VAddr (pd_of s)) a err with
  | PT_ENTRY_NOT_PRESENT =>
      s ← new_shadow_pde s (V3_VAddr (pd_of s)) (V3_VAddr q) (PDE32_INDEX a); Done (0, s)
  | PT_ACCESS_OK =>
      let guest_pde := get_pde32 (hmem s) (V3_VAddr q) (PDE32_INDEX a) in
      if Pde32.large_page guest_pde =? 0 then
        '(r, guest_pt) ← guest_pa_to_host_va (info s) (ulong (PDE32_T_ADDR guest_pde));
        if r =? -1 then Done (0, raise_mc s) else
        '(r, s) ← handle_shadow_pte32_fault s a err (shadow_pt_of s a) guest_pt;
        if r =? -1 then Done (-1, s) else Done (0, s)
      else handle_shadow_pagefault32 s a err
  | _ => handle_shadow_pagefault32 s a err
  end.
Proof.
  intros Hi Hm Hq Hacc. unfold handle_shadow_pagefault32. rewrite cr3_page, cr3_va.
  assert (4096 * (u32 (guest_cr3 (shdw_pg_state (info s))) / 4096) = guest_pd (info s)) as ->
    by (unfold guest_pd; by rewrite Hm).
  destruct (guest_pa_to_host_va_eq (info s) l (guest_pd (info s)) (inv_paged _ _ _ _ Hi))
    as (r & w & -> & Hr). rewrite Hq in Hr. destruct Hr as [-> ->]. run.
  rewrite Hacc, is_guest_pf_ok. change (0 =? 1) with false. cbv iota.
  change (4096 * (u32 (shadow_cr3 _) / 4096)) with (pd_of s).
  destruct (can_access_pde32 _ (V3_VAddr (pd_of s)) a err); try done.
  cbv zeta. by destruct (Pde32.large_page _ =? 0).
Qed.

Lemma frame_addr e :
  frame_ok (PAGE_SIZE * Pde32.pt_base_addr e) ->
  ulong (PDE32_T_ADDR e) = PAGE_SIZE * Pde32.pt_base_addr e.
Proof.
  intros (_ & Hu & Hsx). unfold PDE32_T_ADDR. rewrite Z.shiftl_mul_pow2, Z.mul_comm by done.
  change (2 ^ 12) with PAGE_SIZE. by rewrite ulong_int32.
Qed.

(** The guest's page table entry after the accessed bit of its directory entry is set, which
    may be the same entry. *)
Lemma guest_pte_kept s s1 q i q2 j :
  let g := get_pde32 (hmem s) (V3_VAddr q) i in
  get_pde32 (hmem s1) (V3_VAddr q) i = g <| Pde32.accessed := 1 |> ->
  ((q2, j) <> (q, i) -> load32 (hmem s1) (slot q2 j) = load32 (hmem s) (slot q2 j)) ->
  let e := get_pte32 (hmem s) (V3_VAddr q2) j in
  let e1 := get_pte32 (hmem s1) (V3_VAddr q2) j in
  Pte32.present e1 = Pte32.present e /\ Pte32.writable e1 = Pte32.writable e /\
  Pte32.user_page e1 = Pte32.user_page e /\ Pte32.page_base_addr e1 = Pte32.page_base_addr e.
Proof.
  intros g Hg Hoth. destruct (decide ((q2, j) = (q, i))) as [[= -> ->]|Hne].
  - rewrite !get_pte32_pde, Hg. done.
  - assert (get_pte32 (hmem s1) (V3_VAddr q2) j = get_pte32 (hmem s) (V3_VAddr q2) j) as ->; [|done].
    unfold get_pte32. f_equal. by apply Hoth.
Qed.

Lemma first_fault l s a err ga :
  guarded l s -> shdw_pg_mode (info s) = SHADOW_PAGING -> supply (pool s) <> [] ->
  guest_allows l s a err ga ->
  can_access_pde32 (hmem s) (V3_VAddr (pd_of s)) a err = PT_ENTRY_NOT_PRESENT ->
  exists s1, handle_shadow_pagefault32 s a err = Done (0, s1) /\ info s1 = info s /\
    guarded l s1 /\ guest_allows l s1 a err ga /\
    can_access_pde32 (hmem s1) (V3_VAddr (pd_of s1)) a err = PT_ACCESS_OK /\
    can_access_pte32 (hmem s1) (shadow_pt_of s1 a) a err = PT_ENTRY_NOT_PRESENT.
Proof.
  intros (T & Hi & Hca) Hm Hs (gpd & gpt & Hgpd & HL & Hacc1 & Hgpt & Hacc2 & ->) HaS.
  pose proof (inv_paged _ _ _ _ Hi) as Hpg.
  assert (page_aligned (guest_pd (info s))) as Hal
    by (unfold page_aligned, guest_pd; by rewrite Z.mul_comm, Z.mod_mul).
  destruct (gpa_page _ _ _ _ Hpg Hal Hgpd) as (q & -> & Hq).
  destruct (gpa_page _ _ _ _ Hpg (pde_addr_aligned _) Hgpt) as (q2 & -> & Hq2).
  rewrite (pagefault32_tables T l s a err q Hi Hm Hgpd Hacc1), HaS.
  destruct (new_pde_inv T l s q a Hi Hs Hq) as (T1 & s1 & Hn & Hi1 & _).
  destruct (new_pde_maps T l s q a Hi Hs Hq HL)
    as (p & s1' & Hn' & Hinfo & Hfr & Hpr & HL1 & Hb & Hus & Hwr & Hg1 & Hz & Hoth).
  rewrite Hn in Hn'. injection Hn' as <-. rewrite Hn. run.
  exists s1. assert (pd_of s1 = pd_of s) as Hpd by (unfold pd_of; by rewrite Hinfo).
  unfold guest_allows, shadow_pt_of. rewrite Hpd, Hinfo.
  set (i := PDE32_INDEX a) in *. set (j := PTE32_INDEX a) in *.
  set (g := get_pde32 (hmem s) (V3_VAddr q) i) in *.
  set (e := get_pde32 (hmem s1) (V3_VAddr (pd_of s)) i) in *.
  rewrite frame_addr by (by rewrite Hb). rewrite Hb.
  assert (p ∈ T1) as HpT.
  { destruct (iso_pde _ _ _ _ _ _ (inv_iso _ _ _ _ Hi1) i (PDE32_INDEX_range a) (fun H => H)) as [_ HT].
    - rewrite Hpd. change (Pde32.present e <> 0). by rewrite Hpr.
    - rewrite Hpd in HT. change (PAGE_SIZE * Pde32.pt_base_addr e ∈ T1) in HT. by rewrite Hb in HT. }
  assert (q2 <> p) as Hne by (intros ->; eapply inv_guest_table; [exact Hi1|exact HpT|by rewrite Hinfo|done]).
  pose proof (inv_guest_pd _ _ _ _ _ Hi Hq2) as Hne2.
  assert (is_slot q2 j) as Hsq2 by (split; [apply Hq2|apply PTE32_INDEX_range]).
  destruct (guest_pte_kept s s1 q i q2 j Hg1) as (Hp1 & Hp2 & Hp3 & Hp4).
  { intros Hn2. apply Hoth; [done|done|congruence|done]. }
  split_and!; [done|done|exists T1; split; [done|unfold pte_cache; by rewrite Hinfo]| | |].
  - exists (V3_VAddr q), (V3_VAddr q2). cbv zeta. rewrite Hg1. split_and!; [done|exact HL| |exact Hgpt| |].
    + apply (can_access_pde32_ok _ _ (hmem s) (V3_VAddr q)); [fold i; rewrite Hg1..|done]; try done.
      apply (can_access_pde32_present _ _ _ err). congruence.
    + apply (can_access_pte32_ok _ _ (hmem s) (V3_VAddr q2)); [fold j..|done]; try done.
      rewrite Hp1. apply (can_access_pte32_present _ _ _ err). congruence.
    + unfold PTE32_T_ADDR. by rewrite Hp4.
  - apply (can_access_pde32_ok _ _ (hmem s) (V3_VAddr q)); [fold i; fold e..|done]; try done.
    by rewrite Hpr.
  - unfold can_access_pte32. fold j. unfold get_pte32.
    change (V3_VAddr p + 4 * j) with (slot p j). rewrite Hz by apply PTE32_INDEX_range. done.
Qed.

Lemma guest_pa_offset e a :
  is_u 32 a -> u32 (PTE32_T_ADDR e + PT32_PAGE_OFFSET a) mod PAGE_SIZE = a mod PAGE_SIZE.
Proof.
  intros Ha. rewrite wrap_page, PT32_PAGE_OFFSET_eq by done. change (2 ^ 12) with PAGE_SIZE.
  assert (PTE32_T_ADDR e mod PAGE_SIZE = 0) as Hz.
  { unfold PTE32_T_ADDR, sint. rewrite Z.shiftl_mul_pow2 by done.
    assert (u32 (Pte32.page_base_addr e * 2 ^ 12) mod PAGE_SIZE = 0) as Hm
      by (rewrite wrap_page by lia; by apply Z.mod_mul).
    case_cmp; [done|]. by rewrite Zminus_mod, Hm. }
  by rewrite Zplus_mod, Hz, Z.add_0_l, !Zmod_mod.
Qed.

Lemma second_fault l s a err ga :
  guarded l s -> shdw_pg_mode (info s) = SHADOW_PAGING -> is_u 32 a -> is_u 1 (pf_write err) ->
  guest_allows l s a err ga -> is_Some (gpa_hva (regions_of (info s) l) ga) ->
  can_access_pde32 (hmem s) (V3_VAddr (pd_of s)) a err = PT_ACCESS_OK ->
  can_access_pte32 (hmem s) (shadow_pt_of s a) a err = PT_ENTRY_NOT_PRESENT ->
  exists s2 pa, handle_shadow_pagefault32 s a err = Done (0, s2) /\
    gpa_hva (regions_of (info s) l) ga = Some (V3_VAddr pa) /\ shadow_walk s2 a = Some pa /\
    can_access_pde32 (hmem s2) (V3_VAddr (pd_of s2)) a err = PT_ACCESS_OK /\
    can_access_pte32 (hmem s2) (shadow_pt_of s2 a) a err = PT_ACCESS_OK.
Proof.
  intros (T & Hi & Hca) Hm Ha Herr (gpd & gpt & Hgpd & HL & Hacc1 & Hgpt & Hacc2 & Hga) Hback HaD HaS.
  pose proof (inv_paged _ _ _ _ Hi) as Hpg.
  assert (page_aligned (guest_pd (info s))) as Hal
    by (unfold page_aligned, guest_pd; by rewrite Z.mul_comm, Z.mod_mul).
  destruct (gpa_page _ _ _ _ Hpg Hal Hgpd) as (q & -> & _).
  destruct (gpa_page _ _ _ _ Hpg (pde_addr_aligned _) Hgpt) as (q2 & -> & Hq2).
  rewrite (pagefault32_tables T l s a err q Hi Hm Hgpd Hacc1), HaD. cbv zeta. rewrite HL. run.
  set (gpta := ulong (PDE32_T_ADDR _)) in *.
  destruct (guest_pa_to_host_va_eq (info s) l gpta Hpg) as (r & w & -> & Hr).
  rewrite Hgpt in Hr. destruct Hr as [-> ->]. run.
  assert (Pde32.present (get_pde32 (hmem s) (V3_VAddr (pd_of s)) (PDE32_INDEX a)) <> 0) as Hpr
    by (apply (can_access_pde32_present _ _ _ err); congruence).
  destruct (shadow_pt_table T l s a Hi Hpr) as (p & HpT & Hp).
  assert (shadow_pt_of s a = V3_VAddr p) as Hspt by (unfold shadow_pt_of; by rewrite Hp).
  rewrite Hspt in HaS |- *.
  destruct (shadow_lookup _ _ _ _ ga Hi) as [(pa & _ & Hpa & _ & _ & Hhva & Hu & Hoff)|[_ Hn]];
    [|by rewrite Hn in Hback; destruct Hback].
  rewrite Hga in Hpa, Hback.
  destruct (pte32_fault_maps T l s a err p q2 pa Hi Hca HpT Hq2 Herr Hacc2 HaS Hpa)
    as (s2 & Hd & Hp1 & HB & Hus & Hwr & Hpd & Hoth); [by intros Hn; rewrite Hn in Hback; destruct Hback|].
  rewrite Hd. run. exists s2, pa. split; [done|]. split; [done|].
  set (i := PDE32_INDEX a) in *. set (j := PTE32_INDEX a) in *.
  set (D := get_pde32 (hmem s) (V3_VAddr (pd_of s)) i) in *.
  assert (get_pde32 (hmem s2) (V3_VAddr (pd_of s2)) i = D) as HD.
  { rewrite Hpd. unfold D, get_pde32. f_equal. apply Hoth; [by eapply pd_slot| |].
    - intros [= Heq _]. apply (iso_pd _ _ _ _ _ _ (inv_iso _ _ _ _ Hi)). by rewrite Heq.
    - intros [= Heq _]. by apply (inv_guest_pd _ _ _ _ _ Hi Hq2). }
  assert (shadow_pt_of s2 a = V3_VAddr p) as -> by (unfold shadow_pt_of; fold i; by rewrite HD, Hp).
  destruct (iso_pde _ _ _ _ _ _ (inv_iso _ _ _ _ Hi) i (PDE32_INDEX_range a) (fun H => H) Hpr) as [HL1 HT].
  assert (PAGE_SIZE * Pde32.pt_base_addr D = p) as Hb.
  { rewrite <- frame_addr; [done|]. apply (iso_frames _ _ _ _ _ _ (inv_iso _ _ _ _ Hi)). set_solver. }
  split_and!.
  - unfold shadow_walk. rewrite (hw_walk_entries (hmem s2) (pd_of s2) a p (PT32_BASE_ADDR pa));
      [|done|fold i; rewrite HD; fold D..|done].
    + fold j. rewrite Hp1. run. f_equal. rewrite PT32_BASE_ADDR_eq by done. change (2 ^ 12) with PAGE_SIZE.
      rewrite <- (guest_pa_offset (get_pte32 (hmem s) (V3_VAddr q2) j) a) by done.
      fold j in Hga. rewrite <- Hga, <- Hoff. symmetry. by apply Z.div_mod.
    + pose proof (pde_flags (hmem s) (V3_VAddr (pd_of s)) i) as [Hf _]. unfold is_u in Hf. fold D in Hf. lia.
    + exact HL1.
    + exact Hb.
  - rewrite <- HaD. unfold can_access_pde32. fold i. rewrite HD. done.
  - apply (can_access_pte32_ok _ _ (hmem s) (V3_VAddr q2)); [fold j..|done].
    + by rewrite Hp1.
    + intros Hw. rewrite Hwr, Hw, orb_true_r. done.
    + done.
Qed.

(** C4. Two page faults give the guest its page.  When the guest's page tables map an
    address with a 4KB page to memory the guest has and allow the access, and the shadow
    directory has no entry for it, the first fault returns 0 with a page table and the second
    with a translation: the hardware then translates the address to the host address of the
    guest physical address the guest's tables give, and the access is allowed. *)
Theorem shadow_fault_resolves l s a err ga :
  guarded l s -> shdw_pg_mode (info s) = SHADOW_PAGING -> mem_mode (info s) = VIRTUAL_MEM ->
  cpu_mode (info s) = PROTECTED -> is_u 32 a -> is_u 1 (pf_write err) ->
  supply (pool s) <> [] -> guest_allows l s a err ga ->
  is_Some (gpa_hva (regions_of (info s) l) ga) ->
  can_access_pde32 (hmem s) (V3_VAddr (pd_of s)) a err = PT_ENTRY_NOT_PRESENT ->
  exists s1 s2 pa,
    v3_handle_shadow_pagefault s a err = Done (0, s1) /\
    v3_handle_shadow_pagefault s1 a err = Done (0, s2) /\
    gpa_hva (regions_of (info s) l) ga = Some (V3_VAddr pa) /\ shadow_walk s2 a = Some pa /\
    can_access_pde32 (hmem s2) (V3_VAddr (pd_of s2)) a err = PT_ACCESS_OK /\
    can_access_pte32 (hmem s2) (shadow_pt_of s2 a) a err = PT_ACCESS_OK.
Proof.
  intros Hg Hm Hmem Hcpu Ha Herr Hs Hal Hback HaS. unfold v3_handle_shadow_pagefault.
  destruct (first_fault l s a err ga Hg Hm Hs Hal HaS) as (s1 & H1 & Hinfo & Hg1 & Hal1 & HaD1 & HaS1).
  destruct (second_fault l s1 a err ga) as (s2 & pa & H2 & Hrest); try done; rewrite ?Hinfo; try done.
  exists s1, s2, pa. rewrite Hmem, Hcpu, Hinfo, Hmem, Hcpu. rewrite Hinfo in Hrest. done.
Qed.

End shadow_paging.

(** ** Witnesses

    The guest of GuestMem.v with a page directory in its page 0 and a page table in its
    page 1 that maps virtual page 1 to its page 3, on empty shadow tables. *)

Definition demo_decoder : Xed.xed_state :=
  Xed.mk_xed_state Xed.XED_MACHINE_MODE_INVALID Xed.XED_ADDRESS_WIDTH_INVALID
    Xed.XED_ADDRESS_WIDTH_INVALID.

Definition demo_vm : vm :=
  mk_vm (demo_guest <| shdw_pg_state := mk_shadow_page_state 0 0x80000001 0x70000 None
                         (Some Hashtable.sample) 0 |>)
    (store32 (store32 (fun _ => 0) 0x1050000 0x1007) 0x1051004 0x3007)
    (mk_page_pool [0x71000] []) demo_decoder demo_vmcb.

Lemma demo_guest_pages p :
  guest_page (regions_of (info demo_vm) [1; 2]) p -> p < 0x52000 /\ page_aligned p.
Proof.
  intros [Hp (r & a & Hr & _ & Ha & ->)]. split; [|done].
  pose proof (Z.mul_div_le (host_addr r + (a - guest_start r)) PAGE_SIZE ltac:(done)).
  change (r ∈ [mk_shadow_region GUEST_REGION_PHYSICAL_MEMORY 0 0x2000 HOST_REGION_PHYSICAL_MEMORY
      0x50000 0 0; mk_shadow_region GUEST_REGION_PHYSICAL_MEMORY 0x2000 0x4000
      HOST_REGION_PHYSICAL_MEMORY 0x20000 0 0]) in Hr.
  unfold inside in Ha. apply elem_of_cons in Hr as [->| ->%list_elem_of_singleton]; cbn in *; lia.
Qed.

Lemma demo_guarded : guarded (A := V3_32BIT) (Hos := demo_host) [1; 2] demo_vm.
Proof.
  exists ∅. split; [|by eexists]. split.
  - destruct demo_paged as [H1 H2 H3 H4]. by split.
  - intros r Hr.
    change (r ∈ [mk_shadow_region GUEST_REGION_PHYSICAL_MEMORY 0 0x2000 HOST_REGION_PHYSICAL_MEMORY
      0x50000 0 0; mk_shadow_region GUEST_REGION_PHYSICAL_MEMORY 0x2000 0x4000
      HOST_REGION_PHYSICAL_MEMORY 0x20000 0 0]) in Hr.
    by apply elem_of_cons in Hr as [->| ->%list_elem_of_singleton].
  - change (pd_of demo_vm) with 0x70000. split.
    + intros p Hp. assert (p = 0x70000) as -> by set_solver. by split_and!.
    + set_solver.
    + intros p Hp%demo_guest_pages. set_solver by lia.
    + intros i Hi _. cbn [hmem demo_vm]. unfold slot, V3_VAddr. cbn [paddr_to_vaddr direct_map].
      rewrite !loadn_storen_ne by lia. by intros [].
    + set_solver.
    + apply NoDup_singleton.
    + intros p ->%list_elem_of_singleton. split_and!; [done|by split_and!|set_solver|].
      intros Hp%demo_guest_pages. lia.
Qed.

Definition demo_emulate : MemEmulator :=
  {| v3_emulate_memory_read s _ _ _ _ := Done (0, s); v3_emulate_memory_write s _ _ _ _ := Done (0, s) |}.

Definition demo_fault : pf_error := mk_pf_error 0 1 1 0 0 0.

Lemma shadow_fault_resolves_witness : exists s1 s2,
  v3_handle_shadow_pagefault (A := V3_32BIT) (Hos := demo_host) (Hem := demo_emulate)
    demo_vm 0x1010 demo_fault = Done (0, s1) /\
  v3_handle_shadow_pagefault (A := V3_32BIT) (Hos := demo_host) (Hem := demo_emulate)
    s1 0x1010 demo_fault = Done (0, s2) /\
  shadow_walk (Hos := demo_host) s2 0x1010 = Some 0x21010.
Proof.
  destruct (shadow_fault_resolves (A := V3_32BIT) (Hos := demo_host) (Hem := demo_emulate)
    (Hok := direct_map_ok _) [1; 2] demo_vm 0x1010 demo_fault 0x3010)
    as (s1 & s2 & pa & H1 & H2 & Hpa & Hw & _).
  - apply demo_guarded.
  - done.
  - done.
  - done.
  - done.
  - done.
  - done.
  - exists 0x1050000, 0x1051000. by vm_compute.
  - by eexists.
  - by vm_compute.
  - exists s1, s2. split_and!; [done..|]. rewrite Hw. f_equal.
    change (Some (0x21010 + 0x1000000) = Some (pa + 0x1000000)) in Hpa. injection Hpa as ?. lia.
Defined.

End ShadowPaging.
