(* ===== verification/Passthrough.v ===== *)
(** The page tables that map guest physical memory: create_passthrough_pts_32 of
    vmm_paging.c.

    They are what the processor walks while the guest has paging disabled.
    [Module Passthrough] translates the two nested loops; the theorem shows that the tables
    are the shadow map: the walk of an address gives the host address of the memory that
    backs it, and nothing for addresses that no memory backs. *)
From stdpp Require Import base tactics numbers list gmap.
From S2P Require Import Prelude Chain Host MemMap Paging Intr Hashtable GuestInfo GuestMem.

Module Passthrough.
Import ShadowMap Paging GuestInfo GuestMem.

Section passthrough.
Context {A : Arch} {Hos : OsHooks}.

Definition zero_pte : Pte32.pte32 := Pte32.mk 0 0 0 0 0 0 0 0 0 0 0.
Definition zero_pde : Pde32.pde32 := Pde32.mk 0 0 0 0 0 0 0 0 0 0 0.

(** The condition under which an address is left unmapped. *)
Definition unmapped_type (t : host_region_type) : bool :=
  match t with
  | HOST_REGION_HOOK | HOST_REGION_UNALLOCATED | HOST_REGION_MEMORY_MAPPED_DEVICE
  | HOST_REGION_REMOTE | HOST_REGION_SWAPPED => true
  | _ => false
  end.

(** [!region || region->host_type == ...] *)
Definition is_gap (info : guest_info) (addr : Z) : outcome bool :=
  region ← get_shadow_region_by_addr (mem_map info) addr;
  if region =? NULL then Done true
  else r ← deref (regions (mem_map info)) region; Done (unmapped_type (host_type r)).

(** The inner loop from entry [j], [n] entries before the end.  The memory, and [None] when
    the function returns NULL. *)
Fixpoint fill_ptes (n : nat) (info : guest_info) (m : mem) (pte j current_page_addr : Z)
    (pte_present : bool) : outcome (mem * option (Z * bool)) :=
  match n with
  | O => Done (m, Some (current_page_addr, pte_present))
  | S n =>
      gap ← is_gap info current_page_addr;
      if gap : bool then
        fill_ptes n info (set_pte32 m pte j zero_pte) pte (j + 1)
          (ulong (current_page_addr + PAGE_SIZE)) pte_present
      else
        let e := Pte32.mk 1 1 1 0 0 0 0 0 0 0 (Pte32.page_base_addr (get_pte32 m pte j)) in
        let m := set_pte32 m pte j e in
        '(r, host_addr) ← guest_pa_to_host_pa info current_page_addr 0;
        if r =? -1 then Done (m, None) else
        let m := set_pte32 m pte j ((get_pte32 m pte j)
                   <| Pte32.page_base_addr := Z.shiftr host_addr 12 |>) in
        fill_ptes n info m pte (j + 1) (ulong (current_page_addr + PAGE_SIZE)) true
  end.

(** The outer loop from entry [i]; the result is false when the function returns NULL. *)
Fixpoint fill_pdes (n : nat) (info : guest_info) (m : mem) (pool : page_pool)
    (pde i current_page_addr : Z) : outcome (mem * page_pool * bool) :=
  match n with
  | O => Done (m, pool, true)
  | S n =>
      let '(page, pool) := V3_AllocPages pool in
      if page =? NULL then Undef else
      let pte := V3_VAddr page in
      '(m, r) ← fill_ptes (Z.to_nat MAX_PTE32_ENTRIES) info m pte 0 current_page_addr false;
      match r with
      | None => Done (m, pool, false)
      | Some (current_page_addr, pte_present) =>
          if negb pte_present then
            let pool := V3_FreePage pool (V3_PAddr pte) in
            fill_pdes n info (set_pde32 m pde i zero_pde) pool pde (i + 1) current_page_addr
          else
            let e := Pde32.mk 1 1 1 0 0 0 0 0 0 0 (PAGE_ALIGNED_ADDR (V3_PAddr pte)) in
            fill_pdes n info (set_pde32 m pde i e) pool pde (i + 1) current_page_addr
      end
  end.

(** The page directory, or NULL; a failed allocation is not checked. *)
Definition create_passthrough_pts_32 (info : guest_info) (m : mem) (pool : page_pool)
    : outcome (Z * mem * page_pool) :=
  let '(page, pool) := V3_AllocPages pool in
  if page =? NULL then Undef else
  let pde := V3_VAddr page in
  '(m, pool, ok) ← fill_pdes (Z.to_nat MAX_PDE32_ENTRIES) info m pool pde 0 0;
  Done (if ok : bool then pde else NULL, m, pool).

(** ** What the tables hold *)

(** The host physical address of a guest physical address that memory backs. *)
Definition gpa_hpa (v : list shadow_region) (a : Z) : option Z :=
  r ← lookup_list v a;
  match host_type r with
  | HOST_REGION_PHYSICAL_MEMORY => Some (host_addr r + (a - guest_start r))
  | _ => None
  end.

Definition pte_for (o : option Z) : Pte32.pte32 :=
  match o with
  | None => zero_pte
  | Some pa => Pte32.mk 1 1 1 0 0 0 0 0 0 0 (pa / PAGE_SIZE)
  end.

(** A guest whose map has whole pages below 4GB and no region of invalid type. *)
Record mappable (info : guest_info) (l : list Z) : Prop := {
  mp_paged : paged info l;
  mp_typed r : r ∈ regions_of info l -> host_type r <> HOST_REGION_INVALID;
  mp_low r : r ∈ regions_of info l -> host_type r = HOST_REGION_PHYSICAL_MEMORY ->
    host_addr r + (guest_end r - guest_start r) <= 2 ^ 32;
}.

Lemma gpa_hpa_hva v a : gpa_hva v a = V3_VAddr <$> gpa_hpa v a.
Proof.
  unfold gpa_hva, gpa_hpa. destruct (lookup_list v a) as [r|]; [|done]. cbn.
  by destruct (host_type r).
Qed.

Lemma gpa_hpa_small info l a pa :
  mappable info l -> gpa_hpa (regions_of info l) a = Some pa -> is_u 32 pa.
Proof.
  intros [Hp Ht Hl]. unfold gpa_hpa. destruct (lookup_list _ a) as [r|] eqn:E; [|done]. cbn.
  destruct (host_type r) eqn:Hty; try done. intros [= <-].
  destruct (paged_lookup _ _ _ _ Hp E Hty) as (Ha & _ & _ & Hpos).
  apply lookup_list_some in E as [Hin _]; [|apply (paged_wf _ _ Hp)].
  specialize (Hl r Hin Hty). unfold is_u. lia.
Qed.

Lemma gpa_hpa_aligned info l a pa :
  mappable info l -> gpa_hpa (regions_of info l) a = Some pa -> page_aligned a -> page_aligned pa.
Proof.
  intros [Hp _ _]. unfold gpa_hpa. destruct (lookup_list _ a) as [r|] eqn:E; [|done]. cbn.
  destruct (host_type r) eqn:Hty; try done. intros [= <-] Ha.
  destruct (paged_lookup _ _ _ _ Hp E Hty) as (_ & Hr & _ & _).
  destruct (Hr Hty) as (Hs & _ & Hh & _). unfold page_aligned in *.
  by rewrite Zplus_mod, Zminus_mod, Hs, Hh, Ha.
Qed.

Lemma is_gap_eq info l a :
  mappable info l ->
  is_gap info a = Done (bool_decide (gpa_hpa (regions_of info l) a = None)).
Proof.
  intros [Hp Ht _]. unfold is_gap, gpa_hpa.
  pose proof (get_shadow_region_by_addr_refines _ _ a (paged_wf _ _ Hp)) as H.
  destruct (lookup_list _ a) as [r|] eqn:E.
  - destruct H as (q & n & -> & Hq & _ & Hn & <-). run.
    rewrite (proj2 (Z.eqb_neq _ _) Hq), (deref_some _ _ _ Hn). run.
    apply lookup_list_some in E as [Hin _]; [|apply (paged_wf _ _ Hp)].
    specialize (Ht _ Hin). cbn in Ht |- *. by destruct (host_type n).
  - rewrite H. done.
Qed.

Context {Hok : OsHooksOk}.

Lemma pte_for_wf info l a :
  mappable info l -> bs_wf (pte_for (gpa_hpa (regions_of info l) a)).
Proof.
  intros Hm. pose proof (gpa_hpa_small info l a) as Hs.
  destruct (gpa_hpa _ a) as [pa|]; [|by repeat constructor].
  specialize (Hs pa Hm eq_refl). unfold is_u in Hs.
  assert (is_u 20 (pa / PAGE_SIZE)) as Hu
    by (split; [apply Z.div_pos; lia|apply Z.div_lt_upper_bound; lia]).
  solve_wf.
Qed.

Lemma get_set_pte_ne m p i q j e :
  is_slot p i -> is_slot q j -> (p, i) <> (q, j) ->
  load32 (set_pte32 m (V3_VAddr q) j e) (slot p i) = load32 m (slot p i).
Proof. apply load_store_slot_ne. Qed.

(** One entry: whatever the branch, the entry for the page of the address. *)
Lemma fill_step n info l m p j a b :
  mappable info l -> is_slot p j ->
  exists m', fill_ptes (S n) info m (V3_VAddr p) j a b =
      fill_ptes n info m' (V3_VAddr p) (j + 1) (ulong (a + PAGE_SIZE))
        (b || bool_decide (gpa_hpa (regions_of info l) a <> None)) /\
    get_pte32 m' (V3_VAddr p) j = pte_for (gpa_hpa (regions_of info l) a) /\
    (forall p' i', is_slot p' i' -> (p', i') <> (p, j) ->
       load32 m' (slot p' i') = load32 m (slot p' i')).
Proof.
  intros Hm Hs. pose proof (pte_for_wf info l a Hm) as Hwf. cbn [fill_ptes].
  rewrite (is_gap_eq info l a Hm). run.
  destruct (guest_pa_to_host_pa_eq info l a 0 (mp_paged _ _ Hm)) as (r & hp & -> & Hr).
  rewrite gpa_hpa_hva in Hr. pose proof (gpa_hpa_small info l a) as Hsm.
  destruct (gpa_hpa _ a) as [pa|]; case_bool_decide; try done.
  - destruct Hr as (-> & Hpos & Hv). apply (f_equal V3_PAddr) in Hv. rewrite !os_back in Hv.
    subst hp. run. eexists. rewrite bool_decide_eq_true_2, orb_true_r by done.
    split; [done|]. split.
    + set (e0 := Pte32.mk 1 1 1 0 0 0 0 0 0 0 _).
      assert (bs_wf e0) as Hw0.
      { solve_wf. by apply field_range. }
      rewrite (get_set_pte32_eq m _ _ e0) by done. rewrite Z.shiftr_div_pow2 by done.
      apply get_set_pte32_eq. exact Hwf.
    + intros p' i' Hs' Hne. by rewrite !get_set_pte_ne.
  - eexists. rewrite bool_decide_eq_false_2, orb_false_r by tauto. split; [done|]. split.
    + apply get_set_pte32_eq. exact Hwf.
    + intros p' i' Hs' Hne. by rewrite get_set_pte_ne.
Qed.

(** Whether memory backs one of the [n] pages of the guest from page [k] on. *)
Fixpoint used (v : list shadow_region) (k : Z) (n : nat) : bool :=
  match n with
  | O => false
  | S n => bool_decide (gpa_hpa v (PAGE_SIZE * k) <> None) || used v (k + 1) n
  end.

Lemma ulong_page k : 0 <= k -> PAGE_SIZE * k < 2 ^ 32 -> ulong (PAGE_SIZE * k) = PAGE_SIZE * k.
Proof. intros. apply ulong_small, is_addr_u32. unfold is_u. lia. Qed.

Lemma fill_ptes_spec n info l m p j k b :
  mappable info l -> page_aligned p -> 0 <= j -> j + Z.of_nat n = 1024 -> 0 <= k ->
  PAGE_SIZE * (k + Z.of_nat n) <= 2 ^ 32 ->
  exists m', fill_ptes n info m (V3_VAddr p) j (ulong (PAGE_SIZE * k)) b =
      Done (m', Some (ulong (PAGE_SIZE * (k + Z.of_nat n)), b || used (regions_of info l) k n)) /\
    (forall i, j <= i < 1024 -> get_pte32 m' (V3_VAddr p) i =
       pte_for (gpa_hpa (regions_of info l) (PAGE_SIZE * (k + (i - j))))) /\
    (forall p' i', is_slot p' i' -> (p' <> p \/ i' < j) ->
       load32 m' (slot p' i') = load32 m (slot p' i')).
Proof.
  intros Hm Hp. revert m j k b. induction n as [|n IH]; intros m j k b Hj Hn Hk Hb.
  - exists m. cbn [fill_ptes used]. rewrite orb_false_r, Z.add_0_r.
    split_and!; [done|intros; lia|done].
  - rewrite ulong_page by lia.
    destruct (fill_step n info l m p j (PAGE_SIZE * k) b Hm) as (m1 & -> & He & Ho); [split; [done|lia]|].
    replace (PAGE_SIZE * k + PAGE_SIZE) with (PAGE_SIZE * (k + 1)) by lia.
    destruct (IH m1 (j + 1) (k + 1) (b || bool_decide (gpa_hpa (regions_of info l) (PAGE_SIZE * k) <> None)))
      as (m' & -> & Hent & Hoth); [lia..|].
    exists m'. split_and!.
    + cbn [used]. rewrite orb_assoc. do 4 f_equal. f_equal. lia.
    + intros i Hi. destruct (decide (i = j)) as [->|].
      * rewrite Z.sub_diag, Z.add_0_r, <- He. unfold get_pte32. f_equal.
        apply Hoth; [split; [done|lia]|right; lia].
      * rewrite Hent by lia. do 3 f_equal. lia.
    + intros p' i' Hs Hne. rewrite Hoth; [|done|destruct Hne; [by left|right; lia]].
      apply Ho; [done|]. intros [= -> ->]. destruct Hne; [done|lia].
Qed.

(** Whether memory backs one of the pages that entry [i] of the directory covers. *)
Definition table_used (v : list shadow_region) (i : Z) : bool :=
  used v (1024 * i) (Z.to_nat MAX_PTE32_ENTRIES).

Lemma table_spec info l m p i :
  mappable info l -> page_aligned p -> 0 <= i < 1024 ->
  exists m', fill_ptes (Z.to_nat MAX_PTE32_ENTRIES) info m (V3_VAddr p) 0
      (ulong (PAGE_SIZE * (1024 * i))) false =
      Done (m', Some (ulong (PAGE_SIZE * (1024 * (i + 1))), table_used (regions_of info l) i)) /\
    (forall j, 0 <= j < 1024 -> get_pte32 m' (V3_VAddr p) j =
       pte_for (gpa_hpa (regions_of info l) (PAGE_SIZE * (1024 * i + j)))) /\
    (forall p' i', is_slot p' i' -> p' <> p -> load32 m' (slot p' i') = load32 m (slot p' i')).
Proof.
  intros Hm Hp Hi.
  destruct (fill_ptes_spec (Z.to_nat MAX_PTE32_ENTRIES) info l m p 0 (1024 * i) false Hm Hp)
    as (m' & -> & Hent & Hoth); [rewrite ?Z2Nat.id; lia..|].
  exists m'. split_and!.
  - rewrite orb_false_l, Z2Nat.id by lia. do 4 f_equal. f_equal. lia.
  - intros j Hj. rewrite Hent by done. by rewrite Z.sub_0_r.
  - intros p' i' Hs Hne. apply Hoth; [done|by left].
Qed.

Lemma used_false v k n j :
  used v k n = false -> 0 <= j < Z.of_nat n -> gpa_hpa v (PAGE_SIZE * (k + j)) = None.
Proof.
  revert k j. induction n as [|n IH]; intros k j; cbn [used]; [lia|].
  intros [Hk Hu]%orb_false_iff Hj. apply bool_decide_eq_false in Hk.
  destruct (decide (j = 0)) as [->|].
  - rewrite Z.add_0_r. by destruct (gpa_hpa v _) eqn:E; [destruct Hk|].
  - rewrite <- (IH (k + 1) (j - 1)); [do 2 f_equal; lia|done|lia].
Qed.

Lemma table_unused v i j :
  table_used v i = false -> 0 <= j < 1024 -> gpa_hpa v (PAGE_SIZE * (1024 * i + j)) = None.
Proof. intros Hu Hj. apply (used_false _ _ _ _ Hu). rewrite Z2Nat.id; lia. Qed.

(** Within a page, host physical addresses follow guest physical ones. *)
Lemma gpa_hpa_page info l a :
  mappable info l -> is_u 32 a ->
  gpa_hpa (regions_of info l) a =
    (fun pa => PAGE_SIZE * (pa / PAGE_SIZE) + a mod PAGE_SIZE) <$>
      gpa_hpa (regions_of info l) (PAGE_SIZE * (a / PAGE_SIZE)).
Proof.
  intros Hm Ha. pose proof (Z.div_mod a PAGE_SIZE) as Hdm.
  pose proof (Z.mod_pos_bound a PAGE_SIZE) as Hmod. unfold is_u in Ha.
  pose proof (gpa_hva_coherent _ _ (mp_paged _ _ Hm) (PAGE_SIZE * (a / PAGE_SIZE)) (a mod PAGE_SIZE)) as Hc.
  rewrite <- Hdm, !gpa_hpa_hva in Hc by done.
  assert (forall o : option Z, V3_PAddr <$> (V3_VAddr <$> o) = o) as Hback.
  { intros [p|]; [|done]. cbn. by rewrite os_back. }
  rewrite <- (Hback (gpa_hpa _ a)), Hc.
  - destruct (gpa_hpa (regions_of info l) (PAGE_SIZE * (a / PAGE_SIZE))) as [pa|] eqn:E; [|done]. cbn. f_equal.
    apply (gpa_hpa_aligned info l) in E; [|done|by rewrite Z.mul_comm; apply Z_mod_mult].
    rewrite <- os_linear by (exact E || lia). rewrite os_back.
    unfold page_aligned in E. pose proof (Z.div_mod pa PAGE_SIZE). lia.
  - apply is_addr_u32. unfold is_u. lia.
  - lia.
  - rewrite Z.mul_comm, Z_mod_mult. lia.
Qed.

#[local] Opaque table_used.

(** What is asked of the page allocator: pages that an entry can point to, none of them a
    page in use, and none again that was kept for a table.  A page that was freed may be
    given again. *)
Record supply_ok (v : list shadow_region) (L : gset Z) (i : Z) (n : nat) (ps : list Z) : Prop := {
  so_length : (n <= length ps)%nat;
  so_page k p : (k < n)%nat -> ps !! k = Some p ->
    p <> NULL /\ page_aligned p /\ is_u 32 p /\ p ∉ L;
  so_again k k' p : (k < k' < n)%nat -> ps !! k = Some p -> ps !! k' = Some p ->
    table_used v (i + Z.of_nat k) = false;
}.

Lemma supply_ok_next v L i n p ps :
  supply_ok v L i (S n) (p :: ps) ->
  supply_ok v (if table_used v i then {[p]} ∪ L else L) (i + 1) n ps.
Proof.
  intros [Hl Hp Ha]. cbn in Hl. split; [lia| |].
  - intros k q Hk Hq. destruct (Hp (S k) q) as (? & ? & ? & ?); [lia|done|]. split_and!; [done..|].
    destruct (table_used v i) eqn:Hu; [|done].
    assert (q <> p); [|set_solver]. intros ->.
    specialize (Ha 0%nat (S k) p ltac:(lia) eq_refl Hq). rewrite Z.add_0_r in Ha. congruence.
  - intros k k' q Hk Hq Hq'. rewrite <- (Ha (S k) (S k') q) by (done || lia). f_equal. lia.
Qed.

(** The part of the tables that entry [i] of the directory covers, with a page table of [P]. *)
Definition table_ok (P : Z -> Prop) (m : mem) (pd : Z) (v : list shadow_region) (i : Z) : Prop :=
  if table_used v i then
    exists q, P q /\ page_aligned q /\ is_u 32 q /\
      get_pde32 m (V3_VAddr pd) i = Pde32.mk 1 1 1 0 0 0 0 0 0 0 (q / PAGE_SIZE) /\
      forall j, 0 <= j < 1024 ->
        get_pte32 m (V3_VAddr q) j = pte_for (gpa_hpa v (PAGE_SIZE * (1024 * i + j)))
  else get_pde32 m (V3_VAddr pd) i = zero_pde.

Lemma pde_wf q : is_u 32 q -> bs_wf (Pde32.mk 1 1 1 0 0 0 0 0 0 0 (q / PAGE_SIZE)).
Proof.
  intros [H1 H2]. solve_wf.
  split; [apply Z.div_pos; lia|apply Z.div_lt_upper_bound; lia].
Qed.

Lemma get_set_pde_ne m p i q j e :
  is_slot p i -> is_slot q j -> (p, i) <> (q, j) ->
  load32 (set_pde32 m (V3_VAddr q) j e) (slot p i) = load32 m (slot p i).
Proof. apply load_store_slot_ne. Qed.

Lemma PAGE_ALIGNED_ADDR_eq q : is_u 32 q -> PAGE_ALIGNED_ADDR q = q / PAGE_SIZE.
Proof.
  intros Hq. unfold PAGE_ALIGNED_ADDR. by rewrite wrap_small, Z.shiftr_div_pow2.
Qed.

(** A memory that agrees with [m] on the pages of [L], the directory up to entry [i] only. *)
Definition agree (L : gset Z) (pd i : Z) (m m' : mem) : Prop :=
  forall p' i', is_slot p' i' -> p' ∈ L -> (p' <> pd \/ i' < i) ->
    load32 m' (slot p' i') = load32 m (slot p' i').

Lemma table_ok_used (P : Z -> Prop) m1 m2 pd i v p L :
  P p -> table_used v i = true -> is_slot pd i -> page_aligned p -> is_u 32 p -> p <> pd ->
  p ∈ L -> pd ∈ L ->
  (forall j, 0 <= j < 1024 ->
     get_pte32 m1 (V3_VAddr p) j = pte_for (gpa_hpa v (PAGE_SIZE * (1024 * i + j)))) ->
  agree L pd (i + 1)
    (set_pde32 m1 (V3_VAddr pd) i (Pde32.mk 1 1 1 0 0 0 0 0 0 0 (PAGE_ALIGNED_ADDR p))) m2 ->
  table_ok P m2 pd v i.
Proof.
  intros HP Hu Hsl Hp Hpu Hne HpL HdL Hent Hag. unfold table_ok. rewrite Hu. exists p. split_and!; [done..| |].
  - unfold get_pde32. fold (slot pd i). rewrite Hag by (done || (right; lia)).
    rewrite PAGE_ALIGNED_ADDR_eq by done. apply get_set_pde32_eq, pde_wf, Hpu.
  - intros j Hj. unfold get_pte32. fold (slot p j).
    rewrite Hag, get_set_pde_ne by (done || congruence || (left; done)).
    by apply Hent.
Qed.

Lemma table_ok_unused (P : Z -> Prop) m1 m2 pd i v L :
  table_used v i = false -> is_slot pd i -> pd ∈ L ->
  agree L pd (i + 1) (set_pde32 m1 (V3_VAddr pd) i zero_pde) m2 -> table_ok P m2 pd v i.
Proof.
  intros Hu Hsl HdL Hag. unfold table_ok. rewrite Hu. unfold get_pde32. fold (slot pd i).
  rewrite Hag by (done || (right; lia)). apply get_set_pde32_eq. by repeat constructor.
Qed.

Lemma agree_step L L' pd i p e m m1 m2 :
  is_slot pd i -> L ⊆ L' -> p ∉ L ->
  (forall p' i', is_slot p' i' -> p' <> p -> load32 m1 (slot p' i') = load32 m (slot p' i')) ->
  agree L' pd (i + 1) (set_pde32 m1 (V3_VAddr pd) i e) m2 -> agree L pd i m m2.
Proof.
  intros Hsl HL HpL H1 H2 p' i' Hs HpL' Hne.
  rewrite H2; [|done|by apply HL|destruct Hne; [by left|right; lia]].
  rewrite get_set_pde_ne; [|done..|intros [= -> ->]; destruct Hne; [done|lia]].
  apply H1; [done|by intros ->].
Qed.

Lemma fill_pdes_spec (P : Z -> Prop) n info l m pool pd i L :
  mappable info l -> page_aligned pd -> pd ∈ L -> 0 <= i -> i + Z.of_nat n = 1024 ->
  supply_ok (regions_of info l) L i n (supply pool) -> Forall P (take n (supply pool)) ->
  exists m' pool', fill_pdes n info m pool (V3_VAddr pd) i (ulong (PAGE_SIZE * (1024 * i))) =
      Done (m', pool', true) /\
    (forall i', i <= i' < 1024 -> table_ok P m' pd (regions_of info l) i') /\ agree L pd i m m' /\
    supply pool' = drop n (supply pool).
Proof.
  intros Hm Hpd. revert m pool i L.
  induction n as [|n IH]; intros m pool i L HL Hi Hn Hs HP.
  { exists m, pool. split_and!; [done|intros; lia|by intros ?|done]. }
  assert (is_slot pd i) as Hsl by (split; [done|lia]).
  cbn [fill_pdes]. unfold V3_AllocPages.
  destruct (supply pool) as [|p ps] eqn:Eps; [by destruct Hs as [? _ _]; cbn in *; lia|].
  destruct (so_page _ _ _ _ _ Hs 0 p ltac:(lia) eq_refl) as (Hnull & Hpa & Hpu & HpL).
  rewrite (proj2 (Z.eqb_neq _ _) Hnull).
  destruct (table_spec info l m p i Hm Hpa) as (m1 & -> & Hent & Hoth); [lia|]. run.
  pose proof (supply_ok_next _ _ _ _ _ _ Hs) as Hs'. apply Forall_cons in HP as [HPp HP].
  assert (forall i' m2, i <= i' < 1024 -> table_ok P m2 pd (regions_of info l) i ->
    (forall i', i + 1 <= i' < 1024 -> table_ok P m2 pd (regions_of info l) i') ->
    table_ok P m2 pd (regions_of info l) i') as Hsplit.
  { intros i' m2 Hi' H1 H2. destruct (decide (i' = i)) as [->|]; [done|apply H2; lia]. }
  rewrite os_back. destruct (table_used (regions_of info l) i) eqn:Hu; cbn [negb].
  - match goal with |- context [fill_pdes n info ?mm ?pp] =>
      destruct (IH mm pp (i + 1) ({[p]} ∪ L)) as (m2 & pool2 & -> & Ht & Ha & Hsu) end;
      [set_solver|lia..|exact Hs'|exact HP|].
    exists m2, pool2. split_and!; [done| |eapply agree_step; [..|exact Ha]; done || set_solver|exact Hsu].
    intros i' Hi'. apply Hsplit; [done| |done].
    eapply table_ok_used; [..|exact Hent|exact Ha]; done || set_solver.
  - match goal with |- context [fill_pdes n info ?mm ?pp] =>
      destruct (IH mm pp (i + 1) L) as (m2 & pool2 & -> & Ht & Ha & Hsu) end; [done|lia..|exact Hs'|exact HP|].
    exists m2, pool2. split_and!; [done| |eapply agree_step; [..|exact Ha]; done|exact Hsu].
    intros i' Hi'. apply Hsplit; [done| |done]. by eapply table_ok_unused.
Qed.

(** The walk through the tables of one directory entry. *)
Lemma table_ok_walk P info l m pd a :
  mappable info l -> is_u 32 a -> table_ok P m pd (regions_of info l) (PDE32_INDEX a) ->
  hw_walk m pd a = gpa_hpa (regions_of info l) a.
Proof.
  intros Hm Ha. unfold table_ok. rewrite (gpa_hpa_page info l a Hm Ha).
  assert (0 <= PTE32_INDEX a < 1024) as Hj by (rewrite PTE32_INDEX_eq by done; apply Z.mod_pos_bound; lia).
  assert (1024 * PDE32_INDEX a + PTE32_INDEX a = a / PAGE_SIZE) as <-.
  { rewrite PDE32_INDEX_eq, PTE32_INDEX_eq by done. change (2 ^ 22) with (2 ^ 12 * 2 ^ 10).
    rewrite <- Z.div_div by done. symmetry. apply Z.div_mod. done. }
  destruct (table_used _ _) eqn:Hu.
  - intros (q & _ & Hq & Hqu & Hpde & Hpte). specialize (Hpte _ Hj).
    erewrite (hw_walk_entries m pd a q); [|done|by rewrite Hpde..| |reflexivity].
    + rewrite Hpte. by destruct (gpa_hpa _ _) as [pa|].
    + rewrite Hpde. cbn. unfold page_aligned in Hq. pose proof (Z.div_mod q PAGE_SIZE). lia.
  - intros Hpde. rewrite hw_walk_absent by (done || by rewrite Hpde). by rewrite table_unused.
Qed.

Lemma create_pts_spec (P : Z -> Prop) info l m pool pd ps :
  mappable info l -> supply pool = pd :: ps -> pd <> NULL -> page_aligned pd ->
  supply_ok (regions_of info l) {[pd]} 0 1024 ps -> Forall P (take 1024 ps) ->
  exists m' pool', create_passthrough_pts_32 info m pool = Done (V3_VAddr pd, m', pool') /\
    (forall i, 0 <= i < 1024 -> table_ok P m' pd (regions_of info l) i) /\ supply pool' = drop 1024 ps.
Proof.
  intros Hm Hps Hnull Hpd Hs HP. unfold create_passthrough_pts_32, V3_AllocPages. rewrite Hps.
  rewrite (proj2 (Z.eqb_neq _ _) Hnull).
  destruct (fill_pdes_spec P (Z.to_nat 1024) info l m (pool <| supply := ps |>) pd 0 {[pd]} Hm Hpd)
    as (m' & pool' & H & Ht & _ & Hsu); [set_solver|lia..|exact Hs|exact HP|].
  rewrite (ulong_page (1024 * 0)), !Z.mul_0_r in H by lia. rewrite H. by exists m', pool'.
Qed.

Lemma tables_walk P info l m pd a :
  mappable info l -> is_u 32 a -> (forall i, 0 <= i < 1024 -> table_ok P m pd (regions_of info l) i) ->
  hw_walk m pd a = gpa_hpa (regions_of info l) a.
Proof.
  intros Hm Ha Ht. eapply table_ok_walk; [done..|]. apply Ht. rewrite PDE32_INDEX_eq by done. unfold is_u in Ha.
  split; [apply Z.div_pos; lia|apply Z.div_lt_upper_bound; lia].
Qed.

(** Only the pages of the directory and of the tables are written. *)
Definition in_page (p x : Z) : Prop := V3_VAddr p <= x < V3_VAddr p + PAGE_SIZE.

Lemma fill_ptes_frame n info m p j a b m' r :
  fill_ptes n info m (V3_VAddr p) j a b = Done (m', r) -> 0 <= j -> j + Z.of_nat n <= 1024 ->
  forall x, ~ in_page p x -> m' x = m x.
Proof.
  revert m j a b. induction n as [|n IH]; intros m j a b H Hj Hn x Hx; cbn [fill_ptes] in H;
    [by injection H as <- _|].
  assert (forall m e, set_pte32 m (V3_VAddr p) j e x = m x) as Hw.
  { intros m0 e. unfold set_pte32, storen. destruct (_ && _) eqn:E; [|done].
    apply andb_true_iff in E as [?%Z.leb_le ?%Z.ltb_lt]. unfold in_page in Hx. lia. }
  apply outcome_bind_inv in H as (gap & _ & H). destruct gap.
  - apply IH with (x := x) in H; [|lia..|done]. by rewrite H, Hw.
  - apply outcome_bind_inv in H as ([r' h] & _ & H). destruct (r' =? -1).
    + injection H as <- _. apply Hw.
    + apply IH with (x := x) in H; [|lia..|done]. by rewrite H, !Hw.
Qed.

Lemma fill_pdes_frame n info m pool pd i a m' pool' ok :
  fill_pdes n info m pool (V3_VAddr pd) i a = Done (m', pool', ok) -> 0 <= i -> i + Z.of_nat n <= 1024 ->
  forall x, ~ in_page pd x -> (forall q, q ∈ take n (supply pool) -> ~ in_page q x) -> m' x = m x.
Proof.
  revert m pool i a. induction n as [|n IH]; intros m pool i a H Hi Hn x Hx Hq; cbn [fill_pdes] in H;
    [by injection H as <- _|].
  assert (forall m e, set_pde32 m (V3_VAddr pd) i e x = m x) as Hw.
  { intros m0 e. unfold set_pde32, storen. destruct (_ && _) eqn:E; [|done].
    apply andb_true_iff in E as [?%Z.leb_le ?%Z.ltb_lt]. unfold in_page in Hx. lia. }
  unfold V3_AllocPages in H. destruct (supply pool) as [|p ps] eqn:Hs; [done|].
  destruct (p =? NULL); [done|]. apply outcome_bind_inv in H as ([m1 o] & H1 & H).
  apply fill_ptes_frame with (x := x) in H1; [|lia|rewrite Z2Nat.id; lia|apply Hq; by left].
  destruct o as [[a' pres]|]; [|by injection H as <- _].
  destruct (negb pres); apply IH with (x := x) in H; try done; try lia; try (by rewrite H, Hw);
    intros q Hq'; apply Hq; by right.
Qed.

Lemma create_pts_frame info m pool pd ps r m' pool' :
  create_passthrough_pts_32 info m pool = Done (r, m', pool') -> supply pool = pd :: ps ->
  forall x, ~ in_page pd x -> (forall q, q ∈ take 1024 ps -> ~ in_page q x) -> m' x = m x.
Proof.
  intros H Hs x Hx Hq. unfold create_passthrough_pts_32, V3_AllocPages in H. rewrite Hs in H.
  destruct (pd =? NULL); [done|]. apply outcome_bind_inv in H as ([[m1 pl] ok] & H1 & [= _ <- _]).
  exact (fill_pdes_frame _ _ _ _ _ _ _ _ _ _ H1 ltac:(lia) ltac:(lia) x Hx Hq).
Qed.

(** C5. For a guest whose memory map has whole pages below 4GB, and an allocator that hands
    out fresh pages (a freed page may come again), create_passthrough_pts_32 returns tables
    that are exactly the guest's memory map: the processor's walk of every 32-bit address
    gives the host physical address that backs it, and faults where none does. *)
Theorem passthrough_walk info l m pool pd ps :
  mappable info l -> supply pool = pd :: ps -> pd <> NULL -> page_aligned pd ->
  supply_ok (regions_of info l) {[pd]} 0 1024 ps ->
  exists m' pool', create_passthrough_pts_32 info m pool = Done (V3_VAddr pd, m', pool') /\
    forall a, is_u 32 a -> hw_walk m' pd a = gpa_hpa (regions_of info l) a.
Proof.
  intros Hm Hps Hnull Hpd Hs.
  destruct (create_pts_spec (fun _ => True) info l m pool pd ps) as (m' & pool' & -> & Ht & _);
    [done..|by apply Forall_forall|].
  exists m', pool'. split; [done|]. intros a Ha. by eapply tables_walk.
Qed.

End passthrough.

(** An allocator that hands out the pages from 1MB up in order. *)
Definition demo_supply : list Z := (fun k => PAGE_SIZE * k) <$> seqZ 257 1024.

Lemma demo_supply_lookup k p : demo_supply !! k = Some p -> p = PAGE_SIZE * (257 + Z.of_nat k).
Proof.
  unfold demo_supply. rewrite list_lookup_fmap. intros (x & Hx & ->)%fmap_Some.
  apply lookup_seqZ in Hx as [-> _]. done.
Qed.

Lemma demo_mappable : mappable (A := V3_32BIT) (Hos := demo_host) demo_guest [1; 2].
Proof.
  split; [apply demo_paged| |].
  - apply Forall_forall. by repeat constructor.
  - intros r Hr _. revert r Hr. apply Forall_forall. by repeat constructor.
Qed.

Lemma demo_supply_ok v :
  supply_ok v {[0x100000]} 0 1024 demo_supply.
Proof.
  split.
  - unfold demo_supply. by rewrite length_fmap, length_seqZ.
  - intros k p Hk ->%demo_supply_lookup. split_and!; [unfold NULL; lia| | |].
    + unfold page_aligned. by rewrite Z.mul_comm, Z_mod_mult.
    + unfold is_u. lia.
    + rewrite elem_of_singleton. lia.
  - intros k k' p Hk Hp%demo_supply_lookup Hp'%demo_supply_lookup. lia.
Qed.

Lemma passthrough_walk_witness : exists m' pool',
  create_passthrough_pts_32 (A := V3_32BIT) (Hos := demo_host) demo_guest (fun _ => 0)
    (mk_page_pool (0x100000 :: demo_supply) []) = Done (0x1100000, m', pool') /\
  hw_walk (Hos := demo_host) m' 0x100000 0x1010 = Some 0x51010 /\
  hw_walk (Hos := demo_host) m' 0x100000 0x2ffc = Some 0x20ffc /\
  hw_walk (Hos := demo_host) m' 0x100000 0x4000 = None.
Proof.
  destruct (passthrough_walk (A := V3_32BIT) (Hos := demo_host) (Hok := direct_map_ok _)
    demo_guest [1; 2] (fun _ => 0) (mk_page_pool (0x100000 :: demo_supply) []) 0x100000 demo_supply)
    as (m' & pool' & H & Hw); [apply demo_mappable|done|done|done|apply demo_supply_ok|].
  exists m', pool'. split; [exact H|]. clear H.
  split; [|split]; (etransitivity; [apply Hw; done|reflexivity]).
Defined.

End Passthrough.
