(* ===== verification/Invlpg.v ===== *)
(** The INVLPG intercept: v3_handle_shadow_invlpg of vmm_shadow_paging.c.

    The guest executes INVLPG after it changed a page table entry; the handler decodes the
    instruction with the operand decoder of Decoder.v and drops the shadow entry of the
    page.  The theorems show that it returns or reads past its instruction buffer, that it
    keeps the shadow tables isolated, and that INVLPG on a register address takes the
    translation of that address away and no other translation gives a new page. *)
From stdpp Require Import base tactics numbers list gmap.
From S2P Require Import Prelude Chain Host MemMap Paging Intr GuestInfo GuestMem Decoder ShadowPaging.

Module Invlpg.
Import ShadowMap Paging GuestInfo GuestMem Decoder ShadowPaging.

(** A byte of [instr]; outside the array the behaviour is undefined. *)
Definition byte_at (instr : list Z) (k : Z) : outcome Z :=
  match instr !! Z.to_nat k with Some b => Done b | None => Undef end.

(** The loop over the prefixes: the index of the first byte that is none. *)
Fixpoint skip_prefixes (instr : list Z) (index : Z) : outcome Z :=
  match instr with
  | [] => Undef
  | b :: rest => if is_prefix_byte b then skip_prefixes rest (index + 1) else Done index
  end.

Section invlpg.
Context {A : Arch} {Hos : OsHooks}.

(** The entries of the address [a]: the directory entry for a large page of the guest, and
    otherwise the page table entry. *)
Definition invalidate (s : vm) (guest_pd a : Z) : vm :=
  let shadow_pd := CR3_TO_PDE32 (shadow_cr3 (shdw_pg_state (info s))) in
  let shadow_pde := get_pde32 (hmem s) shadow_pd (PDE32_INDEX a) in
  let guest_pde := get_pde32 (hmem s) guest_pd (PDE32_INDEX a) in
  if Pde32.large_page guest_pde =? 1 then
    upd_pde s shadow_pd (PDE32_INDEX a) (fun e => e <| Pde32.present := 0 |>)
  else if Pde32.present shadow_pde =? 1 then
    let shadow_pt := ulong (PDE32_T_ADDR shadow_pde) in
    let shadow_pte := V3_VAddr (ulong (shadow_pt + 4 * PTE32_INDEX a)) in
    upd_pte s shadow_pte 0 (fun e => e <| Pte32.present := 0 |>)
  else s.

Definition v3_handle_shadow_invlpg (s : vm) : outcome (Z * vm) :=
  if bool_decide (mem_mode (info s) <> VIRTUAL_MEM) then Done (-1, s) else
  if bool_decide (cpu_mode (info s) <> PROTECTED) then Done (0, s) else
  '(ret, instr) ← read_guest_va_memory (info s) (hmem s)
    (get_addr_linear (info s) (rip (info s)) (cs (segments (info s)))) 15;
  if negb (ret =? 15) then Done (-1, s) else
  index ← skip_prefixes instr 0;
  b0 ← byte_at instr index;
  invalid ← (if negb (b0 =? 0x0f) then Done true
             else b1 ← byte_at instr (index + 1); Done (negb (b1 =? 0x01)));
  if invalid : bool then Done (-1, s) else
  let guest_cr3 := V3_PAddr (CR3_TO_PDE32 (guest_cr3 (shdw_pg_state (info s)))) in
  '(r, guest_pd) ← guest_pa_to_host_va (info s) guest_cr3;
  if r =? -1 then Done (-1, s) else
  let index := index + 2 in
  let code k := nth (Z.to_nat (index + k)) instr 0 in
  if index + operand_reads32 code >? 15 then Undef else
  let ops := decode_operands32 (vm_regs (info s)) code REG32 in
  let index := index + op_length ops in
  match op_type ops, first_operand ops with
  | MEM_OPERAND, At_addr a =>
      let s := invalidate s guest_pd a in
      Done (0, s <| info := (info s) <| rip := u64 (rip (info s) + index) |> |>)
  | _, _ => Done (-1, s)
  end.

Context {Hok : OsHooksOk}.

(** The address of an entry is that of its slot. *)
Lemma pte_addr p i :
  frame_ok p -> 0 <= i < 1024 -> V3_VAddr (ulong (p + 4 * i)) + 4 * 0 = slot p i.
Proof.
  intros (Ha & [H1 H2] & _) Hi. unfold slot. unfold page_aligned in Ha.
  pose proof (Z.div_mod p PAGE_SIZE).
  assert (p / PAGE_SIZE < 2 ^ 20) by (apply Z.div_lt_upper_bound; lia).
  rewrite ulong_small by (apply is_addr_u32; split; lia).
  rewrite os_linear by (done || lia). lia.
Qed.

(** Clearing the entry of the table a directory entry points to. *)
Lemma clear_pte T l s a p :
  inv nowhere T l s -> p ∈ T ->
  upd_pte s (V3_VAddr (ulong (p + 4 * PTE32_INDEX a))) 0 (fun e => e <| Pte32.present := 0 |>) =
  upd_pte s (V3_VAddr p) (PTE32_INDEX a) (fun e => e <| Pte32.present := 0 |>).
Proof.
  intros Hi Hp. unfold upd_pte, set_pte32, get_pte32. rewrite pte_addr; [done| |apply PTE32_INDEX_range].
  apply (iso_frames _ _ _ _ _ _ (inv_iso _ _ _ _ Hi)). set_solver.
Qed.

(** What a change of [s] takes from the translation of the hardware: [a] has none, and the
    other addresses keep theirs or lose it, those of other entries keep it. *)
Record invalidated (s s' : vm) (a : Z) : Prop := {
  iv_gone : shadow_walk s' a = None;
  iv_keep b : is_u 32 b -> shadow_walk s' b = shadow_walk s b \/ shadow_walk s' b = None;
  iv_other b : is_u 32 b -> PDE32_INDEX b <> PDE32_INDEX a -> PTE32_INDEX b <> PTE32_INDEX a ->
    shadow_walk s' b = shadow_walk s b;
}.

(** The translation of the hardware on isolated tables. *)
Lemma shadow_walk_eq T l s b :
  inv nowhere T l s -> is_u 32 b ->
  shadow_walk s b =
  let e := get_pde32 (hmem s) (V3_VAddr (pd_of s)) (PDE32_INDEX b) in
  if Pde32.present e =? 0 then None else
  let e' := get_pte32 (hmem s) (V3_VAddr (PAGE_SIZE * Pde32.pt_base_addr e)) (PTE32_INDEX b) in
  if Pte32.present e' =? 0 then None else Some (PAGE_SIZE * Pte32.page_base_addr e' + b mod PAGE_SIZE).
Proof.
  intros Hi Hb. unfold shadow_walk. cbv zeta. case_cmp; [by apply hw_walk_absent|].
  destruct (iso_pde _ _ _ _ _ _ (inv_iso _ _ _ _ Hi) (PDE32_INDEX b) (PDE32_INDEX_range b)
    (fun H => H)) as [HL _]; [done|].
  pose proof (pde_flags (hmem s) (V3_VAddr (pd_of s)) (PDE32_INDEX b)) as [Hf _]. unfold is_u in Hf.
  apply hw_walk_entries; [done|lia|exact HL|done..].
Qed.

Lemma pde_table T l s i :
  inv nowhere T l s -> 0 <= i < 1024 ->
  let e := get_pde32 (hmem s) (V3_VAddr (pd_of s)) i in
  Pde32.present e <> 0 -> PAGE_SIZE * Pde32.pt_base_addr e ∈ T.
Proof.
  intros Hi Hr e He. by apply (iso_pde _ _ _ _ _ _ (inv_iso _ _ _ _ Hi) i Hr (fun H => H)).
Qed.

(** The directory entry of [a] goes. *)
Lemma clear_pde_spec T l s a :
  inv nowhere T l s -> is_u 32 a ->
  let s' := upd_pde s (V3_VAddr (pd_of s)) (PDE32_INDEX a) (fun e => e <| Pde32.present := 0 |>) in
  inv nowhere T l s' /\ invalidated s s' a.
Proof.
  intros Hi Ha s'. pose proof (pd_slot _ _ _ _ a Hi) as Hsl.
  assert (get_pde32 (hmem s') (V3_VAddr (pd_of s')) (PDE32_INDEX a) =
    (get_pde32 (hmem s) (V3_VAddr (pd_of s)) (PDE32_INDEX a)) <| Pde32.present := 0 |>) as Hg
    by (apply get_upd_pde; keep_wf).
  assert (inv nowhere T l s') as Hi'.
  { apply (inv_close_pde (PDE32_INDEX a)).
    - apply inv_upd_pde; [done|by left|by apply inv_open].
    - cbv zeta. rewrite Hg. by intros []. }
  assert (forall b, is_u 32 b -> PDE32_INDEX b = PDE32_INDEX a -> shadow_walk s' b = None) as Hsame.
  { intros b Hb Hba. rewrite (shadow_walk_eq T l) by done. cbv zeta. by rewrite Hba, Hg. }
  assert (forall b, is_u 32 b -> PDE32_INDEX b <> PDE32_INDEX a -> shadow_walk s' b = shadow_walk s b)
    as Hdiff.
  { intros b Hb Hba. rewrite !(shadow_walk_eq T l) by done. cbv zeta.
    pose proof (pd_slot _ _ _ _ b Hi) as Hslb.
    assert (get_pde32 (hmem s') (V3_VAddr (pd_of s')) (PDE32_INDEX b) =
      get_pde32 (hmem s) (V3_VAddr (pd_of s)) (PDE32_INDEX b)) as ->
      by (apply get_pde_store_ne; [done..|congruence]).
    case_cmp; [done|]. pose proof (pde_table T l s _ Hi (proj2 Hslb)) as HT. cbv zeta in HT.
    set (p := PAGE_SIZE * _) in *.
    assert (get_pte32 (hmem s') (V3_VAddr p) (PTE32_INDEX b) =
      get_pte32 (hmem s) (V3_VAddr p) (PTE32_INDEX b)) as ->; [|done].
    apply get_pte_store_ne; [by apply (pte_slot T l s); [|apply HT]|done|].
    intros [= Heq _]. apply (iso_pd _ _ _ _ _ _ (inv_iso _ _ _ _ Hi)). rewrite <- Heq. by apply HT. }
  split; [done|]. split; [by apply Hsame| |intros b Hb Hba _; by apply Hdiff].
  intros b Hb. destruct (decide (PDE32_INDEX b = PDE32_INDEX a)); [right|left]; auto.
Qed.

(** The entry of [a] in its page table goes. *)
Lemma clear_pte_spec T l s a p :
  inv nowhere T l s -> is_u 32 a ->
  let e := get_pde32 (hmem s) (V3_VAddr (pd_of s)) (PDE32_INDEX a) in
  Pde32.present e <> 0 -> PAGE_SIZE * Pde32.pt_base_addr e = p -> p ∈ T ->
  let s' := upd_pte s (V3_VAddr p) (PTE32_INDEX a) (fun e => e <| Pte32.present := 0 |>) in
  inv nowhere T l s' /\ invalidated s s' a.
Proof.
  intros Hi Ha e He Hp HpT s'. pose proof (pte_slot T l s p a Hi HpT) as Hsl.
  assert (get_pte32 (hmem s') (V3_VAddr p) (PTE32_INDEX a) =
    (get_pte32 (hmem s) (V3_VAddr p) (PTE32_INDEX a)) <| Pte32.present := 0 |>) as Hg
    by (apply get_upd_pte; keep_wf).
  assert (inv nowhere T l s') as Hi'.
  { apply (inv_close_pte p (PTE32_INDEX a)); [|done|].
    - apply inv_upd_pte; [done|by left|by apply inv_open].
    - rewrite Hg. by intros []. }
  assert (forall b, get_pde32 (hmem s') (V3_VAddr (pd_of s')) (PDE32_INDEX b) =
      get_pde32 (hmem s) (V3_VAddr (pd_of s)) (PDE32_INDEX b)) as Hpde.
  { intros b. apply get_pde_store_ne; [by eapply pd_slot|done|]. intros [= Heq _].
    apply (iso_pd _ _ _ _ _ _ (inv_iso _ _ _ _ Hi)). by rewrite Heq. }
  assert (forall b, is_u 32 b ->
    (shadow_walk s' b = None /\ PTE32_INDEX b = PTE32_INDEX a) \/ shadow_walk s' b = shadow_walk s b) as Hw.
  { intros b Hb. rewrite !(shadow_walk_eq T l) by done. cbv zeta. rewrite Hpde.
    case_cmp; [by right|]. set (p' := PAGE_SIZE * _).
    assert (p' ∈ T) as HT by (apply (pde_table T l s _ Hi (PDE32_INDEX_range b)); done).
    destruct (decide ((p', PTE32_INDEX b) = (p, PTE32_INDEX a))) as [[= -> Hba]|Hne].
    - left. by rewrite Hba, Hg.
    - right. assert (get_pte32 (hmem s') (V3_VAddr p') (PTE32_INDEX b) =
        get_pte32 (hmem s) (V3_VAddr p') (PTE32_INDEX b)) as ->; [|done].
      by apply get_pte_store_ne; [eapply pte_slot|..]. }
  split; [done|]. split.
  - rewrite (shadow_walk_eq T l) by done. cbv zeta. rewrite Hpde. fold e. rewrite Hp, Hg. by case_cmp.
  - intros b Hb. destruct (Hw b Hb) as [[? _]|?]; auto.
  - intros b Hb _ Hne. by destruct (Hw b Hb) as [[_ ?]|?].
Qed.

Lemma index_u32 a : PDE32_INDEX (u32 a) = PDE32_INDEX a /\ PTE32_INDEX (u32 a) = PTE32_INDEX a.
Proof. unfold PDE32_INDEX, PTE32_INDEX. by rewrite !(wrap_idemp 32). Qed.

Lemma invalidate_spec T l s guest_pd a :
  inv nowhere T l s ->
  let s' := invalidate s guest_pd a in inv nowhere T l s' /\ invalidated s s' (u32 a).
Proof.
  intros Hi. cbv zeta. unfold invalidate. rewrite cr3_va.
  change (4096 * (u32 (shadow_cr3 _) / 4096)) with (pd_of s).
  destruct (index_u32 a) as [<- <-]. pose proof (wrap_range 32 a ltac:(done)) as Hu.
  set (b := u32 a) in *. clearbody b. clear a. rename b into a.
  case_cmp; [by apply clear_pde_spec|]. case_cmp.
  - destruct (shadow_pt_table T l s a Hi) as (p & HpT & Hp); [lia|].
    rewrite Hp, (clear_pte T l) by done. apply clear_pte_spec; [done|done|lia| |done].
    rewrite <- frame_addr; [done|]. apply (iso_frames _ _ _ _ _ _ (inv_iso _ _ _ _ Hi)).
    apply elem_of_union_r. by apply (pde_table T l s _ Hi (PDE32_INDEX_range a)); lia.
  - split; [done|]. split; [|by left|done]. apply hw_walk_absent; [done|].
    pose proof (pde_flags (hmem s) (V3_VAddr (pd_of s)) (PDE32_INDEX a)) as [Hf _].
    unfold is_u in Hf. lia.
Qed.

Lemma inv_rip X T l s r : inv X T l s -> inv X T l (s <| info := (info s) <| rip := r |> |>).
Proof. intros Hi. apply (inv_same X T l s); [done..|]. apply Hi. Qed.

(** Whatever the instruction is, the handler keeps the tables isolated. *)
Lemma invlpg_inv T l s r s' :
  inv nowhere T l s -> v3_handle_shadow_invlpg s = Done (r, s') -> inv nowhere T l s'.
Proof.
  intros Hi. unfold v3_handle_shadow_invlpg.
  do 2 (case_match; [by intros [= <- <-]|]).
  destruct (read_guest_va_memory _ _ _ _) as [[ret instr]| |]; [|done..]. run.
  case_match; [by intros [= <- <-]|].
  destruct (skip_prefixes instr 0) as [index| |]; [|done..]. run.
  destruct (byte_at instr index) as [b0| |]; [|done..]. run.
  match goal with |- context [mbind _ ?o] => destruct o as [[]| |] end; run;
    [by intros [= <- <-]| |done..].
  destruct (guest_pa_to_host_va _ _) as [[r' pd]| |]; [|done..]. run.
  case_match; [by intros [= <- <-]|]. case_match; [done|].
  repeat case_match; intros [= <- <-]; try done. by apply inv_rip, invalidate_spec.
Qed.

Lemma skip_prefixes_spec pfx b rest k :
  Forall (fun b => is_prefix_byte b = true) pfx -> is_prefix_byte b = false ->
  skip_prefixes (pfx ++ b :: rest) k = Done (k + Z.of_nat (length pfx)).
Proof.
  intros Hp Hb. revert k. induction Hp as [|x pfx Hx _ IH]; intros k; cbn [app skip_prefixes length].
  - rewrite Hb. f_equal. lia.
  - rewrite Hx, IH. f_equal. lia.
Qed.

Lemma byte_after pfx rest k b :
  rest !! k = Some b -> byte_at (pfx ++ rest) (Z.of_nat (length pfx) + Z.of_nat k) = Done b.
Proof.
  intros Hk. unfold byte_at. replace (Z.to_nat _) with (length pfx + k)%nat by lia.
  by rewrite lookup_app_r, Nat.add_comm, Nat.add_sub, Hk by lia.
Qed.

Lemma read_length i m va count n bytes :
  read_guest_va_memory i m va count = Done (n, bytes) -> n = Z.of_nat (length bytes).
Proof.
  unfold read_guest_va_memory. destruct (read_loop _ _ _ _ _ _) as [dest| |]; [|done..]. run.
  by intros [= <- <-].
Qed.

Lemma u32_ulong x : u32 (ulong x) = u32 x.
Proof.
  pose proof bits_per_long_bounds. apply Z.mod_mod_divide.
  exists (2 ^ (BITS_PER_LONG the_arch - 32)). rewrite <- Z.pow_add_r by lia. f_equal. lia.
Qed.

(** C6. INVLPG on the address in a register takes the translation of that address away.
    When the guest, with paging on, executes INVLPG [reg], after any prefixes, the handler
    returns 0, skips the instruction, and the hardware no longer translates the address in
    the register; no other address gets a new translation, those with other entries keep
    theirs, and the shadow tables stay isolated. *)
Theorem invlpg_invalidates l s pfx rm reg rest :
  let info := info s in
  guarded l s -> mem_mode info = VIRTUAL_MEM -> cpu_mode info = PROTECTED ->
  shdw_pg_mode info = SHADOW_PAGING ->
  read_guest_va_memory info (hmem s) (get_addr_linear info (rip info) (cs (segments info))) 15 =
    Done (15, pfx ++ 0x0f :: 0x01 :: encode (Modrm.mk rm reg 0) :: rest) ->
  Forall (fun b => is_prefix_byte b = true) pfx ->
  is_u 3 rm -> is_u 3 reg -> rm <> 4 -> rm <> 5 ->
  is_Some (gpa_hva (regions_of info l) (GuestMem.guest_pd info)) ->
  exists s', v3_handle_shadow_invlpg s = Done (0, s') /\
    invalidated s s' (u32 (reg32 (vm_regs info) rm)) /\ guarded l s' /\
    rip (ShadowPaging.info s') = u64 (rip info + (Z.of_nat (length pfx) + 3)).
Proof.
  intros info0 (T & Hi & Hca) Hmem Hcpu Hpg Hread Hpfx Hrm Hreg H4 H5 [gpd Hgpd].
  unfold info0 in *. clear info0. pose proof (read_length _ _ _ _ _ _ Hread) as Hlen. unfold v3_handle_shadow_invlpg.
  rewrite !bool_decide_eq_false_2 by tauto. rewrite Hread. run.
  set (instr := pfx ++ _) in *. set (n := Z.of_nat (length pfx)).
  assert (skip_prefixes instr 0 = Done n) as -> by by apply skip_prefixes_spec.
  run. assert (byte_at instr n = Done 0x0f) as ->
    by (rewrite <- (Z.add_0_r n); by apply (byte_after _ _ 0)). run.
  assert (byte_at instr (n + 1) = Done 0x01) as -> by by apply (byte_after _ _ 1). run. rewrite cr3_page.
  assert (4096 * (u32 (guest_cr3 (shdw_pg_state (info s))) / 4096) = GuestMem.guest_pd (info s)) as ->
    by (unfold GuestMem.guest_pd; by rewrite Hpg).
  destruct (guest_pa_to_host_va_eq (info s) l (GuestMem.guest_pd (info s)) (inv_paged _ _ _ _ Hi))
    as (r & w & -> & Hr). rewrite Hgpd in Hr. destruct Hr as [-> ->]. run.
  set (code := fun k => nth _ instr 0).
  assert (code 0 = encode (Modrm.mk rm reg 0)) as Hc.
  { unfold code, instr. rewrite app_nth2 by lia.
    by replace (Z.to_nat (n + 2 + 0) - length pfx)%nat with 2%nat by lia. }
  assert (operand_reads32 code = 1) as ->.
  { unfold operand_reads32. rewrite Hc, decode_encode by solve_wf. cbn -[Z.eqb].
    by rewrite (proj2 (Z.eqb_neq _ _) H4), (proj2 (Z.eqb_neq _ _) H5). }
  rewrite (decode_operands32_mem _ code rm reg) by done. cbn [op_type first_operand op_length].
  assert (n + 2 + 1 >? 15 = false) as -> by (unfold instr in Hlen; rewrite length_app in Hlen;
    cbn [length] in Hlen; rewrite Z.gtb_ltb; apply Z.ltb_ge; lia).
  eexists. split; [done|].
  destruct (invalidate_spec T l s gpd (ulong (reg32 (vm_regs (info s)) rm)) Hi) as [Hi' Hiv].
  assert (u32 (ulong (reg32 (vm_regs (info s)) rm)) = u32 (reg32 (vm_regs (info s)) rm)) as Hu
    by apply u32_ulong.
  rewrite Hu in Hiv. split; [by destruct Hiv|]. split; [exists T; split; [by apply inv_rip|]|].
  { unfold pte_cache, invalidate. by repeat case_match. }
  cbn. f_equal. unfold invalidate. repeat case_match; cbn; lia.
Qed.

(** The state after a page fault. *)
Definition after_fault {Hem : MemEmulator} (a : Z) (err : pf_error) (s : vm) : vm :=
  match v3_handle_shadow_pagefault s a err with Done (_, s') => s' | _ => s end.

Lemma guarded_fault {Hem : MemEmulator} l s a err :
  mem_mode (info s) = VIRTUAL_MEM -> guarded l s -> guarded l (after_fault a err s).
Proof.
  intros Hm Hg. unfold after_fault.
  destruct (v3_handle_shadow_pagefault s a err) as [[r s']| |] eqn:E; [|done..].
  by eapply vm_step_guarded, Hg; eapply step_fault.
Qed.
End invlpg.

(** ** Witness

    The guest of ShadowPaging.v with INVLPG [[eax]] after an address-size prefix at 0x1000,
    once its page 1 is in the shadow tables. *)

Definition demo_regs (s : vm) : vm :=
  s <| info := (info s) <| rip := 0x1000 |> <| vm_regs := mk_v3_gprs 0 0 0 0 0 0 0 0x1010 |> |>.

Definition demo_code (s : vm) : vm :=
  s <| hmem := store8 (store8 (store8 (store8 (hmem s) 0x1021000 0x67) 0x1021001 0x0f)
                         0x1021002 0x01) 0x1021003 0x38 |>.

Definition demo_mapped : vm :=
  after_fault (A := V3_32BIT) (Hos := demo_host) (Hem := demo_emulate) 0x1010 demo_fault
    (after_fault (A := V3_32BIT) (Hos := demo_host) (Hem := demo_emulate) 0x1010 demo_fault
      (demo_regs (demo_code demo_vm))).

Lemma demo_mapped_guarded : guarded (A := V3_32BIT) (Hos := demo_host) [1; 2] demo_mapped.
Proof.
  pose proof (direct_map_ok 0x1000000) as Hok.
  apply (guarded_fault (Hok := Hok)); [by vm_compute|].
  apply (guarded_fault (Hok := Hok)); [done|].
  assert (forall k b s, guarded (A := V3_32BIT) (Hos := demo_host) [1; 2] s -> 0 <= k < PAGE_SIZE ->
    mem_map (info s) = mem_map (info demo_vm) ->
    guarded (A := V3_32BIT) (Hos := demo_host) [1; 2] (s <| hmem := store8 (hmem s) (0x1021000 + k) b |>))
    as Hb.
  { intros k b s Hs Hk Hm. eapply vm_step_guarded, Hs; try done.
    apply (step_write (A := V3_32BIT) (Hos := demo_host) (Hem := demo_emulate) [1; 2] s 0x21000 k b);
      [|done]. split; [done|].
    exists (mk_shadow_region GUEST_REGION_PHYSICAL_MEMORY 0x2000 0x4000
      HOST_REGION_PHYSICAL_MEMORY 0x20000 0 0), 0x3000.
    split_and!; [|done..]. unfold regions_of. rewrite Hm. right. by left. }
  assert (guarded (A := V3_32BIT) (Hos := demo_host) [1; 2] (demo_code demo_vm)) as (T & Hi & Hca).
  { pose proof (Hb 0 0x67 _ demo_guarded ltac:(done) eq_refl) as H.
    apply (Hb 1 0x0f) in H; [|done..]. apply (Hb 2 0x01) in H; [|done..].
    apply (Hb 3 0x38) in H; [|done..]. exact H. }
  exists T. split; [|exact Hca]. apply (inv_same _ _ _ (demo_code demo_vm)); [done..|]. apply Hi.
Qed.

Lemma invlpg_invalidates_witness :
  shadow_walk (Hos := demo_host) demo_mapped 0x1010 = Some 0x21010 /\
  exists s', v3_handle_shadow_invlpg (A := V3_32BIT) (Hos := demo_host) demo_mapped = Done (0, s') /\
    shadow_walk (Hos := demo_host) s' 0x1010 = None /\ rip (info s') = 0x1004.
Proof.
  split; [by vm_compute|].
  destruct (invlpg_invalidates (A := V3_32BIT) (Hos := demo_host) (Hok := direct_map_ok _) [1; 2]
    demo_mapped [0x67] 0 7 (repeat 0 11)) as (s' & Hs' & [Hgone _ _] & _ & Hrip).
  - apply demo_mapped_guarded.
  - by vm_compute.
  - by vm_compute.
  - by vm_compute.
  - by vm_compute.
  - by constructor.
  - done.
  - done.
  - done.
  - done.
  - eexists. by vm_compute.
  - exists s'. split; [done|]. split.
    + rewrite <- Hgone. f_equal.
    + rewrite Hrip. by vm_compute.
Defined.

End Invlpg.
