(* ===== verification/CtrlRegs.v ===== *)
(** Accesses of the guest to CR0 and CR3: vmm_ctrl_regs.c.

    With shadow paging the processor runs with a CR0 and a CR3 of the VMM while the guest
    sees its own.  [Module CtrlRegs] translates the four exit handlers: they fetch the
    instruction, decode it with [v3_decode] of Xed.v, and assign through the operand
    pointers.  The theorem shows the invariant between the registers of the processor and
    those of the guest over any sequence of accesses; Isolation.v shows what a new CR3 does
    to the shadow tables. *)
From stdpp Require Import base tactics numbers list gmap relations.
From S2P Require Import Prelude Chain Host MemMap Paging Intr Hashtable GuestInfo GuestMem Decoder.
From S2P Require Import ShadowPaging Invlpg Xed.

Module CtrlRegs.
Import Paging Hashtable GuestInfo GuestMem Decoder ShadowPaging Xed.

(** ** Assignments through pointers *)

Definition set_gpr (r : v3_gprs) (x : gpr_name) (v : Z) : v3_gprs :=
  match x with
  | RDI => r <| rdi := v |> | RSI => r <| rsi := v |> | RBP => r <| rbp := v |>
  | RSP => r <| rsp := v |> | RBX => r <| rbx := v |> | RDX => r <| rdx := v |>
  | RCX => r <| rcx := v |> | RAX => r <| rax := v |>
  end.

Definition set_ctrl (r : v3_ctrl_regs) (c : ctrl_name) (v : Z) : v3_ctrl_regs :=
  match c with
  | CTRL_RFLAGS => r <| rflags := v |> | CTRL_CR0 => r <| cr0 := v |>
  | CTRL_CR2 => r <| cr2 := v |> | CTRL_CR3 => r <| cr3 := v |>
  | CTRL_CR4 => r <| cr4 := v |> | CTRL_CR8 => r <| cr8 := v |>
  end.

(** Bits [lo] to [lo + w - 1] of a word replaced. *)
Definition put_field (x lo w v : Z) : Z := x + (v - field x lo w) * 2 ^ lo.

(** The [w] bits that a pointer points to, and their assignment.  The operand of an
    instruction in memory is an address of the guest, not a pointer. *)
Definition read_at (info : guest_info) (p : word) (w : Z) : outcome Z :=
  match p with
  | Ptr (Loc_gpr r off) => Done (field (get_gpr (vm_regs info) r) (8 * off) w)
  | Ptr Loc_rip => Done (field (rip info) 0 w)
  | Ptr (Loc_ctrl c) => Done (field (get_ctrl info c) 0 w)
  | _ => Undef
  end.

Definition write_at (info : guest_info) (p : word) (w v : Z) : outcome guest_info :=
  match p with
  | Ptr (Loc_gpr r off) =>
      Done (info <| vm_regs := set_gpr (vm_regs info) r
              (put_field (get_gpr (vm_regs info) r) (8 * off) w v) |>)
  | Ptr Loc_rip => Done (info <| rip := put_field (rip info) 0 w v |>)
  | Ptr (Loc_ctrl c) =>
      Done (info <| ctrl_regs := set_ctrl (ctrl_regs info) c (put_field (get_ctrl info c) 0 w v) |>)
  | _ => Undef
  end.

Definition upd_cr0 (info : guest_info) (f : Z -> Z) : guest_info :=
  info <| ctrl_regs := (ctrl_regs info) <| cr0 := f (cr0 (ctrl_regs info)) |> |>.
Definition upd_guest_cr0 (info : guest_info) (f : Z -> Z) : guest_info :=
  info <| shdw_pg_state := (shdw_pg_state info) <| guest_cr0 := f (guest_cr0 (shdw_pg_state info)) |> |>.
Definition set_cr3 (info : guest_info) (v : Z) : guest_info :=
  info <| ctrl_regs := (ctrl_regs info) <| cr3 := v |> |>.

(** A member of the [struct cr0_32] or [struct cr3_32] that a register holds. *)
Definition upd_cr0_32 (f : Cr0.cr0_32 -> Cr0.cr0_32) (r : Z) : Z := set_low32 r (f (low32 r)).
Definition upd_cr3_32 (f : Cr3.cr3_32 -> Cr3.cr3_32) (r : Z) : Z := set_low32 r (f (low32 r)).

(** The low byte: [&= 0xf0], then [|= v]. *)
Definition lmsw_byte (v r : Z) : Z := put_field r 0 8 (Z.lor (Z.land (field r 0 8) 0xf0) v).

Section ctrl_regs.
Context {A : Arch} {Hos : OsHooks} {Hx : XedLib}.

(** What the variables [instr] and [dec_instr] of the handlers held before. *)
Context (instr0 : list Z) (dec0 : x86_instr).

(** The instruction at the guest's instruction pointer; a short read is not noticed. *)
Definition fetch (s : vm) : outcome (list Z) :=
  let addr := get_addr_linear (info s) (rip (info s)) (cs (segments (info s))) in
  '(_, bytes) ← (match mem_mode (info s) with
                 | PHYSICAL_MEM => read_guest_pa_memory (info s) (hmem s) addr 15
                 | VIRTUAL_MEM => read_guest_va_memory (info s) (hmem s) addr 15
                 end);
  Done (bytes ++ drop (length bytes) instr0).

Definition is_op (op : list Z) (dec_instr : x86_instr) : outcome bool :=
  match opcode dec_instr with
  | Some o => Done (v3_opcode_cmp op o =? 0)
  | None => Undef
  end.

(** Fetch and decode, and the handler proper, which gets the decoded instruction; then the
    instruction is skipped. *)
Definition emulate (decoder_state : xed_state) (s : vm)
    (handler : x86_instr -> vm -> outcome (Z * vm)) : outcome (Z * xed_state * vm) :=
  instr ← fetch s;
  '(r, decoder_state, dec_instr) ← v3_decode (info s) decoder_state instr dec0;
  if r =? -1 then Done (-1, decoder_state, s) else
  '(r, s) ← handler dec_instr s;
  if r =? -1 then Done (-1, decoder_state, s) else
  Done (0, decoder_state, s <| info := (info s) <| rip := u64 (rip (info s) + instr_length dec_instr) |> |>).

Definition cr0_lmsw (dec_instr : x86_instr) (info : guest_info) : outcome guest_info :=
  b ← read_at info (operand (src_operand dec_instr)) 8;
  let new_cr0_val := Z.land b 0x0f in
  let info := upd_cr0 info (lmsw_byte new_cr0_val) in
  Done (match shdw_pg_mode info with
        | SHADOW_PAGING => upd_guest_cr0 info (lmsw_byte new_cr0_val)
        | NESTED_PAGING => info
        end).

(** The page tables for the new mode. *)
Definition select_tables (info : guest_info) : guest_info :=
  match v3_get_mem_mode info with
  | VIRTUAL_MEM => set_cr3 info (ulong (shadow_cr3 (shdw_pg_state info)))
  | PHYSICAL_MEM =>
      upd_cr0 (set_cr3 info (ulong (direct_map_pt info))) (upd_cr0_32 (fun c => c <| Cr0.pg := 1 |>))
  end.

Definition cr0_mov (dec_instr : x86_instr) (info : guest_info) : outcome guest_info :=
  if decide (cpu_mode info = LONG) then Done info else
  let new_cr0 info := w ← read_at info (operand (src_operand dec_instr)) 32; Done (decode w) in
  new ← new_cr0 info;
  let info := upd_cr0 info (upd_cr0_32 (fun _ => new)) in
  match shdw_pg_mode info with
  | SHADOW_PAGING =>
      let info := upd_cr0 info (upd_cr0_32 (fun c => c <| Cr0.et := 1 |>)) in
      new ← new_cr0 info;
      let info := upd_guest_cr0 info (upd_cr0_32 (fun _ => new)) in
      let info := upd_guest_cr0 info (upd_cr0_32 (fun c => c <| Cr0.et := 1 |>)) in
      Done (select_tables info)
  | NESTED_PAGING => Done info
  end.

Definition cr0_clts (info : guest_info) : guest_info :=
  let info := upd_cr0 info (upd_cr0_32 (fun c => c <| Cr0.ts := 0 |>)) in
  match shdw_pg_mode info with
  | SHADOW_PAGING => upd_guest_cr0 info (upd_cr0_32 (fun c => c <| Cr0.ts := 0 |>))
  | NESTED_PAGING => info
  end.

Definition cr0_write (dec_instr : x86_instr) (s : vm) : outcome (Z * vm) :=
  lmsw ← is_op V3_OPCODE_LMSW dec_instr;
  if lmsw : bool then i ← cr0_lmsw dec_instr (info s); Done (0, s <| info := i |>) else
  mov ← is_op V3_OPCODE_MOV2CR dec_instr;
  if mov : bool then i ← cr0_mov dec_instr (info s); Done (0, s <| info := i |>) else
  clts ← is_op V3_OPCODE_CLTS dec_instr;
  if clts : bool then Done (0, s <| info := cr0_clts (info s) |>) else Done (-1, s).

Definition v3_handle_cr0_write (decoder_state : xed_state) (s : vm) : outcome (Z * xed_state * vm) :=
  emulate decoder_state s cr0_write.

Definition cr0_read (dec_instr : x86_instr) (s : vm) : outcome (Z * vm) :=
  movcr ← is_op V3_OPCODE_MOVCR2 dec_instr;
  if movcr : bool then
    i ← write_at (info s) (operand (dst_operand dec_instr)) 32 (u32 (visible_cr0 (info s)));
    Done (0, s <| info := i |>)
  else
  smsw ← is_op V3_OPCODE_SMSW dec_instr;
  if smsw : bool then
    let virt_cr0 := operand (dst_operand dec_instr) in
    let cr0_val := Z.land (field (cr0 (ctrl_regs (info s))) 0 8) 0x0f in
    b ← read_at (info s) virt_cr0 8;
    i ← write_at (info s) virt_cr0 8 (Z.land b 0xf0);
    b ← read_at i virt_cr0 8;
    i ← write_at i virt_cr0 8 (Z.lor b cr0_val);
    Done (0, s <| info := i |>)
  else Done (-1, s).

Definition v3_handle_cr0_read (decoder_state : xed_state) (s : vm) : outcome (Z * xed_state * vm) :=
  emulate decoder_state s cr0_read.

Definition set_shadow_cr3 (s : vm) (f : Cr3.cr3_32 -> Cr3.cr3_32) : vm :=
  set_shdw s (fun st => st <| shadow_cr3 := upd_cr3_32 f (shadow_cr3 st) |>).

(** The shadow tables of a new CR3: the old ones go while paging is on. *)
Definition renew_shadow (s : vm) : outcome vm :=
  let s := match mem_mode (info s) with
           | VIRTUAL_MEM => s <| pool := delete_page_tables_pde32 (hmem s) (pool s)
                                (CR3_TO_PDE32 (u32 (shadow_cr3 (shdw_pg_state (info s))))) |>
           | PHYSICAL_MEM => s
           end in
  '(shadow_pt, s) ← v3_create_new_shadow_pt32 s;
  Done (set_shadow_cr3 s (fun c => c <| Cr3.pdt_base_addr := wrap 20 (V3_PAddr (PD32_BASE_ADDR shadow_pt)) |>)).

(** [ok], [ok_pd] and [ok_pt] are the results of V3_Malloc in v3_cache_page_tables32. *)
Context (ok : bool * bool) (ok_pd : bool * bool * bool) (ok_pt : Z -> bool * bool * bool).

Definition cr3_write (dec_instr : x86_instr) (s : vm) : outcome (Z * vm) :=
  mov ← is_op V3_OPCODE_MOV2CR dec_instr;
  if negb mov then Done (-1, s) else
  match shdw_pg_mode (info s) with
  | NESTED_PAGING => Done (0, s)
  | SHADOW_PAGING =>
      let new_cr3 := operand (src_operand dec_instr) in
      let new s : outcome Cr3.cr3_32 := w ← read_at (info s) new_cr3 32; Done (decode w) in
      v ← read_long (info s) (Some new_cr3);
      '(cached, s) ← v3_cache_page_tables32 ok ok_pd ok_pt s (V3_PAddr (CR3_TO_PDE32 v));
      if cached =? -1 then Done (-1, s) else
      s ← (if cached =? 0 then renew_shadow s else Done s);
      n ← new s;
      let s := set_shadow_cr3 s (fun c => c <| Cr3.pwt := Cr3.pwt n |>) in
      n ← new s;
      let s := set_shadow_cr3 s (fun c => c <| Cr3.pcd := Cr3.pcd n |>) in
      n ← new s;
      let s := set_shdw s (fun st => st <| guest_cr3 := upd_cr3_32 (fun _ => n) (guest_cr3 st) |>) in
      Done (0, match mem_mode (info s) with
               | VIRTUAL_MEM => s <| info := set_cr3 (info s) (ulong (shadow_cr3 (shdw_pg_state (info s)))) |>
               | PHYSICAL_MEM => s
               end)
  end.

Definition v3_handle_cr3_write (decoder_state : xed_state) (s : vm) : outcome (Z * xed_state * vm) :=
  emulate decoder_state s cr3_write.

(** The register the guest believes to be CR3. *)
Definition visible_cr3 (info : guest_info) : Z :=
  match shdw_pg_mode info with
  | SHADOW_PAGING => guest_cr3 (shdw_pg_state info)
  | NESTED_PAGING => cr3 (ctrl_regs info)
  end.

Definition cr3_read (dec_instr : x86_instr) (s : vm) : outcome (Z * vm) :=
  movcr ← is_op V3_OPCODE_MOVCR2 dec_instr;
  if movcr : bool then
    i ← write_at (info s) (operand (dst_operand dec_instr)) 32 (u32 (visible_cr3 (info s)));
    Done (0, s <| info := i |>)
  else Done (-1, s).

Definition v3_handle_cr3_read (decoder_state : xed_state) (s : vm) : outcome (Z * xed_state * vm) :=
  emulate decoder_state s cr3_read.

End ctrl_regs.

(** ** What the assignments change *)

Lemma cr0_upd_cr0 i f : cr0 (ctrl_regs (upd_cr0 i f)) = f (cr0 (ctrl_regs i)).
Proof. done. Qed.
Lemma cr0_upd_guest i f : cr0 (ctrl_regs (upd_guest_cr0 i f)) = cr0 (ctrl_regs i).
Proof. done. Qed.
Lemma cr0_set_cr3 i v : cr0 (ctrl_regs (set_cr3 i v)) = cr0 (ctrl_regs i).
Proof. done. Qed.
Lemma guest_upd_cr0 i f : guest_cr0 (shdw_pg_state (upd_cr0 i f)) = guest_cr0 (shdw_pg_state i).
Proof. done. Qed.
Lemma guest_upd_guest i f :
  guest_cr0 (shdw_pg_state (upd_guest_cr0 i f)) = f (guest_cr0 (shdw_pg_state i)).
Proof. done. Qed.
Lemma guest_set_cr3 i v : guest_cr0 (shdw_pg_state (set_cr3 i v)) = guest_cr0 (shdw_pg_state i).
Proof. done. Qed.

Ltac cr_simpl :=
  rewrite ?cr0_upd_cr0, ?cr0_upd_guest, ?cr0_set_cr3, ?guest_upd_cr0, ?guest_upd_guest, ?guest_set_cr3.

(** ** The words of the registers *)

Lemma low32_upd_cr0 f r : bs_wf (f (low32 r)) -> low32 (upd_cr0_32 f r) = f (low32 r).
Proof. intros Hf. by apply set_low32_low. Qed.

Lemma low32_upd_cr3 f r : bs_wf (f (low32 r)) -> low32 (upd_cr3_32 f r) = f (low32 r).
Proof. intros Hf. by apply set_low32_low. Qed.

(** LMSW replaces the low four bits. *)
Lemma lmsw_word v r : is_u 4 v -> u32 (lmsw_byte v r) = 16 * (u32 r / 16) + v.
Proof.
  intros [Hv1 Hv2]. unfold lmsw_byte, put_field. rewrite !field_0.
  pose proof (Z.mod_pos_bound r 256 ltac:(done)) as Hb. change (2 ^ 8) with 256.
  assert (Z.land (r mod 256) 0xf0 = r mod 256 / 16 * 2 ^ 4) as ->.
  { rewrite Z.mul_comm. apply (land_high (r mod 256) 4 4); [done..|]. split; [lia|]. cbn. lia. }
  rewrite Z.lor_comm, lor_disjoint by done. rewrite Z.mul_1_r. change (2 ^ 4) with 16.
  assert (r / 16 = 16 * (r / 256) + r mod 256 / 16) as Hq.
  { rewrite (Z.div_mod r 256) at 1 by done.
    replace (256 * (r / 256) + r mod 256) with (r mod 256 + 16 * (r / 256) * 16) by lia.
    rewrite Z.div_add by done. lia. }
  assert (u32 r / 16 = r / 16 mod 2 ^ 28) as ->.
  { pose proof (Z.div_mod r 16 ltac:(done)). pose proof (Z.mod_pos_bound r 16 ltac:(done)).
    pose proof (Z.div_mod (r / 16) (2 ^ 28) ltac:(done)).
    pose proof (Z.mod_pos_bound (r / 16) (2 ^ 28) ltac:(done)).
    assert (16 * (r / 16 mod 2 ^ 28) + r mod 16 = u32 r) as <-.
    { apply (Z.mod_unique _ _ (r / 16 / 2 ^ 28)); [left; lia|]. change (2 ^ 32) with (16 * 2 ^ 28). lia. }
    symmetry. apply (Z.div_unique _ _ _ (r mod 16)); [left; lia|done]. }
  pose proof (Z.div_mod r 256 ltac:(done)). pose proof (Z.div_mod (r / 16) (2 ^ 28) ltac:(done)).
  unfold wrap. symmetry. apply (Z.mod_unique _ _ (r / 16 / 2 ^ 28)).
  - left. pose proof (Z.mod_pos_bound (r / 16) (2 ^ 28) ltac:(done)). lia.
  - change (2 ^ 32) with (16 * 2 ^ 28). lia.
Qed.

(** The machine status word of LMSW in a [struct cr0_32]. *)
Definition with_msw (v : Z) (c : Cr0.cr0_32) : Cr0.cr0_32 :=
  c <| Cr0.pe := field v 0 1 |> <| Cr0.mp := field v 1 1 |> <| Cr0.em := field v 2 1 |>
    <| Cr0.ts := field v 3 1 |>.

Lemma low32_lmsw v r : is_u 4 v -> low32 (lmsw_byte v r) = with_msw v (low32 r).
Proof.
  intros Hv. unfold low32. rewrite lmsw_word by done. set (q := u32 r).
  assert (forall lo w, 4 <= lo -> field (16 * (q / 16) + v) lo w = field q lo w) as Hhi.
  { intros lo w Hlo. unfold field. f_equal.
    replace (2 ^ lo) with (16 * 2 ^ (lo - 4)) by (rewrite <- (Z.pow_add_r 2 4) by lia; f_equal; lia).
    rewrite <- !Z.div_div by lia. f_equal. rewrite Z.mul_comm, Z.div_add_l by done.
    rewrite (Z.div_small v) by exact Hv. lia. }
  assert (forall lo, 0 <= lo < 4 -> field (16 * (q / 16) + v) lo 1 = field v lo 1) as Hlo.
  { intros lo Hr. unfold field.
    replace (16 * (q / 16) + v) with (v + q / 16 * 2 ^ (3 - lo) * 2 * 2 ^ lo).
    - rewrite Z.div_add by lia. by rewrite Z.mod_add.
    - replace (q / 16 * 2 ^ (3 - lo) * 2 * 2 ^ lo) with (q / 16 * (2 ^ (3 - lo) * 2 ^ 1 * 2 ^ lo)) by lia.
      rewrite <- !Z.pow_add_r by lia. replace (3 - lo + 1 + lo) with 4 by lia. lia. }
  unfold decode, with_msw. cbn -[field Z.div Z.mul Z.add]. rewrite !Hlo, !Hhi by lia. done.
Qed.

(** ** The registers of the processor and those of the guest *)

(** The CR0 of the processor has paging on and the other bits of the guest's.  Unless they
    are compared exactly, the bits NW and CD that control the caches may differ, as they do
    until the guest first writes CR0. *)
Definition in_step (exact : bool) (c g : Cr0.cr0_32) : Prop :=
  if exact then c = g <| Cr0.pg := 1 |>
  else c = g <| Cr0.pg := 1 |> <| Cr0.nw := Cr0.nw c |> <| Cr0.cd := Cr0.cd c |>.

Lemma in_step_mov e c : in_step e (c <| Cr0.pg := 1 |>) c.
Proof. by destruct e, c. Qed.

Lemma in_step_lmsw e v c g : in_step e c g -> in_step e (with_msw v c) (with_msw v g).
Proof. destruct e; cbn [in_step]; [by intros ->|]. destruct c, g. by intros [= -> -> -> -> -> -> -> -> -> -> -> ->]. Qed.

Lemma in_step_clts e c g : in_step e c g -> in_step e (c <| Cr0.ts := 0 |>) (g <| Cr0.ts := 0 |>).
Proof. destruct e; cbn [in_step]; [by intros ->|]. destruct c, g. by intros [= -> -> -> -> -> -> -> -> -> -> -> ->]. Qed.

Lemma in_step_pg e c g : in_step e c g -> Cr0.pg c = 1.
Proof. destruct e; cbn [in_step]; by intros ->. Qed.

(** With shadow paging the processor has paging on and is in step with the guest's CR0; its
    page tables are the shadow tables while the guest has paging on, and the direct map
    otherwise. *)
Record synced {A : Arch} (exact : bool) (i : guest_info) : Prop := {
  sync_mode : shdw_pg_mode i = SHADOW_PAGING;
  sync_cr0 : in_step exact (low32 (cr0 (ctrl_regs i))) (low32 (guest_cr0 (shdw_pg_state i)));
  sync_cr3 : cr3 (ctrl_regs i) =
    match v3_get_mem_mode i with
    | VIRTUAL_MEM => ulong (shadow_cr3 (shdw_pg_state i))
    | PHYSICAL_MEM => ulong (direct_map_pt i)
    end;
}.

Section synced.
Context {A : Arch} {e : bool}.

Lemma get_mem_mode_shadow i :
  shdw_pg_mode i = SHADOW_PAGING ->
  v3_get_mem_mode i =
    if Cr0.pg (low32 (guest_cr0 (shdw_pg_state i))) =? 0 then PHYSICAL_MEM else VIRTUAL_MEM.
Proof. intros Hm. unfold v3_get_mem_mode, visible_cr0. by rewrite Hm. Qed.

Lemma cr0_low_pg r : is_u 1 (Cr0.pg (low32 r)).
Proof. by apply field_range. Qed.

Lemma land_nibble b : is_u 4 (Z.land b 0x0f).
Proof.
  change 0x0f with (Z.ones 4). rewrite Z.land_ones by done. by apply Z.mod_pos_bound.
Qed.

Lemma lmsw_synced dec i i' : synced e i -> cr0_lmsw dec i = Done i' -> synced e i'.
Proof.
  intros [Hm H0 H3]. unfold cr0_lmsw. destruct (read_at _ _ _) as [b| |]; [|done..]. run.
  change (shdw_pg_mode (upd_cr0 i _)) with (shdw_pg_mode i). rewrite Hm. intros [= <-].
  set (v := Z.land b 0x0f). assert (is_u 4 v) as Hv by apply land_nibble.
  set (i' := upd_guest_cr0 _ _).
  assert (low32 (guest_cr0 (shdw_pg_state i')) = with_msw v (low32 (guest_cr0 (shdw_pg_state i)))) as Hg
    by by apply low32_lmsw.
  split; [done| |].
  - rewrite Hg. change (cr0 (ctrl_regs i')) with (lmsw_byte v (cr0 (ctrl_regs i))).
    rewrite low32_lmsw by done. by apply in_step_lmsw.
  - rewrite get_mem_mode_shadow in H3 |- * by done. by rewrite Hg.
Qed.

Lemma clts_synced i : synced e i -> synced e (cr0_clts i).
Proof.
  intros [Hm H0 H3]. unfold cr0_clts. change (shdw_pg_mode (upd_cr0 i _)) with (shdw_pg_mode i).
  rewrite Hm. set (i' := upd_guest_cr0 _ _). set (f := fun c => c <| Cr0.ts := 0 |>).
  assert (forall r, low32 (upd_cr0_32 f r) = f (low32 r)) as Hf.
  { intros r. apply low32_upd_cr0. pose proof (decode_wf (T := Cr0.cr0_32) (u32 r)) as Hwf.
    unfold low32. revert Hwf. generalize (decode (T := Cr0.cr0_32) (u32 r)). unfold f. wf_entry. }
  assert (low32 (guest_cr0 (shdw_pg_state i')) = f (low32 (guest_cr0 (shdw_pg_state i)))) as Hg by apply Hf.
  split; [done| |].
  - rewrite Hg. change (cr0 (ctrl_regs i')) with (upd_cr0_32 f (cr0 (ctrl_regs i))).
    rewrite Hf. by apply in_step_clts.
  - rewrite get_mem_mode_shadow in H3 |- * by done. by rewrite Hg.
Qed.

Lemma cr0_wf (f : Cr0.cr0_32 -> Cr0.cr0_32) r : keeps_wf f -> low32 (upd_cr0_32 f r) = f (low32 r).
Proof. intros Hf. by apply low32_upd_cr0, Hf, decode_wf. Qed.

Lemma upd_cr0_synced i f (c : Cr0.cr0_32) :
  shdw_pg_mode i = SHADOW_PAGING -> low32 (f (cr0 (ctrl_regs i))) = c <| Cr0.pg := 1 |> ->
  low32 (guest_cr0 (shdw_pg_state i)) = c ->
  cr3 (ctrl_regs i) = match v3_get_mem_mode i with
                      | VIRTUAL_MEM => ulong (shadow_cr3 (shdw_pg_state i))
                      | PHYSICAL_MEM => ulong (direct_map_pt i)
                      end ->
  synced e (upd_cr0 i f).
Proof.
  intros Hm H0 Hg H3. split; [done| |].
  - change (in_step e (low32 (f (cr0 (ctrl_regs i)))) (low32 (guest_cr0 (shdw_pg_state i)))).
    rewrite Hg, H0. apply in_step_mov.
  - rewrite get_mem_mode_shadow in H3 |- * by done. done.
Qed.

Lemma select_tables_synced i (c : Cr0.cr0_32) :
  shdw_pg_mode i = SHADOW_PAGING -> low32 (cr0 (ctrl_regs i)) = c ->
  low32 (guest_cr0 (shdw_pg_state i)) = c -> synced e (select_tables i).
Proof.
  intros Hm H0 Hg. pose proof (cr0_low_pg (cr0 (ctrl_regs i))) as Hu. rewrite H0 in Hu.
  unfold select_tables. rewrite (get_mem_mode_shadow i Hm), Hg.
  destruct (Z.eqb_spec (Cr0.pg c) 0) as [Hpg|Hpg].
  - apply (upd_cr0_synced _ _ c); [done| |done|].
    + rewrite cr0_wf by keep_wf.
      change (cr0 (ctrl_regs (set_cr3 i _))) with (cr0 (ctrl_regs i)). by rewrite H0.
    + rewrite get_mem_mode_shadow by done.
      change (guest_cr0 (shdw_pg_state (set_cr3 i _))) with (guest_cr0 (shdw_pg_state i)).
      by rewrite Hg, Hpg.
  - assert (Cr0.pg c = 1) as Hc by (unfold is_u in Hu; lia). split; [done| |].
    + change (in_step e (low32 (cr0 (ctrl_regs i))) (low32 (guest_cr0 (shdw_pg_state i)))).
      assert (c = c <| Cr0.pg := 1 |>) as Hcc by (rewrite <- Hc; by destruct c).
      rewrite H0, Hg. rewrite Hcc at 1. apply in_step_mov.
    + rewrite get_mem_mode_shadow by done.
      change (guest_cr0 (shdw_pg_state (set_cr3 i _))) with (guest_cr0 (shdw_pg_state i)).
      by rewrite Hg, Hc.
Qed.

Lemma mov_synced dec i i' : is_gpr_ptr (operand (src_operand dec)) -> synced e i -> cr0_mov dec i = Done i' -> synced e i'.
Proof.
  intros (r & off & Hsrc) Hi. unfold cr0_mov. rewrite Hsrc. case_match; [by intros [= <-]|].
  pose proof (sync_mode _ _ Hi) as Hm. cbn [read_at]. run.
  change (shdw_pg_mode (upd_cr0 i ?f)) with (shdw_pg_mode i). rewrite Hm. run.
  change (vm_regs (upd_cr0 (upd_cr0 i _) _)) with (vm_regs i).
  generalize (field (get_gpr (vm_regs i) r) (8 * off) 32). intros w Hd.
  apply (f_equal (fun o => match o with Done x => x | _ => i end)) in Hd. cbv beta iota in Hd. subst i'.
  generalize (decode_wf (T := Cr0.cr0_32) w). generalize (decode w : Cr0.cr0_32). intros new Hw.
  set (et := fun c => c <| Cr0.et := 1 |>).
  assert (forall x, low32 (upd_cr0_32 et (upd_cr0_32 (fun _ => new) x)) = et new) as Het.
  { intros x. rewrite cr0_wf by (unfold et; keep_wf). by rewrite low32_upd_cr0. }
  apply (select_tables_synced _ (et new)); [exact Hm|cr_simpl; apply Het..].
Qed.

End synced.

(** ** What v3_cache_page_tables32 changes *)

(** The state but for the cache of the guest's page tables. *)
Definition recached (s s' : vm) : Prop :=
  exists c p, s' = set_shdw s (fun st => st <| cached_cr3 := c |> <| cached_ptes := p |>).

Lemma recached_refl s : recached s s.
Proof.
  exists (cached_cr3 (shdw_pg_state (info s))), (cached_ptes (shdw_pg_state (info s))).
  by destruct s as [[? ? ? ? [] ? ? ? ? ? ? ? ? ? ?] ? ? ? ?].
Qed.

Lemma recached_trans s1 s2 s3 : recached s1 s2 -> recached s2 s3 -> recached s1 s3.
Proof. intros (c & p & ->) (c' & p' & ->). by exists c', p'. Qed.

Lemma recached_cache s p : recached s (set_shdw s (fun st => st <| cached_ptes := p |>)).
Proof.
  exists (cached_cr3 (shdw_pg_state (info s))), p.
  by destruct s as [[? ? ? ? [] ? ? ? ? ? ? ? ? ? ?] ? ? ? ?].
Qed.

Section cache.
Context {A : Arch} {Hos : OsHooks}.

Lemma add_pte_map_recached ok s k v s' :
  add_pte_map ok s k v = Done s' ->
  recached s s' /\ is_Some (cached_ptes (shdw_pg_state (info s'))).
Proof.
  unfold add_pte_map. destruct (cached_ptes _) as [h|]; [|done]. destruct ok as [[ok1 ok2] ok3].
  destruct (hashtable_insert _ _ _ _ _ _) as [[r h']| |]; [|done..]. run. intros [= <-].
  split; [apply recached_cache|by eexists].
Qed.

Lemma cache_loop_recached n ok : forall s pd i r s',
  is_Some (cached_ptes (shdw_pg_state (info s))) -> cache_loop n ok s pd i = Done (r, s') ->
  recached s s' /\ is_Some (cached_ptes (shdw_pg_state (info s'))).
Proof.
  induction n as [|n IH]; intros s pd i r s' Hs; cbn [cache_loop].
  - intros [= <- <-]. split; [apply recached_refl|done].
  - destruct (_ && _); [|by apply IH].
    destruct (guest_pa_to_host_va _ _) as [[r' a]| |]; [|done..]. run.
    destruct (r' =? -1); [intros [= <- <-]; split; [apply recached_refl|done]|].
    destruct (add_pte_map _ _ _ _) as [s1| |] eqn:E; [|done..]. run. intros Hl.
    apply add_pte_map_recached in E as [H1 H2]. apply IH in Hl as [H3 H4]; [|done].
    split; [by eapply recached_trans|done].
Qed.

Lemma cache_recached ok ok_pd ok_pt s pde r s' :
  v3_cache_page_tables32 ok ok_pd ok_pt s pde = Done (r, s') ->
  recached s s' /\
  (r <> -1 -> is_Some (cached_ptes (shdw_pg_state (info s))) ->
   is_Some (cached_ptes (shdw_pg_state (info s')))).
Proof.
  unfold v3_cache_page_tables32. case_cmp; [intros [= <- <-]; split; [apply recached_refl|done]|].
  set (s1 := set_shdw _ _). assert (recached s s1) as H1 by by eexists _, _.
  destruct (guest_pa_to_host_va _ _) as [[r' a]| |]; [|done..]. run.
  destruct (r' =? -1); [intros [= <- <-]; split; [done|by intros []]|].
  destruct (add_pte_map _ _ _ _) as [s2| |] eqn:E; [|done..]. run.
  apply add_pte_map_recached in E as [H2 H3]. intros Hl.
  apply cache_loop_recached in Hl as [H4 H5]; [|done].
  split; [|done]. eapply recached_trans; [exact H1|]. by eapply recached_trans.
Qed.

End cache.

(** ** The exit handlers keep the registers in step *)

(** The modes that the exit handler records before it calls the others. *)
Definition exit_modes (s : vm) : vm :=
  s <| info := (info s) <| cpu_mode := v3_get_cpu_mode (info s) |>
                        <| mem_mode := v3_get_mem_mode (info s) |> |>.

Section steps.
Context {A : Arch} {Hos : OsHooks} {Hx : XedLib} {Hxok : XedLibOk} {e : bool}.

(** What a guest does between exits: it changes its memory and its registers, but for CR0
    and CR3, whose changes the processor intercepts. *)
Definition guest_runs (s s' : vm) : Prop :=
  exists m regs ip pl sg c2 c4 c8 fl ef,
    s' = s <| hmem := m |>
           <| info := (info s) <| vm_regs := regs |> <| rip := ip |> <| cpl := pl |>
                <| segments := sg |>
                <| ctrl_regs := (ctrl_regs (info s)) <| cr2 := c2 |> <| cr4 := c4 |>
                     <| cr8 := c8 |> <| rflags := fl |> <| efer := ef |> |> |>.

(** The exit is due to a read of CR0, which LMSW is not. *)
Definition not_lmsw (instr0 : list Z) (st : xed_state) (s : vm) : Prop :=
  forall bytes x, fetch instr0 s = Done bytes ->
    xed_decode (snd (set_decoder_mode (info s) st)) bytes = Some x ->
    xed_iform x <> XED_IFORM_LMSW_GPR16.

(** The exits of the guest that its accesses cause, with the state of the decoder; an exit
    that fails stops the guest. *)
Inductive cr_exit : xed_state * vm -> xed_state * vm -> Prop :=
| exit_cr0_write i0 d0 st s r st' s' :
    v3_handle_cr0_write i0 d0 st (exit_modes s) = Done (r, st', s') -> r <> -1 ->
    cr_exit (st, s) (st', s')
| exit_cr0_read i0 d0 st s r st' s' :
    not_lmsw i0 st (exit_modes s) ->
    v3_handle_cr0_read i0 d0 st (exit_modes s) = Done (r, st', s') -> r <> -1 ->
    cr_exit (st, s) (st', s')
| exit_cr3_write i0 d0 ok ok_pd ok_pt st s r st' s' :
    v3_handle_cr3_write i0 d0 ok ok_pd ok_pt st (exit_modes s) = Done (r, st', s') -> r <> -1 ->
    cr_exit (st, s) (st', s')
| exit_cr3_read i0 d0 st s r st' s' :
    v3_handle_cr3_read i0 d0 st (exit_modes s) = Done (r, st', s') -> r <> -1 ->
    cr_exit (st, s) (st', s').

Inductive cr_step : xed_state * vm -> xed_state * vm -> Prop :=
| step_run st s s' : guest_runs s s' -> cr_step (st, s) (st, s')
| step_exit a b : cr_exit a b -> cr_step a b.

(** The registers that [synced] is about. *)
Lemma synced_same (i i' : guest_info) :
  shdw_pg_mode i' = shdw_pg_mode i -> cr0 (ctrl_regs i') = cr0 (ctrl_regs i) ->
  cr3 (ctrl_regs i') = cr3 (ctrl_regs i) ->
  guest_cr0 (shdw_pg_state i') = guest_cr0 (shdw_pg_state i) ->
  shadow_cr3 (shdw_pg_state i') = shadow_cr3 (shdw_pg_state i) ->
  direct_map_pt i' = direct_map_pt i -> synced e i -> synced e i'.
Proof.
  intros H1 H2 H3 H4 H5 H6 [Hm H0 Hc]. rewrite get_mem_mode_shadow in Hc by done. split.
  - by rewrite H1.
  - by rewrite H2, H4.
  - rewrite get_mem_mode_shadow by congruence. by rewrite H3, H4, H5, H6.
Qed.

Lemma emulate_done i0 d0 st s h r st' s' :
  emulate i0 d0 st s h = Done (r, st', s') ->
  s' = s \/
  exists bytes x dec z s1,
    fetch i0 s = Done bytes /\ snd (set_decoder_mode (info s) st) = st' /\
    xed_decode st' bytes = Some x /\ decoded x dec /\ h dec s = Done (z, s1) /\
    ((r = -1 /\ s' = s1) \/
     (r = 0 /\ z <> -1 /\
      s' = s1 <| info := (info s1) <| rip := u64 (rip (info s1) + xed_length x) |> |>)).
Proof.
  unfold emulate. destruct (fetch i0 s) as [bytes| |] eqn:Hf; [|done..]. run.
  destruct (v3_decode _ _ _ _) as [[[r0 st0] dec]| |] eqn:Hd; [|done..]. run.
  destruct (decode_result _ _ _ _ _ _ _ Hd) as [-> | ->]; run; [|intros [= _ _ <-]; by left].
  destruct (decode_done _ _ _ _ _ _ Hd) as (Hst & x & Hxd & Hdec).
  destruct (h dec s) as [[z s1]| |] eqn:Hh; [|done..]. run.
  destruct (Z.eqb_spec z (-1)) as [Hz|Hz]; intros [= <- <- <-]; right; exists bytes, x, dec, z, s1.
  - split_and!; [done..|]. by left.
  - split_and!; [done..|]. right. by rewrite (dec_length _ _ Hdec).
Qed.

(** The opcode that v3_decode reports tells the form of the instruction. *)
Lemma is_op_mov_to x dec :
  decoded x dec -> is_op V3_OPCODE_MOV2CR dec = Done true ->
  xed_iform x = XED_IFORM_MOV_CR_CR_GPR64 \/ xed_iform x = XED_IFORM_MOV_CR_CR_GPR32.
Proof.
  intros [Ho _ _ _]. unfold is_op. revert Ho.
  destruct (xed_iform x); intros [= <-]; try done; [by left|by right].
Qed.

Lemma is_op_mov_from x dec :
  decoded x dec -> is_op V3_OPCODE_MOVCR2 dec = Done true ->
  xed_iform x = XED_IFORM_MOV_CR_GPR64_CR \/ xed_iform x = XED_IFORM_MOV_CR_GPR32_CR.
Proof.
  intros [Ho _ _ _]. unfold is_op. revert Ho.
  destruct (xed_iform x); intros [= <-]; try done; [by left|by right].
Qed.

Lemma is_op_smsw x dec :
  decoded x dec -> is_op V3_OPCODE_SMSW dec = Done true -> xed_iform x = XED_IFORM_LMSW_GPR16.
Proof.
  intros [Ho _ _ _]. unfold is_op. revert Ho. by destruct (xed_iform x); intros [= <-].
Qed.

Lemma mov_to_src st b x dec :
  xed_decode st b = Some x -> decoded x dec -> is_op V3_OPCODE_MOV2CR dec = Done true ->
  is_gpr_ptr (operand (src_operand dec)).
Proof.
  intros Hd Hdec Hop. destruct (xed_mov_to_cr st b x Hd (is_op_mov_to x dec Hdec Hop))
    as (Hn & Hw & r & Hr & Hg). by eapply dec_src.
Qed.

Lemma mov_from_dst st b x dec :
  xed_decode st b = Some x -> decoded x dec -> is_op V3_OPCODE_MOVCR2 dec = Done true ->
  is_gpr_ptr (operand (dst_operand dec)).
Proof.
  intros Hd Hdec Hop. destruct (xed_mov_from_cr st b x Hd (is_op_mov_from x dec Hdec Hop))
    as (Hn & Hw0 & Hw & r & Hr & Hg). by eapply dec_dst.
Qed.

Lemma cr0_write_synced st b x dec s z s' :
  xed_decode st b = Some x -> decoded x dec -> synced e (info s) ->
  cr0_write dec s = Done (z, s') -> synced e (info s').
Proof.
  intros Hd Hdec Hs. unfold cr0_write.
  destruct (is_op V3_OPCODE_LMSW dec) as [[]| |]; [| |done..]; run.
  { destruct (cr0_lmsw dec (info s)) as [i| |] eqn:E; [|done..]. run. intros [= <- <-].
    by eapply lmsw_synced. }
  destruct (is_op V3_OPCODE_MOV2CR dec) as [[]| |] eqn:Hop; [| |done..]; run.
  { destruct (cr0_mov dec (info s)) as [i| |] eqn:E; [|done..]. run. intros [= <- <-].
    eapply mov_synced; [by eapply mov_to_src|done..]. }
  destruct (is_op V3_OPCODE_CLTS dec) as [[]| |]; [| |done..]; run; intros [= <- <-]; [|done].
  by apply clts_synced.
Qed.

Lemma write_gpr_synced i p w v i' :
  is_gpr_ptr p -> synced e i -> write_at i p w v = Done i' -> synced e i'.
Proof. intros (r & off & ->) Hi [= <-]. by apply (synced_same i). Qed.

Lemma cr0_read_synced st b x dec s z s' :
  xed_decode st b = Some x -> decoded x dec -> xed_iform x <> XED_IFORM_LMSW_GPR16 ->
  synced e (info s) -> cr0_read dec s = Done (z, s') -> synced e (info s').
Proof.
  intros Hd Hdec Hl Hs. unfold cr0_read.
  destruct (is_op V3_OPCODE_MOVCR2 dec) as [[]| |] eqn:Hop; [| |done..]; run.
  { destruct (write_at _ _ _ _) as [i| |] eqn:E; [|done..]. run. intros [= <- <-].
    eapply write_gpr_synced; [by eapply mov_from_dst|done..]. }
  destruct (is_op V3_OPCODE_SMSW dec) as [[]| |] eqn:Hop'; [| |done..]; run.
  - by apply (is_op_smsw x) in Hop'.
  - by intros [= <- <-].
Qed.

Lemma cr3_read_synced st b x dec s z s' :
  xed_decode st b = Some x -> decoded x dec ->
  synced e (info s) -> cr3_read dec s = Done (z, s') -> synced e (info s').
Proof.
  intros Hd Hdec Hs. unfold cr3_read.
  destruct (is_op V3_OPCODE_MOVCR2 dec) as [[]| |] eqn:Hop; [| |done..]; run; [|by intros [= <- <-]].
  destruct (write_at _ _ _ _) as [i| |] eqn:E; [|done..]. run. intros [= <- <-].
  eapply write_gpr_synced; [by eapply mov_from_dst|done..].
Qed.

(** The end of a CR3 write, with the new value read from a register. *)
Definition load_cr3 (n : Cr3.cr3_32) (s : vm) : vm :=
  let s := set_shadow_cr3 s (fun c => c <| Cr3.pwt := Cr3.pwt n |>) in
  let s := set_shadow_cr3 s (fun c => c <| Cr3.pcd := Cr3.pcd n |>) in
  let s := set_shdw s (fun st => st <| guest_cr3 := upd_cr3_32 (fun _ => n) (guest_cr3 st) |>) in
  match mem_mode (info s) with
  | VIRTUAL_MEM => s <| info := set_cr3 (info s) (ulong (shadow_cr3 (shdw_pg_state (info s)))) |>
  | PHYSICAL_MEM => s
  end.

Lemma renew_shadow_info s s' :
  renew_shadow s = Done s' ->
  exists f, info s' = (info s) <| shdw_pg_state := (shdw_pg_state (info s)) <| shadow_cr3 := f |> |>.
Proof.
  unfold renew_shadow. set (s0 := match mem_mode (info s) with PHYSICAL_MEM => _ | VIRTUAL_MEM => _ end).
  assert (info s0 = info s) as Hs0 by (unfold s0; by destruct (mem_mode (info s))). clearbody s0.
  unfold v3_create_new_shadow_pt32. destruct (V3_AllocPages _) as [page p]. case_match; [done|]. run.
  intros Hd. apply (f_equal (fun o => match o with Done x => info x | _ => info s end)) in Hd.
  cbv beta iota in Hd. eexists. rewrite <- Hd. cbn. by rewrite Hs0.
Qed.

(** A CR3 write that succeeds: the cache, then new tables unless they were cached. *)
Lemma cr3_write_done ok ok_pd ok_pt dec s z s' :
  is_gpr_ptr (operand (src_operand dec)) -> shdw_pg_mode (info s) = SHADOW_PAGING ->
  is_op V3_OPCODE_MOV2CR dec = Done true ->
  cr3_write ok ok_pd ok_pt dec s = Done (z, s') -> z <> -1 ->
  exists v w c s1 s2,
    read_long (info s) (Some (operand (src_operand dec))) = Done v /\
    v3_cache_page_tables32 ok ok_pd ok_pt s (V3_PAddr (CR3_TO_PDE32 v)) = Done (c, s1) /\ c <> -1 /\
    (if c =? 0 then renew_shadow s1 else Done s1) = Done s2 /\ s' = load_cr3 (decode w) s2.
Proof.
  intros (r & off & Hsrc) Hm Hop. unfold cr3_write. rewrite Hop, Hm, Hsrc. run.
  destruct (read_long _ _) as [v| |] eqn:Hv; [|done..]. run.
  destruct (v3_cache_page_tables32 _ _ _ _ _) as [[c s1]| |] eqn:Hc; [|done..]. run.
  destruct (Z.eqb_spec c (-1)) as [->|Hc1]; [intros [= <- _]; done|].
  destruct (if c =? 0 then renew_shadow s1 else Done s1) as [s2| |] eqn:Hr; [|done..]. run.
  intros Hd _. apply (f_equal (fun o => match o with Done x => snd x | _ => s end)) in Hd.
  cbv beta iota in Hd. cbn [snd] in Hd.
  exists v, (field (get_gpr (vm_regs (info s2)) r) (8 * off) 32), c, s1, s2. by subst s'.
Qed.

Lemma load_cr3_synced n s :
  let i := info s in
  shdw_pg_mode i = SHADOW_PAGING ->
  in_step e (low32 (cr0 (ctrl_regs i))) (low32 (guest_cr0 (shdw_pg_state i))) ->
  mem_mode i = v3_get_mem_mode i ->
  (mem_mode i = PHYSICAL_MEM -> cr3 (ctrl_regs i) = ulong (direct_map_pt i)) ->
  synced e (info (load_cr3 n s)).
Proof.
  cbv zeta. intros Hm H0 Hmm Hc. unfold load_cr3. cbv zeta. set (s3 := set_shdw (set_shadow_cr3 _ _) _).
  assert (shdw_pg_mode (info s3) = SHADOW_PAGING) as Hm3 by exact Hm.
  assert (guest_cr0 (shdw_pg_state (info s3)) = guest_cr0 (shdw_pg_state (info s))) as Hg by done.
  assert (v3_get_mem_mode (info s3) = mem_mode (info s)) as Hmm3.
  { rewrite Hmm. rewrite !get_mem_mode_shadow by done. by rewrite Hg. }
  assert (mem_mode (info s3) = mem_mode (info s)) as -> by done.
  assert (cr0 (ctrl_regs (info s3)) = cr0 (ctrl_regs (info s))) as Hc0 by done.
  assert (cr3 (ctrl_regs (info s3)) = cr3 (ctrl_regs (info s))) as Hc3 by done.
  assert (direct_map_pt (info s3) = direct_map_pt (info s)) as Hdm by done.
  clearbody s3. destruct (mem_mode (info s)) eqn:E.
  - split; [done| |].
    + by rewrite Hc0, Hg.
    + rewrite Hmm3, Hc3, Hdm. by apply Hc.
  - assert (forall i, info (s3 <| info := i |>) = i) as Hii by done. rewrite Hii.
    rewrite (get_mem_mode_shadow (info s3)) in Hmm3 by done. split; [exact Hm3| |].
    + cr_simpl. by rewrite Hc0, Hg.
    + rewrite get_mem_mode_shadow by exact Hm3. cr_simpl. rewrite Hmm3. done.
Qed.

Lemma cr3_write_synced ok ok_pd ok_pt st b x dec s z s' :
  xed_decode st b = Some x -> decoded x dec -> synced e (info s) ->
  mem_mode (info s) = v3_get_mem_mode (info s) ->
  cr3_write ok ok_pd ok_pt dec s = Done (z, s') -> z <> -1 -> synced e (info s').
Proof.
  intros Hd Hdec Hs Hmm Hw Hz. pose proof (sync_mode _ _ Hs) as Hm.
  destruct (is_op V3_OPCODE_MOV2CR dec) as [[]| |] eqn:Hop;
    [|unfold cr3_write in Hw; rewrite Hop in Hw; by injection Hw as <- _
     |unfold cr3_write in Hw; by rewrite Hop in Hw..].
  destruct (cr3_write_done ok ok_pd ok_pt dec s z s') as (v & w & c & s1 & s2 & _ & Hc & _ & Hr & ->);
    [by eapply mov_to_src|done..|].
  apply cache_recached in Hc as [(cc & pp & ->) _].
  assert (exists f, info s2 = (info s) <| shdw_pg_state := (shdw_pg_state (info s))
    <| cached_cr3 := cc |> <| cached_ptes := pp |> <| shadow_cr3 := f |> |>) as [f Hi].
  { destruct (c =? 0); [by apply renew_shadow_info in Hr|]. injection Hr as <-.
    exists (shadow_cr3 (shdw_pg_state (info s))). done. }
  destruct Hs as [_ H0 H3]. rewrite get_mem_mode_shadow in H3, Hmm by done.
  apply load_cr3_synced; rewrite Hi; [done|done| |].
  - rewrite get_mem_mode_shadow by done. done.
  - intros Hp. change (mem_mode (info s) = PHYSICAL_MEM) in Hp. rewrite <- Hmm, Hp in H3. exact H3.
Qed.

Lemma exit_modes_synced s : synced e (info s) -> synced e (info (exit_modes s)).
Proof. by apply synced_same. Qed.

Lemma exit_modes_mem s : mem_mode (info (exit_modes s)) = v3_get_mem_mode (info (exit_modes s)).
Proof. done. Qed.

Lemma emulate_synced i0 d0 st s h r st' s' :
  emulate i0 d0 st s h = Done (r, st', s') -> synced e (info s) ->
  (forall bytes x dec z s1, fetch i0 s = Done bytes ->
     xed_decode (snd (set_decoder_mode (info s) st)) bytes = Some x -> decoded x dec ->
     h dec s = Done (z, s1) -> (r <> -1 -> z <> -1) -> synced e (info s1)) ->
  synced e (info s').
Proof.
  intros He Hs Hh.
  destruct (emulate_done _ _ _ _ _ _ _ _ He) as [->|(bytes & x & dec & z & s1 & Hf & <- & Hx' & Hd & Hs1 & Hr)];
    [done|].
  assert (synced e (info s1)) as Hs1'.
  { eapply Hh; [done..|]. destruct Hr as [[-> _]|(_ & Hz & _)]; done. }
  destruct Hr as [[_ ->]|(_ & _ & ->)]; [done|]. by apply (synced_same (info s1)).
Qed.

Lemma cr_exit_synced a b : cr_exit a b -> synced e (info (snd a)) -> synced e (info (snd b)).
Proof.
  intros Hab Hs. destruct Hab as [i0 d0 st s r st' s' He Hr|i0 d0 st s r st' s' Hl He Hr
    |i0 d0 ok ok_pd ok_pt st s r st' s' He Hr|i0 d0 st s r st' s' He Hr]; cbn [snd] in *;
    apply exit_modes_synced in Hs; (eapply emulate_synced; [done..|]); intros.
  - by eapply cr0_write_synced.
  - eapply cr0_read_synced; [done..| |done|done]. by eapply Hl.
  - eapply cr3_write_synced; [done..|apply exit_modes_mem|done|auto].
  - by eapply cr3_read_synced.
Qed.

Lemma cr_step_synced a b : cr_step a b -> synced e (info (snd a)) -> synced e (info (snd b)).
Proof.
  intros Hab Hs. destruct Hab as [st s s' Hg|a b Hab]; [|by eapply cr_exit_synced].
  destruct Hg as (m & regs & ip & pl & sg & c2 & c4 & c8 & fl & ef & ->). by apply (synced_same (info s)).
Qed.

(** C9. The registers of the processor stay in step with the guest's.  Over any sequence of
    reads and writes of CR0 and CR3 by the guest, LMSW and CLTS included, and whatever else
    the guest does in between, the processor has paging on and otherwise the CR0 that the
    guest sees - exactly, or but for the cache bits where it starts that way - and its CR3 is that of the shadow tables while the guest has paging on and
    that of the direct map otherwise. *)
Theorem ctrl_regs_synced st s st' s' :
  synced e (info s) -> rtc cr_step (st, s) (st', s') -> synced e (info s').
Proof.
  intros Hs Hr. change (synced e (info (snd (st', s')))). change (synced e (info (snd (st, s)))) in Hs.
  revert Hs. induction Hr as [|a b c Hab _ IH]; [done|]. intros Hs. by eapply IH, cr_step_synced.
Qed.

End steps.

(** A guest that turns paging on before it has loaded CR3: the processor walks the tables at
    the address that the shadow CR3 was initialised to, page 0 of the host. *)
Lemma paging_before_cr3 {A : Arch} dec i i' :
  shdw_pg_mode i = SHADOW_PAGING -> cpu_mode i <> LONG -> shadow_cr3 (shdw_pg_state i) = 0 ->
  (exists w, read_at i (operand (src_operand dec)) 32 = Done w /\ Z.testbit w 31 = true) ->
  is_gpr_ptr (operand (src_operand dec)) ->
  cr0_mov dec i = Done i' -> cr3 (ctrl_regs i') = 0.
Proof.
  intros Hm Hc Hs (w & Hw & Hb) (r & off & Hsrc). unfold cr0_mov. rewrite decide_False by done.
  rewrite Hsrc in Hw |- *. rewrite Hw. run. change (shdw_pg_mode (upd_cr0 i ?f)) with (shdw_pg_mode i).
  rewrite Hm. run. set (i2 := upd_cr0 (upd_cr0 i _) _).
  assert (read_at i2 (Ptr (Loc_gpr r off)) 32 = Done w) as -> by exact Hw. run.
  intros Hd. apply (f_equal (fun o => match o with Done x => x | _ => i end)) in Hd.
  cbv beta iota in Hd. subst i'. unfold select_tables. set (i4 := upd_guest_cr0 _ _).
  assert (Cr0.pg (low32 (guest_cr0 (shdw_pg_state i4))) =? 0 = false) as Hpg.
  { unfold i4. rewrite !guest_upd_guest, cr0_wf by keep_wf. rewrite low32_upd_cr0 by apply decode_wf.
    change (field w 31 1 =? 0 = false). by rewrite field_bit, Hb. }
  assert (shadow_cr3 (shdw_pg_state i4) = 0) as Hs4 by exact Hs.
  assert (shdw_pg_mode i4 = SHADOW_PAGING) as Hm4 by exact Hm. clearbody i4.
  rewrite (get_mem_mode_shadow i4 Hm4), Hpg. change (ulong (shadow_cr3 (shdw_pg_state i4)) = 0).
  rewrite Hs4. apply Z.mod_0_l. pose proof bits_per_long_bounds. lia.
Qed.

(** ** Witness

    The guest of ShadowPaging.v, and a library that decodes every instruction as
    MOV CR0, EAX. *)

Definition demo_inst : xed_decoded_inst :=
  mk_xed_decoded_inst 3 2 XED_IFORM_MOV_CR_CR_GPR32
    (fun k => if k =? 0 then XED_OPERAND_REG0 else XED_OPERAND_REG1) (fun k => k =? 0)
    (fun o => match o with XED_OPERAND_REG0 => XED_REG_CR0 | _ => XED_REG_EAX end)
    0 0 false false 0 (fun _ => 0) (fun _ => XED_REG_INVALID) (fun _ => XED_REG_INVALID)
    (fun _ => XED_REG_INVALID) (fun _ => 0) (fun _ => 0) (fun _ => 0).

Definition demo_xed : XedLib := fun _ _ => Some demo_inst.

Lemma demo_xed_ok : @XedLibOk demo_xed.
Proof. split; intros st b x [= <-] [H|H]; try done. split_and!; [done..|]. by eexists. Qed.

Definition demo_cr : vm :=
  demo_vm <| info := (info demo_vm) <| ctrl_regs := mk_v3_ctrl_regs 0x80000001 0 0x70000 0 0 0 0 |>
    <| vm_regs := mk_v3_gprs 0 0 0 0 0 0 0 0x80000021 |> <| rip := 0x1000 |> |>.

Lemma demo_cr_synced : synced (A := V3_32BIT) true (info demo_cr).
Proof. by split; vm_compute. Qed.

Definition demo_state : xed_state := demo_decoder.
Definition demo_dec : x86_instr :=
  let o := mk_x86_operand (Val 0) 0 INVALID_OPERAND in mk_x86_instr 0 None 0 o o o.

(** What the witness looks at in a result. *)
Definition seen (o : outcome (Z * xed_state * vm)) : option (Z * Z) :=
  match o with Done (r, _, s) => Some (r, visible_cr0 (info s)) | _ => None end.

Lemma seen_done o r v :
  seen o = Some (r, v) -> exists st s, o = Done (r, st, s) /\ visible_cr0 (info s) = v.
Proof. destruct o as [[[r' st] s]| |]; [|done..]. intros [= -> <-]. by exists st, s. Qed.

Lemma ctrl_regs_synced_witness : exists st' s',
  v3_handle_cr0_write (A := V3_32BIT) (Hos := demo_host) (Hx := demo_xed) [] demo_dec demo_state
    (exit_modes demo_cr) = Done (0, st', s') /\
  visible_cr0 (info s') = 0x80000031 /\ synced (A := V3_32BIT) true (info s').
Proof.
  assert (seen (v3_handle_cr0_write (A := V3_32BIT) (Hos := demo_host) (Hx := demo_xed) [] demo_dec
    demo_state (exit_modes demo_cr)) = Some (0, 0x80000031)) as H by by vm_compute.
  apply seen_done in H as (st' & s' & H & Hv). exists st', s'. split_and!; [done..|].
  apply (ctrl_regs_synced (Hos := demo_host) (Hx := demo_xed) (Hxok := demo_xed_ok) demo_state demo_cr st' s').
  - apply demo_cr_synced.
  - apply rtc_once, step_exit. by eapply exit_cr0_write.
Defined.

End CtrlRegs.
