(* ===== verification/Isolation.v ===== *)
(** Isolation of the guest: the exits that change its translation, together.

    A guest with shadow paging runs on the shadow tables while it has paging on and on the
    direct map otherwise.  It writes its memory, faults, invalidates pages and reads and
    writes CR0 and CR3; this file composes the handlers of ShadowPaging.v, Invlpg.v and
    CtrlRegs.v, and shows that the tables the processor uses never translate an address to
    memory that is not the guest's. *)
From stdpp Require Import base tactics numbers list gmap relations.
From S2P Require Import Prelude Chain Host MemMap Paging Intr Hashtable GuestInfo GuestMem Decoder.
From S2P Require Import Xed Vmcb ShadowPaging Invlpg CtrlRegs.

Module Isolation.
Import ShadowMap Paging GuestInfo GuestMem Decoder ShadowPaging Invlpg Xed CtrlRegs.

(** ** What the handlers do to the state *)

Section effects.
Context {A : Arch} {Hos : OsHooks} {Hem : MemEmulator}.

(** The assignments of the handlers: entries in pages of [P], a page of [P] from the
    allocator, pending exceptions, CR2, and the mark that the cache of the guest's page
    tables is stale. *)
Inductive prim (P : Z -> Prop) (s : vm) : vm -> Prop :=
| prim_store q j w :
    is_slot q j -> P q -> prim P s (s <| hmem := store32 (hmem s) (slot q j) w |>)
| prim_page p m pl :
    page_aligned p -> P p -> m = memset0 (hmem s) (V3_VAddr p) PAGE_SIZE ->
    prim P s (s <| pool := pl |> <| hmem := m |>)
| prim_excp f : prim P s (set_excp s f)
| prim_cr2 a :
    prim P s (s <| info := (info s) <| ctrl_regs := (ctrl_regs (info s)) <| cr2 := a |> |> |>)
| prim_uncache : prim P s (set_shdw s (fun st => st <| cached_cr3 := 0 |>))
| prim_rip r : prim P s (s <| info := (info s) <| rip := r |> |>).

Definition does (P : Z -> Prop) : vm -> vm -> Prop := rtc (prim P).

Lemma does_refl P s : does P s s.
Proof. apply rtc_refl. Qed.

Lemma does_step P s s1 s2 : does P s s1 -> prim P s1 s2 -> does P s s2.
Proof. apply rtc_r. Qed.

Lemma does_pte P s s' q i f :
  does P s s' -> is_slot q i -> P q -> does P s (upd_pte s' (V3_VAddr q) i f).
Proof. intros Hd Hs Hq. eapply does_step; [exact Hd|]. by apply prim_store. Qed.

Lemma does_pde P s s' q i f :
  does P s s' -> is_slot q i -> P q -> does P s (upd_pde s' (V3_VAddr q) i f).
Proof. intros Hd Hs Hq. eapply does_step; [exact Hd|]. by apply prim_store. Qed.

Lemma does_pde_4MB P s s' q i f :
  does P s s' -> is_slot q i -> P q -> does P s (upd_pde_4MB s' (V3_VAddr q) i f).
Proof. intros Hd Hs Hq. eapply does_step; [exact Hd|]. by apply prim_store. Qed.

Lemma does_excp P s s' f : does P s s' -> does P s (set_excp s' f).
Proof. intros Hd. eapply does_step; [exact Hd|]. apply prim_excp. Qed.

Lemma does_inject P s s' a e : does P s s' -> does P s (inject_guest_pf s' a e).
Proof. intros Hd. unfold inject_guest_pf. apply does_excp. eapply does_step; [exact Hd|]. apply prim_cr2. Qed.

Lemma does_uncache P s s' :
  does P s s' -> does P s (set_shdw s' (fun st => st <| cached_cr3 := 0 |>)).
Proof. intros Hd. eapply does_step; [exact Hd|]. apply prim_uncache. Qed.

Lemma does_if P s (b : bool) s1 s2 :
  does P s s1 -> does P s s2 -> does P s (if b then s1 else s2).
Proof. by destruct b. Qed.

(** A property of the state a handler returns. *)
Definition after (Q : vm -> Prop) (o : outcome (Z * vm)) : Prop :=
  match o with Done (_, s') => Q s' | _ => True end.

Lemma after_done Q r s' : Q s' -> after Q (Done (r, s')).
Proof. done. Qed.

Lemma after_bind Q (o : outcome (Z * vm)) k :
  after (fun s' => forall r, after Q (k (r, s'))) o -> after Q (x ← o; k x).
Proof. destruct o as [[r s']| |]; [|done..]. cbn. auto. Qed.

Lemma after_mono (Q Q' : vm -> Prop) o : (forall s, Q s -> Q' s) -> after Q o -> after Q' o.
Proof. destruct o as [[r s']| |]; cbn; auto. Qed.

Lemma after_lift (Q : vm -> Prop) (o : outcome vm) :
  match o with Done s' => Q s' | _ => True end -> after Q (s' ← o; Done (0, s')).
Proof. by destruct o. Qed.

Ltac effects :=
  repeat match goal with
    | |- after _ (Done _) => apply after_done
    | |- does _ _ (upd_pte _ _ _ _) => apply does_pte; [|assumption..]
    | |- does _ _ (upd_pde _ _ _ _) => apply does_pde; [|assumption..]
    | |- does _ _ (upd_pde_4MB _ _ _ _) => apply does_pde_4MB; [|assumption..]
    | |- does _ _ (set_shdw _ _) => apply does_uncache
    | |- does _ _ (inject_guest_pf _ _ _) => apply does_inject
    | |- does _ _ (set_excp _ _) => apply does_excp
    | |- does _ _ (if _ then _ else _) => apply does_if
    | |- does _ ?s ?s => apply does_refl
    end.
Ltac branch :=
  repeat match goal with |- after _ (if ?b then _ else _) => destruct b end.

Context {Hok : OsHooksOk}.

Lemma pte32_fault_does P T l s a err p q :
  inv nowhere T l s -> is_slot p (PTE32_INDEX a) -> is_slot q (PTE32_INDEX a) -> P p -> P q ->
  after (does P s) (handle_shadow_pte32_fault s a err (V3_VAddr p) (V3_VAddr q)).
Proof.
  intros Hi Hp Hq HPp HPq. unfold handle_shadow_pte32_fault. cbv zeta. branch; [effects|].
  destruct (can_access_pte32 _ (V3_VAddr p) _ _); [effects| |branch; effects..].
  set (ga := u32 _). destruct (shadow_lookup _ _ _ _ ga Hi) as [(pa & -> & -> & _)|[-> _]]; run;
    [|unfold raise_mc; effects].
  match goal with |- context [find_pte_map ?s' ?k] => destruct (find_pte_map s' k) as [found| |] end;
    [|done..]. run. branch; effects.
Qed.

Lemma large_fault_does P T l s a err p q :
  inv nowhere T l s -> is_slot p (PTE32_INDEX a) -> is_slot q (PDE32_INDEX a) -> P p -> P q ->
  after (does P s) (handle_large_pagefault32 s a err (V3_VAddr p) (V3_VAddr q)).
Proof.
  intros Hi Hp Hq HPp HPq. unfold handle_large_pagefault32. cbv zeta.
  destruct (can_access_pte32 _ (V3_VAddr p) _ _); [effects| |branch; effects..].
  set (ga := u32 _). destruct (shadow_lookup _ _ _ _ ga Hi) as [(pa & -> & -> & _)|[-> _]]; run;
    [|unfold raise_mc; effects].
  match goal with |- context [find_pte_map ?s' ?k] => destruct (find_pte_map s' k) as [found| |] end;
    [|done..]. run. branch; effects.
Qed.

(** The pages that a fault may write: the shadow tables, the pages that the allocator has,
    and the memory of the guest. *)
Definition may_write (l : list Z) (T : gset Z) (s : vm) (q : Z) : Prop :=
  q ∈ {[pd_of s]} ∪ T \/ q ∈ supply (pool s) \/ guest_page (regions_of (info s) l) q.

Lemma may_write_pd l T s : may_write l T s (pd_of s).
Proof. left. set_solver. Qed.
Lemma may_write_table l T s p : p ∈ T -> may_write l T s p.
Proof. left. set_solver. Qed.
Lemma may_write_guest l T s q : guest_page (regions_of (info s) l) q -> may_write l T s q.
Proof. by right; right. Qed.

Lemma new_pde_does T l s q a :
  inv nowhere T l s -> guest_page (regions_of (info s) l) q ->
  after (does (may_write l T s) s)
    (s' ← new_shadow_pde s (V3_VAddr (pd_of s)) (V3_VAddr q) (PDE32_INDEX a); Done (0, s')).
Proof.
  intros Hi Hq. pose proof (pd_slot _ _ _ _ a Hi) as Hs1.
  assert (is_slot q (PDE32_INDEX a)) as Hs2 by (split; [apply Hq|apply Hs1]).
  pose proof (may_write_pd l T s) as Hp1. pose proof (may_write_guest l T s q Hq) as Hp2.
  unfold new_shadow_pde, v3_create_new_shadow_pt32, V3_AllocPages.
  destruct (supply (pool s)) as [|p av] eqn:E; [done|].
  destruct (iso_fresh _ _ _ _ _ _ (inv_iso _ _ _ _ Hi) p) as (Hn & [Hal _] & _); [rewrite E; by left|].
  rewrite (proj2 (Z.eqb_neq _ _) Hn). run.
  set (s1 := s <| pool := _ |> <| hmem := _ |>).
  assert (does (may_write l T s) s s1) as H1.
  { eapply does_step; [apply does_refl|]. eapply prim_page; [exact Hal| |done].
    right; left. rewrite E. by left. }
  clearbody s1. apply after_lift.
  match goal with |- context [if ?b then _ else _] => destruct b end; effects; exact H1.
Qed.

Lemma guest_page_slot v q i : guest_page v q -> 0 <= i < 1024 -> is_slot q i.
Proof. intros [Hq _] Hi. by split. Qed.

(** The page fault handler writes no other page. *)
Lemma pagefault32_does T l s a err :
  inv nowhere T l s -> after (does (may_write l T s) s) (handle_shadow_pagefault32 s a err).
Proof.
  intros Hi. pose proof (inv_paged _ _ _ _ Hi) as Hp. unfold handle_shadow_pagefault32.
  rewrite cr3_page, cr3_va. change (4096 * (u32 (shadow_cr3 _) / 4096)) with (pd_of s).
  set (gcr3 := 4096 * _).
  assert (page_aligned gcr3) as Hg3 by (unfold page_aligned, gcr3; by rewrite Z.mul_comm, Z.mod_mul).
  destruct (guest_pa_to_host_va_eq (info s) l gcr3 Hp) as (r & w & -> & Hr). run.
  destruct (gpa_hva _ gcr3) as [w'|] eqn:Hw; [|subst r; apply does_refl].
  destruct Hr as [-> ->]. run. destruct (gpa_page _ _ _ _ Hp Hg3 Hw) as (q & -> & Hq).
  pose proof (may_write_pd l T s) as Hpd. pose proof (pd_slot _ _ _ _ a Hi) as Hsl.
  pose proof (may_write_guest l T s q Hq) as Hgq.
  pose proof (guest_page_slot _ q (PDE32_INDEX a) Hq (PDE32_INDEX_range a)) as Hsq.
  branch; [effects|].
  destruct (can_access_pde32 (hmem s) (V3_VAddr (pd_of s)) a err) eqn:Hacc; [| |branch; effects..].
  - destruct (shadow_pt_table T l s a Hi) as (p & HpT & ->);
      [apply (can_access_pde32_present _ _ _ err); congruence|].
    pose proof (pte_slot T l s p a Hi HpT) as Hslp. pose proof (may_write_table l T s p HpT) as Hwp.
    branch; [| |effects].
    + set (gpt := ulong (PDE32_T_ADDR _)).
      assert (page_aligned gpt) as Hgpt by apply pde_addr_aligned.
      destruct (guest_pa_to_host_va_eq (info s) l gpt Hp) as (r & w & -> & Hr). run.
      destruct (gpa_hva _ gpt) as [w'|] eqn:Hw2; [|subst r; run; unfold raise_mc; effects].
      destruct Hr as [-> ->]. run. destruct (gpa_page _ _ _ _ Hp Hgpt Hw2) as (q2 & -> & Hq2).
      pose proof (guest_page_slot _ q2 (PTE32_INDEX a) Hq2 (PTE32_INDEX_range a)) as Hsq2.
      pose proof (may_write_guest l T s q2 Hq2) as Hwq2.
      apply after_bind. eapply after_mono; [|by apply (pte32_fault_does (may_write l T s) T l)]. intros s' Hs' r. by branch.
    + apply after_bind. eapply after_mono; [|by apply (large_fault_does (may_write l T s) T l)]. intros s' Hs' r. by branch.
  - by apply new_pde_does.
Qed.

(** ** What the assignments keep *)

(** What the tables of the processor depend on, but for the entries. *)
Record kept (i i' : guest_info) : Prop := {
  kept_map : mem_map i' = mem_map i;
  kept_mode : shdw_pg_mode i' = shdw_pg_mode i;
  kept_direct : direct_map_pt i' = direct_map_pt i;
  kept_shadow : shadow_cr3 (shdw_pg_state i') = shadow_cr3 (shdw_pg_state i);
  kept_guest_cr0 : guest_cr0 (shdw_pg_state i') = guest_cr0 (shdw_pg_state i);
  kept_cr0 : cr0 (ctrl_regs i') = cr0 (ctrl_regs i);
  kept_cr3 : cr3 (ctrl_regs i') = cr3 (ctrl_regs i);
  kept_run : run_state i' = run_state i;
  kept_cache : cached_ptes (shdw_pg_state i') = cached_ptes (shdw_pg_state i);
}.

Lemma does_kept P s s' : does P s s' -> kept (info s) (info s').
Proof.
  induction 1 as [s|s s1 s2 H1 _ [? ? ? ? ? ? ? ? ?]]; [done|].
  assert (kept (info s) (info s1)) as [? ? ? ? ? ? ? ? ?] by by destruct H1. split; congruence.
Qed.

Lemma kept_synced i i' : kept i i' -> synced false i -> synced false i'.
Proof. intros []. by apply synced_same. Qed.

(** Entries of pages that are not written. *)
Lemma does_frame P s s' q i :
  does P s s' -> is_slot q i -> ~ P q -> load32 (hmem s') (slot q i) = load32 (hmem s) (slot q i).
Proof.
  intros Hd Hs Hq. induction Hd as [|s s1 s2 H1 _ IH]; [done|]. rewrite IH.
  destruct H1 as [q' j w Hs' HP|p m pl Hp HP ->|f|a| |r]; [| |done..].
  - apply load_store_slot_ne; [done..|]. intros [= <- <-]. done.
  - apply load_memset_slot; [done..|]. intros <-. done.
Qed.

Lemma iso_frame X v pd T av m m' :
  (forall q i, q ∈ {[pd]} ∪ T -> 0 <= i < 1024 -> load32 m' (slot q i) = load32 m (slot q i)) ->
  isolated_but X v pd T av m -> isolated_but X v pd T av m'.
Proof.
  intros Hm [Hf Hpd Hg Hpde Hpte Ha Hfr]. split; try done.
  - intros i Hi HX. rewrite Hm by (done || set_solver). by apply Hpde.
  - intros q i Hq Hi HX. rewrite Hm by (done || set_solver). by apply Hpte.
Qed.

End effects.

(** ** The invariant *)

Section safety.
Context {A : Arch} {Hos : OsHooks} {Hem : MemEmulator} {Hok : OsHooksOk} {M : shadow_map}.

(** The page directory of the direct map. *)
Definition direct_pd (i : guest_info) : Z := PAGE_SIZE * (u32 (direct_map_pt i) / PAGE_SIZE).

(** The shadow tables [T] and the tables [D] of the direct map are isolated and apart, no
    access to hooked memory is being emulated, and the memory map is [M]. *)
Record confined (l : list Z) (T D : gset Z) (s : vm) : Prop := {
  conf_shadow : inv nowhere T l s;
  conf_null : regions (mem_map (info s)) !! NULL = None;
  conf_direct : isolated_but nowhere (regions_of (info s) l) (direct_pd (info s)) D [] (hmem s);
  conf_apart q : q ∈ {[direct_pd (info s)]} ∪ D ->
    q ∉ {[pd_of s]} ∪ T /\ q ∉ supply (pool s);
  conf_quiet : run_state (info s) <> VM_EMULATING;
  conf_map : mem_map (info s) = M;
}.

(** The registers of the processor select one of them. *)
Definition safe (l : list Z) (T D : gset Z) (s : vm) : Prop := confined l T D s /\ synced false (info s).

(** The tables that the processor uses. *)
Definition processor_walk (s : vm) (va : Z) : option Z :=
  hw_walk (hmem s) (PAGE_SIZE * (u32 (cr3 (ctrl_regs (info s))) / PAGE_SIZE)) va.

Lemma safe_regions l T D T' s s' :
  safe l T D s -> safe l T' D s' -> regions_of (info s') l = regions_of (info s) l.
Proof. intros [[_ _ _ _ _ H1] _] [[_ _ _ _ _ H2] _]. unfold regions_of. by rewrite H1, H2. Qed.

Lemma safe_walk l T D s va pa :
  safe l T D s -> is_u 32 va -> processor_walk s va = Some pa ->
  guest_page (regions_of (info s) l) (PAGE_SIZE * (pa / PAGE_SIZE)).
Proof.
  intros [[Hi _ Hd _ _ _] [_ _ H3]] Hva. unfold processor_walk. rewrite H3.
  destruct (v3_get_mem_mode (info s)); rewrite u32_ulong; intros Hw.
  - by apply (isolated_walk _ _ _ _ _ va pa Hd).
  - by apply (isolated_walk _ _ _ _ _ va pa (inv_iso _ _ _ _ Hi)).
Qed.

(** A handler that writes the pages it may. *)
Lemma safe_does l T D s T' s' :
  safe l T D s -> does (may_write l T s) s s' -> inv nowhere T' l s' -> pages_from T s T' s' ->
  safe l T' D s'.
Proof.
  intros [[Hi Hz Hd Ha Hqt Hmp] Hs] Hdo Hi' Hpf. pose proof (does_kept _ _ _ Hdo) as Hk.
  assert (direct_pd (info s') = direct_pd (info s)) as Hdp
    by (unfold direct_pd; by rewrite (kept_direct _ _ Hk)).
  assert (pd_of s' = pd_of s) as Hpd by (unfold pd_of; by rewrite (kept_shadow _ _ Hk)).
  assert (regions_of (info s') l = regions_of (info s) l) as Hrg
    by (unfold regions_of; by rewrite (kept_map _ _ Hk)).
  split; [|by eapply kept_synced]. split; [done|by rewrite (kept_map _ _ Hk)|..].
  - rewrite Hdp, Hrg. eapply iso_frame; [|exact Hd]. intros q i Hq Hr.
    eapply does_frame; [exact Hdo| |].
    + split; [apply (iso_frames _ _ _ _ _ _ Hd q Hq)|done].
    + intros [Hw|[Hw|Hw]]; [by apply (proj1 (Ha q Hq))|by apply (proj2 (Ha q Hq))|].
      by apply (iso_guest _ _ _ _ _ _ Hd q Hw).
  - rewrite Hdp, Hpd. intros q Hq. destruct (Ha q Hq) as [H1 H2]. split.
    + intros [?|Hq']%elem_of_union; [set_solver|]. destruct (Hpf q (or_introl Hq')); set_solver.
    + intros Hq'. destruct (Hpf q (or_intror Hq')); set_solver.
  - by rewrite (kept_run _ _ Hk).
  - by rewrite (kept_map _ _ Hk).
Qed.

(** ** The exits keep it *)

(** What the tables depend on. *)
Record kept_tables (i i' : guest_info) : Prop := {
  kt_map : mem_map i' = mem_map i;
  kt_direct : direct_map_pt i' = direct_map_pt i;
  kt_pd : u32 (shadow_cr3 (shdw_pg_state i')) / PAGE_SIZE = u32 (shadow_cr3 (shdw_pg_state i)) / PAGE_SIZE;
  kt_cache : is_Some (cached_ptes (shdw_pg_state i)) -> is_Some (cached_ptes (shdw_pg_state i'));
  kt_run : run_state i' = run_state i;
}.

Lemma inv_tables X T l s s' :
  inv X T l s -> kept_tables (info s) (info s') -> hmem s' = hmem s ->
  supply (pool s') = supply (pool s) -> inv X T l s'.
Proof.
  intros [[H1 H2 H3 H4] Hm Hi] [Em _ Epd Eca _] Eh Ep.
  split; [split|..]; unfold pd_of; rewrite ?Em, ?Epd, ?Eh, ?Ep; auto.
Qed.

Lemma confined_info l T D s s' :
  confined l T D s -> kept_tables (info s) (info s') -> hmem s' = hmem s ->
  supply (pool s') = supply (pool s) -> confined l T D s'.
Proof.
  intros [Hi Hz Hd Ha Hqt Hmp] Hk Hh Hp. split; [by eapply inv_tables|..];
    unfold direct_pd, pd_of, regions_of;
    rewrite ?(kt_map _ _ Hk), ?(kt_direct _ _ Hk), ?(kt_pd _ _ Hk), ?Hp, ?(kt_run _ _ Hk); try done.
  by rewrite Hh.
Qed.

Lemma safe_modes l T D s : safe l T D s -> safe l T D (exit_modes s).
Proof.
  intros [Hc Hs]. split; [|by apply exit_modes_synced]. by apply (confined_info l T D s).
Qed.

Lemma safe_page l T D s p m :
  safe l T D s -> guest_page (regions_of (info s) l) p ->
  (forall y, ~ V3_VAddr p <= y < V3_VAddr p + PAGE_SIZE -> m y = hmem s y) ->
  safe l T D (s <| hmem := m |>).
Proof.
  intros [[Hi Hz Hd Ha Hqt Hmp] Hs] Hp Hm. split; [|done]. split; [|done| |done..].
  - apply (inv_same _ _ _ s); [done..|]. by eapply iso_guest_bytes; [apply Hi|..].
  - by eapply iso_guest_bytes.
Qed.

Lemma safe_write l T D s p k b :
  safe l T D s -> guest_page (regions_of (info s) l) p -> 0 <= k < PAGE_SIZE ->
  safe l T D (s <| hmem := store8 (hmem s) (V3_VAddr p + k) b |>).
Proof.
  intros Hs Hp Hk. apply (safe_page l T D s p); [done..|]. intros y Hy. unfold store8. case_cmp; [lia|done].
Qed.

Lemma invalidate_does l T s guest_pd a :
  inv nowhere T l s ->
  does (may_write l T s) s (invalidate s guest_pd a) /\ pool (invalidate s guest_pd a) = pool s.
Proof.
  intros Hi. unfold invalidate. rewrite cr3_va.
  change (4096 * (u32 (shadow_cr3 _) / 4096)) with (pd_of s).
  case_cmp; [split; [|done]|case_cmp; [split; [|done]|split; [apply does_refl|done]]].
  - apply does_pde; [apply does_refl|by eapply pd_slot|apply may_write_pd].
  - destruct (shadow_pt_table T l s a Hi) as (p & HpT & ->); [lia|].
    rewrite (clear_pte T l) by done.
    apply does_pte; [apply does_refl|by eapply pte_slot|by apply may_write_table].
Qed.

Lemma invlpg_does l T s r s' :
  inv nowhere T l s -> v3_handle_shadow_invlpg s = Done (r, s') ->
  does (may_write l T s) s s' /\ pool s' = pool s.
Proof.
  intros Hi. unfold v3_handle_shadow_invlpg.
  do 2 (case_match; [intros [= <- <-]; split; [apply does_refl|done]|]).
  destruct (read_guest_va_memory _ _ _ _) as [[ret instr]| |]; [|done..]. run.
  case_match; [intros [= <- <-]; split; [apply does_refl|done]|].
  destruct (skip_prefixes instr 0) as [index| |]; [|done..]. run.
  destruct (byte_at instr index) as [b0| |]; [|done..]. run.
  match goal with |- context [mbind _ ?o] => destruct o as [[]| |] end; run;
    [intros [= <- <-]; split; [apply does_refl|done]| |done..].
  destruct (guest_pa_to_host_va _ _) as [[r' pd]| |]; [|done..]. run.
  case_match; [intros [= <- <-]; split; [apply does_refl|done]|]. case_match; [done|].
  repeat case_match; intros [= <- <-]; (split; [|try done]); try apply does_refl;
    [|by apply (invalidate_does l T)].
  eapply does_step; [by apply invalidate_does|apply prim_rip].
Qed.

Lemma safe_invlpg l T D s r s' :
  safe l T D s -> v3_handle_shadow_invlpg s = Done (r, s') -> safe l T D s'.
Proof.
  intros Hs Hr. pose proof (conf_shadow _ _ _ _ (proj1 Hs)) as Hi.
  destruct (invlpg_does l T s r s' Hi Hr) as [Hd Hp].
  apply (safe_does l T D s); [done..|by eapply invlpg_inv|by apply pages_from_same].
Qed.

(** A page fault while the guest has paging off: the handler refuses it when the address is
    in memory of the guest, and follows a null pointer when it is in no region. *)
Lemma physical_fault l T D s a err :
  safe l T D s -> mem_mode (info s) = PHYSICAL_MEM ->
  v3_handle_shadow_pagefault s a err =
  match lookup_list (regions_of (info s) l) a with Some _ => Done (-1, s) | None => Undef end.
Proof.
  intros Hs Hm. pose proof (conf_shadow _ _ _ _ (proj1 Hs)) as Hi. unfold v3_handle_shadow_pagefault.
  rewrite Hm. pose proof (paged_wf _ _ (inv_paged _ _ _ _ Hi)) as Hwf.
  pose proof (get_shadow_region_by_addr_refines _ _ a Hwf) as Hr. unfold handle_special_page_fault, regions_of.
  destruct (lookup_list _ _) as [reg|] eqn:E.
  - destruct Hr as (q & n & -> & _ & _ & Hn & Hd). run. rewrite (deref_some _ _ _ Hn). run.
    apply lookup_list_some in E as [Hreg _]; [|apply Hwf].
    destruct (inv_mem _ _ _ _ Hi reg Hreg) as [Hty _]. rewrite <- Hd in Hty.
    change (host_type (data n)) with (host_type n) in Hty. by rewrite Hty.
  - rewrite Hr. run. unfold deref. by rewrite (conf_null _ _ _ _ (proj1 Hs)).
Qed.

Lemma safe_fault l T D s a err r s' :
  safe l T D s -> v3_handle_shadow_pagefault s a err = Done (r, s') -> exists T', safe l T' D s'.
Proof.
  intros Hs. pose proof (conf_shadow _ _ _ _ (proj1 Hs)) as Hi.
  destruct (mem_mode (info s)) eqn:Hm.
  - rewrite (physical_fault l T D) by done. case_match; intros [= <- <-]; by exists T.
  - unfold v3_handle_shadow_pagefault. rewrite Hm. destruct (cpu_mode (info s)); try (intros [= <- <-]; by exists T).
    intros Hf. pose proof (pagefault32_does T l s a err Hi) as Hd. rewrite Hf in Hd.
    destruct (pagefault32_inv T l s a err Hi) as [(r' & T' & s1 & Hd' & Hi' & Hpf & _)|[_ Hu]];
      [|by rewrite Hu in Hf].
    rewrite Hf in Hd'. injection Hd' as <- <-. exists T'. by apply (safe_does l T D s).
Qed.

(** ** The other accesses to CR0 and CR3 *)

Lemma kt_refl i : kept_tables i i.
Proof. by split. Qed.
Lemma kt_upd_cr0 i i' f : kept_tables i i' -> kept_tables i (upd_cr0 i' f).
Proof. by intros []; split. Qed.
Lemma kt_upd_guest_cr0 i i' f : kept_tables i i' -> kept_tables i (upd_guest_cr0 i' f).
Proof. by intros []; split. Qed.
Lemma kt_set_cr3 i i' v : kept_tables i i' -> kept_tables i (set_cr3 i' v).
Proof. by intros []; split. Qed.
Lemma kt_write_at i i' p w v i'' :
  kept_tables i i' -> write_at i' p w v = Done i'' -> kept_tables i i''.
Proof. intros []. destruct p as [[]|]; intros [= <-]; by split. Qed.

Lemma kt_select i i' : kept_tables i i' -> kept_tables i (select_tables i').
Proof.
  intros Hk. unfold select_tables. destruct (v3_get_mem_mode i'); [apply kt_upd_cr0|]; by apply kt_set_cr3.
Qed.

(** A handler that changes the registers alone. *)
Definition regs_only (s s' : vm) : Prop :=
  kept_tables (info s) (info s') /\ hmem s' = hmem s /\ pool s' = pool s.

Lemma cr0_write_regs dec s z s' : cr0_write dec s = Done (z, s') -> regs_only s s'.
Proof.
  unfold cr0_write, regs_only.
  destruct (is_op V3_OPCODE_LMSW dec) as [[]| |]; [| |done..]; run.
  { unfold cr0_lmsw. destruct (read_at _ _ _) as [b| |]; [|done..]. run. intros [= <- <-].
    split; [|done]. case_match; [apply kt_upd_guest_cr0|]; apply kt_upd_cr0, kt_refl. }
  destruct (is_op V3_OPCODE_MOV2CR dec) as [[]| |]; [| |done..]; run.
  { destruct (cr0_mov dec (info s)) as [i| |] eqn:E; [|done..]. run. intros [= <- <-]. split; [|done].
    change (kept_tables (info s) i). revert E. unfold cr0_mov.
    case_match; [intros [= <-]; apply kt_refl|]. destruct (read_at _ _ _) as [b| |]; [|done..]. run.
    destruct (shdw_pg_mode _); [|intros [= <-]; apply kt_upd_cr0, kt_refl].
    destruct (read_at _ _ _) as [b'| |]; [|done..]. run. intros Hd.
    apply (f_equal (fun o => match o with Done x => x | _ => i end)) in Hd. cbv beta iota in Hd.
    rewrite <- Hd. apply kt_select. do 2 apply kt_upd_guest_cr0. do 2 apply kt_upd_cr0. apply kt_refl. }
  destruct (is_op V3_OPCODE_CLTS dec) as [[]| |]; [| |done..]; run; intros [= <- <-];
    (split; [|done]); [|apply kt_refl].
  unfold cr0_clts. case_match; [apply kt_upd_guest_cr0|]; apply kt_upd_cr0, kt_refl.
Qed.

Lemma cr0_read_regs dec s z s' : cr0_read dec s = Done (z, s') -> regs_only s s'.
Proof.
  unfold cr0_read, regs_only.
  destruct (is_op V3_OPCODE_MOVCR2 dec) as [[]| |]; [| |done..]; run.
  { destruct (write_at _ _ _ _) as [i| |] eqn:E; [|done..]. run. intros [= <- <-]. split; [|done].
    eapply kt_write_at; [apply kt_refl|exact E]. }
  destruct (is_op V3_OPCODE_SMSW dec) as [[]| |]; [| |done..]; run;
    [|intros [= <- <-]; split; [apply kt_refl|done]].
  destruct (read_at (info s) _ _) as [b| |]; [|done..]. run.
  destruct (write_at (info s) _ _ _) as [i| |] eqn:E; [|done..]. run.
  destruct (read_at i _ _) as [b'| |]; [|done..]. run.
  destruct (write_at i _ _ _) as [i'| |] eqn:E'; [|done..]. run. intros [= <- <-]. split; [|done].
  eapply kt_write_at; [|exact E']. eapply kt_write_at; [apply kt_refl|exact E].
Qed.

Lemma cr3_read_regs dec s z s' : cr3_read dec s = Done (z, s') -> regs_only s s'.
Proof.
  unfold cr3_read, regs_only.
  destruct (is_op V3_OPCODE_MOVCR2 dec) as [[]| |]; [| |done..]; run;
    [|intros [= <- <-]; split; [apply kt_refl|done]].
  destruct (write_at _ _ _ _) as [i| |] eqn:E; [|done..]. run. intros [= <- <-]. split; [|done].
  eapply kt_write_at; [apply kt_refl|exact E].
Qed.

(** ** The writes of CR3 *)

Lemma pd_cr3 r : u32 r / PAGE_SIZE = Cr3.pdt_base_addr (low32 r).
Proof.
  change (Cr3.pdt_base_addr (low32 r)) with (field (u32 r) 12 20).
  pose proof (field_base (u32 r) (wrap_range 32 r ltac:(done))) as H. change (2 ^ 12) with PAGE_SIZE in H. lia.
Qed.

(** Line 282 of vmm_ctrl_regs.c converts the number of the new table's page with V3_PAddr,
    as if it were an address; hosts that map physical memory at a multiple of 4GB do not
    notice. *)
Class PageNumbers : Prop :=
  page_number p : frame_ok p -> wrap 20 (V3_PAddr (PD32_BASE_ADDR (V3_VAddr p))) = PD32_BASE_ADDR p.

Lemma iso_new_pd v pd T p av m :
  isolated_but nowhere v pd T (p :: av) m ->
  isolated_but nowhere v p ∅ av (memset0 m (V3_VAddr p) PAGE_SIZE).
Proof.
  intros [Hf Hpd Hg Hpde Hpte Ha Hfr]. apply NoDup_cons in Ha as [Hn Ha].
  destruct (Hfr p ltac:(set_solver)) as (Hnull & Hfp & HT & Hgp). split; try done.
  - intros q Hq. by assert (q = p) as -> by set_solver.
  - intros q Hq Hp. assert (q = p) as -> by set_solver. done.
  - intros i Hi _. rewrite load_memset_slot_eq by done. by intros [].
  - intros q Hq. destruct (Hfr q ltac:(set_solver)) as (? & ? & ? & ?). set_solver.
Qed.

Lemma free_supply pl p : supply (V3_FreePage pl p) = supply pl.
Proof. done. Qed.

Lemma delete_supply n m : forall pl pde i, supply (delete_loop n m pl pde i) = supply pl.
Proof.
  induction n as [|n IH]; intros pl pde i; cbn [delete_loop]; [done|]. rewrite IH. by case_match.
Qed.

Lemma delete_tables_supply m pl pde : supply (delete_page_tables_pde32 m pl pde) = supply pl.
Proof.
  unfold delete_page_tables_pde32. case_match; [done|]. by rewrite free_supply, delete_supply.
Qed.

(** The state before the new tables: the old ones are freed. *)
Definition drop_shadow (s : vm) : vm :=
  match mem_mode (info s) with
  | VIRTUAL_MEM => s <| pool := delete_page_tables_pde32 (hmem s) (pool s)
                          (CR3_TO_PDE32 (u32 (shadow_cr3 (shdw_pg_state (info s))))) |>
  | PHYSICAL_MEM => s
  end.

Lemma drop_shadow_confined l T D s : confined l T D s -> confined l T D (drop_shadow s).
Proof.
  intros Hc. unfold drop_shadow. destruct (mem_mode (info s)); [done|].
  apply (confined_info l T D s); [done|by split|done|]. apply delete_tables_supply.
Qed.

Lemma renew_shadow_confined {Hpn : PageNumbers} l T D s s' :
  confined l T D s -> renew_shadow s = Done s' -> confined l ∅ D s'.
Proof.
  intros Hc%drop_shadow_confined. unfold renew_shadow. fold (drop_shadow s).
  set (s0 := drop_shadow s) in *. clearbody s0. clear s.
  destruct Hc as [Hi Hz Hd Ha Hqt Hmp]. unfold v3_create_new_shadow_pt32, V3_AllocPages.
  destruct (supply (pool s0)) as [|p av] eqn:E; [done|].
  pose proof (inv_iso _ _ _ _ Hi) as Hiso. rewrite E in Hiso.
  destruct (iso_fresh _ _ _ _ _ _ Hiso p) as (Hn & Hf & HT & Hg); [set_solver|].
  case_cmp; [done|]. run. intros Hs'.
  apply (f_equal (fun o => match o with Done x => x | _ => s' end)) in Hs'. cbv beta iota in Hs'.
  assert (pd_of s' = p) as Hpd.
  { unfold pd_of. rewrite pd_cr3, <- Hs'. unfold set_shadow_cr3.
    change (shadow_cr3 (shdw_pg_state (info (set_shdw ?a ?f)))) with (shadow_cr3 (f (shdw_pg_state (info a)))).
    cbv beta. set (x := shdw_pg_state _). change (shadow_cr3 (x <| shadow_cr3 := ?v |>)) with v.
    destruct (frame_base p Hf) as [Hb Hu]. rewrite low32_upd_cr3.
    - change (PAGE_SIZE * wrap 20 (V3_PAddr (PD32_BASE_ADDR (V3_VAddr p))) = p).
      by rewrite page_number.
    - rewrite page_number by done. revert Hu. generalize (PD32_BASE_ADDR p). intros B Hu.
      pose proof (decode_wf (T := Cr3.cr3_32) (u32 (shadow_cr3 x))) as Hwf. revert Hwf. unfold low32.
      generalize (decode (T := Cr3.cr3_32) (u32 (shadow_cr3 x))). wf_entry. }
  assert (regions_of (info s') l = regions_of (info s0) l) as Hrg by by rewrite <- Hs'.
  assert (hmem s' = memset0 (hmem s0) (V3_VAddr p) PAGE_SIZE) as Hh by by rewrite <- Hs'.
  assert (supply (pool s') = av) as Hsup by by rewrite <- Hs'.
  assert (direct_pd (info s') = direct_pd (info s0)) as Hdp by by rewrite <- Hs'.
  assert (mem_map (info s') = mem_map (info s0)) as Hmm by by rewrite <- Hs'.
  assert (run_state (info s') = run_state (info s0)) as Hrun by by rewrite <- Hs'.
  clear Hs'. split.
  - destruct Hi as [[H1 H2 H3 H4] Hm _]. split; [split|..]; rewrite ?Hrg, ?Hmm; try done.
    rewrite Hpd, Hsup, Hh. by eapply iso_new_pd.
  - by rewrite Hmm.
  - rewrite Hrg, Hdp, Hh. eapply iso_frame; [|exact Hd]. intros q i Hq Hri.
    destruct (Ha q Hq) as [_ Hqa]. rewrite load_memset_slot; [done| |apply Hf|set_solver].
    split; [apply (iso_frames _ _ _ _ _ _ Hd q Hq)|done].
  - rewrite Hdp, Hpd, Hsup. intros q Hq'. destruct (Ha q Hq') as [_ Hqa]. set_solver.
  - by rewrite Hrun.
  - by rewrite Hmm.
Qed.

Lemma set_shadow_tables i0 s f :
  kept_tables i0 (info s) -> keeps_wf f -> (forall c, Cr3.pdt_base_addr (f c) = Cr3.pdt_base_addr c) ->
  kept_tables i0 (info (set_shadow_cr3 s f)).
Proof.
  intros [Hm Hd Hpd Hc Hr] Hw Hf. split; [exact Hm|exact Hd| |exact Hc|exact Hr].
  rewrite <- Hpd, !pd_cr3. unfold set_shadow_cr3. set (x := shadow_cr3 (shdw_pg_state (info s))).
  change (Cr3.pdt_base_addr (low32 (upd_cr3_32 f x)) = Cr3.pdt_base_addr (low32 x)).
  rewrite low32_upd_cr3 by apply Hw, decode_wf. apply Hf.
Qed.

Lemma load_cr3_regs w s : regs_only s (load_cr3 (decode w) s).
Proof.
  assert (bs_wf (decode w : Cr3.cr3_32)) as Hn by apply decode_wf.
  generalize dependent (decode w : Cr3.cr3_32). intros n Hn. unfold load_cr3. cbv zeta. set (s2 := set_shadow_cr3 (set_shadow_cr3 _ _) _).
  assert (regs_only s s2) as Hs2.
  { split; [|done]. apply set_shadow_tables; [apply set_shadow_tables; [apply kt_refl|..]|..]; try done.
    all: clear s2; intros c Hc; revert c n Hn Hc; wf_entry. }
  clearbody s2. set (s3 := set_shdw s2 _).
  assert (regs_only s s3) as [H1 H2] by (destruct Hs2 as [[] []]; split; [by split|done]).
  clearbody s3. destruct (mem_mode (info s3)); [by split|]. split; [by apply kt_set_cr3|done].
Qed.

Lemma confined_regs l T D s s' : confined l T D s -> regs_only s s' -> confined l T D s'.
Proof. intros Hc (Hk & Hh & Hp). apply (confined_info l T D s); [done..|]. by rewrite Hp. Qed.

Context {Hx : XedLib} {Hxok : XedLibOk} {Hpn : PageNumbers}.

Lemma cr3_write_confined ok ok_pd ok_pt st b x dec l T D s z s' :
  xed_decode st b = Some x -> decoded x dec -> shdw_pg_mode (info s) = SHADOW_PAGING ->
  confined l T D s -> cr3_write ok ok_pd ok_pt dec s = Done (z, s') -> z <> -1 ->
  exists T', confined l T' D s'.
Proof.
  intros Hd Hdec Hm Hc Hw Hz.
  destruct (is_op V3_OPCODE_MOV2CR dec) as [[]| |] eqn:Hop;
    [|unfold cr3_write in Hw; rewrite Hop in Hw; by injection Hw as <- _
     |unfold cr3_write in Hw; by rewrite Hop in Hw..].
  destruct (cr3_write_done ok ok_pd ok_pt dec s z s') as (v & w & c & s1 & s2 & _ & Hca & Hc1 & Hr & ->);
    [by eapply mov_to_src|done..|].
  apply cache_recached in Hca as [(cc & pp & ->) Hsome].
  set (s1 := set_shdw s _) in *. assert (confined l T D s1) as Hc2.
  { apply (confined_info l T D s); [done| |done..]. split; [done..|by apply Hsome|done]. }
  clearbody s1. assert (exists T', confined l T' D s2) as [T' Hc3].
  { destruct (c =? 0); [exists ∅; by eapply renew_shadow_confined|]. injection Hr as <-. by exists T. }
  exists T'. by eapply confined_regs, load_cr3_regs.
Qed.

Lemma cr3_write_cache ok ok_pd ok_pt st b x dec s z s' :
  xed_decode st b = Some x -> decoded x dec -> shdw_pg_mode (info s) = SHADOW_PAGING ->
  pte_cache s -> cr3_write ok ok_pd ok_pt dec s = Done (z, s') -> z <> -1 -> pte_cache s'.
Proof.
  intros Hd Hdec Hm Hc Hw Hz.
  destruct (is_op V3_OPCODE_MOV2CR dec) as [[]| |] eqn:Hop;
    [|unfold cr3_write in Hw; rewrite Hop in Hw; by injection Hw as <- _
     |unfold cr3_write in Hw; by rewrite Hop in Hw..].
  destruct (cr3_write_done ok ok_pd ok_pt dec s z s') as (v & w & c & s1 & s2 & _ & Hca & Hc1 & Hr & ->);
    [by eapply mov_to_src|done..|].
  apply cache_recached in Hca as [_ Hsome]. apply (kt_cache _ _ (proj1 (load_cr3_regs w s2))).
  destruct (c =? 0); [|injection Hr as <-; by apply Hsome].
  destruct (renew_shadow_info _ _ Hr) as [f ->]. by apply Hsome.
Qed.

Lemma emulate_handled (Q : vm -> Prop) i0 d0 st s h r st' s' :
  emulate i0 d0 st s h = Done (r, st', s') -> r <> -1 -> Q s ->
  (forall s1 s2, Q s1 -> regs_only s1 s2 -> Q s2) ->
  (forall bytes x dec z s1, xed_decode st' bytes = Some x -> decoded x dec ->
     h dec s = Done (z, s1) -> z <> -1 -> Q s1) ->
  Q s'.
Proof.
  intros He Hr Hc Hq Hh.
  destruct (emulate_done _ _ _ _ _ _ _ _ He)
    as [->|(bytes & x & dec & z & s1 & Hf & Hst & Hx' & Hd & Hs1 & [[-> _]|(_ & Hz & ->)])]; [done..|].
  apply (Hq s1); [by apply (Hh bytes x dec z s1)|]. split; [by split|done].
Qed.

Lemma emulate_confined i0 d0 st s h r st' s' l T D :
  emulate i0 d0 st s h = Done (r, st', s') -> r <> -1 -> confined l T D s ->
  (forall bytes x dec z s1, xed_decode st' bytes = Some x -> decoded x dec ->
     h dec s = Done (z, s1) -> z <> -1 -> exists T', confined l T' D s1) ->
  exists T', confined l T' D s'.
Proof.
  intros He Hr Hc Hh.
  apply (emulate_handled (fun s => exists T', confined l T' D s) _ _ _ _ _ _ _ _ He Hr); [by exists T| |exact Hh].
  intros s1 s2 [T' H1] H2. exists T'. by eapply confined_regs.
Qed.

Lemma pte_cache_regs s s' : pte_cache s -> regs_only s s' -> pte_cache s'.
Proof. intros Hc [Hk _]. by apply (kt_cache _ _ Hk). Qed.

Lemma cr_exit_cache a b :
  cr_exit a b -> synced false (info (snd a)) -> pte_cache (snd a) -> pte_cache (snd b).
Proof.
  intros Hab Hs Hc.
  destruct Hab as [i0 d0 st s r st' s' He Hr|i0 d0 st s r st' s' Hl He Hr
    |i0 d0 ok ok_pd ok_pt st s r st' s' He Hr|i0 d0 st s r st' s' He Hr]; cbn [snd] in *;
    (apply (emulate_handled pte_cache _ _ _ _ _ _ _ _ He Hr); [exact Hc|apply pte_cache_regs|]);
    intros bytes x dec z s1 Hx1 Hd1 Hh Hz.
  - by eapply (pte_cache_regs (exit_modes s)), cr0_write_regs.
  - by eapply (pte_cache_regs (exit_modes s)), cr0_read_regs.
  - eapply (cr3_write_cache _ _ _ _ _ _ _ (exit_modes s));
      [exact Hx1|exact Hd1|apply Hs|exact Hc|exact Hh|exact Hz].
  - by eapply (pte_cache_regs (exit_modes s)), cr3_read_regs.
Qed.

Lemma cr_exit_safe l T D a b :
  cr_exit a b -> safe l T D (snd a) -> exists T', safe l T' D (snd b).
Proof.
  intros Hab [Hc Hs]. pose proof (cr_exit_synced a b Hab Hs) as Hs'.
  assert (exists T', confined l T' D (snd b)) as [T' Hc']; [|by exists T'].
  assert (safe l T D (exit_modes (snd a))) as [Hc1 Hs1] by by apply safe_modes.
  destruct Hab as [i0 d0 st s r st' s' He Hr|i0 d0 st s r st' s' Hl He Hr
    |i0 d0 ok ok_pd ok_pt st s r st' s' He Hr|i0 d0 st s r st' s' He Hr]; cbn [snd] in *;
    (eapply emulate_confined; [done..|]); intros bytes x dec z s1 Hx1 Hd1 Hh Hz.
  - exists T. by eapply confined_regs, cr0_write_regs.
  - exists T. by eapply confined_regs, cr0_read_regs.
  - eapply cr3_write_confined; [exact Hx1|exact Hd1|apply Hs1|exact Hc1|exact Hh|exact Hz].
  - exists T. by eapply confined_regs, cr3_read_regs.
Qed.

(** ** Runs of the guest

    Between exits the guest changes registers other than CR0 and CR3, and bytes of its
    memory.  The exits are page faults, INVLPG, and the accesses to CR0 and CR3. *)
Inductive iso_step (l : list Z) : xed_state * vm -> xed_state * vm -> Prop :=
| iso_regs st s s' : guest_runs s s' -> hmem s' = hmem s -> iso_step l (st, s) (st, s')
| iso_byte st s va pa b :
    is_u 32 va -> processor_walk s va = Some pa ->
    iso_step l (st, s) (st, s <| hmem := store8 (hmem s) (V3_VAddr pa) b |>)
| iso_fault st s a err r s' :
    v3_handle_shadow_pagefault (exit_modes s) a err = Done (r, s') -> iso_step l (st, s) (st, s')
| iso_invlpg st s r s' :
    v3_handle_shadow_invlpg (exit_modes s) = Done (r, s') -> iso_step l (st, s) (st, s')
| iso_cr a b : cr_exit a b -> iso_step l a b.

Lemma safe_byte l T D s va pa b :
  safe l T D s -> is_u 32 va -> processor_walk s va = Some pa ->
  safe l T D (s <| hmem := store8 (hmem s) (V3_VAddr pa) b |>).
Proof.
  intros Hs Hva Hw. pose proof (safe_walk _ _ _ _ _ _ Hs Hva Hw) as Hp.
  pose proof (Z.div_mod pa PAGE_SIZE ltac:(done)) as Hpa.
  pose proof (Z.mod_pos_bound pa PAGE_SIZE ltac:(done)) as Hk.
  rewrite Hpa, os_linear by (done || apply Hp). by apply safe_write.
Qed.

Lemma iso_step_safe l T D a b : iso_step l a b -> safe l T D (snd a) -> exists T', safe l T' D (snd b).
Proof.
  intros Hab Hs. destruct Hab as [st s s' Hg Hh|st s va pa b Hva Hw|st s ad err r s' Hf|st s r s' Hi|a b Hab];
    cbn [snd] in *.
  - exists T. destruct Hg as (m & regs & ip & pl & sg & c2 & c4 & c8 & fl & ef & ->).
    split; [|apply (synced_same (info s)), Hs; done].
    apply (confined_info l T D s); [apply Hs|by split|done..].
  - exists T. by eapply safe_byte.
  - apply safe_modes in Hs. by eapply safe_fault.
  - apply safe_modes in Hs. exists T. by eapply safe_invlpg.
  - by eapply cr_exit_safe.
Qed.

Lemma iso_step_cache l T D a b :
  iso_step l a b -> safe l T D (snd a) -> pte_cache (snd a) -> pte_cache (snd b).
Proof.
  intros Hab Hs Hc. destruct Hab as [st s s' Hg Hh|st s va pa b Hva Hw|st s ad err r s' Hf|st s r s' Hi|a b Hab];
    cbn [snd] in *.
  - by destruct Hg as (m & regs & ip & pl & sg & c2 & c4 & c8 & fl & ef & ->).
  - exact Hc.
  - apply safe_modes in Hs. pose proof (conf_shadow _ _ _ _ (proj1 Hs)) as Hi.
    unfold v3_handle_shadow_pagefault in Hf. destruct (mem_mode (info (exit_modes s))) eqn:Hm.
    { pose proof (physical_fault l T D _ ad err Hs Hm) as Hp. unfold v3_handle_shadow_pagefault in Hp.
      rewrite Hm, Hf in Hp. case_match; [|done]. by injection Hp as _ ->. }
    destruct (cpu_mode _); try by injection Hf as _ <-.
    destruct (pagefault32_inv T l _ ad err Hi) as [(r' & T' & s1 & Hd & _ & _ & Hsc)|[_ Hu]];
      [|by rewrite Hu in Hf].
    rewrite Hd in Hf. injection Hf as _ <-. by apply (same_cache_some (exit_modes s)).
  - apply safe_modes in Hs. destruct (invlpg_does l T _ r s' (conf_shadow _ _ _ _ (proj1 Hs)) Hi) as [Hd _].
    unfold pte_cache. rewrite (kept_cache _ _ (does_kept _ _ _ Hd)). exact Hc.
  - by apply (cr_exit_cache a b); [|apply Hs|].
Qed.

Lemma iso_run_safe l T D a b :
  rtc (iso_step l) a b -> safe l T D (snd a) ->
  exists T', safe l T' D (snd b) /\ (pte_cache (snd a) -> pte_cache (snd b)).
Proof.
  intros Hr. revert T. induction Hr as [|a b c Hab _ IH]; intros T Hs; [by exists T|].
  destruct (iso_step_safe l T D a b Hab Hs) as [T1 H1]. destruct (IH T1 H1) as (T2 & H2 & Hc).
  exists T2. split; [done|]. intros Ha. by apply Hc, (iso_step_cache l T D a).
Qed.


End safety.
#[global] Arguments confined {A Hos} M l T D s.
#[global] Arguments safe {A Hos} M l T D s.

(** ** Witness

    The guest of ShadowPaging.v on a host that maps physical memory at 4GB, with an empty
    direct map, and the library of CtrlRegs.v. *)

Abbreviation high_host := (direct_map (2 ^ 32)).

Lemma high_page_numbers : PageNumbers (A := V3_64BIT) (Hos := high_host).
Proof.
  intros p [_ [[Hp1 Hp2] _]]. unfold PD32_BASE_ADDR, V3_PAddr, V3_VAddr. cbn [vaddr_to_paddr paddr_to_vaddr direct_map].
  assert (u32 (p + 2 ^ 32) = p) as ->.
  { unfold wrap. rewrite <- (Z.mul_1_l (2 ^ 32)) at 1. rewrite Z.mod_add by done. by apply Z.mod_small. }
  rewrite (wrap_small 32 p) by done. rewrite Z.shiftr_div_pow2 by done. unfold wrap.
  replace (p / 2 ^ 12 - 2 ^ 32) with (p / 2 ^ 12 + - 2 ^ 12 * 2 ^ 20) by lia.
  rewrite Z.mod_add by done. apply Z.mod_small. split; [by apply Z.div_pos|].
  apply Z.div_lt_upper_bound; [done|]. change (2 ^ 12 * 2 ^ 20) with (2 ^ 32). done.
Qed.

Definition high_mem : mem :=
  store32 (store32 (fun _ => 0) (2 ^ 32 + 0x50000) 0x1007) (2 ^ 32 + 0x51004) 0x3007.

Definition high_vm : vm :=
  mk_vm ((info demo_cr) <| direct_map_pt := 0x73000 |>) high_mem (mk_page_pool [0x71000] [])
    demo_decoder Vmcb.demo_vmcb.

Lemma high_empty p i : page_aligned p -> 0x52000 <= p -> 0 <= i < 1024 ->
  load32 high_mem (slot (Hos := high_host) p i) = 0.
Proof.
  intros Hp Hb Hi. unfold slot, V3_VAddr, high_mem. cbn [paddr_to_vaddr direct_map].
  by rewrite !loadn_storen_ne by lia.
Qed.

Lemma high_isolated pd av :
  frame_ok (A := V3_64BIT) pd -> 0x52000 <= pd -> NoDup av ->
  (forall p, p ∈ av -> p <> pd /\ 0x52000 <= p /\ frame_ok (A := V3_64BIT) p) ->
  isolated_but (A := V3_64BIT) (Hos := high_host) nowhere (regions_of (info high_vm) [1; 2]) pd ∅ av high_mem.
Proof.
  intros Hf Hpd Hn Hav. split; [|set_solver| | |set_solver|done|].
  - intros p Hp. by assert (p = pd) as -> by set_solver.
  - intros p Hp%demo_guest_pages. set_solver by lia.
  - intros i Hi _. rewrite high_empty by (done || apply Hf). by intros [].
  - intros p Hp. destruct (Hav p Hp) as (H1 & H2 & H3). split_and!; [unfold NULL; lia|done|set_solver|].
    intros Hg%demo_guest_pages. lia.
Qed.

Lemma high_safe : safe (A := V3_64BIT) (Hos := high_host) (mem_map (info high_vm)) [1; 2] ∅ ∅ high_vm.
Proof.
  assert (forall p, p ∈ [0x70000; 0x71000; 0x73000] -> frame_ok (A := V3_64BIT) p) as Hf.
  { intros p Hp. repeat (apply elem_of_cons in Hp as [->|Hp]; [by split_and!|]). set_solver. }
  split; [|by split; vm_compute]. split.
  - split.
    + split; [apply wf_demo_map| |by eexists|].
      { do 2 (apply Forall_cons; split; [intros _; split_and!; done|]). constructor. } intros p Hp. unfold V3_VAddr, NULL. cbn [paddr_to_vaddr direct_map]. lia.
    + destruct demo_guarded as (T & Hi & _). apply (inv_mem _ _ _ _ Hi).
    + apply high_isolated; [apply Hf; set_solver|done|apply NoDup_singleton|].
      intros p ->%list_elem_of_singleton. split_and!; [done|done|]. apply Hf. set_solver.
  - done.
  - apply high_isolated; [apply Hf; set_solver|done|constructor|set_solver].
  - intros q Hq. change (pd_of high_vm) with 0x70000. change (direct_pd (info high_vm)) with 0x73000 in Hq.
    assert (q = 0x73000) as -> by set_solver. set_solver by done.
  - done.
  - done.
Qed.

Abbreviation high_fault s :=
  (v3_handle_shadow_pagefault (A := V3_64BIT) (Hos := high_host) (Hem := demo_emulate)
    (exit_modes s) 0x1010 demo_fault).


End Isolation.
