(* ===== verification/SvmIo.v ===== *)
(** I/O instructions of the guest: svm_io.c and svm_io.h.

    The processor leaves the guest when it accesses a hooked port; EXITINFO1 describes the
    access.  [IoDevices] is the interface of the VMM to its devices: the functions that they
    hooked to ports.  [Module SvmIo] translates the four handlers against it, and the
    theorems show what the device and the guest exchange, for single accesses and for the
    string instructions that move a sequence of elements between a port and guest memory. *)
From stdpp Require Import base tactics numbers list gmap.
From S2P Require Import Prelude Chain Host MemMap IoMap Paging Intr Hashtable GuestInfo GuestMem.
From S2P Require Import Decoder Vmcb ShadowPaging.

Module SvmIo.
Import ShadowMap IoMap Paging GuestInfo GuestMem Decoder ShadowPaging.

(** [struct svm_io_info] *)
Record svm_io_info := mk_svm_io_info {
  io_type : Z;
  io_rsvd : Z;
  str : Z;
  rep : Z;
  sz8 : Z;
  sz16 : Z;
  sz32 : Z;
  addr16 : Z;
  addr32 : Z;
  addr64 : Z;
  io_rsvd2 : Z;
  io_port : Z;
}.

#[global, program] Instance bits_svm_io_info : BitStruct svm_io_info := {|
  bs_widths := [1; 1; 1; 1; 1; 1; 1; 1; 1; 1; 6; 16];
  bs_values c := [io_type c; io_rsvd c; str c; rep c; sz8 c; sz16 c; sz32 c; addr16 c; addr32 c;
    addr64 c; io_rsvd2 c; io_port c];
  bs_make vs := mk_svm_io_info (nth 0 vs 0) (nth 1 vs 0) (nth 2 vs 0) (nth 3 vs 0) (nth 4 vs 0)
    (nth 5 vs 0) (nth 6 vs 0) (nth 7 vs 0) (nth 8 vs 0) (nth 9 vs 0) (nth 10 vs 0) (nth 11 vs 0)
|}.
Solve All Obligations with solve_bitstruct.

(** The functions that devices hook to ports, by their pointers, on the state [D] of all
    devices.  A read gets the port, the length and the private data, and returns its result
    and the bytes it stores at the destination; a write gets the bytes at the source. *)
Class IoDevices (D : Type) := {
  dev_read : Z -> Z -> Z -> Z -> D -> outcome (Z * list Z * D);
  dev_write : Z -> Z -> list Z -> Z -> Z -> D -> outcome (Z * D);
}.

(** A device stores no more bytes than it is asked for. *)
Class IoDevicesOk (D : Type) {Hd : IoDevices D} : Prop :=
  dev_read_length fn prt n priv d r bs d' :
    dev_read fn prt n priv d = Done (r, bs, d') -> Z.of_nat (length bs) <= Z.max 0 n.

(** The low bytes of a word: the first [n], and their replacement. *)
Definition le_bytes (n : nat) (v : Z) : list Z := (fun i => field v (8 * Z.of_nat i) 8) <$> seq 0 n.

Fixpoint put_bytes (v : Z) (bs : list Z) : Z :=
  match bs with
  | [] => v
  | b :: bs => u8 b + 256 * put_bytes (v / 256) bs
  end.

Section svm_io.
Context {A : Arch} {Hos : OsHooks} {D : Type} {Hd : IoDevices D}.

Definition io_info (exit_info1 : Z) : svm_io_info := decode (u32 exit_info1).

(** The variable [read_size] or [write_size]. *)
Definition io_size (i : svm_io_info) : Z :=
  if negb (sz8 i =? 0) then 1 else if negb (sz16 i =? 0) then 2
  else if negb (sz32 i =? 0) then 4 else 0.

Definition addr_mask (info : guest_info) (i : svm_io_info) : Z :=
  if negb (addr16 i =? 0) then 0xffff else if negb (addr32 i =? 0) then 0xffffffff
  else if negb (addr64 i =? 0) then 0xffffffffffffffff else get_gpr_mask info.

(** The direction flag. *)
Definition io_direction (rflags : Z) : Z := if negb (field rflags 10 1 =? 0) then -1 else 1.

(** A read that stores more than the eight bytes of RAX overwrites what follows it. *)
Definition v3_handle_svm_io_in (exit_info1 exit_info2 : Z) (io_map : vmm_io_map) (s : vm) (d : D)
    : outcome (Z * vm * D) :=
  let i := io_info exit_info1 in
  hook ← v3_get_io_hook io_map (io_port i);
  if hook =? NULL then Done (-1, s, d) else
  h ← deref (io_hooks io_map) hook;
  let read_size := io_size i in
  '(r, bs, d) ← dev_read (io_read h) (io_port i) read_size (io_priv_data h) d;
  if (8 <? length bs)%nat then Undef else
  let s := s <| info := (info s) <| vm_regs := (vm_regs (info s))
               <| rax := put_bytes (rax (vm_regs (info s))) bs |> |> |> in
  if negb (r =? read_size) then Done (-1, s, d) else
  Done (0, s <| info := (info s) <| rip := exit_info2 |> |>, d).

Definition v3_handle_svm_io_out (exit_info1 exit_info2 : Z) (io_map : vmm_io_map) (s : vm) (d : D)
    : outcome (Z * vm * D) :=
  let i := io_info exit_info1 in
  hook ← v3_get_io_hook io_map (io_port i);
  if hook =? NULL then Done (-1, s, d) else
  h ← deref (io_hooks io_map) hook;
  let write_size := io_size i in
  '(r, d) ← dev_write (io_write h) (io_port i)
    (le_bytes (Z.to_nat write_size) (rax (vm_regs (info s)))) write_size (io_priv_data h) d;
  if negb (r =? write_size) then Done (-1, s, d) else
  Done (0, s <| info := (info s) <| rip := exit_info2 |> |>, d).

(** The segment that the prefixes of the instruction at host address [inst_ptr] select;
    the loop ends at the first byte that is no prefix. *)
Definition prefix_segment (info : guest_info) (b : Z) (theseg : v3_segment) : v3_segment :=
  let segs := segments info in
  match b with
  | 0x2E => cs segs | 0x36 => ss segs | 0x3E => ds segs
  | 0x26 => es segs | 0x64 => fs segs | 0x65 => gs segs
  | _ => theseg
  end.

Fixpoint scan_prefixes (fuel : nat) (info : guest_info) (m : mem) (inst_ptr : Z)
    (theseg : v3_segment) : outcome v3_segment :=
  match fuel with
  | O => OutOfFuel
  | S fuel =>
      let b := load8 m inst_ptr in
      if is_prefix_byte b
      then scan_prefixes fuel info m (inst_ptr + 1) (prefix_segment info b theseg)
      else Done theseg
  end.

Definition set_string_regs (s : vm) (f : v3_gprs -> v3_gprs) (rep : Z) : vm :=
  let regs := f (vm_regs (info s)) in
  s <| info := (info s) <| vm_regs :=
         if negb (rep =? 0) then regs <| rcx := u64 (rcx regs - 1) |> else regs |> |>.

(** The loop of INS over [n] elements. *)
Fixpoint ins_loop (n : nat) (h : vmm_io_hook) (i : svm_io_info) (mask direction : Z)
    (theseg : v3_segment) (s : vm) (d : D) : outcome (Z * vm * D) :=
  match n with
  | O => Done (0, s, d)
  | S n =>
      let dst_addr := get_addr_linear (info s) (Z.land (rdi (vm_regs (info s))) mask) theseg in
      '(r, host_addr) ← guest_va_to_host_va (info s) (hmem s) dst_addr;
      if r =? -1 then Done (-1, s, d) else
      '(r, bs, d) ← dev_read (io_read h) (io_port i) (io_size i) (io_priv_data h) d;
      let s := s <| hmem := copy_to (hmem s) host_addr bs |> in
      if negb (r =? io_size i) then Done (-1, s, d) else
      let s := set_string_regs s (fun g => g <| rdi := u64 (rdi g + io_size i * direction) |>) (rep i) in
      ins_loop n h i mask direction theseg s d
  end.

(** The number of repetitions is an [uint_t]. *)
Definition v3_handle_svm_io_ins (fuel : nat) (exit_info1 exit_info2 rflags : Z)
    (io_map : vmm_io_map) (s : vm) (d : D) : outcome (Z * vm * D) :=
  let i := io_info exit_info1 in
  hook ← v3_get_io_hook io_map (io_port i);
  let direction := io_direction rflags in
  if hook =? NULL then Done (-1, s, d) else
  h ← deref (io_hooks io_map) hook;
  '(r, inst_ptr) ← guest_va_to_host_va (info s) (hmem s)
    (get_addr_linear (info s) (rip (info s)) (cs (segments (info s))));
  if r =? -1 then Done (-1, s, d) else
  theseg ← scan_prefixes fuel (info s) (hmem s) inst_ptr (es (segments (info s)));
  if io_size i =? 0 then Done (-1, s, d) else
  let mask := addr_mask (info s) i in
  let rep_num := if negb (rep i =? 0) then u32 (rcx (vm_regs (info s))) else 1 in
  '(r, s, d) ← ins_loop (Z.to_nat rep_num) h i mask direction theseg s d;
  if negb (r =? 0) then Done (r, s, d) else
  Done (0, s <| info := (info s) <| rip := exit_info2 |> |>, d).

(** The loop of OUTS.  The result of the translation is not checked: the device gets the
    null pointer. *)
Fixpoint outs_loop (n : nat) (h : vmm_io_hook) (i : svm_io_info) (mask direction : Z)
    (theseg : v3_segment) (s : vm) (d : D) : outcome (Z * vm * D) :=
  match n with
  | O => Done (0, s, d)
  | S n =>
      let dst_addr := get_addr_linear (info s) (Z.land (rsi (vm_regs (info s))) mask) theseg in
      '(r, host_addr) ← guest_va_to_host_va (info s) (hmem s) dst_addr;
      if host_addr =? NULL then Undef else
      '(r, d) ← dev_write (io_write h) (io_port i) (copy_from (hmem s) host_addr (io_size i))
        (io_size i) (io_priv_data h) d;
      if negb (r =? io_size i) then Done (-1, s, d) else
      let s := set_string_regs s (fun g => g <| rsi := u64 (rsi g + io_size i * direction) |>) (rep i) in
      outs_loop n h i mask direction theseg s d
  end.

Definition v3_handle_svm_io_outs (fuel : nat) (exit_info1 exit_info2 rflags : Z)
    (io_map : vmm_io_map) (s : vm) (d : D) : outcome (Z * vm * D) :=
  let i := io_info exit_info1 in
  hook ← v3_get_io_hook io_map (io_port i);
  let direction := io_direction rflags in
  if hook =? NULL then Done (-1, s, d) else
  h ← deref (io_hooks io_map) hook;
  let mask := addr_mask (info s) i in
  let rep_num := if negb (rep i =? 0) then u32 (Z.land (rcx (vm_regs (info s))) mask) else 1 in
  '(r, inst_ptr) ← guest_va_to_host_va (info s) (hmem s)
    (get_addr_linear (info s) (rip (info s)) (cs (segments (info s))));
  if r =? -1 then Done (-1, s, d) else
  theseg ← scan_prefixes fuel (info s) (hmem s) inst_ptr (es (segments (info s)));
  '(r, s, d) ← outs_loop (Z.to_nat rep_num) h i mask direction theseg s d;
  if negb (r =? 0) then Done (r, s, d) else
  Done (0, s <| info := (info s) <| rip := exit_info2 |> |>, d).

(** ** What the device and the guest exchange *)

Lemma get_hook io_map l prt h :
  wf io_map l -> abs (io_hooks io_map) l !! prt = Some h ->
  exists q n, v3_get_io_hook io_map prt = Done q /\ q <> NULL /\ io_hooks io_map !! q = Some n /\
    handler n = h.
Proof.
  intros Hwf Hh. destruct (get_io_hook_spec io_map l prt Hwf) as (q & Hq & [[_ Hn]|(n & H)]).
  - congruence.
  - destruct H as (? & ? & Hn & ? & Hab). exists q, n. naive_solver congruence.
Qed.

Lemma get_no_hook io_map l prt :
  wf io_map l -> abs (io_hooks io_map) l !! prt = None -> v3_get_io_hook io_map prt = Done NULL.
Proof.
  intros Hwf Hh. destruct (get_io_hook_spec io_map l prt Hwf) as (q & Hq & [[-> _]|(n & H)]); [done|].
  destruct H as (? & ? & Hn & ? & Hab). congruence.
Qed.

(** The element at offset [k] of a string that starts at [r] in segment [g]. *)
Definition elem_addr (i : guest_info) (x : svm_io_info) (g : v3_segment) (direction r k : Z) : Z :=
  get_addr_linear i (Z.land (r + io_size x * direction * k) (addr_mask i x)) g.

(** The device takes a sequence of elements: how many of them it accepts. *)
Fixpoint feed (h : io_handler) (x : svm_io_info) (cs : list (list Z)) (d : D) : outcome (Z * D) :=
  match cs with
  | [] => Done (0, d)
  | c :: cs =>
      '(r, d) ← dev_write (hd_write h) (io_port x) c (io_size x) (hd_priv h) d;
      if r =? io_size x then '(k, d) ← feed h x cs d; Done (k + 1, d) else Done (0, d)
  end.

(** The registers of a string instruction after [k] elements. *)
Definition after_outs (x : svm_io_info) (direction : Z) (s : vm) (k : Z) : vm :=
  let g := vm_regs (info s) in
  s <| info := (info s) <| vm_regs := g <| rsi := u64 (rsi g + io_size x * direction * k) |>
         <| rcx := if negb (rep x =? 0) then u64 (rcx g - k) else rcx g |> |> |>.

Context {Hok : OsHooksOk}.

Lemma gva_hva_nonnull i l m a v :
  paged i l -> gva_hva i (regions_of i l) m a = Some v -> v <> NULL.
Proof.
  intros Hp. unfold gva_hva, gpa_hva. destruct (walk_gpa _ _ _ _ _) as [pa|]; [|done]. cbn.
  destruct (lookup_list _ _) as [r|] eqn:E; [|done]. cbn. destruct (host_type r) eqn:Ht; intros [= <-].
  apply (paged_nonnull _ _ Hp). by apply (paged_lookup i l pa r Hp E Ht).
Qed.

Lemma mask_u64 i x : is_u 64 (addr_mask i x).
Proof.
  unfold addr_mask, get_gpr_mask.
  repeat match goal with |- context [if ?b then _ else _] => destruct b end; [done..|].
  destruct (cpu_mode i); done || by apply wrap_range.
Qed.

(** The translation of an address of a string, and the bytes of an element that does not
    straddle a page boundary. *)
Definition whole_elem (T : Z -> option Z) (a n : Z) : Prop :=
  is_Some (T a) /\ a mod PAGE_SIZE + n <= PAGE_SIZE.

Lemma linear_addr i r g : is_addr (get_addr_linear i r g).
Proof. unfold get_addr_linear. destruct (cpu_mode i); apply ulong_range. Qed.

Lemma translate i l m a :
  paged i l -> is_addr a ->
  is_Some (gva_hva i (regions_of i l) m a) ->
  exists v, guest_va_to_host_va i m a = Done (0, v) /\ gva_hva i (regions_of i l) m a = Some v /\
    v <> NULL.
Proof.
  intros Hp Ha [v Hv]. destruct (guest_va_to_host_va_implements i l m Hp a Ha) as (r & w & Hx & Hr).
  rewrite Hv in Hr. destruct Hr as [-> ->]. exists v. split_and!; [done..|]. by eapply gva_hva_nonnull.
Qed.

Lemma feed_bounds h x cs : forall d k d', feed h x cs d = Done (k, d') -> 0 <= k <= Z.of_nat (length cs).
Proof.
  induction cs as [|c cs IH]; intros d k d'; cbn [feed length].
  - intros [= <- <-]. lia.
  - destruct (dev_write _ _ _ _ _ _) as [[r d1]| |]; [|done..]. run. case_cmp; [|intros [= <- <-]; lia].
    destruct (feed h x cs d1) as [[k1 d2]| |] eqn:E; [|done..]. run. intros [= <- <-].
    apply IH in E. lia.
Qed.

Lemma after_outs_0 x dir s :
  is_u 64 (rsi (vm_regs (info s))) -> is_u 64 (rcx (vm_regs (info s))) -> after_outs x dir s 0 = s.
Proof.
  intros H1 H2. unfold after_outs. rewrite Z.mul_0_r, Z.add_0_r, Z.sub_0_r, !wrap_small by done.
  destruct s as [[? ? ? ? ? ? ? ? ? [] ? ? ? ? ?] ? ? ? ?]. cbn. by destruct (rep x =? 0).
Qed.

Lemma after_outs_step x dir s k :
  set_string_regs (after_outs x dir s k) (fun g => g <| rsi := u64 (rsi g + io_size x * dir) |>) (rep x) =
  after_outs x dir s (k + 1).
Proof.
  unfold set_string_regs, after_outs. destruct s as [i m pl]. destruct i as [? ? ? ? ? ? ? ? ? g ? ? ?].
  destruct g as [a1 a2 a3 a4 a5 a6 a7 a8]. cbn -[wrap].
  assert (u64 (u64 (a2 + io_size x * dir * k) + io_size x * dir) = u64 (a2 + io_size x * dir * (k + 1))) as ->.
  { apply wrap_eqw. setoid_rewrite eqw_wrap. split. f_equal. lia. }
  destruct (rep x =? 0); cbn -[wrap]; [done|].
  assert (u64 (u64 (a7 - k) - 1) = u64 (a7 - (k + 1))) as ->; [|done].
  apply wrap_eqw. setoid_rewrite eqw_wrap. split. f_equal. lia.
Qed.

Lemma outs_loop_spec hk x dir g s l n :
  let i := info s in let T := gva_hva i (regions_of i l) (hmem s) in
  let a k := elem_addr i x g dir (rsi (vm_regs i)) k in
  paged i l ->
  forall k d, (forall j, k <= j < k + Z.of_nat n -> whole_elem T (a j) (io_size x)) ->
  outs_loop n hk x (addr_mask i x) dir g (after_outs x dir s k) d =
    '(c, d') ← feed (handler hk) x ((fun j => guest_bytes T (hmem s) (a j) (io_size x)) <$> seqZ k (Z.of_nat n)) d;
    Done (if c =? Z.of_nat n then 0 else -1, after_outs x dir s (k + c), d').
Proof.
  cbv zeta. intros Hp. induction n as [|n IH]; intros k d Ha.
  - change (seqZ k (Z.of_nat 0)) with ([] : list Z). cbn [outs_loop fmap list_fmap feed]. run.
    by rewrite Z.add_0_r.
  - rewrite seqZ_cons by lia. cbn [outs_loop fmap list_fmap feed].
    replace (Z.pred (Z.of_nat (S n))) with (Z.of_nat n) by lia.
    set (a := elem_addr (info s) x g dir (rsi (vm_regs (info s))) k).
    assert (get_addr_linear (info (after_outs x dir s k))
      (Z.land (rsi (vm_regs (info (after_outs x dir s k)))) (addr_mask (info s) x)) g = a) as ->.
    { unfold a, elem_addr. change (rsi (vm_regs (info (after_outs x dir s k))))
        with (u64 (rsi (vm_regs (info s)) + io_size x * dir * k)).
      rewrite land_wrap by (done || apply mask_u64). done. }
    destruct (Ha k ltac:(lia)) as [Hs Hpg]. fold a in Hs, Hpg.
    destruct (translate (info s) l (hmem s) a Hp) as (v & Hv & HT & Hn); [apply linear_addr|done|].
    change (guest_va_to_host_va (info (after_outs x dir s k)) (hmem (after_outs x dir s k)) a)
      with (guest_va_to_host_va (info s) (hmem s) a).
    rewrite Hv. run. rewrite (proj2 (Z.eqb_neq _ _) Hn).
    change (hmem (after_outs x dir s k)) with (hmem s).
    rewrite (copy_from_guest (gva_hva (info s) (regions_of (info s) l) (hmem s)) (hmem s) a v (io_size x))
      by (done || by apply gva_hva_coherent || apply linear_addr).
    change (hd_write (handler hk)) with (io_write hk). change (hd_priv (handler hk)) with (io_priv_data hk).
    destruct (dev_write _ _ _ _ _ _) as [[r d1]| |]; [|done..]. run.
    destruct (Z.eqb_spec r (io_size x)) as [->|Hr]; cbn [negb].
    + rewrite after_outs_step. rewrite IH by (intros j Hj; apply Ha; lia).
      unfold Z.succ. destruct (feed _ _ _ _) as [[c d2]| |]; [|done..]. run.
      replace (k + 1 + c) with (k + (c + 1)) by lia. do 3 f_equal. repeat case_cmp; done || lia.
    + run. by rewrite Z.add_0_r.
Qed.

(** An instruction at [v] with the prefixes [ps], and the segment that they select. *)
Definition prefixed (m : mem) (v : Z) (ps : list Z) : Prop :=
  (forall j p, ps !! j = Some p -> load8 m (v + Z.of_nat j) = p /\ is_prefix_byte p = true) /\
  is_prefix_byte (load8 m (v + Z.of_nat (length ps))) = false.

Definition selected (i : guest_info) (ps : list Z) (g : v3_segment) : v3_segment :=
  foldl (fun g b => prefix_segment i b g) g ps.

Lemma scan_selected i m ps : forall fuel v g,
  prefixed m v ps -> (length ps < fuel)%nat -> scan_prefixes fuel i m v g = Done (selected i ps g).
Proof.
  induction ps as [|p ps IH]; intros [|fuel] v g [Hps Hend] Hf; cbn [length] in Hf; try lia;
    cbn [scan_prefixes].
  - rewrite Z.add_0_r in Hend. by rewrite Hend.
  - destruct (Hps 0%nat p eq_refl) as [Hp1 Hp2]. rewrite Z.add_0_r in Hp1. rewrite Hp1, Hp2.
    rewrite IH; [done| |lia]. split.
    + intros j q Hj. destruct (Hps (S j) q Hj) as [<- Hq]. split; [f_equal; lia|done].
    + rewrite <- Hend. f_equal. cbn [length]. f_equal. lia.
Qed.

(** What the handlers of string instructions need of the guest: its memory map, and an
    instruction that can be read. *)
Record string_instr (l : list Z) (fuel : nat) (ps : list Z) (s : vm) : Prop := {
  si_paged : paged (info s) l;
  si_regs : is_u 64 (rsi (vm_regs (info s))) /\ is_u 64 (rdi (vm_regs (info s))) /\
    is_u 64 (rcx (vm_regs (info s)));
  si_instr : exists v, prefixed (hmem s) v ps /\
    gva_hva (info s) (regions_of (info s) l) (hmem s)
      (get_addr_linear (info s) (rip (info s)) (cs (segments (info s)))) = Some v;
  si_fuel : (length ps < fuel)%nat;
}.

Lemma string_start l fuel ps s g :
  string_instr l fuel ps s -> exists v,
    guest_va_to_host_va (info s) (hmem s)
      (get_addr_linear (info s) (rip (info s)) (cs (segments (info s)))) = Done (0, v) /\
    scan_prefixes fuel (info s) (hmem s) v g = Done (selected (info s) ps g).
Proof.
  intros [Hp _ (v & Hps & Hv) Hf].
  destruct (translate (info s) l (hmem s) _ Hp (linear_addr (info s) (rip (info s)) (cs (segments (info s)))))
    as (w & Hw & HT & _); [by eexists|]. rewrite Hv in HT. injection HT as <-. exists v. split; [done|].
  by apply scan_selected.
Qed.

(** C18. OUTS and REP OUTS send the string to the device, when every element is mapped and
    lies in one page (the handler follows the null pointer of a failed translation, and
    copies an element from consecutive host addresses): element after element, in the
    direction of the flag, the bytes of guest memory that the VMM's translation of the
    address gives.  The segment is that of the prefixes and ES without one, where the
    instruction defines DS.  When the device refuses an element, the registers count the
    elements before it and the instruction pointer stays at the instruction. *)
Theorem outs_sends_string lio l fuel ps e1 e2 rfl io_map s d h :
  let i := info s in let x := io_info e1 in let dir := io_direction rfl in
  let T := gva_hva i (regions_of i l) (hmem s) in
  let g := selected i ps (es (segments i)) in
  let a := elem_addr i x g dir (rsi (vm_regs i)) in
  let n := if negb (rep x =? 0) then u32 (Z.land (rcx (vm_regs i)) (addr_mask i x)) else 1 in
  wf io_map lio -> abs (io_hooks io_map) lio !! io_port x = Some h -> string_instr l fuel ps s ->
  (forall j, 0 <= j < n -> whole_elem T (a j) (io_size x)) ->
  v3_handle_svm_io_outs fuel e1 e2 rfl io_map s d =
    '(k, d') ← feed h x ((fun j => guest_bytes T (hmem s) (a j) (io_size x)) <$> seqZ 0 n) d;
    let s' := after_outs x dir s k in
    Done (if k =? n then (0, s' <| info := (info s') <| rip := e2 |> |>, d') else (-1, s', d')).
Proof.
  cbv zeta. intros Hwf Hh Hs Ha. unfold v3_handle_svm_io_outs.
  destruct (get_hook io_map lio _ h Hwf Hh) as (q & hk & -> & Hq & Hn & <-). run.
  rewrite (proj2 (Z.eqb_neq _ _) Hq), (deref_some _ _ _ Hn). run.
  destruct (string_start l fuel ps s (es (segments (info s))) Hs) as (v & -> & Hsc). run. rewrite Hsc. run.
  clear Hsc. set (n := if negb (rep (io_info e1) =? 0) then _ else 1) in *.
  assert (Z.of_nat (Z.to_nat n) = n) as Hnn.
  { apply Z2Nat.id. unfold n. case_match; [|done]. by apply wrap_range. }
  pose proof (outs_loop_spec hk (io_info e1) (io_direction rfl) (selected (info s) ps (es (segments (info s))))
    s l (Z.to_nat n) (si_paged _ _ _ _ Hs) 0 d) as Hl.
  cbv zeta in Hl. rewrite Hnn, after_outs_0 in Hl by apply Hs. rewrite Hl by (intros j Hj; apply Ha; lia).
  clear Hl. destruct (feed _ _ _ _) as [[k d']| |]; [|done..]. run. rewrite Z.add_0_l. by destruct (k =? n).
Qed.

(** ** Strings from the device *)

(** The host address of an address of the guest is in a page of the guest, at its offset. *)
Lemma gva_hva_page i l m a v :
  paged i l -> is_addr a -> gva_hva i (regions_of i l) m a = Some v ->
  exists p, guest_page (regions_of i l) p /\ v = V3_VAddr p + a mod PAGE_SIZE.
Proof.
  intros Hp Ha Hv. pose proof (Z.div_mod a PAGE_SIZE ltac:(done)) as Hdm.
  pose proof (Z.mod_pos_bound a PAGE_SIZE ltac:(done)) as Hk. set (k := a mod PAGE_SIZE) in *.
  set (a0 := PAGE_SIZE * (a / PAGE_SIZE)) in *.
  assert (a0 mod PAGE_SIZE = 0) as H0 by (unfold a0; by rewrite Z.mul_comm, Z.mod_mul).
  assert (is_addr a0) as Ha0.
  { destruct Ha as [Ha1 Ha2]. split; [|lia]. unfold a0. pose proof (Z.div_pos a PAGE_SIZE). lia. }
  rewrite Hdm, (gva_hva_coherent i l m Hp a0 k Ha0) in Hv by lia.
  destruct (gva_hva i (regions_of i l) m a0) as [v0|] eqn:Hv0; [|done]. injection Hv as <-.
  unfold gva_hva in Hv0. destruct (walk_gpa _ _ _ _ _) as [pa|] eqn:Hpa; [|done].
  destruct (gva_gpa_coherent i (regions_of i l) m a0 0 Ha0) as [_ Hal]; [lia..|].
  destruct (Hal pa Hpa) as [_ Hal0]. rewrite H0 in Hal0.
  destruct (gpa_page i l pa v0 Hp Hal0 Hv0) as (p & -> & Hg). by exists p.
Qed.

(** No element of the string that INS stores lies across a page boundary. *)
Definition ins_fits (i : guest_info) (x : svm_io_info) (g : v3_segment) (direction n : Z) : Prop :=
  forall j, 0 <= j < n ->
    elem_addr i x g direction (rdi (vm_regs i)) j mod PAGE_SIZE + io_size x <= PAGE_SIZE.

(** The same of the instruction at the instruction pointer. *)
Definition ins_in_pages (fuel : nat) (exit_info1 rflags : Z) (s : vm) : Prop :=
  let i := info s in let x := io_info exit_info1 in
  forall r v g,
    guest_va_to_host_va i (hmem s) (get_addr_linear i (rip i) (cs (segments i))) = Done (r, v) ->
    scan_prefixes fuel i (hmem s) v (es (segments i)) = Done g ->
    ins_fits i x g (io_direction rflags) (if negb (rep x =? 0) then u32 (rcx (vm_regs i)) else 1).

Lemma ins_fits_step s x g dir n :
  ins_fits (info s) x g dir (n + 1) ->
  ins_fits (info (set_string_regs s (fun g => g <| rdi := u64 (rdi g + io_size x * dir) |>) (rep x))) x g dir n.
Proof.
  intros Hf j Hj. specialize (Hf (j + 1) ltac:(lia)). set (s' := set_string_regs s _ _).
  assert (rdi (vm_regs (info s')) = u64 (rdi (vm_regs (info s)) + io_size x * dir)) as Hr
    by (unfold s', set_string_regs; cbn; by destruct (rep x =? 0)).
  assert (elem_addr (info s') x g dir (rdi (vm_regs (info s'))) j =
    elem_addr (info s) x g dir (rdi (vm_regs (info s))) (j + 1)) as ->; [|exact Hf].
  unfold elem_addr. rewrite Hr. change (addr_mask (info s') x) with (addr_mask (info s) x).
  change (get_addr_linear (info s')) with (get_addr_linear (info s)). f_equal.
  rewrite <- (land_wrap 64 (_ + _ * j)), <- (land_wrap 64 (_ + _ * (j + 1))) by (done || apply mask_u64).
  f_equal. apply wrap_eqw. setoid_rewrite eqw_wrap. split. f_equal. lia.
Qed.

(** What the device gives when it is read [n] times, up to the first failure. *)
Fixpoint draw (h : io_handler) (x : svm_io_info) (n : nat) (d : D) : outcome (list (list Z) * D) :=
  match n with
  | O => Done ([], d)
  | S n =>
      '(r, c, d) ← dev_read (hd_read h) (io_port x) (io_size x) (hd_priv h) d;
      if r =? io_size x then '(cs, d) ← draw h x n d; Done (c :: cs, d) else Done ([], d)
  end.

Definition after_ins (x : svm_io_info) (direction : Z) (s : vm) (k : Z) (m : mem) : vm :=
  let g := vm_regs (info s) in
  s <| hmem := m |>
    <| info := (info s) <| vm_regs := g <| rdi := u64 (rdi g + io_size x * direction * k) |>
         <| rcx := if negb (rep x =? 0) then u64 (rcx g - k) else rcx g |> |> |>.

Lemma after_ins_0 x dir s :
  is_u 64 (rdi (vm_regs (info s))) -> is_u 64 (rcx (vm_regs (info s))) -> after_ins x dir s 0 (hmem s) = s.
Proof.
  intros H1 H2. unfold after_ins. rewrite Z.mul_0_r, Z.add_0_r, Z.sub_0_r, !wrap_small by done.
  destruct s as [[? ? ? ? ? ? ? ? ? [] ? ? ? ? ?] ? ? ? ?]. cbn. by destruct (rep x =? 0).
Qed.

Lemma after_ins_step x dir s k m :
  set_string_regs (after_ins x dir s k m) (fun g => g <| rdi := u64 (rdi g + io_size x * dir) |>) (rep x) =
  after_ins x dir s (k + 1) m.
Proof.
  unfold set_string_regs, after_ins. destruct s as [i m0 pl]. destruct i as [? ? ? ? ? ? ? ? ? g ? ? ?].
  destruct g as [a1 a2 a3 a4 a5 a6 a7 a8]. cbn -[wrap].
  assert (u64 (u64 (a1 + io_size x * dir * k) + io_size x * dir) = u64 (a1 + io_size x * dir * (k + 1))) as ->.
  { apply wrap_eqw. setoid_rewrite eqw_wrap. split. f_equal. lia. }
  destruct (rep x =? 0); cbn -[wrap]; [done|].
  assert (u64 (u64 (a7 - k) - 1) = u64 (a7 - (k + 1))) as ->; [|done].
  apply wrap_eqw. setoid_rewrite eqw_wrap. split. f_equal. lia.
Qed.

Lemma chunk_at sz (cs : list (list Z)) : forall k c,
  Forall (fun c => length c = sz) cs -> cs !! k = Some c -> take sz (drop (k * sz) (concat cs)) = c.
Proof.
  induction cs as [|c' cs IH]; intros k c Hl Hk; [done|]. apply Forall_cons in Hl as [Hc Hl].
  destruct k as [|k]; cbn [concat].
  - injection Hk as <-. cbn [Nat.mul]. by rewrite drop_0, <- Hc, take_app_length.
  - replace (S k * sz)%nat with (length c' + k * sz)%nat by lia.
    rewrite <- drop_drop, drop_app_length. by apply IH.
Qed.

Lemma concat_length sz (cs : list (list Z)) :
  Forall (fun c => length c = sz) cs -> length (concat cs) = (length cs * sz)%nat.
Proof. induction 1 as [|c cs Hc _ IH]; [done|]. cbn. rewrite length_app, IH. lia. Qed.

(** The translation of the string does not depend on what is written to it. *)
Definition stable_string (i : guest_info) (T : Z -> option Z) (m : mem) (a n : Z) : Prop :=
  forall m', (forall y, (forall j, 0 <= j < n -> T (a + j) <> Some y) -> m' y = m y) ->
  forall j, 0 <= j < n -> guest_va_to_host_va i m' (a + j) = guest_va_to_host_va i m (a + j).

Section ins.
Context (hk : vmm_io_hook) (x : svm_io_info) (g : v3_segment) (s : vm) (l : list Z) (N : Z).
Local Abbreviation i := (info s).
Local Abbreviation T := (gva_hva i (regions_of i l) (hmem s)).
Local Abbreviation a := (elem_addr i x g 1 (rdi (vm_regs i))).
Local Abbreviation sz := (io_size x).
Context (Hp : paged i l) (Hsz : 0 < sz).
Context (Ha : forall j, 0 <= j < N -> a j = a 0 + sz * j /\ whole_elem T (a j) sz).
Context (Hst : stable_string i T (hmem s) (a 0) (sz * N)).

Lemma ins_loop_spec cs : Forall (fun c => length c = Z.to_nat sz) cs ->
  forall n k d rest d' mk,
  draw (handler hk) x n d = Done (rest, d') -> length rest = n ->
  rest = drop k cs -> Z.of_nat k + Z.of_nat n = N -> length cs = (k + n)%nat ->
  written T (hmem s) (a 0) (sz * Z.of_nat k) (concat cs) mk ->
  exists m', ins_loop n hk x (addr_mask i x) 1 g (after_ins x 1 s (Z.of_nat k) mk) d =
      Done (0, after_ins x 1 s N m', d') /\ written T (hmem s) (a 0) (sz * N) (concat cs) m'.
Proof.
  intros Hcs. induction n as [|n IH]; intros k d rest d' mk Hdr Hlen Hrest HN Hlc Hw.
  { cbn in Hdr. injection Hdr as <- <-. exists mk. split; [|by rewrite <- HN, Z.add_0_r].
    cbn [ins_loop]. by rewrite <- HN, Z.add_0_r. }
  cbn [draw] in Hdr. cbn [ins_loop].
  destruct (Ha (Z.of_nat k) ltac:(lia)) as [Hak [Hs Hpg]].
  assert (get_addr_linear (info (after_ins x 1 s (Z.of_nat k) mk))
    (Z.land (rdi (vm_regs (info (after_ins x 1 s (Z.of_nat k) mk)))) (addr_mask i x)) g = a (Z.of_nat k)) as ->.
  { unfold elem_addr. change (rdi (vm_regs (info (after_ins x 1 s (Z.of_nat k) mk))))
      with (u64 (rdi (vm_regs i) + sz * 1 * Z.of_nat k)).
    rewrite land_wrap by (done || apply mask_u64). done. }
  change (hmem (after_ins x 1 s (Z.of_nat k) mk)) with mk.
  change (guest_va_to_host_va (info (after_ins x 1 s (Z.of_nat k) mk)) mk (a (Z.of_nat k)))
    with (guest_va_to_host_va i mk (a (Z.of_nat k))).
  assert (guest_va_to_host_va i mk (a (Z.of_nat k)) = guest_va_to_host_va i (hmem s) (a (Z.of_nat k))) as ->.
  { rewrite Hak. apply Hst; [|nia]. intros y Hy. apply Hw. intros j Hj. apply Hy. nia. }
  destruct (translate i l (hmem s) (a (Z.of_nat k)) Hp) as (v & -> & HT & _); [apply linear_addr|done|].
  run. change (hd_read (handler hk)) with (io_read hk) in Hdr.
  change (hd_priv (handler hk)) with (io_priv_data hk) in Hdr.
  destruct (dev_read _ _ _ _ _) as [[[r c] d1]| |]; [|done..]. revert Hdr. run.
  destruct (Z.eqb_spec r sz) as [->|]; cbn [negb]; [|intros [= <- <-]; done].
  destruct (draw _ _ _ _) as [[cs1 d2]| |] eqn:Hdr; [|done..]. run. intros [= <- <-].
  injection Hlen as Hlen.
  assert (cs !! k = Some c) as Hk.
  { rewrite <- (Nat.add_0_r k), <- lookup_drop, <- Hrest. done. }
  change (set_string_regs _ _ _) with (set_string_regs (after_ins x 1 s (Z.of_nat k) (copy_to mk v c))
    (fun g => g <| rdi := u64 (rdi g + sz * 1) |>) (rep x)).
  rewrite after_ins_step. replace (Z.of_nat k + 1) with (Z.of_nat (S k)) by lia.
  apply (IH (S k) d1 cs1 d2); [done|done| |lia|lia|].
  { replace (S k) with (k + 1)%nat by lia. by rewrite <- drop_drop, <- Hrest. }
  replace (sz * Z.of_nat (S k)) with (sz * Z.of_nat k + sz) by lia.
  eapply written_app; [lia|lia| |exact Hw|].
  { intros j Hj. pose proof (Z.mod_pos_bound j sz Hsz). pose proof (Z.div_mod j sz ltac:(lia)) as Hdm.
    destruct (Ha (j / sz)) as [Haj [[w Hwj] Hpj]].
    { split; [apply Z.div_pos; lia|]. apply Z.div_lt_upper_bound; nia. }
    replace (a 0 + j) with (a (j / sz) + j mod sz) by lia.
    rewrite (gva_hva_coherent i l (hmem s) Hp (a (j / sz)) (j mod sz)) by (apply linear_addr || lia).
    rewrite Hwj. by eexists. }
  rewrite <- Hak. assert (c = take (Z.to_nat sz) (drop (Z.to_nat (sz * Z.of_nat k)) (concat cs))) as Hc.
  { replace (Z.to_nat (sz * Z.of_nat k)) with (k * Z.to_nat sz)%nat by lia. symmetry. by apply chunk_at. }
  rewrite Hc at 1. apply copy_to_written; [by apply gva_hva_coherent|apply linear_addr|done|lia|].
  rewrite length_drop, (concat_length (Z.to_nat sz)) by done. nia.
Qed.

End ins.

(** C22. INS and REP INS with the direction flag clear store what the device gives.  When the
    device answers every read with the bytes asked for, and the string is a range of linear
    addresses, mapped, with no element across a page boundary and not over the page tables
    that translate it, then the guest finds the bytes in order in its memory from ES:DI on
    (or the segment of the prefixes), nothing else changes in memory, and the registers have
    moved past the string. *)
Theorem ins_receives_string lio l fuel ps e1 e2 rfl io_map s d h cs d' :
  let i := info s in let x := io_info e1 in
  let T := gva_hva i (regions_of i l) (hmem s) in
  let g := selected i ps (es (segments i)) in
  let a := elem_addr i x g 1 (rdi (vm_regs i)) in
  let n := if negb (rep x =? 0) then u32 (rcx (vm_regs i)) else 1 in
  wf io_map lio -> abs (io_hooks io_map) lio !! io_port x = Some h -> string_instr l fuel ps s ->
  io_direction rfl = 1 -> 0 < io_size x ->
  (forall j, 0 <= j < n -> a j = a 0 + io_size x * j /\ whole_elem T (a j) (io_size x)) ->
  stable_string i T (hmem s) (a 0) (io_size x * n) ->
  draw h x (Z.to_nat n) d = Done (cs, d') -> Z.of_nat (length cs) = n ->
  Forall (fun c => length c = Z.to_nat (io_size x)) cs ->
  exists m', v3_handle_svm_io_ins fuel e1 e2 rfl io_map s d =
      (let s' := after_ins x 1 s n m' in
       Done (0, s' <| info := (info s') <| rip := e2 |> |>, d')) /\
    written T (hmem s) (a 0) (io_size x * n) (concat cs) m'.
Proof.
  cbv zeta. intros Hwf Hh Hs Hdir Hsz Ha Hst Hdr Hlen Hcs. unfold v3_handle_svm_io_ins.
  destruct (get_hook io_map lio _ h Hwf Hh) as (q & hk & -> & Hq & Hn & <-). run.
  rewrite (proj2 (Z.eqb_neq _ _) Hq), (deref_some _ _ _ Hn), Hdir. run.
  destruct (string_start l fuel ps s (es (segments (info s))) Hs) as (v & -> & Hsc). run. rewrite Hsc. run.
  clear Hsc. rewrite (proj2 (Z.eqb_neq (io_size (io_info e1)) 0)) by lia.
  set (n := if negb (rep (io_info e1) =? 0) then _ else 1) in *.
  assert (Z.of_nat (Z.to_nat n) = n) as Hnn by (apply Z2Nat.id; lia).
  destruct (ins_loop_spec hk (io_info e1) (selected (info s) ps (es (segments (info s)))) s l n
    (si_paged _ _ _ _ Hs) Hsz Ha Hst cs Hcs (Z.to_nat n) 0%nat d cs d' (hmem s))
    as (m' & Hl & Hw); [done|lia|done|lia|lia|by rewrite Z.mul_0_r; apply written_nil|].
  rewrite after_ins_0 in Hl by apply Hs. rewrite Hl. run. by exists m'.
Qed.

(** C37. INS writes past the page of the guest that its destination is in.  The bytes that
    the device gives for an element go to consecutive addresses of the host, from the
    translation of the first one on; those of an element across a page boundary go to the
    host page behind the guest's, whoever it belongs to. *)
Theorem ins_overruns_page lio l fuel ps e1 e2 rfl io_map s d h bs d' v :
  let i := info s in let x := io_info e1 in
  let g := selected i ps (es (segments i)) in
  let a := elem_addr i x g (io_direction rfl) (rdi (vm_regs i)) 0 in
  wf io_map lio -> abs (io_hooks io_map) lio !! io_port x = Some h -> string_instr l fuel ps s ->
  rep x = 0 -> 0 < io_size x -> gva_hva i (regions_of i l) (hmem s) a = Some v ->
  dev_read (hd_read h) (io_port x) (io_size x) (hd_priv h) d = Done (io_size x, bs, d') ->
  exists p s', guest_page (regions_of i l) p /\ v = V3_VAddr p + a mod PAGE_SIZE /\
    v3_handle_svm_io_ins fuel e1 e2 rfl io_map s d = Done (0, s', d') /\
    forall k b, bs !! k = Some b -> hmem s' (v + Z.of_nat k) = u8 b.
Proof.
  cbv zeta. intros Hwf Hh Hs Hrep Hsz Hv Hrd. unfold v3_handle_svm_io_ins.
  destruct (get_hook io_map lio _ h Hwf Hh) as (q & hk & -> & Hq & Hn & <-). run.
  rewrite (proj2 (Z.eqb_neq _ _) Hq), (deref_some _ _ _ Hn). run.
  destruct (string_start l fuel ps s (es (segments (info s))) Hs) as (ip & -> & Hsc). run. rewrite Hsc. run.
  clear Hsc. rewrite (proj2 (Z.eqb_neq (io_size (io_info e1)) 0)), Hrep by lia. cbn [Z.eqb negb].
  set (g := selected (info s) ps (es (segments (info s)))) in *.
  assert (elem_addr (info s) (io_info e1) g (io_direction rfl) (rdi (vm_regs (info s))) 0 =
    get_addr_linear (info s) (Z.land (rdi (vm_regs (info s))) (addr_mask (info s) (io_info e1))) g) as Ha
    by (unfold elem_addr; by rewrite Z.mul_0_r, Z.add_0_r).
  rewrite Ha in *. set (a := get_addr_linear _ _ g) in *.
  destruct (gva_hva_page (info s) l (hmem s) a v (si_paged _ _ _ _ Hs)) as (p & Hp & ->); [apply linear_addr|done|].
  destruct (translate (info s) l (hmem s) a (si_paged _ _ _ _ Hs)) as (w & Hw & HT & _); [apply linear_addr|by eexists|].
  rewrite Hv in HT. injection HT as <-. change (Z.to_nat 1) with 1%nat. cbn [ins_loop]. fold a. rewrite Hw. run.
  change (hd_read (handler hk)) with (io_read hk) in Hrd. change (hd_priv (handler hk)) with (io_priv_data hk) in Hrd.
  rewrite Hrd. run. rewrite Z.eqb_refl. cbn [negb]. eexists p, _. split; [done|]. split; [done|]. split; [reflexivity|].
  intros k b Hk. unfold set_string_regs. cbn [hmem]. pose proof (lookup_lt_Some _ _ _ Hk) as Hlt.
  change (copy_to (hmem s) (V3_VAddr p + a mod PAGE_SIZE) bs (V3_VAddr p + a mod PAGE_SIZE + Z.of_nat k) = u8 b).
  unfold copy_to. rewrite (proj2 (andb_true_iff _ _)) by (split; [apply Z.leb_le|apply Z.ltb_lt]; lia).
  replace (Z.to_nat _) with k by lia. by rewrite (nth_lookup_Some _ _ _ _ Hk).
Qed.

(** ** Single accesses *)

Lemma put_bytes_le (bs : list Z) : forall v n,
  length bs = n -> le_bytes n (put_bytes v bs) = u8 <$> bs /\
  put_bytes v bs / 256 ^ Z.of_nat n = v / 256 ^ Z.of_nat n.
Proof.
  induction bs as [|b bs IH]; intros v n <-; [done|].
  cbn [put_bytes length]. destruct (IH (v / 256) (length bs) eq_refl) as [IH1 IH2].
  assert (0 <= u8 b < 256) as Hb by by apply wrap_range.
  assert ((u8 b + 256 * put_bytes (v / 256) bs) / 256 = put_bytes (v / 256) bs) as Hdiv.
  { rewrite Z.mul_comm, Z.div_add, Z.div_small by lia. lia. }
  split.
  - unfold le_bytes in *. cbn [seq fmap list_fmap]. f_equal.
    + unfold field. rewrite Z.mul_0_r, Z.div_1_r, Z.mul_comm. change (2 ^ 8) with 256.
      rewrite Z.mod_add by done. by apply Z.mod_small.
    + change ((fun i => field (u8 b + 256 * put_bytes (v / 256) bs) (8 * Z.of_nat i) 8) <$> seq 1 (length bs) =
        u8 <$> bs).
      rewrite <- IH1, <- fmap_S_seq, <- list_fmap_compose. apply list_fmap_ext. intros _ j _. cbn [compose].
      unfold compose, field. f_equal. replace (2 ^ (8 * Z.of_nat (S j))) with (256 * 2 ^ (8 * Z.of_nat j)).
      * rewrite <- Z.div_div by lia. by rewrite Hdiv.
      * rewrite <- (Z.pow_add_r 2 8) by lia. f_equal. lia.
  - rewrite Nat2Z.inj_succ, Z.pow_succ_r by lia. rewrite <- !Z.div_div by lia. by rewrite Hdiv.
Qed.

Lemma in_reads lio e1 e2 io_map s d h :
  let x := io_info e1 in
  wf io_map lio -> abs (io_hooks io_map) lio !! io_port x = Some h ->
  v3_handle_svm_io_in e1 e2 io_map s d =
    '(r, bs, d) ← dev_read (hd_read h) (io_port x) (io_size x) (hd_priv h) d;
    if (8 <? length bs)%nat then Undef else
    let g := vm_regs (info s) in
    let s := s <| info := (info s) <| vm_regs := g <| rax := put_bytes (rax g) bs |> |> |> in
    Done (if r =? io_size x then (0, s <| info := (info s) <| rip := e2 |> |>, d) else (-1, s, d)).
Proof.
  cbv zeta. intros Hwf Hh. unfold v3_handle_svm_io_in.
  destruct (get_hook io_map lio _ h Hwf Hh) as (q & hk & -> & Hq & Hn & <-). run.
  rewrite (proj2 (Z.eqb_neq _ _) Hq), (deref_some _ _ _ Hn). run.
  destruct (dev_read _ _ _ _ _) as [[[r bs] d']| |]; [|done..]. run.
  destruct (8 <? length bs)%nat; [done|]. by destruct (r =? _).
Qed.

Lemma out_writes lio e1 e2 io_map s d h :
  let x := io_info e1 in
  wf io_map lio -> abs (io_hooks io_map) lio !! io_port x = Some h ->
  v3_handle_svm_io_out e1 e2 io_map s d =
    '(r, d) ← dev_write (hd_write h) (io_port x)
       (le_bytes (Z.to_nat (io_size x)) (rax (vm_regs (info s)))) (io_size x) (hd_priv h) d;
    Done (if r =? io_size x then (0, s <| info := (info s) <| rip := e2 |> |>, d) else (-1, s, d)).
Proof.
  cbv zeta. intros Hwf Hh. unfold v3_handle_svm_io_out.
  destruct (get_hook io_map lio _ h Hwf Hh) as (q & hk & -> & Hq & Hn & <-). run.
  rewrite (proj2 (Z.eqb_neq _ _) Hq), (deref_some _ _ _ Hn). run.
  destruct (dev_write _ _ _ _ _ _) as [[r d']| |]; [|done..]. run. by destruct (r =? _).
Qed.

End svm_io.

(** ** Witnesses

    The guest of GuestMem.v in real mode, with REP OUTSB and REP INSW at 0x100 and a device
    that logs what it gets and counts up in what it gives. *)

Definition log_device : IoDevices (list (list Z)) := {|
  dev_read _ _ n _ d := Done (n, take (Z.to_nat n) [Z.of_nat (length d); 7], [] :: d);
  dev_write _ _ bs n _ d := Done (n, bs :: d);
|}.

Lemma log_device_ok : IoDevicesOk (list (list Z)) (Hd := log_device).
Proof. intros fn prt n priv d r bs d' [= <- <- <-]. rewrite length_take. lia. Qed.

Definition io_guest : vm :=
  mk_vm (demo_guest <| mem_mode := PHYSICAL_MEM |> <| cpu_mode := REAL |> <| rip := 0x100 |>
           <| vm_regs := mk_v3_gprs 0x2000 0x1ffe 0 0 0 0 3 0 |>)
    (fun x => if x =? 0x1050100 then 0xf3 else if x =? 0x1050101 then 0x6e
              else if x <? 0x1050000 then 5 else 1)
    (mk_page_pool [] []) demo_decoder Vmcb.demo_vmcb.

Lemma io_guest_instr : string_instr (A := V3_32BIT) (Hos := demo_host) [1; 2] 15 [0xf3] io_guest.
Proof.
  split.
  - destruct demo_paged as [H1 H2 H3 H4]. by split.
  - by split_and!.
  - exists 0x1050100. split; [|by vm_compute]. split; [|done].
    intros [|j] p; [by intros [= <-]|done].
  - cbn. lia.
Qed.

(** REP OUTSB of three bytes on port 0x70, across the end of the first memory region. *)
Definition outs_exit : Z := 0x70 * 2 ^ 16 + 2 ^ 2 + 2 ^ 3 + 2 ^ 4.
(** REP INSW of three words from it. *)
Definition ins_exit : Z := 0x70 * 2 ^ 16 + 2 ^ 0 + 2 ^ 2 + 2 ^ 3 + 2 ^ 5.

Lemma outs_sends_string_witness : exists s',
  v3_handle_svm_io_outs (A := V3_32BIT) (Hos := demo_host) (Hd := log_device) 15 outs_exit 0x102 0
    io_map_70 io_guest [] = Done (0, s', [[5]; [1]; [1]]) /\
  rip (info s') = 0x102 /\ rsi (vm_regs (info s')) = 0x2001 /\ rcx (vm_regs (info s')) = 0.
Proof.
  rewrite (outs_sends_string (A := V3_32BIT) (Hos := demo_host) (Hd := log_device) (Hok := direct_map_ok _)
    [1] [1; 2] 15 [0xf3] outs_exit 0x102 0 io_map_70 io_guest [] (handler nvram_hook)).
  - by eexists.
  - apply wf_io_map_70.
  - by vm_compute.
  - apply io_guest_instr.
  - change (forall j, 0 <= j < 3 -> whole_elem (gva_hva (A := V3_32BIT) (Hos := demo_host) (info io_guest)
      (regions_of (info io_guest) [1; 2]) (hmem io_guest)) (elem_addr (A := V3_32BIT) (info io_guest)
      (io_info outs_exit) (es (segments (info io_guest))) 1 0x1ffe j) 1).
    apply offsets_small. change (seq 0 (Z.to_nat 3)) with [0; 1; 2]%nat.
    do 3 (apply Forall_cons; split; [split; [by eexists|done]|]). constructor.
Defined.

Lemma ins_receives_string_witness : exists s' d',
  v3_handle_svm_io_ins (A := V3_32BIT) (Hos := demo_host) (Hd := log_device) 15 ins_exit 0x102 0
    io_map_70 io_guest [] = Done (0, s', d') /\
  rip (info s') = 0x102 /\ rdi (vm_regs (info s')) = 0x2006 /\ hmem s' 0x1020004 = 2.
Proof.
  destruct (ins_receives_string (A := V3_32BIT) (Hos := demo_host) (Hd := log_device) (Hok := direct_map_ok _)
    [1] [1; 2] 15 [0xf3] ins_exit 0x102 0 io_map_70 io_guest [] (handler nvram_hook)
    [[0; 7]; [1; 7]; [2; 7]] [[]; []; []]) as (m' & -> & Hw).
  - apply wf_io_map_70.
  - by vm_compute.
  - apply io_guest_instr.
  - done.
  - done.
  - change (forall j, 0 <= j < 3 -> elem_addr (A := V3_32BIT) (info io_guest)
      (io_info ins_exit) (es (segments (info io_guest))) 1 0x2000 j = 0x2000 + 2 * j /\
      whole_elem (gva_hva (A := V3_32BIT) (Hos := demo_host) (info io_guest)
      (regions_of (info io_guest) [1; 2]) (hmem io_guest)) (elem_addr (A := V3_32BIT) (info io_guest)
      (io_info ins_exit) (es (segments (info io_guest))) 1 0x2000 j) 2).
    apply offsets_small. change (seq 0 (Z.to_nat 3)) with [0; 1; 2]%nat.
    do 3 (apply Forall_cons; split; [split; [done|split; [by eexists|done]]|]). constructor.
  - intros m' _ j Hj. done.
  - done.
  - done.
  - by repeat constructor.
  - eexists _, _. split_and!; [done..|].
    cbn [hmem]. change (m' 0x1020004 = 2).
    apply (proj2 Hw 4 0x1020004); [|done|by vm_compute].
    intros j k v Hj Hk.
    change (elem_addr (A := V3_32BIT) _ _ _ _ _ 0) with 0x2000. change (io_size _ * _) with 6 in Hj, Hk.
    assert (forall j, 0 <= j < 6 -> gva_hva (A := V3_32BIT) (Hos := demo_host) (info io_guest)
      (regions_of (info io_guest) [1; 2]) (hmem io_guest) (0x2000 + j) = Some (0x1020000 + j)) as Hg
      by (apply offsets_small; change (seq 0 (Z.to_nat 6)) with [0; 1; 2; 3; 4; 5]%nat;
          repeat (apply Forall_cons; split; [done|]); constructor).
    rewrite !Hg by done. intros [= <-] [=]. lia.
Defined.

(** INSW at the last byte of the first memory region, which is at 0x50000 of the host. *)
Lemma ins_overruns_page_witness : exists s' d',
  v3_handle_svm_io_ins (A := V3_32BIT) (Hos := demo_host) (Hd := log_device) 15 (ins_exit - 2 ^ 3) 0x102 0
    io_map_70 (io_guest <| info := (info io_guest) <| vm_regs := mk_v3_gprs 0x1fff 0 0 0 0 0 0 0 |> |>) [] =
    Done (0, s', d') /\
  hmem s' (V3_VAddr (H := demo_host) 0x52000) = 7 /\ ~ guest_page (regions_of (info io_guest) [1; 2]) 0x52000.
Proof.
  set (s := io_guest <| info := _ |>).
  assert (string_instr (A := V3_32BIT) (Hos := demo_host) [1; 2] 15 [0xf3] s) as Hs.
  { destruct io_guest_instr as [[P1 P2 P3 P4] _ H3 H4]. split; [by split|by split_and!|exact H3|exact H4]. }
  destruct (ins_overruns_page (A := V3_32BIT) (Hos := demo_host) (Hd := log_device) (Hok := direct_map_ok _)
    [1] [1; 2] 15 [0xf3] (ins_exit - 2 ^ 3) 0x102 0 io_map_70 s [] (handler nvram_hook) [0; 7] [[]] 0x1051fff)
    as (p & s' & _ & _ & Hi & Hb); [apply wf_io_map_70|by vm_compute|exact Hs|done|done|by vm_compute|done|].
  exists s', [[]]. split; [exact Hi|]. split; [|intros H%demo_guest_pages; lia].
  exact (Hb 1%nat 7 eq_refl).
Defined.

End SvmIo.
