(* ===== verification/Emulator.v ===== *)
(** Emulation of accesses to hooked memory: vmm_emulator.c and vmm_emulator.h.

    A guest page whose physical memory is hooked has no entry in the shadow tables.  When
    the guest touches it the VMM maps a page of its own there and lets the processor
    execute the one instruction: a read finds what the hook stored on the page, and what a
    write left on it is given to the hook at the debug exception after the instruction.
    [Module Emulator] translates the functions; [MemHooks] is the interface to the hooks.
    The theorems follow a write from the fault to the hook and a read from the hook to the
    guest, and show where the code loses track of the trap flag and of saved entries. *)
From stdpp Require Import base tactics numbers list gmap.
From S2P Require Import Prelude Chain Host MemMap Paging Intr Hashtable GuestInfo GuestMem Decoder.
From S2P Require Import Xed Vmcb ShadowPaging CtrlRegs.

Module Emulator.
Import ShadowMap Paging GuestInfo GuestMem Decoder Vmcb ShadowPaging.

(** The functions hooked to memory, by their pointers: the physical address, the buffer of
    the host that is filled or written, its length and the private data. *)
Class MemHooks := {
  hook_read_fn : Z -> Z -> Z -> Z -> Z -> vm -> outcome (Z * vm);
  hook_write_fn : Z -> Z -> Z -> Z -> Z -> vm -> outcome (Z * vm);
}.

(** What the emulator finds in memory that it does not initialise: the buffer and the
    struct for the instruction, the entry in the new [struct emulated_page] and the variable
    [saved_pte]; and which calls of V3_Malloc succeed, in the order of the structs below. *)
Record emu_env := mk_emu_env {
  ee_instr : list Z;
  ee_info : Xed.basic_instr_info;
  ee_pte : Z;
  ee_saved_pte : Z;
  ee_page_ok : bool;
  ee_op_ok : bool;
  ee_saved_ok : bool;
}.

Definition upd_emu (s : vm) (f : emulation_state -> emulation_state) : vm :=
  s <| info := (info s) <| emulator := f (emulator (info s)) |> |>.
Definition upd_rflags (s : vm) (f : Z -> Z) : vm :=
  s <| info := (info s) <| ctrl_regs := (ctrl_regs (info s)) <| rflags := f (rflags (ctrl_regs (info s))) |> |> |>.
Definition set_run_state (s : vm) (r : v3_vm_operating_mode) : vm :=
  s <| info := (info s) <| run_state := r |> |>.

(** The bit of [exceptions.db] and that of [tf] in [struct rflags]. *)
Definition set_intercept_db (s : vm) (v : Z) : vm :=
  s <| vmcb := (vmcb s) <| ctrl_area := (ctrl_area (vmcb s))
    <| exceptions := CtrlRegs.put_field (exceptions (ctrl_area (vmcb s))) 1 1 v |> |> |>.
Definition get_tf (s : vm) : Z := field (rflags (ctrl_regs (info s))) 8 1.
Definition set_tf (s : vm) (v : Z) : vm := upd_rflags s (fun r => CtrlRegs.put_field r 8 1 v).

(** An access to memory that V3_Malloc did not give. *)
Definition allocated {T} (ok : bool) (k : outcome T) : outcome T := if ok then k else Undef.

Definition v3_init_emulator (s : vm) : Z * vm := (0, upd_emu s (fun _ => mk_emulation_state 0 [] 0 [] 0 [] 0 0 0)).

Section emulator.
Context {A : Arch} {Hos : OsHooks} {Hx : Xed.XedLib} {Hh : MemHooks}.

(** The result of V3_AllocPages is not checked. *)
Definition get_new_page (s : vm) : outcome (Z * vm) :=
  let '(p, pl) := V3_AllocPages (pool s) in
  if p =? NULL then Undef else
  let page := V3_VAddr p in
  Done (page, s <| pool := pl |> <| hmem := memset0 (hmem s) page PAGE_SIZE |>).

Definition set_stepping (s : vm) : vm :=
  let s := set_intercept_db s 1 in
  let s := upd_emu s (fun e => e <| tf_enabled := get_tf s |>) in
  set_tf s 1.

Definition unset_stepping (s : vm) : vm :=
  let s := set_intercept_db s 0 in
  set_tf s (tf_enabled (emulator (info s))).

(** The instruction at the instruction pointer, over what the buffer held. *)
Definition read_instr (instr0 : list Z) (s : vm) : outcome (Z * list Z) :=
  let addr := get_addr_linear (info s) (rip (info s)) (cs (segments (info s))) in
  '(ret, bytes) ← (match mem_mode (info s) with
                   | PHYSICAL_MEM => read_guest_pa_memory (info s) (hmem s) addr 15
                   | VIRTUAL_MEM => read_guest_va_memory (info s) (hmem s) addr 15
                   end);
  Done (ret, bytes ++ drop (length bytes) instr0).

Definition decode_instr (ee : emu_env) (instr : list Z) (s : vm) : Z * Xed.basic_instr_info * vm :=
  let '(r, st, i) := Xed.v3_basic_mem_decode (info s) (decoder s) instr (ee_info ee) in
  (r, i, s <| decoder := st |>).

(** The entry for the page at host address [page], over what the struct held. *)
Definition data_pte (pte0 writable page : Z) : Z :=
  let e : Pte32.pte32 := decode (u32 pte0) in
  let e := e <| Pte32.present := 1 |> <| Pte32.writable := writable |> <| Pte32.user_page := 1 |> in
  encode (e <| Pte32.page_base_addr := field (PT32_BASE_ADDR (V3_PAddr page)) 0 20 |>).

(** The new page goes into the shadow table and on the list; the entry that was there is
    saved when it is present. *)
Definition install_page (ee : emu_env) (gva page pte : Z) (s : vm) : outcome vm :=
  let va := PT32_PAGE_ADDR gva in
  let '(_, saved_pte, s) := v3_replace_shdw_page32 s va pte (ee_saved_pte ee) in
  let s := upd_emu s (fun e => e <| emulated_pages := mk_emulated_page page va pte :: emulated_pages e |>
             <| num_emulated_pages := u32 (num_emulated_pages e + 1) |>) in
  if Pte32.present (decode (u32 saved_pte)) =? 1 then
    allocated (ee_saved_ok ee)
      (Done (upd_emu s (fun e => e <| saved_pages := mk_saved_page va saved_pte :: saved_pages e |>
               <| num_saved_pages := u32 (num_saved_pages e + 1) |>)))
  else Done s.

Definition start_emulation (i : Xed.basic_instr_info) (s : vm) : vm :=
  let s := set_stepping s in
  let s := upd_emu s (fun e => e <| running := 1 |>) in
  let s := set_run_state s VM_EMULATING in
  upd_emu s (fun e => e <| emu_instr_length := Xed.bi_instr_length i |>).

Definition v3_emulate_memory_read (ee : emu_env) (s : vm) (read_gva read read_gpa private_data : Z)
    : outcome (Z * vm) :=
  let data_addr_offset := PT32_PAGE_OFFSET read_gva in
  '(ret, instr) ← read_instr (ee_instr ee) s;
  if ret =? -1 then Done (-1, s) else
  let '(r, i, s) := decode_instr ee instr s in
  if r =? -1 then Done (-1, s) else
  '(page, s) ← get_new_page s;
  allocated (ee_page_ok ee)
    ('(ret, s) ← hook_read_fn read read_gpa (page + data_addr_offset) (Xed.op_size i) private_data s;
     if (ret =? -1) || negb (u32 ret =? Xed.op_size i) then
       Done (-1, s <| pool := V3_FreePage (pool s) (V3_PAddr page) |>)
     else
     s ← install_page ee read_gva page (data_pte (ee_pte ee) 0 page) s;
     Done (0, start_emulation i s)).

(** A failed read of the instruction is not noticed. *)
Definition v3_emulate_memory_write (ee : emu_env) (s : vm) (write_gva write write_gpa private_data : Z)
    : outcome (Z * vm) :=
  let data_addr_offset := PT32_PAGE_OFFSET write_gva in
  '(_, instr) ← read_instr (ee_instr ee) s;
  let '(r, i, s) := decode_instr ee instr s in
  if r =? -1 then Done (-1, s) else
  '(page, s) ← get_new_page s;
  allocated (ee_page_ok ee) (allocated (ee_op_ok ee)
    (let write_op := mk_write_region (page + data_addr_offset) (Xed.op_size i) write write_gpa private_data in
     let s := upd_emu s (fun e => e <| write_regions := write_op :: write_regions e |>
                <| num_write_regions := u32 (num_write_regions e - 1) |>) in
     s ← install_page ee write_gva page (data_pte (ee_pte ee) 1 page) s;
     if running (emulator (info s)) =? 0 then Done (0, start_emulation i s) else Done (0, s))).

(** The loops of the exit handler; each takes the entry it is done with off its list. *)
Fixpoint complete_writes (l : list write_region) (s : vm) : outcome vm :=
  match l with
  | [] => Done s
  | w :: l =>
      '(_, s) ← hook_write_fn (wr_write w) (write_addr w) (write_data w) (wr_length w) (private_data w) s;
      complete_writes l (upd_emu s (fun e => e <| write_regions := l |>))
  end.

Fixpoint wipe_pages (l : list emulated_page) (s : vm) : vm :=
  match l with
  | [] => s
  | empg :: l =>
      let '(_, _, s) := v3_replace_shdw_page32 s (em_va empg) 0 0 in
      let s := s <| pool := V3_FreePage (pool s) (V3_PAddr (page_addr empg)) |> in
      wipe_pages l (upd_emu s (fun e => e <| emulated_pages := l |>))
  end.

(** [stray]: the loop reads [empg->va], and [empg] has gone past the end of its list: it
    points before the list head in [struct guest_info], where the word read holds the
    attributes of the task register. *)
Fixpoint restore_pages (stray : Z) (l : list saved_page) (s : vm) : vm :=
  match l with
  | [] => s
  | svpg :: l =>
      let '(_, _, s) := v3_replace_shdw_page32 s stray (sv_pte svpg) 0 in
      restore_pages stray l (upd_emu s (fun e => e <| saved_pages := l |>))
  end.

Definition v3_emulation_exit_handler (stray : Z) (s : vm) : outcome (Z * vm) :=
  s ← complete_writes (write_regions (emulator (info s))) s;
  let s := upd_emu s (fun e => e <| num_write_regions := 0 |>) in
  let s := wipe_pages (emulated_pages (emulator (info s))) s in
  let s := upd_emu s (fun e => e <| num_emulated_pages := 0 |>) in
  let s := restore_pages stray (saved_pages (emulator (info s))) s in
  let s := upd_emu s (fun e => e <| num_saved_pages := 0 |>) in
  let s := set_run_state s VM_RUNNING in
  let s := upd_emu s (fun e => e <| running := 0 |>) in
  let s := upd_emu s (fun e => e <| emu_instr_length := 0 |>) in
  Done (0, unset_stepping s).

(** The emulator as the page fault handler calls it. *)
Definition emulator_for (ee : emu_env) : MemEmulator :=
  {| ShadowPaging.v3_emulate_memory_read := v3_emulate_memory_read ee;
     ShadowPaging.v3_emulate_memory_write := v3_emulate_memory_write ee |}.

End emulator.

(** ** Entries of the shadow tables *)

Lemma field_put_field x lo w v :
  0 <= lo -> 0 <= w -> is_u w v -> field (CtrlRegs.put_field x lo w v) lo w = v.
Proof.
  intros Hlo Hw Hv. unfold CtrlRegs.put_field, field.
  rewrite Z.div_add by (apply Z.pow_nonzero; lia).
  rewrite Z.add_sub_assoc, Zminus_mod, Zmod_mod, <- Zminus_mod.
  rewrite <- (Z.mod_small v (2 ^ w)) at 2 by exact Hv. f_equal. lia.
Qed.

Lemma tf_set s v : is_u 1 v -> get_tf (set_tf s v) = v.
Proof. intros Hv. by apply field_put_field. Qed.

(** What the emulator relies on: a hook returns, and changes nothing but memory, of which it
    leaves the pages [K] of the VMM's tables alone; a read fills its buffer. *)
Class MemHooksOk {Hos : OsHooks} {Hh : MemHooks} (K : gset Z) : Prop := {
  hook_read_ok fn a dst n p s : exists r m,
    hook_read_fn fn a dst n p s = Done (r, s <| hmem := m |>) /\
    forall q i, q ∈ K -> 0 <= i < 1024 -> slot q i + 4 <= dst \/ dst + n <= slot q i ->
      load32 m (slot q i) = load32 (hmem s) (slot q i);
  hook_write_ok fn a src n p s : exists r m,
    hook_write_fn fn a src n p s = Done (r, s <| hmem := m |>) /\
    forall q i, q ∈ K -> 0 <= i < 1024 -> load32 m (slot q i) = load32 (hmem s) (slot q i);
}.

Section proofs.
Context {A : Arch} {Hos : OsHooks} {Hx : Xed.XedLib} {Hh : MemHooks} {Hok : OsHooksOk}.

(** The page table for the address [va] in the shadow tables, at the same virtual address as
    the VMM uses it. *)
Record table_at (s : vm) (va t : Z) : Prop := {
  ta_pd : page_aligned (pd_of s);
  ta_pde : let e := get_pde32 (hmem s) (V3_VAddr (pd_of s)) (PDE32_INDEX va) in
    Pde32.present e = 1 /\ Pde32.large_page e = 0 /\ PAGE_SIZE * Pde32.pt_base_addr e = t;
  ta_frame : frame_ok t;
  ta_ne : t <> pd_of s;
  ta_flat : V3_VAddr t = t;
}.

Definition entry (s : vm) (va t : Z) : Z := load32 (hmem s) (slot t (PTE32_INDEX va)).

Lemma isolated_table v T av s va :
  isolated_but nowhere v (pd_of s) T av (hmem s) ->
  Pde32.present (get_pde32 (hmem s) (V3_VAddr (pd_of s)) (PDE32_INDEX va)) <> 0 ->
  (forall t, t ∈ T -> V3_VAddr t = t) -> exists t, t ∈ T /\ table_at s va t.
Proof.
  intros Hi Hp Hf. destruct (iso_pde _ _ _ _ _ _ Hi (PDE32_INDEX va) (PDE32_INDEX_range va) (fun H => H) Hp)
    as [Hl Ht]. eexists. split; [exact Ht|]. split.
  - apply (iso_frames _ _ _ _ _ _ Hi). set_solver.
  - split_and!; [|exact Hl|done]. pose proof (pde_flags (hmem s) (V3_VAddr (pd_of s)) (PDE32_INDEX va)) as [Hu _].
    unfold is_u in Hu. change (2 ^ 1) with 2 in Hu. lia.
  - apply (iso_frames _ _ _ _ _ _ Hi). set_solver.
  - intros He. rewrite He in Ht. by apply (iso_pd _ _ _ _ _ _ Hi).
  - by apply Hf.
Qed.

(** A change of the state that leaves the directory alone. *)
Lemma table_at_same s s' va t :
  table_at s va t -> pd_of s' = pd_of s ->
  load32 (hmem s') (slot (pd_of s) (PDE32_INDEX va)) = load32 (hmem s) (slot (pd_of s) (PDE32_INDEX va)) ->
  table_at s' va t.
Proof.
  intros [H1 H2 H3 H4 H5] Hpd Hl. split; rewrite ?Hpd; try done.
  unfold get_pde32. change (V3_VAddr (pd_of s) + 4 * PDE32_INDEX va) with (slot (pd_of s) (PDE32_INDEX va)).
  rewrite Hl. exact H2.
Qed.

Lemma table_slot s va t : table_at s va t -> forall a, is_slot t (PTE32_INDEX a).
Proof. intros Ht a. split; [apply (ta_frame _ _ _ Ht)|apply PTE32_INDEX_range]. Qed.

Lemma replace_eq s va t new old :
  table_at s va t ->
  v3_replace_shdw_page32 s va new old =
    (0, entry s va t, s <| hmem := store32 (hmem s) (slot t (PTE32_INDEX va)) new |>).
Proof.
  intros [H1 (H2 & H3 & H4) H5 H6 H7]. unfold v3_replace_shdw_page32. rewrite cr3_va.
  change (4096 * (u32 (shadow_cr3 _) / 4096)) with (pd_of s). rewrite H3. change (0 =? 0) with true. cbv iota.
  rewrite frame_addr by by rewrite H4. rewrite H4. unfold entry, slot. by rewrite H7.
Qed.

(** Storing to a page table leaves the directory alone. *)
Lemma table_at_store s va t va' t' i w :
  table_at s va t -> table_at s va' t' -> 0 <= i < 1024 ->
  table_at (s <| hmem := store32 (hmem s) (slot t' i) w |>) va t.
Proof.
  intros Ht Ht' Hi. apply (table_at_same s); [done|done|].
  apply load_store_slot_ne.
  - split; [apply (ta_pd _ _ _ Ht)|apply PDE32_INDEX_range].
  - split; [apply (ta_frame _ _ _ Ht')|done].
  - intros [= Heq _]. by apply (ta_ne _ _ _ Ht').
Qed.

(** The processor finds what the entry says. *)
Lemma walk_at s va t :
  table_at s va t -> is_u 32 va ->
  shadow_walk s va =
    if Z.odd (entry s va t) then Some (PAGE_SIZE * (entry s va t / PAGE_SIZE) + va mod PAGE_SIZE) else None.
Proof.
  intros [H1 (H2 & H3 & H4) H5 H6 H7] Hva. unfold shadow_walk.
  rewrite (hw_walk_entries _ _ va t _ Hva H2 H3 H4 eq_refl).
  unfold get_pte32. change (V3_VAddr t + 4 * PTE32_INDEX va) with (slot t (PTE32_INDEX va)).
  change (load32 (hmem s) (slot t (PTE32_INDEX va))) with (entry s va t).
  assert (is_u 32 (entry s va t)) as Hu by apply loadn_range. set (w := entry s va t) in *.
  change (Pte32.present (decode w)) with (field w 0 1).
  change (Pte32.page_base_addr (decode w)) with (field w 12 20). rewrite field_base by done.
  rewrite field_bit, odd_testbit by done. by destruct (Z.testbit w 0).
Qed.

(** ** Beginning an access *)

Lemma page_index gva : is_u 32 gva ->
  PDE32_INDEX (PT32_PAGE_ADDR gva) = PDE32_INDEX gva /\ PTE32_INDEX (PT32_PAGE_ADDR gva) = PTE32_INDEX gva.
Proof.
  intros Hg. assert (is_u 32 (PT32_PAGE_ADDR gva)) as Hp.
  { rewrite PT32_PAGE_ADDR_eq by done. unfold is_u in *. Z.div_mod_to_equations. lia. }
  rewrite !PDE32_INDEX_eq, !PTE32_INDEX_eq, PT32_PAGE_ADDR_eq by done.
  change (2 ^ 22) with (4096 * 1024). change (2 ^ 12) with 4096.
  rewrite <- !Z.div_div by done. rewrite !(Z.mul_comm 4096), !Z.div_mul by done. done.
Qed.

Lemma table_at_page s gva t : is_u 32 gva -> table_at s gva t -> table_at s (PT32_PAGE_ADDR gva) t.
Proof. intros Hg [H1 H2 H3 H4 H5]. split; try done. by rewrite (proj1 (page_index gva Hg)). Qed.

Lemma present_odd w : is_u 32 w -> (Pte32.present (decode (u32 w)) =? 1) = Z.odd w.
Proof.
  intros Hw. rewrite wrap_small by done. change (Pte32.present (decode w)) with (field w 0 1).
  unfold field. rewrite Z.div_1_r. change (2 ^ 1) with 2. rewrite Zmod_odd. by destruct (Z.odd w).
Qed.

(** The page [p] of the host, filled as in [m], stands for the page of [gva]; [ws] are the
    writes to complete. *)
Record installed (s s' : vm) (gva t p pte : Z) (m : mem) (ws : list write_region) : Prop := {
  in_info : info s' = (info s) <| emulator := emulator (info s') |>;
  in_pool : pool s = mk_page_pool (p :: supply (pool s')) (freed (pool s'));
  in_mem : hmem s' = store32 m (slot t (PTE32_INDEX gva)) pte;
  in_vmcb : vmcb s' = vmcb s;
  in_pages : emulated_pages (emulator (info s')) =
    mk_emulated_page (V3_VAddr p) (PT32_PAGE_ADDR gva) pte :: emulated_pages (emulator (info s));
  in_saved : saved_pages (emulator (info s')) =
    (let w := load32 m (slot t (PTE32_INDEX gva)) in
     if Z.odd w then [mk_saved_page (PT32_PAGE_ADDR gva) w] else []) ++ saved_pages (emulator (info s));
  in_writes : write_regions (emulator (info s')) = ws ++ write_regions (emulator (info s));
  in_running : running (emulator (info s')) = running (emulator (info s));
  in_tf : tf_enabled (emulator (info s')) = tf_enabled (emulator (info s));
}.

Lemma install_eq ee gva page pte s t s' :
  table_at s gva t -> is_u 32 gva -> install_page ee gva page pte s = Done s' ->
  s' = s <| hmem := store32 (hmem s) (slot t (PTE32_INDEX gva)) pte |>
         <| info := (info s) <| emulator := emulator (info s') |> |> /\
  emulated_pages (emulator (info s')) =
    mk_emulated_page page (PT32_PAGE_ADDR gva) pte :: emulated_pages (emulator (info s)) /\
  saved_pages (emulator (info s')) =
    (if Z.odd (entry s gva t) then [mk_saved_page (PT32_PAGE_ADDR gva) (entry s gva t)] else [])
      ++ saved_pages (emulator (info s)) /\
  write_regions (emulator (info s')) = write_regions (emulator (info s)) /\
  running (emulator (info s')) = running (emulator (info s)) /\
  tf_enabled (emulator (info s')) = tf_enabled (emulator (info s)).
Proof.
  intros Ht Hg. unfold install_page. cbv zeta.
  rewrite (replace_eq _ _ t) by by apply table_at_page.
  assert (entry s (PT32_PAGE_ADDR gva) t = entry s gva t) as ->
    by (unfold entry; by rewrite (proj2 (page_index gva Hg))).
  rewrite (proj2 (page_index gva Hg)), present_odd by apply loadn_range.
  destruct (Z.odd _); [destruct (ee_saved_ok ee); [|done]|]; intros [= <-]; by split_and!.
Qed.

Lemma get_new_page_inv s page s' :
  get_new_page s = Done (page, s') -> exists p, p <> NULL /\ page = V3_VAddr p /\
    pool s = mk_page_pool (p :: supply (pool s')) (freed (pool s')) /\
    s' = s <| pool := pool s' |> <| hmem := memset0 (hmem s) (V3_VAddr p) PAGE_SIZE |>.
Proof.
  unfold get_new_page, V3_AllocPages. destruct s as [i h [[|p rest] fr] d v]; cbn.
  - done.
  - case_cmp; [done|]. intros [= <- <-]. by exists p.
Qed.

Lemma decode_instr_frame ee instr s r i s' :
  decode_instr ee instr s = (r, i, s') -> s' = s <| decoder := decoder s' |>.
Proof. unfold decode_instr. destruct (Xed.v3_basic_mem_decode _ _ _ _) as [[? ?] ?]. by intros [= <- <- <-]. Qed.

(** The tables are apart from the pages that the allocator has. *)
Definition page_apart (s : vm) (t : Z) : Prop :=
  forall p, p ∈ supply (pool s) -> page_aligned p /\ p <> t /\ p <> pd_of s.

Lemma page_apart_load s t p m i :
  page_apart s t -> p ∈ supply (pool s) -> page_aligned (pd_of s) -> 0 <= i < 1024 ->
  load32 (memset0 m (V3_VAddr p) PAGE_SIZE) (slot (pd_of s) i) = load32 m (slot (pd_of s) i).
Proof.
  intros Ha Hp Hpd Hi. destruct (Ha p Hp) as (Hal & _ & Hne). apply load_memset_slot; [by split|done|done].
Qed.

(** The size of the memory operand of the instruction at the instruction pointer. *)
Definition access_size (ee : emu_env) (s : vm) : Z :=
  match read_instr (ee_instr ee) s with
  | Done (_, instr) => Xed.op_size (decode_instr ee instr s).1.2
  | _ => 0
  end.

(** The page that both functions take, before the hook or the list of writes. *)
Lemma new_page_inv s sd page sp t gva :
  table_at s gva t -> page_apart s t -> sd = s <| decoder := decoder sd |> ->
  get_new_page sd = Done (page, sp) ->
  exists p, p <> NULL /\ page = V3_VAddr p /\ p ∈ supply (pool s) /\
    pool s = mk_page_pool (p :: supply (pool sp)) (freed (pool sp)) /\
    hmem sp = memset0 (hmem s) (V3_VAddr p) PAGE_SIZE /\ info sp = info s /\ vmcb sp = vmcb s /\
    table_at sp gva t.
Proof.
  intros Ht Ha -> (p & Hp0 & -> & Hpool & Hsp)%get_new_page_inv. cbn in Hpool.
  assert (p ∈ supply (pool s)) as Hps by (rewrite Hpool; set_solver).
  exists p. split_and!; try done; [by rewrite Hsp..|].
  apply (table_at_same s); [done|by rewrite Hsp|]. rewrite Hsp.
  apply (page_apart_load s t); [done|done|apply (ta_pd _ _ _ Ht)|apply PDE32_INDEX_range].
Qed.

(** Installing it, in a state [su] that has the page and the writes [ws]. *)
Lemma installed_page ee s su s' gva t p pte ws :
  table_at su gva t -> is_u 32 gva ->
  pool s = mk_page_pool (p :: supply (pool su)) (freed (pool su)) -> vmcb su = vmcb s ->
  (exists e, info su = (info s) <| emulator := e |> /\ emulated_pages e = emulated_pages (emulator (info s)) /\
     saved_pages e = saved_pages (emulator (info s)) /\ write_regions e = ws ++ write_regions (emulator (info s)) /\
     running e = running (emulator (info s)) /\ tf_enabled e = tf_enabled (emulator (info s))) ->
  install_page ee gva (V3_VAddr p) pte su = Done s' -> installed s s' gva t p pte (hmem su) ws.
Proof.
  intros Ht Hg Hp Hv (e & He & H1 & H2 & H3 & H4 & H5) Hin.
  apply (install_eq _ _ _ _ _ t) in Hin as (Hs' & G1 & G2 & G3 & G4 & G5); [|done|done].
  rewrite He in G1, G2, G3, G4, G5. cbn in G1, G2, G3, G4, G5.
  split; [| | | |by rewrite G1, H1|by rewrite G2, H2|by rewrite G3|by rewrite G4|by rewrite G5].
  - rewrite Hs' at 1. cbn [info]. by rewrite He.
  - by rewrite Hs'.
  - by rewrite Hs'.
  - by rewrite Hs'.
Qed.

Lemma emulate_write_inv ee s gva fn gpa priv s1 t :
  table_at s gva t -> is_u 32 gva -> page_apart s t ->
  v3_emulate_memory_write ee s gva fn gpa priv = Done (0, s1) ->
  exists p s' i, p <> NULL /\ Xed.op_size i = access_size ee s /\
    installed s s' gva t p (data_pte (ee_pte ee) 1 (V3_VAddr p)) (memset0 (hmem s) (V3_VAddr p) PAGE_SIZE)
      [mk_write_region (V3_VAddr p + PT32_PAGE_OFFSET gva) (access_size ee s) fn gpa priv] /\
    s1 = if running (emulator (info s)) =? 0 then start_emulation i s' else s'.
Proof.
  intros Ht Hg Ha. unfold v3_emulate_memory_write, access_size. cbv zeta.
  intros ([ret instr] & -> & H)%outcome_bind_inv.
  destruct (decode_instr ee instr s) as [[r i] sd] eqn:Hd. apply decode_instr_frame in Hd.
  destruct (r =? -1); [done|]. cbn [fst snd].
  apply outcome_bind_inv in H as ([page sp] & Hnew & H).
  destruct (new_page_inv s sd page sp t gva Ht Ha Hd Hnew) as (p & Hp0 & -> & Hps & Hpool & Hm & Hi & Hv & Htp).
  destruct (ee_page_ok ee), (ee_op_ok ee); try done. cbn [allocated] in H.
  apply outcome_bind_inv in H as (s' & Hin & H).
  apply (installed_page ee s _ s' gva t p _
    [mk_write_region (V3_VAddr p + PT32_PAGE_OFFSET gva) (Xed.op_size i) fn gpa priv]) in Hin;
    [| |done|exact Hpool|exact Hv|].
  - change (hmem (upd_emu sp _)) with (hmem sp) in Hin. rewrite Hm in Hin.
    exists p, s', i. split_and!; [done|done|exact Hin|].
    rewrite (in_running _ _ _ _ _ _ _ _ Hin) in H. destruct (running _ =? 0); by injection H as <-.
  - by apply (table_at_same sp).
  - eexists. split; [cbn; rewrite Hi; reflexivity|done].
Qed.

Context {K : gset Z} {HK : MemHooksOk K}.

Lemma emulate_read_inv ee s gva fn gpa priv s1 t :
  table_at s gva t -> is_u 32 gva -> page_apart s t -> pd_of s ∈ K -> t ∈ K ->
  gva mod PAGE_SIZE + access_size ee s <= PAGE_SIZE ->
  v3_emulate_memory_read ee s gva fn gpa priv = Done (0, s1) ->
  exists p s0 r m s' i, p <> NULL /\ Xed.op_size i = access_size ee s /\
    info s0 = info s /\ hmem s0 = memset0 (hmem s) (V3_VAddr p) PAGE_SIZE /\
    hook_read_fn fn gpa (V3_VAddr p + gva mod PAGE_SIZE) (access_size ee s) priv s0 = Done (r, s0 <| hmem := m |>) /\
    u32 r = access_size ee s /\
    (forall q j, q ∈ K -> is_slot q j -> q <> p -> load32 m (slot q j) = load32 (hmem s) (slot q j)) /\
    installed s s' gva t p (data_pte (ee_pte ee) 0 (V3_VAddr p)) m [] /\ s1 = start_emulation i s'.
Proof.
  intros Ht Hg Ha HKpd HKt. unfold v3_emulate_memory_read, access_size. cbv zeta.
  intros Hsz ([ret instr] & Hri & H)%outcome_bind_inv. rewrite Hri in *.
  destruct (ret =? -1); [done|].
  destruct (decode_instr ee instr s) as [[r i] sd] eqn:Hd. apply decode_instr_frame in Hd.
  destruct (r =? -1); [done|]. cbn [fst snd] in *.
  apply outcome_bind_inv in H as ([page sp] & Hnew & H).
  destruct (new_page_inv s sd page sp t gva Ht Ha Hd Hnew) as (p & Hp0 & -> & Hps & Hpool & Hm & Hi & Hv & Htp).
  destruct (ee_page_ok ee); [|done]. cbn [allocated] in H.
  rewrite PT32_PAGE_OFFSET_eq in H by done. change (2 ^ 12) with PAGE_SIZE in H.
  destruct (hook_read_ok fn gpa (V3_VAddr p + gva mod PAGE_SIZE) (Xed.op_size i) priv sp) as (rr & m & Hr & Hk).
  rewrite Hr, outcome_bind_done in H.
  destruct (_ || _) eqn:Hok'; [done|]. apply orb_false_iff in Hok' as [_ Hru%negb_false_iff%Z.eqb_eq].
  apply outcome_bind_inv in H as (s' & Hin & [= <-]).
  assert (forall q j, q ∈ K -> is_slot q j -> q <> p -> load32 m (slot q j) = load32 (hmem s) (slot q j)) as Hkeep.
  { intros q j Hq Hs Hne. destruct (Ha p Hps) as (Hal & _).
    rewrite Hk, Hm; [by apply load_memset_slot|done|apply Hs|].
    destruct Hs as [Hqa Hj]. pose proof (Z.mod_pos_bound gva PAGE_SIZE).
    unfold slot. destruct (pages_apart q p Hqa Hal Hne); lia. }
  apply (installed_page ee s _ s' gva t p _ []) in Hin; [| |done|exact Hpool|exact Hv|].
  - exists p, sp, rr, m, s', i. by split_and!.
  - apply (table_at_same s); [done|unfold pd_of; cbn; by rewrite Hi|]. cbn [hmem]. apply Hkeep.
    + done.
    + split; [apply (ta_pd _ _ _ Ht)|apply PDE32_INDEX_range].
    + destruct (Ha p Hps) as (_ & _ & ?). congruence.
  - exists (emulator (info s)). split; [cbn; rewrite Hi; by destruct (info s)|done].
Qed.

(** ** The end of the emulation *)

(** Nothing is being emulated. *)
Record idle (s : vm) : Prop := {
  idle_pages : emulated_pages (emulator (info s)) = [];
  idle_saved : saved_pages (emulator (info s)) = [];
  idle_writes : write_regions (emulator (info s)) = [];
  idle_running : running (emulator (info s)) = 0;
}.

Lemma restore_pages_eq stray t l : forall s,
  table_at s stray t -> saved_pages (emulator (info s)) = l ->
  restore_pages stray l s =
    upd_emu (s <| hmem := foldl (fun m x => store32 m (slot t (PTE32_INDEX stray)) (sv_pte x)) (hmem s) l |>)
      (fun e => e <| saved_pages := [] |>).
Proof.
  induction l as [|x l IH]; intros s Ht Hl; cbn [restore_pages foldl].
  - destruct s as [[] ? ? ? ?]. unfold upd_emu. cbn in *. destruct emulator0. cbn in *. by rewrite Hl.
  - rewrite (replace_eq _ _ t) by done. rewrite IH; [done| |done].
    eapply (table_at_same (s <| hmem := store32 (hmem s) (slot t (PTE32_INDEX stray)) (sv_pte x) |>)); [|done|done].
    by apply (table_at_store _ _ _ stray), PTE32_INDEX_range.
Qed.

(** The handler, after the writes have led to [sw], on one emulated page. *)
Lemma exit_eq stray s sw gva t p pte t' :
  complete_writes (write_regions (emulator (info s))) s = Done sw -> is_u 32 gva -> table_at sw gva t ->
  emulated_pages (emulator (info sw)) = [mk_emulated_page (V3_VAddr p) (PT32_PAGE_ADDR gva) pte] ->
  write_regions (emulator (info sw)) = [] -> is_u 1 (tf_enabled (emulator (info sw))) ->
  saved_pages (emulator (info sw)) = [] \/ table_at sw stray t' ->
  exists s3, v3_emulation_exit_handler stray s = Done (0, s3) /\
    hmem s3 = foldl (fun m x => store32 m (slot t' (PTE32_INDEX stray)) (sv_pte x))
      (store32 (hmem sw) (slot t (PTE32_INDEX gva)) 0) (saved_pages (emulator (info sw))) /\
    pool s3 = V3_FreePage (pool sw) p /\ pd_of s3 = pd_of sw /\ idle s3 /\
    run_state (info s3) = VM_RUNNING /\ get_tf s3 = tf_enabled (emulator (info sw)) /\
    field (exceptions (ctrl_area (vmcb s3))) 1 1 = 0.
Proof.
  intros Hw Hg Ht Hp Hws Htf Hsv. unfold v3_emulation_exit_handler. rewrite Hw, outcome_bind_done. cbv zeta.
  change (emulated_pages (emulator (info (upd_emu sw _)))) with (emulated_pages (emulator (info sw))).
  rewrite Hp. cbn [wipe_pages em_va page_addr].
  set (sn := upd_emu sw _). assert (table_at sn gva t) as Htn by by apply (table_at_same sw).
  rewrite (replace_eq sn _ t) by by apply table_at_page. rewrite (proj2 (page_index gva Hg)).
  match goal with |- context [restore_pages stray _ ?x] => set (sr := x) end. change (saved_pages (emulator (info sr))) with (saved_pages (emulator (info sw))).
  assert (restore_pages stray (saved_pages (emulator (info sw))) sr =
    upd_emu (sr <| hmem := foldl (fun m x => store32 m (slot t' (PTE32_INDEX stray)) (sv_pte x)) (hmem sr)
      (saved_pages (emulator (info sw))) |>) (fun e => e <| saved_pages := [] |>)) as ->.
  { destruct Hsv as [Hsv|Hsv].
    - rewrite Hsv. cbn [restore_pages foldl]. subst sr sn. unfold upd_emu. destruct sw as [[] ? ? ? ?]. cbn in *.
      destruct emulator0. cbn in *. by rewrite Hsv.
    - apply restore_pages_eq; [|done]. apply (table_at_same (sn <| hmem := store32 (hmem sn) (slot t (PTE32_INDEX gva)) 0 |>));
        [|done|done]. apply (table_at_store _ _ _ gva); [by apply (table_at_same sw)|done|apply PTE32_INDEX_range]. }
  eexists. split; [reflexivity|]. split_and!; try done.
  - cbn. by rewrite os_back.
  - unfold unset_stepping. by rewrite tf_set.
  - by apply field_put_field.
Qed.

(** What the guest does between the fault and the debug exception: it executes the
    instruction, which leaves the VMM's state and tables alone. *)
Record stepped (s1 s2 : vm) : Prop := {
  sp_emu : emulator (info s2) = emulator (info s1);
  sp_pd : pd_of s2 = pd_of s1;
  sp_pool : pool s2 = pool s1;
  sp_tables q i : q ∈ K -> 0 <= i < 1024 -> load32 (hmem s2) (slot q i) = load32 (hmem s1) (slot q i);
}.

End proofs.

Section walks.
Context {A : Arch} {Hos : OsHooks} {Hok : OsHooksOk}.

(** The processor does not see changes of entries that are not present. *)
Lemma walk_ext v T av s s' va :
  isolated_but nowhere v (pd_of s) T av (hmem s) -> pd_of s' = pd_of s -> is_u 32 va ->
  (forall i, 0 <= i < 1024 -> load32 (hmem s') (slot (pd_of s) i) = load32 (hmem s) (slot (pd_of s) i)) ->
  (forall q i, q ∈ T -> 0 <= i < 1024 -> load32 (hmem s') (slot q i) = load32 (hmem s) (slot q i) \/
     Z.odd (load32 (hmem s') (slot q i)) = false /\ Z.odd (load32 (hmem s) (slot q i)) = false) ->
  shadow_walk s' va = shadow_walk s va.
Proof.
  intros Hi Hpd Hva H1 H2. unfold shadow_walk, hw_walk. rewrite Hpd.
  assert (0 <= va / 2 ^ 22 < 1024) as Hix by (rewrite <- PDE32_INDEX_eq by done; apply PDE32_INDEX_range).
  rewrite H1 by done. cbv zeta. pose proof (iso_pde _ _ _ _ _ _ Hi _ Hix (fun H => H)) as Hpde.
  set (w := load32 (hmem s) (slot (pd_of s) (va / 2 ^ 22))) in *.
  assert (is_u 32 w) as Hw by apply loadn_range.
  destruct (Z.odd w) eqn:Ho; [|done]. destruct (Z.testbit w 7); [done|].
  destruct (Hpde (odd_present w Ho)) as [_ HT].
  change (Pde32.pt_base_addr (decode w)) with (field w 12 20) in HT. rewrite field_base in HT by done.
  assert (0 <= va / 2 ^ 12 mod 2 ^ 10 < 1024) as Hj by by apply Z.mod_pos_bound.
  destruct (H2 _ _ HT Hj) as [->|[-> ->]]; done.
Qed.

Lemma walk_cleared v T av s s' m t i va :
  isolated_but nowhere v (pd_of s) T av (hmem s) -> t ∈ T -> pd_of s' = pd_of s -> 0 <= i < 1024 ->
  hmem s' = store32 m (slot t i) 0 -> Z.odd (load32 (hmem s) (slot t i)) = false ->
  (forall q j, q ∈ {[pd_of s]} ∪ T -> 0 <= j < 1024 -> (q, j) <> (t, i) ->
     load32 m (slot q j) = load32 (hmem s) (slot q j)) ->
  is_u 32 va -> shadow_walk s' va = shadow_walk s va.
Proof.
  intros Hiso Ht Hpd Hi Hm He Hk Hva.
  assert (forall q j, q ∈ {[pd_of s]} ∪ T -> 0 <= j < 1024 -> is_slot q j) as Hs
    by (intros q j Hq Hj; split; [by apply (iso_frames _ _ _ _ _ _ Hiso)|done]).
  assert (forall q j, q ∈ {[pd_of s]} ∪ T -> 0 <= j < 1024 -> (q, j) <> (t, i) ->
    load32 (hmem s') (slot q j) = load32 (hmem s) (slot q j)) as Hk'.
  { intros q j Hq Hj Hne. rewrite Hm, load_store_slot_ne; [by apply Hk|by apply Hs|apply Hs; [set_solver|done]|done]. }
  apply (walk_ext v T av s s' va Hiso Hpd Hva).
  - intros j Hj. apply Hk'; [set_solver|done|]. intros [= Heq _]. apply (iso_pd _ _ _ _ _ _ Hiso). congruence.
  - intros q j Hq Hj. destruct (decide ((q, j) = (t, i))) as [[= -> ->]|Hne].
    + right. rewrite Hm. by rewrite load_store_slot.
    + left. apply Hk'; [set_solver|done|done].
Qed.

(** The entry for the page of the emulator. *)
Lemma data_pte_eq pte0 wr p :
  frame_ok p -> is_u 1 wr ->
  let w := data_pte pte0 wr (V3_VAddr p) in
  is_u 32 w /\ Z.odd w = true /\ PAGE_SIZE * (w / PAGE_SIZE) = p /\
  Z.testbit w 1 = negb (wr =? 0) /\ Z.testbit w 2 = true.
Proof.
  intros (Ha & Hp & _) Hwr. cbv zeta. unfold data_pte. rewrite os_back, PT32_BASE_ADDR_eq by done.
  set (e := _ <| Pte32.page_base_addr := _ |>).
  assert (bs_wf e) as Hwf.
  { subst e. pose proof (decode_wf (T := Pte32.pte32) (u32 pte0)) as Hd. revert Hd.
    assert (is_u 20 (field (p / 2 ^ 12) 0 20)) as Hb by by apply field_range. revert Hb.
    generalize (decode (T := Pte32.pte32) (u32 pte0)) (field (p / 2 ^ 12) 0 20). clear -Hwr.
    intros d b Hb Hd. wf_entry. }
  assert (is_u 32 (encode e)) as Hu by by apply encode_u.
  assert (decode (encode e) = e) as Hde by by apply decode_encode.
  set (w := encode e) in *.
  assert (field w 0 1 = 1) as H0 by (change (field w 0 1) with (Pte32.present (decode w)); by rewrite Hde).
  assert (field w 1 1 = wr) as H1 by (change (field w 1 1) with (Pte32.writable (decode w)); by rewrite Hde).
  assert (field w 2 1 = 1) as H2 by (change (field w 2 1) with (Pte32.user_page (decode w)); by rewrite Hde).
  assert (field w 12 20 = p / PAGE_SIZE) as H3.
  { change (field w 12 20) with (Pte32.page_base_addr (decode w)). rewrite Hde. subst e. cbn.
    unfold field. rewrite Z.div_1_r. apply Z.mod_small. split; [apply Z.div_pos; [apply Hp|done]|].
    apply Z.div_lt_upper_bound; [done|]. change (4096 * 2 ^ 20) with (2 ^ 32). apply Hp. }
  split_and!; [done| | | |].
  - rewrite odd_testbit. apply negb_false_iff. by rewrite <- field_bit, H0.
  - change PAGE_SIZE with (2 ^ 12) at 1 2. rewrite <- field_base, H3 by done.
    unfold page_aligned in Ha. pose proof (Z.div_mod p PAGE_SIZE). lia.
  - rewrite <- (negb_involutive (Z.testbit w 1)), <- field_bit, H1 by done. done.
  - apply negb_false_iff. by rewrite <- field_bit, H2.
Qed.

End walks.

(** ** An emulated access from the fault to the debug exception *)

Section cycle.
Context {A : Arch} {Hos : OsHooks} {Hx : Xed.XedLib} {Hh : MemHooks} {Hok : OsHooksOk}.

(** The host maps the shadow tables at their physical addresses.  v3_replace_shdw_page32
    takes the address in a directory entry for a pointer, without V3_VAddr: on other hosts it
    reads and writes another place. *)
Definition flat_tables (T : gset Z) : Prop := forall t, t ∈ T -> V3_VAddr t = t.

(** The guest faults at [gva]: isolated shadow tables [T], with a table for [gva], and
    nothing being emulated. *)
Record faulting (v : list shadow_region) (T : gset Z) (s : vm) (gva : Z) : Prop := {
  ft_iso : isolated_but nowhere v (pd_of s) T (supply (pool s)) (hmem s);
  ft_gva : is_u 32 gva;
  ft_pde : Pde32.present (get_pde32 (hmem s) (V3_VAddr (pd_of s)) (PDE32_INDEX gva)) <> 0;
  ft_idle : idle s;
}.

Definition tables (T : gset Z) (s : vm) : gset Z := {[pd_of s]} ∪ T.

Lemma faulting_table v T s gva :
  flat_tables T -> faulting v T s gva -> exists t, t ∈ T /\ table_at s gva t /\ page_apart s t.
Proof.
  intros Hf [Hi Hg Hp _]. destruct (isolated_table v T _ s gva Hi Hp Hf) as (t & Ht & Hta).
  exists t. split_and!; [done|done|]. intros p Hps.
  destruct (iso_fresh _ _ _ _ _ _ Hi p Hps) as (_ & (Ha & _) & Hn & _). set_solver.
Qed.

(** The state at the debug exception once the hooks have got the writes. *)
Record written (K : gset Z) (s2 sw : vm) : Prop := {
  wn_done : complete_writes (write_regions (emulator (info s2))) s2 = Done sw;
  wn_state : sw = upd_emu (s2 <| hmem := hmem sw |>) (fun e => e <| write_regions := [] |>);
  wn_keep q i : q ∈ K -> 0 <= i < 1024 -> load32 (hmem sw) (slot q i) = load32 (hmem s2) (slot q i);
}.

Lemma begun_table v T s s' i gva t p pte m ws :
  faulting v T s gva -> t ∈ T -> table_at s gva t -> p ∈ supply (pool s) ->
  (forall q j, q ∈ tables T s -> is_slot q j -> q <> p -> load32 m (slot q j) = load32 (hmem s) (slot q j)) ->
  installed s s' gva t p pte m ws ->
  (forall q j, q ∈ tables T s -> 0 <= j < 1024 -> (q, j) <> (t, PTE32_INDEX gva) ->
     load32 (hmem (start_emulation i s')) (slot q j) = load32 (hmem s) (slot q j)) /\
  table_at (start_emulation i s') gva t /\
  load32 m (slot t (PTE32_INDEX gva)) = entry s gva t.
Proof.
  intros Hf HtT Ht Hps Hm Hin. pose proof (ft_iso _ _ _ _ Hf) as Hiso.
  destruct (iso_fresh _ _ _ _ _ _ Hiso p Hps) as (_ & _ & Hpn & _).
  assert (pd_of s' = pd_of s) as Hpd by (unfold pd_of; by rewrite (in_info _ _ _ _ _ _ _ _ Hin)).
  assert (forall q j, q ∈ tables T s -> 0 <= j < 1024 -> is_slot q j) as Hslot.
  { intros q j Hq Hj. split; [|done]. by apply (iso_frames _ _ _ _ _ _ Hiso). }
  assert (forall q j, q ∈ tables T s -> 0 <= j < 1024 -> (q, j) <> (t, PTE32_INDEX gva) ->
    load32 (hmem s') (slot q j) = load32 (hmem s) (slot q j)) as Hk.
  { intros q j Hq Hj Hne. rewrite (in_mem _ _ _ _ _ _ _ _ Hin), load_store_slot_ne;
      [|by apply Hslot|by apply (table_slot s gva)|done].
    apply Hm; [done|by apply Hslot|]. unfold tables in Hq. set_solver. }
  split; [exact Hk|]. split.
  - apply (table_at_same s); [done|exact Hpd|]. apply Hk.
    + unfold tables. set_solver.
    + apply PDE32_INDEX_range.
    + intros [= Heq _]. by apply (ta_ne _ _ _ Ht).
  - apply Hm; [unfold tables; set_solver|by apply (table_slot s gva)|set_solver].
Qed.

Lemma emulated_cycle v T s s' i gva t p pte0 wr m ws :
  faulting v T s gva -> t ∈ T -> table_at s gva t -> shadow_walk s gva = None -> is_u 1 wr ->
  (forall q j, q ∈ tables T s -> is_slot q j -> q <> p -> load32 m (slot q j) = load32 (hmem s) (slot q j)) ->
  installed s s' gva t p (data_pte pte0 wr (V3_VAddr p)) m ws ->
  let s1 := start_emulation i s' in
  supply (pool s) = p :: supply (pool s1) /\ get_tf s1 = 1 /\
  shadow_walk s1 gva = Some (p + gva mod PAGE_SIZE) /\
  Z.testbit (entry s1 gva t) 1 = negb (wr =? 0) /\ Z.testbit (entry s1 gva t) 2 = true /\
  forall stray s2 sw, stepped (K := tables T s) s1 s2 -> written (tables T s) s2 sw ->
  exists s3, v3_emulation_exit_handler stray s2 = Done (0, s3) /\
    hmem s3 = store32 (hmem sw) (slot t (PTE32_INDEX gva)) 0 /\
    (forall va, is_u 32 va -> shadow_walk s3 va = shadow_walk s va) /\
    pool s3 = mk_page_pool (supply (pool s1)) (p :: freed (pool s)) /\ idle s3 /\
    run_state (info s3) = VM_RUNNING /\ get_tf s3 = get_tf s /\
    field (exceptions (ctrl_area (vmcb s3))) 1 1 = 0.
Proof.
  intros Hf HtT Ht Hw Hwr Hm Hin s1. pose proof (ft_iso _ _ _ _ Hf) as Hiso.
  assert (p ∈ supply (pool s)) as Hps by (rewrite (in_pool _ _ _ _ _ _ _ _ Hin); set_solver).
  destruct (iso_fresh _ _ _ _ _ _ Hiso p Hps) as (_ & Hfp & Hpn & _).
  destruct (begun_table v T s s' i gva t p _ m ws Hf HtT Ht Hps Hm Hin) as (Hk & Ht1 & Hent).
  destruct (data_pte_eq pte0 wr p Hfp Hwr) as (Hu & Hodd & Hbase & Hwb & Hub).
  assert (entry s1 gva t = data_pte pte0 wr (V3_VAddr p)) as He1.
  { unfold entry. change (hmem s1) with (hmem s'). rewrite (in_mem _ _ _ _ _ _ _ _ Hin).
    by apply load_store_slot. }
  assert (Z.odd (entry s gva t) = false) as Hev.
  { rewrite (walk_at s gva t Ht (ft_gva _ _ _ _ Hf)) in Hw. by destruct (Z.odd _). }
  split_and!.
  - by rewrite (in_pool _ _ _ _ _ _ _ _ Hin).
  - by apply tf_set.
  - rewrite (walk_at s1 gva t Ht1 (ft_gva _ _ _ _ Hf)), He1, Hodd, Hbase. done.
  - by rewrite He1.
  - by rewrite He1.
  - intros stray s2 sw [Se Sp So St] [Wd Ws Wk].
    assert (emulator (info sw) = (emulator (info s1)) <| write_regions := [] |>) as Hemu
      by (rewrite Ws; cbn; by rewrite Se).
    assert (table_at sw gva t) as Htw.
    { apply (table_at_same s1); [done|rewrite Ws; exact Sp|].
      assert (pd_of s1 ∈ tables T s) as Hpd.
      { unfold s1, tables, pd_of. cbn. rewrite (in_info _ _ _ _ _ _ _ _ Hin). cbn. set_solver. }
      rewrite Wk, St by (done || apply PDE32_INDEX_range). done. }
    assert (pd_of sw = pd_of s) as Hpdw.
    { transitivity (pd_of s2); [by rewrite Ws|]. rewrite Sp. unfold s1, pd_of. cbn.
      by rewrite (in_info _ _ _ _ _ _ _ _ Hin). }
    assert (forall q j, q ∈ tables T s -> 0 <= j < 1024 -> (q, j) <> (t, PTE32_INDEX gva) ->
      load32 (hmem sw) (slot q j) = load32 (hmem s) (slot q j)) as Hall.
    { intros q j Hq Hj Hne. rewrite Wk, St by done. by apply Hk. }
    assert (saved_pages (emulator (info sw)) = []) as Hsv.
    { rewrite Hemu. cbn. rewrite (in_saved _ _ _ _ _ _ _ _ Hin), Hent. cbv zeta.
      rewrite Hev. apply (ft_idle _ _ _ _ Hf). }
    destruct (exit_eq stray s2 sw gva t p (data_pte pte0 wr (V3_VAddr p)) 0 Wd (ft_gva _ _ _ _ Hf) Htw)
      as (s3 & He & Hm3 & Hp3 & Hpd3 & Hid & Hrun & Htf & Hdb).
    + rewrite Hemu. cbn. rewrite (in_pages _ _ _ _ _ _ _ _ Hin). by rewrite (idle_pages _ (ft_idle _ _ _ _ Hf)).
    + by rewrite Hemu.
    + rewrite Hemu. cbn. by apply field_range.
    + by left.
    + exists s3. split_and!; try done.
      * by rewrite Hm3, Hsv.
      * intros va Hva. apply (walk_cleared v T _ s s3 (hmem sw) t (PTE32_INDEX gva) va Hiso HtT);
          [congruence|apply PTE32_INDEX_range|by rewrite Hm3, Hsv|done|done|done].
      * rewrite Hp3, Ws. cbn. rewrite So. rewrite (in_pool _ _ _ _ _ _ _ _ Hin). done.
      * rewrite Htf, Hemu. cbn. unfold get_tf, set_intercept_db. cbn. by rewrite (in_info _ _ _ _ _ _ _ _ Hin).
Qed.

(** The instruction can be fetched and decoded, and there is memory for the bookkeeping. *)
Record emulable (ee : emu_env) (s : vm) : Prop := {
  el_fetch : exists ret instr, read_instr (ee_instr ee) s = Done (ret, instr) /\ ret <> -1 /\
    (decode_instr ee instr s).1.1 <> -1;
  el_page : exists p ps, supply (pool s) = p :: ps /\ p <> NULL;
  el_malloc : ee_page_ok ee = true /\ ee_op_ok ee = true /\ ee_saved_ok ee = true;
}.

Lemma install_returns ee gva page pte s : ee_saved_ok ee = true -> exists s', install_page ee gva page pte s = Done s'.
Proof.
  intros Hs. unfold install_page. cbv zeta. destruct (v3_replace_shdw_page32 _ _ _ _) as [[? ?] ?].
  rewrite Hs. destruct (_ =? 1); by eexists.
Qed.

(** What both functions do first. *)
Lemma emulable_begins ee s : emulable ee s -> exists ret instr r i sd p sp,
  read_instr (ee_instr ee) s = Done (ret, instr) /\ (ret =? -1) = false /\
  decode_instr ee instr s = (r, i, sd) /\ (r =? -1) = false /\ Xed.op_size i = access_size ee s /\
  get_new_page sd = Done (V3_VAddr p, sp).
Proof.
  intros [(ret & instr & Hr & Hret & Hd) (p & ps & Hp & Hp0) _].
  destruct (decode_instr ee instr s) as [[r i] sd] eqn:E. cbn in Hd.
  pose proof (decode_instr_frame _ _ _ _ _ _ E) as Hsd.
  assert (exists sp, get_new_page sd = Done (V3_VAddr p, sp)) as [sp Hsp].
  { unfold get_new_page. assert (pool sd = pool s) as -> by by rewrite Hsd. unfold V3_AllocPages.
    destruct (pool s) as [sup fr]. cbn in Hp. subst sup. cbn [supply].
    rewrite (proj2 (Z.eqb_neq _ _) Hp0). by eexists. }
  exists ret, instr, r, i, sd, p, sp. split_and!; [done|by apply Z.eqb_neq|done|by apply Z.eqb_neq| |done].
  unfold access_size. by rewrite Hr, E.
Qed.

Lemma emulate_write_returns ee s gva fn gpa priv :
  emulable ee s -> exists s1, v3_emulate_memory_write ee s gva fn gpa priv = Done (0, s1).
Proof.
  intros He. destruct (emulable_begins ee s He) as (ret & instr & r & i & sd & p & sp & Hr & _ & Hd & Hr1 & _ & Hp).
  destruct (el_malloc _ _ He) as (H1 & H2 & H3). unfold v3_emulate_memory_write. cbv zeta.
  rewrite Hr, outcome_bind_done, Hd, Hr1, Hp, outcome_bind_done, H1, H2. cbn [allocated].
  match goal with |- context [install_page ?e ?g ?q ?w ?x] => destruct (install_returns e g q w x H3) as (s' & ->) end.
  rewrite outcome_bind_done. destruct (_ =? 0); by eexists.
Qed.

Lemma emulate_read_returns K ee s gva fn gpa priv :
  MemHooksOk K -> emulable ee s -> access_size ee s <= PAGE_SIZE ->
  (forall dst s0 r s', hook_read_fn fn gpa dst (access_size ee s) priv s0 = Done (r, s') -> u32 r = access_size ee s) ->
  exists s1, v3_emulate_memory_read ee s gva fn gpa priv = Done (0, s1).
Proof.
  intros HK He Hsz Hhook.
  destruct (emulable_begins ee s He) as (ret & instr & r & i & sd & p & sp & Hr & Hret & Hd & Hr1 & Hi & Hp).
  destruct (el_malloc _ _ He) as (H1 & _ & H3). unfold v3_emulate_memory_read. cbv zeta.
  rewrite Hr, outcome_bind_done, Hret, Hd, Hr1, Hp, outcome_bind_done, H1, Hi. cbn [allocated].
  destruct (hook_read_ok fn gpa (V3_VAddr p + PT32_PAGE_OFFSET gva) (access_size ee s) priv sp) as (rr & m & Hrr & _).
  pose proof (Hhook _ _ _ _ Hrr) as Hu. rewrite Hrr, outcome_bind_done, Hu, Z.eqb_refl.
  destruct (Z.eqb_spec rr (-1)) as [->|_]; [exfalso; change (u32 (-1)) with 4294967295 in Hu; lia|]. cbn [orb negb].
  match goal with |- context [install_page ?e ?g ?q ?w ?x] => destruct (install_returns e g q w x H3) as (s' & ->) end.
  by eexists.
Qed.

(** C10. A write to hooked memory reaches its hook.  On a fault at an address without a shadow
    entry, v3_emulate_memory_write maps a fresh page of the host there, writable for the
    guest, and single-steps it; whatever the guest leaves on that page by the debug
    exception, the exit handler calls the hook with the address of the write on it, the
    operand size and the hook's data.  Afterwards the processor translates every address as
    before the fault, the page is given back, and the trap flag is the guest's own.  The
    function succeeds whenever the instruction decodes and there is memory.  All this on a
    host that maps the shadow tables at their physical addresses. *)
Theorem emulated_write_reaches_hook v T s gva ee fn gpa priv :
  flat_tables T -> faulting v T s gva -> MemHooksOk (tables T s) -> shadow_walk s gva = None ->
  (emulable ee s -> exists s1, v3_emulate_memory_write ee s gva fn gpa priv = Done (0, s1)) /\
  forall s1, v3_emulate_memory_write ee s gva fn gpa priv = Done (0, s1) ->
  exists p t, supply (pool s) = p :: supply (pool s1) /\ get_tf s1 = 1 /\
    shadow_walk s1 gva = Some (p + gva mod PAGE_SIZE) /\ table_at s1 gva t /\
    Z.testbit (entry s1 gva t) 1 = true /\ Z.testbit (entry s1 gva t) 2 = true /\
    forall stray s2, stepped (K := tables T s) s1 s2 ->
    exists r m s3,
      hook_write_fn fn gpa (V3_VAddr (p + gva mod PAGE_SIZE)) (access_size ee s) priv s2 =
        Done (r, s2 <| hmem := m |>) /\
      v3_emulation_exit_handler stray s2 = Done (0, s3) /\
      hmem s3 = store32 m (slot t (PTE32_INDEX gva)) 0 /\
      (forall va, is_u 32 va -> shadow_walk s3 va = shadow_walk s va) /\
      pool s3 = mk_page_pool (supply (pool s1)) (p :: freed (pool s)) /\ idle s3 /\
      run_state (info s3) = VM_RUNNING /\ get_tf s3 = get_tf s /\
      field (exceptions (ctrl_area (vmcb s3))) 1 1 = 0.
Proof.
  intros Hfl Hf HK Hw. split; [apply emulate_write_returns|]. intros s1 He.
  destruct (faulting_table v T s gva Hfl Hf) as (t & HtT & Ht & Hap).
  pose proof (ft_gva _ _ _ _ Hf) as Hg. pose proof (ft_idle _ _ _ _ Hf) as Hid.
  destruct (emulate_write_inv ee s gva fn gpa priv s1 t Ht Hg Hap He) as (p & s' & i & Hp0 & Hsz & Hin & Hs1).
  rewrite (idle_running _ Hid) in Hs1. cbn in Hs1. subst s1.
  assert (p ∈ supply (pool s)) as Hps by (rewrite (in_pool _ _ _ _ _ _ _ _ Hin); set_solver).
  pose proof (ft_iso _ _ _ _ Hf) as Hiso.
  destruct (iso_fresh _ _ _ _ _ _ Hiso p Hps) as (_ & (Hpa & _) & _).
  assert (forall q j, q ∈ tables T s -> is_slot q j -> q <> p ->
    load32 (memset0 (hmem s) (V3_VAddr p) PAGE_SIZE) (slot q j) = load32 (hmem s) (slot q j)) as Hm
    by (intros q j _ Hq Hne; by apply load_memset_slot).
  destruct (begun_table v T s s' i gva t p _ _ _ Hf HtT Ht Hps Hm Hin) as (_ & Ht1 & _).
  destruct (emulated_cycle v T s s' i gva t p _ 1 _ _ Hf HtT Ht Hw ltac:(done) Hm Hin)
    as (H1 & H2 & H3 & H4 & H5 & Hexit).
  exists p, t. split_and!; [done..|]. intros stray s2 Hst.
  assert (write_regions (emulator (info s2)) = [mk_write_region (V3_VAddr p + PT32_PAGE_OFFSET gva)
    (access_size ee s) fn gpa priv]) as Hws.
  { rewrite (sp_emu _ _ Hst). cbn. rewrite (in_writes _ _ _ _ _ _ _ _ Hin), (idle_writes _ Hid). done. }
  rewrite os_linear by (done || by apply Z.mod_pos_bound).
  rewrite PT32_PAGE_OFFSET_eq in Hws by done.
  destruct (hook_write_ok (K := tables T s) fn gpa (V3_VAddr p + gva mod PAGE_SIZE) (access_size ee s) priv s2)
    as (r & m & Hr & Hk).
  destruct (Hexit stray s2 (upd_emu (s2 <| hmem := m |>) (fun e => e <| write_regions := [] |>)) Hst)
    as (s3 & Hs3 & Hrest); [|by exists r, m, s3].
  split; [|done|done]. rewrite Hws. cbn [complete_writes wr_write write_addr write_data wr_length private_data].
  change (2 ^ 12) with PAGE_SIZE. by rewrite Hr.
Qed.

(** The read up to the point where the guest goes on. *)
Lemma read_begun v T s gva ee fn gpa priv s1 :
  flat_tables T -> faulting v T s gva -> MemHooksOk (tables T s) -> gva mod PAGE_SIZE + access_size ee s <= PAGE_SIZE ->
  v3_emulate_memory_read ee s gva fn gpa priv = Done (0, s1) ->
  exists p t s0 r m s' i, s1 = start_emulation i s' /\ t ∈ T /\ table_at s gva t /\ table_at s1 gva t /\
    p ∈ supply (pool s) /\ page_aligned p /\ t <> p /\ hmem s0 = memset0 (hmem s) (V3_VAddr p) PAGE_SIZE /\
    hook_read_fn fn gpa (V3_VAddr (p + gva mod PAGE_SIZE)) (access_size ee s) priv s0 = Done (r, s0 <| hmem := m |>) /\
    u32 r = access_size ee s /\
    (forall q j, q ∈ tables T s -> is_slot q j -> q <> p -> load32 m (slot q j) = load32 (hmem s) (slot q j)) /\
    installed s s' gva t p (data_pte (ee_pte ee) 0 (V3_VAddr p)) m [].
Proof.
  intros Hfl Hf HK Hsz He. destruct (faulting_table v T s gva Hfl Hf) as (t & HtT & Ht & Hap).
  pose proof (ft_gva _ _ _ _ Hf) as Hg. pose proof (ft_iso _ _ _ _ Hf) as Hiso.
  destruct (emulate_read_inv (K := tables T s) ee s gva fn gpa priv s1 t Ht Hg Hap)
    as (p & s0 & r & m & s' & i & Hp0 & Hi & Hi0 & Hm0 & Hr & Hru & Hm & Hin & ->);
    [unfold tables; set_solver|unfold tables; set_solver|done|done|].
  assert (p ∈ supply (pool s)) as Hps by (rewrite (in_pool _ _ _ _ _ _ _ _ Hin); set_solver).
  destruct (iso_fresh _ _ _ _ _ _ Hiso p Hps) as (_ & (Hpa & _) & Hpn & _).
  destruct (begun_table v T s s' i gva t p _ _ _ Hf HtT Ht Hps Hm Hin) as (_ & Ht1 & _).
  exists p, t, s0, r, m, s', i. rewrite os_linear by (done || by apply Z.mod_pos_bound).
  split_and!; try done. set_solver.
Qed.

(** C11. A read of hooked memory finds what the hook delivers.  On a fault at an address
    without a shadow entry, by an instruction whose operand lies in the page, the hook fills
    the operand on a fresh page, and that page, otherwise zero and not writable, is what the
    guest sees at the address while the instruction executes.  After the debug exception
    every address is translated as before the fault, the page is given back, and the trap
    flag is the guest's own.  The function succeeds whenever the instruction decodes, there
    is memory and the hook delivers the operand.  All this on a host that maps the shadow
    tables at their physical addresses. *)
Theorem emulated_read_sees_hook v T s gva ee fn gpa priv :
  flat_tables T -> faulting v T s gva -> MemHooksOk (tables T s) -> shadow_walk s gva = None ->
  gva mod PAGE_SIZE + access_size ee s <= PAGE_SIZE ->
  (emulable ee s ->
    (forall dst s0 r s', hook_read_fn fn gpa dst (access_size ee s) priv s0 = Done (r, s') -> u32 r = access_size ee s) ->
    exists s1, v3_emulate_memory_read ee s gva fn gpa priv = Done (0, s1)) /\
  forall s1, v3_emulate_memory_read ee s gva fn gpa priv = Done (0, s1) ->
  exists p t s0 r m, supply (pool s) = p :: supply (pool s1) /\ get_tf s1 = 1 /\
    hmem s0 = memset0 (hmem s) (V3_VAddr p) PAGE_SIZE /\
    hook_read_fn fn gpa (V3_VAddr (p + gva mod PAGE_SIZE)) (access_size ee s) priv s0 =
      Done (r, s0 <| hmem := m |>) /\ u32 r = access_size ee s /\
    (forall k, 0 <= k < PAGE_SIZE -> hmem s1 (V3_VAddr p + k) = m (V3_VAddr p + k)) /\
    shadow_walk s1 gva = Some (p + gva mod PAGE_SIZE) /\ table_at s1 gva t /\
    Z.testbit (entry s1 gva t) 1 = false /\ Z.testbit (entry s1 gva t) 2 = true /\
    forall stray s2, stepped (K := tables T s) s1 s2 ->
    exists s3, v3_emulation_exit_handler stray s2 = Done (0, s3) /\
      hmem s3 = store32 (hmem s2) (slot t (PTE32_INDEX gva)) 0 /\
      (forall va, is_u 32 va -> shadow_walk s3 va = shadow_walk s va) /\
      pool s3 = mk_page_pool (supply (pool s1)) (p :: freed (pool s)) /\ idle s3 /\
      run_state (info s3) = VM_RUNNING /\ get_tf s3 = get_tf s /\
      field (exceptions (ctrl_area (vmcb s3))) 1 1 = 0.
Proof.
  intros Hfl Hf HK Hw Hsz. split.
  { intros He. apply (emulate_read_returns (tables T s)); [done|done|]. pose proof (Z.mod_pos_bound gva PAGE_SIZE eq_refl). lia. }
  intros s1 He. pose proof (ft_idle _ _ _ _ Hf) as Hid.
  destruct (read_begun v T s gva ee fn gpa priv s1 Hfl Hf HK Hsz He)
    as (p & t & s0 & r & m & s' & i & -> & HtT & Ht & Ht1 & Hps & Hpa & Hne & Hm0 & Hr & Hru & Hm & Hin).
  destruct (emulated_cycle v T s s' i gva t p _ 0 _ _ Hf HtT Ht Hw ltac:(done) Hm Hin)
    as (H1 & H2 & H3 & H4 & H5 & Hexit).
  exists p, t, s0, r, m. split_and!; try done.
  - intros k Hk. change (hmem (start_emulation i s')) with (hmem s'). rewrite (in_mem _ _ _ _ _ _ _ _ Hin).
    unfold storen, slot. destruct (_ && _) eqn:E; [|done]. exfalso.
    pose proof (PTE32_INDEX_range gva).
    pose proof (pages_apart t p (proj1 (ta_frame _ _ _ Ht)) Hpa Hne). apply andb_true_iff in E as [?%Z.leb_le ?%Z.ltb_lt]. lia.
  - intros stray s2 Hst. apply (Hexit stray s2 s2 Hst).
    assert (write_regions (emulator (info s2)) = []) as Hws.
    { rewrite (sp_emu _ _ Hst). cbn. rewrite (in_writes _ _ _ _ _ _ _ _ Hin). apply (idle_writes _ Hid). }
    split; [by rewrite Hws| |done].
    destruct s2 as [[] ? ? ? ?]. unfold upd_emu. cbn in *. destruct emulator0. cbn in *. by rewrite Hws.
Qed.

(** C36. A write by an instruction that has read hooked memory never reaches the hook.  The
    read leaves a page that the guest may not write, and the write to it is a fault on a
    present entry, which the fault handler takes for the first write to a page of the guest:
    when the guest's own entry permits the write, nothing is added to the writes of the
    emulator.  While the guest's entry lacks the dirty bit the handler returns 0, as if the
    write had been dealt with; once it has the bit, the handler returns -1.  The host maps
    the shadow tables at their physical addresses. *)
Theorem read_modify_write_lost v T s gva ee fn gpa priv s1 guest_pt err {Hem : MemEmulator} :
  flat_tables T -> faulting v T s gva -> MemHooksOk (tables T s) -> shadow_walk s gva = None ->
  gva mod PAGE_SIZE + access_size ee s <= PAGE_SIZE ->
  v3_emulate_memory_read ee s gva fn gpa priv = Done (0, s1) ->
  can_access_pte32 (hmem s1) guest_pt gva err = PT_ACCESS_OK -> pf_write err = 1 ->
  exists t s2, table_at s1 gva t /\
    handle_shadow_pte32_fault s1 gva err (V3_VAddr t) guest_pt =
      Done (if Pte32.dirty (get_pte32 (hmem s1) guest_pt (PTE32_INDEX gva)) =? 0 then 0 else -1, s2) /\
    emulator (info s2) = emulator (info s1).
Proof.
  intros Hfl Hf HK Hw Hsz He Hga Hwr.
  destruct (read_begun v T s gva ee fn gpa priv s1 Hfl Hf HK Hsz He)
    as (p & t & s0 & r & m & s' & i & Hs1 & HtT & Ht & Ht1 & Hps & Hpa & Hne & Hm0 & Hr & Hru & Hm & Hin).
  destruct (emulated_cycle v T s s' i gva t p _ 0 _ _ Hf HtT Ht Hw ltac:(done) Hm Hin)
    as (_ & _ & H3 & H4 & _). rewrite <- Hs1 in H3, H4.
  rewrite (walk_at s1 gva t Ht1 (ft_gva _ _ _ _ Hf)) in H3.
  assert (can_access_pte32 (hmem s1) (V3_VAddr t) gva err = PT_WRITE_ERROR) as Hsa.
  { unfold can_access_pte32, get_pte32.
    change (V3_VAddr t + 4 * PTE32_INDEX gva) with (slot t (PTE32_INDEX gva)).
    change (load32 (hmem s1) (slot t (PTE32_INDEX gva))) with (entry s1 gva t). set (w := entry s1 gva t) in *.
    change (Pte32.present (decode w)) with (field w 0 1). change (Pte32.writable (decode w)) with (field w 1 1).
    rewrite !field_bit, H4, Hwr by done. destruct (Z.odd w) eqn:Ho; [|done]. rewrite odd_testbit in Ho.
    by rewrite Ho. }
  exists t. unfold handle_shadow_pte32_fault. rewrite Hga, Hsa, is_guest_pf_ok. change (0 =? 1) with false. cbv iota zeta.
  rewrite bool_decide_eq_true_2 by done. cbn [andb].
  destruct (Pte32.dirty _ =? 0); (eexists; split; [done|]; split; [reflexivity|]); [|reflexivity].
  by destruct (_ =? PT32_GUEST_PT).
Qed.

(** ** Instructions with several accesses *)

Record access := mk_access {
  ac_write : bool;
  ac_env : emu_env;
  ac_gva : Z;
  ac_fn : Z;
  ac_gpa : Z;
  ac_priv : Z;
}.

Definition do_access (a : access) (s : vm) : outcome (Z * vm) :=
  (if ac_write a then v3_emulate_memory_write else v3_emulate_memory_read)
    (ac_env a) s (ac_gva a) (ac_fn a) (ac_gpa a) (ac_priv a).

(** What the stepping depends on. *)
Definition flags (s : vm) : Z * Z * Z :=
  (get_tf s, running (emulator (info s)), tf_enabled (emulator (info s))).

(** The faults of one instruction up to the debug exception; between them the guest keeps
    its trap flag. *)
Inductive accesses : vm -> list access -> vm -> Prop :=
| acc_end s s' : flags s' = flags s -> accesses s [] s'
| acc_more s s0 a l s1 s2 :
    flags s0 = flags s -> do_access a s0 = Done (0, s1) -> accesses s1 l s2 -> accesses s (a :: l) s2.

Lemma replace_flags s va new old : flags (v3_replace_shdw_page32 s va new old).2 = flags s.
Proof. unfold v3_replace_shdw_page32. cbv zeta. by case_match. Qed.

Lemma install_flags ee gva page pte s s' : install_page ee gva page pte s = Done s' -> flags s' = flags s.
Proof.
  unfold install_page. pose proof (replace_flags s (PT32_PAGE_ADDR gva) pte (ee_saved_pte ee)) as H.
  destruct (v3_replace_shdw_page32 _ _ _ _) as [[? ?] s0]. cbn in H.
  destruct (_ =? 1); [destruct (ee_saved_ok ee); [|done]|]; intros [= <-]; exact H.
Qed.

Lemma start_flags i s : flags (start_emulation i s) = (1, 1, get_tf s).
Proof. unfold flags. f_equal. f_equal. by apply tf_set. Qed.

Context {HK : MemHooksOk ∅}.

Lemma access_flags a s s1 :
  do_access a s = Done (0, s1) ->
  flags s1 = if ac_write a && negb (running (emulator (info s)) =? 0) then flags s else (1, 1, get_tf s).
Proof.
  unfold do_access. destruct (ac_write a); cbn [andb].
  - unfold v3_emulate_memory_write. cbv zeta. intros ([ret instr] & _ & H)%outcome_bind_inv.
    destruct (decode_instr _ instr s) as [[r i] sd] eqn:Hd. apply decode_instr_frame in Hd.
    destruct (r =? -1); [done|].
    apply outcome_bind_inv in H as ([page sp] & (p & _ & _ & _ & Hsp)%get_new_page_inv & H).
    destruct (ee_page_ok _), (ee_op_ok _); try done.
    apply outcome_bind_inv in H as (s' & Hin%install_flags & H).
    assert (flags s' = flags s) as Hfl by (rewrite Hin, Hsp, Hd; done).
    assert (running (emulator (info s')) = running (emulator (info s)) /\ get_tf s' = get_tf s) as [Hr Hg]
      by (unfold flags in Hfl; by injection Hfl).
    rewrite Hr in H. destruct (running _ =? 0); injection H as <-; [|done]. by rewrite start_flags, Hg.
  - unfold v3_emulate_memory_read. cbv zeta. intros ([ret instr] & _ & H)%outcome_bind_inv.
    destruct (ret =? -1); [done|].
    destruct (decode_instr _ instr s) as [[r i] sd] eqn:Hd. apply decode_instr_frame in Hd.
    destruct (r =? -1); [done|].
    apply outcome_bind_inv in H as ([page sp] & (p & _ & _ & _ & Hsp)%get_new_page_inv & H).
    destruct (ee_page_ok _); [|done]. apply outcome_bind_inv in H as ([r' sh] & Hr & H).
    match type of Hr with hook_read_fn ?f ?a ?d ?n ?p ?s = _ =>
      destruct (hook_read_ok (K := ∅) f a d n p s) as (r2 & m & Hr2 & _) end.
    rewrite Hr2 in Hr. injection Hr as <- <-. destruct (_ || _); [done|].
    apply outcome_bind_inv in H as (s' & Hin%install_flags & [= <-]).
    assert (flags s' = flags s) as Hfl by (rewrite Hin, Hsp, Hd; done).
    injection Hfl as Hg _ _. by rewrite start_flags, Hg.
Qed.

Lemma complete_flags l : forall s sw, complete_writes l s = Done sw -> flags sw = flags s.
Proof.
  induction l as [|w l IH]; intros s sw; cbn [complete_writes]; [intros [= <-]; reflexivity|].
  destruct (hook_write_ok (K := ∅) (wr_write w) (write_addr w) (write_data w) (wr_length w) (private_data w) s)
    as (r & m & -> & _). rewrite outcome_bind_done. intros H%IH. exact H.
Qed.

Lemma wipe_flags l : forall s, flags (wipe_pages l s) = flags s.
Proof.
  induction l as [|e l IH]; intros s; cbn; [done|]. pose proof (replace_flags s (em_va e) 0 0) as H.
  destruct (v3_replace_shdw_page32 _ _ _ _) as [[? ?] s0]. by rewrite IH.
Qed.

Lemma restore_flags stray l : forall s, flags (restore_pages stray l s) = flags s.
Proof.
  induction l as [|e l IH]; intros s; cbn; [done|]. pose proof (replace_flags s stray (sv_pte e) 0) as H.
  destruct (v3_replace_shdw_page32 _ _ _ _) as [[? ?] s0]. by rewrite IH.
Qed.

Lemma exit_flags stray s s3 :
  v3_emulation_exit_handler stray s = Done (0, s3) -> is_u 1 (tf_enabled (emulator (info s))) ->
  get_tf s3 = tf_enabled (emulator (info s)).
Proof.
  unfold v3_emulation_exit_handler. intros (sw & Hw%complete_flags & [= <-])%outcome_bind_inv Ht.
  unfold unset_stepping. set (e := tf_enabled _).
  assert (e = tf_enabled (emulator (info s))) as ->; [|by apply tf_set]. subst e. cbv zeta.
  match goal with |- context [restore_pages ?a ?b ?c] => pose proof (restore_flags a b c) as H1 end.
  match goal with |- context [wipe_pages ?a ?b] => pose proof (wipe_flags a b) as H2 end.
  unfold flags in H1, H2, Hw. cbn in *. congruence.
Qed.

Lemma accesses_flags l s s2 :
  accesses s l s2 -> running (emulator (info s)) = 1 -> get_tf s = 1 ->
  flags s2 = (1, 1, if existsb (fun a => negb (ac_write a)) l then 1 else tf_enabled (emulator (info s))).
Proof.
  induction 1 as [s s' Hf|s s0 a l s1 s2 Hf Ha _ IH]; intros Hr Hg; unfold flags in *.
  - rewrite Hf. cbn. by rewrite Hr, Hg.
  - apply access_flags in Ha. unfold flags in Ha. injection Hf as H1 H2 H3. rewrite H1, H2, H3, Hr, Hg in Ha. cbn in Ha.
    cbn [existsb]. destruct (ac_write a); injection Ha as G1 G2 G3; rewrite IH, G3 by congruence; [done|].
    cbn. by destruct (existsb _ _).
Qed.

(** The trap flag after an instruction that accesses hooked memory.  The emulator saves the
    guest's flag when it begins to step.  It does so again at every read, and the flag it then
    finds is its own: when the debug exception ends the emulation of an instruction that
    faulted on hooked memory several times, the guest has its trap flag back exactly when none
    of the accesses after the first was a read, and otherwise runs on with the flag set. *)
Theorem trap_flag_after s a l s2 stray s3 :
  running (emulator (info s)) = 0 -> accesses s (a :: l) s2 ->
  v3_emulation_exit_handler stray s2 = Done (0, s3) ->
  get_tf s3 = if existsb (fun a => negb (ac_write a)) l then 1 else get_tf s.
Proof.
  intros Hr Ha He. inversion Ha as [|? s0 ? ? s1 ? Hf H1 H2]; subst.
  apply access_flags in H1. unfold flags in H1, Hf. injection Hf as F1 F2 F3. rewrite F2, Hr in H1. cbn in H1.
  rewrite andb_false_r, F1 in H1. injection H1 as G1 G2 G3.
  apply accesses_flags in H2; [|done|done]. unfold flags in H2. injection H2 as _ _ H2. rewrite G3 in H2.
  rewrite (exit_flags stray s2 s3 He); rewrite H2; [done|]. destruct (existsb _ _); [done|]. by apply field_range.
Qed.

End cycle.

(** ** Witnesses

    The guest of GuestMem.v on a host that maps its memory at the physical addresses, with
    an empty shadow page table at 0x72000, and a device with one register, which the VMM
    keeps at 0x9000. *)

Abbreviation flat_host := (direct_map 0).

Definition emu_vm : vm :=
  mk_vm (demo_guest <| mem_mode := PHYSICAL_MEM |> <| cpu_mode := PROTECTED |>
           <| shdw_pg_state := mk_shadow_page_state 0 0x80000001 0x70000 None None 0 |>)
    (store32 (store32 (fun _ => 0) 0x70000 0x72007) 0x9000 0x11223344)
    (mk_page_pool [0x71000] []) demo_decoder demo_vmcb.

Definition emu_xed : Xed.XedLib := fun _ _ => Some Xed.sample_inst.

Definition emu_hooks : MemHooks := {|
  hook_read_fn _ _ dst n _ s := Done (n, s <| hmem := copy_to (hmem s) dst (copy_from (hmem s) 0x9000 n) |>);
  hook_write_fn _ _ src n _ s := Done (n, s <| hmem := copy_to (hmem s) 0x9000 (copy_from (hmem s) src 4) |>);
|}.

Definition demo_env : emu_env := mk_emu_env (replicate 15 0) (Xed.mk_basic_instr_info 0 0 0 0) 0 0 true true true.

Lemma emu_slot q j : q ∈ ({[0x70000]} ∪ {[0x72000]} : gset Z) -> 0 <= j < 1024 ->
  load32 (hmem emu_vm) (slot (Hos := flat_host) q j) = if (q =? 0x70000) && (j =? 0) then 0x72007 else 0.
Proof.
  intros Hq Hj. unfold slot, V3_VAddr. cbn [paddr_to_vaddr direct_map hmem emu_vm].
  assert (q = 0x70000 \/ q = 0x72000) as [-> | ->] by set_solver.
  - rewrite loadn_storen_ne by lia. destruct (Z.eqb_spec j 0) as [->|Hne]; [by vm_compute|].
    rewrite loadn_storen_ne by lia. done.
  - rewrite !loadn_storen_ne by lia. done.
Qed.

Lemma emu_flat : flat_tables (Hos := flat_host) {[0x72000]}.
Proof. intros t _. unfold V3_VAddr. cbn. lia. Qed.

Lemma emu_faulting : faulting (A := V3_32BIT) (Hos := flat_host) [] {[0x72000]} emu_vm 0x1010.
Proof.
  split; [|done|by vm_compute|by split].
  change (pd_of emu_vm) with 0x70000. split.
  - intros p Hp. assert (p = 0x70000 \/ p = 0x72000) as [-> | ->] by set_solver; by split_and!.
  - set_solver.
  - by intros p [_ (r & a & Hr%elem_of_nil & _)].
  - intros i Hi _. rewrite emu_slot by set_solver. destruct (Z.eqb_spec i 0) as [->|Hne]; [|by intros []].
    intros _. split; [done|]. by apply elem_of_singleton.
  - intros p i Hp Hi _. rewrite emu_slot by set_solver. assert (p = 0x72000) as -> by set_solver. by intros [].
  - apply NoDup_singleton.
  - intros p ->%list_elem_of_singleton. split_and!; [done|by split_and!|set_solver|].
    by intros [_ (r & a & Hr%elem_of_nil & _)].
Qed.

Lemma emu_tables q : q ∈ tables {[0x72000]} emu_vm -> q = 0x70000 \/ q = 0x72000.
Proof. unfold tables. change (pd_of emu_vm) with 0x70000. set_solver. Qed.

Lemma emu_hooks_ok : MemHooksOk (Hos := flat_host) (Hh := emu_hooks) (tables {[0x72000]} emu_vm).
Proof.
  split.
  - intros fn a dst n p s. eexists _, _. split; [reflexivity|]. intros q i Hq Hi Hd. apply loadn_ext. intros j Hj.
    unfold copy_to, copy_from. rewrite length_fmap, length_seqZ. destruct (_ && _) eqn:E; [|done].
    apply andb_true_iff in E as [?%Z.leb_le ?%Z.ltb_lt]. lia.
  - intros fn a src n p s. eexists _, _. split; [reflexivity|]. intros q i Hq Hi. apply loadn_ext. intros j Hj.
    apply emu_tables in Hq.
    unfold copy_to, slot, V3_VAddr. cbn [paddr_to_vaddr direct_map].
    change (Z.of_nat (length (copy_from (hmem s) src 4))) with 4.
    destruct (_ && _) eqn:E; [|done].
    apply andb_true_iff in E as [?%Z.leb_le ?%Z.ltb_lt]. lia.
Qed.

Abbreviation emu_write := (v3_emulate_memory_write (A := V3_32BIT) (Hos := flat_host) (Hx := emu_xed)).
Abbreviation emu_read := (v3_emulate_memory_read (A := V3_32BIT) (Hos := flat_host) (Hx := emu_xed) (Hh := emu_hooks)).
Abbreviation emu_exit := (v3_emulation_exit_handler (A := V3_32BIT) (Hos := flat_host) (Hh := emu_hooks)).

(** A run that succeeds with a state that [P] holds of. *)
Lemma run_check (o : outcome (Z * vm)) (P : vm -> bool) :
  match o with Done (r, s) => (r =? 0) && P s | _ => false end = true -> exists s, o = Done (0, s) /\ P s = true.
Proof. destruct o as [[r s]| |]; try done. intros [->%Z.eqb_eq H]%andb_true_iff. by exists s. Qed.

Lemma emu_emulable : emulable (A := V3_32BIT) (Hos := flat_host) (Hx := emu_xed) demo_env emu_vm.
Proof.
  split; [|by eexists _, _|done].
  destruct (read_instr _ _) as [[ret instr]| |] eqn:E; vm_compute in E; [|discriminate..].
  injection E as <- <-. eexists _, _. split; [reflexivity|]. split; [done|]. by vm_compute.
Qed.

(** The guest stores 0xcafe at 0x1010. *)
Lemma emulated_write_reaches_hook_witness : exists s1 m s3,
  let s2 := s1 <| hmem := store32 (hmem s1) 0x71010 0xcafe |> in
  emu_write demo_env emu_vm 0x1010 1 0xa0010 2 = Done (0, s1) /\
  shadow_walk (Hos := flat_host) s1 0x1010 = Some 0x71010 /\
  hook_write_fn (MemHooks := emu_hooks) 1 0xa0010 0x71010 4 2 s2 = Done (4, s2 <| hmem := m |>) /\
  load32 m 0x9000 = 0xcafe /\
  emu_exit 0 s2 = Done (0, s3) /\ shadow_walk (Hos := flat_host) s3 0x1010 = None.
Proof.
  destruct (emulated_write_reaches_hook (A := V3_32BIT) (Hos := flat_host) (Hx := emu_xed) (Hh := emu_hooks)
    (Hok := direct_map_ok 0) [] {[0x72000]} emu_vm 0x1010 demo_env 1 0xa0010 2 emu_flat emu_faulting emu_hooks_ok
    ltac:(by vm_compute)) as [Hret Hall].
  destruct (Hret emu_emulable) as (s1 & H1). destruct (Hall s1 H1) as (p & t & Hp & _ & Hw & Ht & _ & _ & Hex).
  assert (p = 0x71000) as -> by (cbn in Hp; congruence).
  destruct (Hex 0 (s1 <| hmem := store32 (hmem s1) 0x71010 0xcafe |>)) as (r & m & s3 & Hm & He & _ & Hwk & _).
  - split; [done|done|done|]. intros q i Hq Hi. cbn [hmem]. apply loadn_storen_ne.
    apply emu_tables in Hq.
    unfold slot, V3_VAddr. cbn [paddr_to_vaddr direct_map]. lia.
  - exists s1, m, s3. change (access_size demo_env emu_vm) with 4 in Hm. injection Hm as <- <-.
    split_and!; [exact H1|exact Hw|reflexivity|vm_compute; reflexivity|exact He|].
    etransitivity; [apply Hwk; unfold is_u; lia|vm_compute; reflexivity].
Defined.

(** The guest loads the register. *)
Lemma emulated_read_sees_hook_witness : exists s1,
  emu_read demo_env emu_vm 0x1010 1 0xa0010 2 = Done (0, s1) /\
  shadow_walk (Hos := flat_host) s1 0x1010 = Some 0x71010 /\ load32 (hmem s1) 0x71010 = 0x11223344.
Proof.
  destruct (run_check (emu_read demo_env emu_vm 0x1010 1 0xa0010 2)
    (fun s => load32 (hmem s) 0x71010 =? 0x11223344)) as (s1 & H1 & H2%Z.eqb_eq); [by vm_compute|].
  destruct (emulated_read_sees_hook (A := V3_32BIT) (Hos := flat_host) (Hx := emu_xed) (Hh := emu_hooks)
    (Hok := direct_map_ok 0) [] {[0x72000]} emu_vm 0x1010 demo_env 1 0xa0010 2 emu_flat emu_faulting emu_hooks_ok
    ltac:(by vm_compute) ltac:(by vm_compute)) as [Hret Hall].
  destruct (Hret emu_emulable) as (s1' & H1'); [intros dst s0 r s' [= <- _]; by vm_compute|].
  assert (s1' = s1) as -> by congruence.
  destruct (Hall s1 H1) as (p & t & s0 & r & m & Hp & _ & _ & _ & _ & _ & Hw & _).
  assert (p = 0x71000) as -> by (cbn in Hp; congruence).
  exists s1. split_and!; [exact H1|exact Hw|exact H2].
Defined.

(** The guest's own entry, at 0x52010 for the address, permits the write and is dirty. *)
Lemma read_modify_write_lost_witness : exists s1 t s2,
  emu_read demo_env (emu_vm <| hmem := store32 (hmem emu_vm) 0x52004 0x67 |>) 0x1010 1 0xa0010 2 = Done (0, s1) /\
  handle_shadow_pte32_fault (A := V3_32BIT) (Hem := demo_emulate) s1 0x1010 demo_fault
    (V3_VAddr (H := flat_host) t) 0x52000 = Done (-1, s2) /\
  write_regions (emulator (info s2)) = [].
Proof.
  set (s := emu_vm <| hmem := _ |>).
  assert (faulting (A := V3_32BIT) (Hos := flat_host) [] {[0x72000]} s 0x1010) as Hf.
  { destruct emu_faulting as [[F1 F2 F3 F4 F5 F6 F7] G3 G4 G5]. split; [|done|done|by destruct G5].
    split; [done|done|done| | |done|done].
    - intros i Hi Hn. change (hmem s) with (store32 (hmem emu_vm) 0x52004 0x67). rewrite loadn_storen_ne; [by apply F4|].
      change (slot (pd_of s) i) with (0x70000 + 0 + 4 * i). lia.
    - intros q i Hq Hi Hn. change (hmem s) with (store32 (hmem emu_vm) 0x52004 0x67). rewrite loadn_storen_ne; [by apply F5|].
      apply elem_of_singleton in Hq as ->. change (slot 0x72000 i) with (0x72000 + 0 + 4 * i). lia. }
  destruct (run_check (emu_read demo_env s 0x1010 1 0xa0010 2) (fun s1 =>
    bool_decide (can_access_pte32 (hmem s1) 0x52000 0x1010 demo_fault = PT_ACCESS_OK) &&
    (Pte32.dirty (get_pte32 (hmem s1) 0x52000 (PTE32_INDEX 0x1010)) =? 1) &&
    (length (write_regions (emulator (info s1))) =? 0)%nat))
    as (s1 & H1 & [[H2%bool_decide_eq_true H3%Z.eqb_eq]%andb_true_iff H4%Nat.eqb_eq%nil_length_inv]%andb_true_iff);
    [by vm_compute|].
  destruct (read_modify_write_lost (A := V3_32BIT) (Hos := flat_host) (Hx := emu_xed) (Hh := emu_hooks)
    (Hok := direct_map_ok 0) [] {[0x72000]} s 0x1010 demo_env 1 0xa0010 2 s1 0x52000 demo_fault
    (Hem := demo_emulate) emu_flat Hf emu_hooks_ok ltac:(vm_compute; reflexivity) ltac:(vm_compute; discriminate) H1 H2 eq_refl)
    as (t & s2 & _ & Hr & He).
  exists s1, t, s2. rewrite H3 in Hr. split_and!; [exact H1|exact Hr|]. rewrite He. exact H4.
Defined.

Lemma no_tables_hooks : MemHooksOk (Hos := flat_host) (Hh := emu_hooks) ∅.
Proof. split; intros; (eexists _, _; split; [reflexivity|]; set_solver). Qed.

(** A read from one page and a read from the next, without the trap flag. *)
Lemma trap_flag_after_witness : exists s1 s2 s3,
  let s := emu_vm <| pool := mk_page_pool [0x71000; 0x73000] [] |> in
  get_tf s = 0 /\ emu_read demo_env s 0x1010 1 0xa0010 2 = Done (0, s1) /\
  emu_read demo_env s1 0x2010 1 0xa1010 2 = Done (0, s2) /\ emu_exit 0 s2 = Done (0, s3) /\ get_tf s3 = 1.
Proof.
  set (s := emu_vm <| pool := _ |>).
  destruct (run_check (emu_read demo_env s 0x1010 1 0xa0010 2) (fun s1 =>
    match emu_read demo_env s1 0x2010 1 0xa1010 2 with
    | Done (r, s2) => (r =? 0) && match emu_exit 0 s2 with Done (r, _) => (r =? 0) && true | _ => false end
    | _ => false end)) as (s1 & H1 & (s2 & H2 & (s3 & H3 & _)%run_check)%run_check); [by vm_compute|].
  exists s1, s2, s3. split_and!; [done|exact H1|exact H2|exact H3|].
  apply (trap_flag_after (A := V3_32BIT) (Hos := flat_host) (Hx := emu_xed) (Hh := emu_hooks) (HK := no_tables_hooks)
    s (mk_access false demo_env 0x1010 1 0xa0010 2) [mk_access false demo_env 0x2010 1 0xa1010 2] s2 0 s3);
    [done| |exact H3].
  eapply (acc_more s s); [done|exact H1|]. eapply (acc_more s1 s1); [done|exact H2|]. by apply acc_end.
Defined.

End Emulator.
