(* ===== verification/SvmExit.v ===== *)
(** Exits of the guest: svm_handler.c, svm_halt.c, svm_pause.c and svm_wbinvd.c.

    When the guest leaves its mode the VMM copies its registers from the VMCB, calls the
    handler for the exit code, injects a pending exception or interrupt, and copies the
    registers back.  [machine] puts the states of the components together, and
    [v3_handle_svm_exit] is the composition of their handlers.  The theorems show that the
    composition keeps the guest in its memory, exit after exit, that an exit which needs no
    action is invisible to the guest, and what HLT and WBINVD do. *)
From stdpp Require Import base tactics numbers list gmap.
From S2P Require Import Prelude Chain Host MemMap IoMap Paging Intr Pic Hashtable GuestInfo GuestMem Decoder.
From S2P Require Import Xed Vmcb ShadowPaging Invlpg CtrlRegs Isolation SvmIo Emulator.

Module SvmExit.
Import Intr GuestInfo Vmcb ShadowPaging.

(** The exit codes that the switch names. *)
Definition VMEXIT_CR0_READ : Z := 0x00000000.
Definition VMEXIT_CR3_READ : Z := 0x00000003.
Definition VMEXIT_CR0_WRITE : Z := 0x00000010.
Definition VMEXIT_CR3_WRITE : Z := 0x00000013.
Definition VMEXIT_EXCP1 : Z := 0x00000041.
Definition VMEXIT_EXCP14 : Z := 0x0000004e.
Definition VMEXIT_INTR : Z := 0x00000060.
Definition VMEXIT_SMI : Z := 0x00000062.
Definition VMEXIT_PAUSE : Z := 0x00000077.
Definition VMEXIT_HLT : Z := 0x00000078.
Definition VMEXIT_INVLPG : Z := 0x00000079.
Definition VMEXIT_IOIO : Z := 0x0000007b.
Definition VMEXIT_VMMCALL : Z := 0x00000081.
Definition VMEXIT_WBINVD : Z := 0x00000089.
Definition VMEXIT_NPF : Z := 0x00000400.

(** [struct guest_info] with all of its components: the guest and the host, the interrupt
    controller of [intr_state] and its hooks, the I/O map, and the devices. *)
Record machine (C D : Type) := mk_machine {
  m_vm : vm;
  m_controller : option C;
  m_irq_hooks : list (option v3_irq_hook);
  m_io_map : IoMap.vmm_io_map;
  m_dev : D;
}.
#[global] Arguments mk_machine {C D}.
#[global] Arguments m_vm {C D}.
#[global] Arguments m_controller {C D}.
#[global] Arguments m_irq_hooks {C D}.
#[global] Arguments m_io_map {C D}.
#[global] Arguments m_dev {C D}.

#[export] Instance eta_machine {C D} : Eta (machine C D) := fun m =>
  mk_machine (m_vm m) (m_controller m) (m_irq_hooks m) (m_io_map m) (m_dev m).

(** What the handlers find in memory that they do not initialise, the results of V3_Malloc,
    and the number of instruction prefixes they scan at most. *)
Record exit_env := mk_exit_env {
  xe_instr : list Z;
  xe_dec : Xed.x86_instr;
  xe_ok : bool * bool;
  xe_ok_pd : bool * bool * bool;
  xe_ok_pt : Z -> bool * bool * bool;
  xe_fuel : nat;
  xe_emu : Emulator.emu_env;
  xe_stray : Z;
}.

(** ** Registers *)

Definition update_modes (info : guest_info) : guest_info :=
  let info := info <| cpu_mode := v3_get_cpu_mode info |> in
  info <| mem_mode := v3_get_mem_mode info |>.

Definition load_regs (info : guest_info) (v : vmcb_t) : guest_info :=
  let g := save_area v in
  let info := info <| rip := sv_rip g |> in
  let info := info <| vm_regs := (vm_regs info) <| rsp := sv_rsp g |> <| rax := sv_rax g |> |> in
  let info := info <| cpl := sv_cpl g |> in
  let info := info <| ctrl_regs := mk_v3_ctrl_regs (sv_cr0 g) (sv_cr2 g) (sv_cr3 g) (sv_cr4 g)
                                     (V_TPR (ctrl_area v)) (sv_rflags g) (sv_efer g) |> in
  let info := info <| dbg_regs := (dbg_regs info) <| dr6 := sv_dr6 g |> <| dr7 := sv_dr7 g |> |> in
  let info := info <| segments := get_vmcb_segments g |> in
  update_modes info.

Definition store_regs (info : guest_info) (v : vmcb_t) : vmcb_t :=
  let c := ctrl_regs info in
  let g := save_area v in
  let g := g <| sv_cr0 := cr0 c |> <| sv_cr2 := cr2 c |> <| sv_cr3 := cr3 c |> <| sv_cr4 := cr4 c |>
             <| sv_dr6 := dr6 (dbg_regs info) |> <| sv_dr7 := dr7 (dbg_regs info) |> in
  let g := g <| sv_rflags := rflags c |> <| sv_efer := efer c |> <| sv_cpl := u8 (cpl info) |>
             <| sv_rax := rax (vm_regs info) |> <| sv_rip := rip info |>
             <| sv_rsp := rsp (vm_regs info) |> in
  v <| ctrl_area := (ctrl_area v) <| V_TPR := Z.land (cr8 c) 0xff |> |>
    <| save_area := set_vmcb_segments g (segments info) |>.

(** The error code of a page fault, a [struct pf_error_code] in EXITINFO1. *)
Definition pf_error_of (w : Z) : ShadowMap.pf_error :=
  ShadowMap.mk_pf_error (field w 0 1) (field w 1 1) (field w 2 1) (field w 3 1) (field w 4 1) (field w 5 27).

Section exits.
Context {A : Arch} {Hos : OsHooks} {Hx : Xed.XedLib} {Hh : Emulator.MemHooks}.
Context {C D : Type} {Hc : IntrCtrl C} {Hd : SvmIo.IoDevices D}.
Implicit Types m : machine C D.

Definition intr_of m : v3_intr_state C :=
  mk_v3_intr_state (intr_excp (info (m_vm m))) (m_controller m) (m_irq_hooks m).

Definition set_intr m (st : v3_intr_state C) : machine C D :=
  m <| m_vm := set_excp (m_vm m) (fun _ => excp st) |> <| m_controller := controller st |>
    <| m_irq_hooks := irq_hooks st |>.

Definition upd_rip (s : vm) (f : Z -> Z) : vm := s <| info := (info s) <| rip := f (rip (info s)) |> |>.

Definition raise_gpf (s : vm) : vm := set_excp s (fun e => snd (v3_raise_exception e GPF_EXCEPTION)).

(** V3_Yield and the time stamp counter do not touch the guest. *)
Definition v3_handle_svm_halt m : outcome (Z * machine C D) :=
  if negb (cpl (info (m_vm m)) =? 0) then Done (0, m <| m_vm := raise_gpf (m_vm m) |>)
  else
    '(_, st) ← v3_raise_irq (intr_of m) 0;
    let m := set_intr m st in
    Done (0, m <| m_vm := upd_rip (m_vm m) (fun r => u64 (r + 1)) |>).

Definition v3_handle_svm_pause (s : vm) : Z * vm := (0, upd_rip s (fun r => u64 (r + 2))).

Definition v3_handle_svm_wbinvd (s : vm) : Z * vm :=
  if negb (cpl (info s) =? 0) then (0, raise_gpf s) else (0, upd_rip s (fun r => u64 (r + 2))).

(** ** The switch *)

(** A handler of the guest alone. *)
Definition on_vm m (o : outcome (Z * vm)) : outcome (Z * machine C D) :=
  '(r, s) ← o; Done (if r =? -1 then -1 else 0, m <| m_vm := s |>).

(** A handler that decodes an instruction. *)
Definition on_decoder m (o : outcome (Z * Xed.xed_state * vm)) : outcome (Z * machine C D) :=
  '(r, st, s) ← o; Done (if r =? -1 then -1 else 0, m <| m_vm := s <| decoder := st |> |>).

Definition on_io m (o : outcome (Z * vm * D)) : outcome (Z * machine C D) :=
  '(r, s, d) ← o; Done (if r =? -1 then -1 else 0, m <| m_vm := s |> <| m_dev := d |>).

Definition handle_ioio (xe : exit_env) m : outcome (Z * machine C D) :=
  let s := m_vm m in
  let c := ctrl_area (vmcb s) in
  let io_info := SvmIo.io_info (exit_info1 c) in
  if SvmIo.io_type io_info =? 0 then
    if negb (SvmIo.str io_info =? 0) then
      on_io m (SvmIo.v3_handle_svm_io_outs (xe_fuel xe) (exit_info1 c) (exit_info2 c)
                 (rflags (ctrl_regs (info s))) (m_io_map m) s (m_dev m))
    else on_io m (SvmIo.v3_handle_svm_io_out (exit_info1 c) (exit_info2 c) (m_io_map m) s (m_dev m))
  else
    if negb (SvmIo.str io_info =? 0) then
      on_io m (SvmIo.v3_handle_svm_io_ins (xe_fuel xe) (exit_info1 c) (exit_info2 c)
                 (rflags (ctrl_regs (info s))) (m_io_map m) s (m_dev m))
    else on_io m (SvmIo.v3_handle_svm_io_in (exit_info1 c) (exit_info2 c) (m_io_map m) s (m_dev m)).

(** An exit that is not handled: when the instruction pointer can be translated, 32 bytes of
    an array of 15 are cleared. *)
Definition unhandled_exit m : outcome (Z * machine C D) :=
  let s := m_vm m in
  let rip := sv_rip (save_area (vmcb s)) in
  '(r, _) ← (match mem_mode (info s) with
             | PHYSICAL_MEM => GuestMem.guest_pa_to_host_va (info s) (ulong rip)
             | VIRTUAL_MEM => GuestMem.guest_va_to_host_va (info s) (hmem s) (ulong rip)
             end);
  if r =? -1 then Done (-1, m) else Undef.

Definition end_emulation (xe : exit_env) m : outcome (Z * machine C D) :=
  match run_state (info (m_vm m)) with
  | VM_EMULATING => on_vm m (Emulator.v3_emulation_exit_handler (xe_stray xe) (m_vm m))
  | _ => Done (-1, m)
  end.

Definition handle_exit_code (xe : exit_env) (exit_code : Z) m : outcome (Z * machine C D) :=
  let s := m_vm m in
  let c := ctrl_area (vmcb s) in
  if exit_code =? VMEXIT_IOIO then handle_ioio xe m
  else if exit_code =? VMEXIT_CR0_WRITE then
    on_decoder m (CtrlRegs.v3_handle_cr0_write (xe_instr xe) (xe_dec xe) (decoder s) s)
  else if exit_code =? VMEXIT_CR0_READ then
    on_decoder m (CtrlRegs.v3_handle_cr0_read (xe_instr xe) (xe_dec xe) (decoder s) s)
  else if exit_code =? VMEXIT_CR3_WRITE then
    on_decoder m (CtrlRegs.v3_handle_cr3_write (xe_instr xe) (xe_dec xe) (xe_ok xe) (xe_ok_pd xe)
                    (xe_ok_pt xe) (decoder s) s)
  else if exit_code =? VMEXIT_CR3_READ then
    on_decoder m (CtrlRegs.v3_handle_cr3_read (xe_instr xe) (xe_dec xe) (decoder s) s)
  else if exit_code =? VMEXIT_EXCP14 then
    match shdw_pg_mode (info s) with
    | SHADOW_PAGING =>
        on_vm m (v3_handle_shadow_pagefault (Hem := Emulator.emulator_for (xe_emu xe)) s
                   (ulong (exit_info2 c)) (pf_error_of (u32 (exit_info1 c))))
    | NESTED_PAGING => Done (-1, m)
    end
  else if exit_code =? VMEXIT_NPF then Done (-1, m)
  else if exit_code =? VMEXIT_INVLPG then
    match shdw_pg_mode (info s) with
    | SHADOW_PAGING => on_vm m (Invlpg.v3_handle_shadow_invlpg s)
    | NESTED_PAGING => Done (0, m)
    end
  else if exit_code =? VMEXIT_INTR then Done (0, m)
  else if exit_code =? VMEXIT_SMI then Done (0, m)
  else if exit_code =? VMEXIT_HLT then
    '(r, m) ← v3_handle_svm_halt m; Done (if r =? -1 then -1 else 0, m)
  else if exit_code =? VMEXIT_PAUSE then on_vm m (Done (v3_handle_svm_pause s))
  else if exit_code =? VMEXIT_EXCP1 then end_emulation xe m
  else if exit_code =? VMEXIT_VMMCALL then end_emulation xe m
  else if exit_code =? VMEXIT_WBINVD then
    let '(r, s) := v3_handle_svm_wbinvd s in
    Done (if r =? 0 then -1 else 0, m <| m_vm := s |>)
  else unhandled_exit m.

(** The injection works on the members of the VMCB that it writes. *)
Definition inject_event m : outcome (Z * machine C D) :=
  let v := vmcb (m_vm m) in
  '(r, st, g) ← svm_inject_intr (intr_of m) (inject (ctrl_area v));
  let m := set_intr m st in
  Done (r, m <| m_vm := (m_vm m) <| vmcb := v <| ctrl_area := (ctrl_area v) <| inject := g |> |> |> |>).

Definition v3_handle_svm_exit (xe : exit_env) m : outcome (Z * machine C D) :=
  let s := m_vm m in
  let m := m <| m_vm := s <| info := load_regs (info s) (vmcb s) |> |> in
  let exit_code := ulong (exit_code (ctrl_area (vmcb s))) in
  '(r, m) ← handle_exit_code xe exit_code m;
  if r =? -1 then Done (-1, m) else
  '(r, m) ← inject_event m;
  if r =? -1 then Done (-1, m) else
  Done (0, m <| m_vm := (m_vm m) <| vmcb := store_regs (info (m_vm m)) (vmcb (m_vm m)) |> |>).

(** ** The guest stays in its memory *)

Context {Hok : OsHooksOk} {Hxok : Xed.XedLibOk} {Hpn : Isolation.PageNumbers} {M : ShadowMap.shadow_map}.
Context {Hdok : SvmIo.IoDevicesOk D}.
Implicit Types (l : list Z) (T Dt : gset Z).

(** The components that [safe] does not look at. *)
Lemma safe_frame l T Dt s s' :
  Isolation.safe M l T Dt s -> Isolation.kept_tables (info s) (info s') -> hmem s' = hmem s -> pool s' = pool s ->
  shdw_pg_mode (info s') = shdw_pg_mode (info s) ->
  cr0 (ctrl_regs (info s')) = cr0 (ctrl_regs (info s)) -> cr3 (ctrl_regs (info s')) = cr3 (ctrl_regs (info s)) ->
  guest_cr0 (shdw_pg_state (info s')) = guest_cr0 (shdw_pg_state (info s)) ->
  shadow_cr3 (shdw_pg_state (info s')) = shadow_cr3 (shdw_pg_state (info s)) -> Isolation.safe M l T Dt s'.
Proof.
  intros [H1 H2] Hk Hm Hp E1 E2 E3 E4 E5. split.
  - apply (Isolation.confined_info l T Dt s); [done|done|done|by rewrite Hp].
  - apply (CtrlRegs.synced_same (info s)); try done. apply (Isolation.kt_direct _ _ Hk).
Qed.

(** Changes of other registers, of exceptions, of the decoder and of the VMCB. *)
Definition same_tables (i i' : guest_info) : Prop :=
  Isolation.kept_tables i i' /\ shdw_pg_mode i' = shdw_pg_mode i /\
  cr0 (ctrl_regs i') = cr0 (ctrl_regs i) /\ cr3 (ctrl_regs i') = cr3 (ctrl_regs i) /\
  guest_cr0 (shdw_pg_state i') = guest_cr0 (shdw_pg_state i) /\
  shadow_cr3 (shdw_pg_state i') = shadow_cr3 (shdw_pg_state i).

Lemma safe_same l T Dt s s' :
  Isolation.safe M l T Dt s -> same_tables (info s) (info s') -> hmem s' = hmem s -> pool s' = pool s ->
  Isolation.safe M l T Dt s'.
Proof. intros Hs (? & ? & ? & ? & ? & ?) Hm Hp. by apply (safe_frame l T Dt s). Qed.

Lemma same_tables_refl i : same_tables i i.
Proof. by repeat split. Qed.

(** The state with the registers of the VMCB, on which the handlers work. *)
Definition load_vm (s : vm) : vm := s <| info := load_regs (info s) (vmcb s) |>.

Lemma exit_modes_update s i :
  CtrlRegs.exit_modes (s <| info := update_modes i |>) = s <| info := update_modes i |>.
Proof. by destruct s, i. Qed.

Lemma load_modes s :
  let s' := s <| info := load_regs (info s) (vmcb s) |> in CtrlRegs.exit_modes s' = s'.
Proof. unfold load_regs. apply exit_modes_update. Qed.

(** The I/O handlers change registers, and INS writes elements to the memory of the guest. *)
Lemma io_out_same e1 e2 io s d r s' d' :
  SvmIo.v3_handle_svm_io_out e1 e2 io s d = Done (r, s', d') ->
  same_tables (info s) (info s') /\ hmem s' = hmem s /\ pool s' = pool s.
Proof.
  unfold SvmIo.v3_handle_svm_io_out. intros (hook & _ & H)%outcome_bind_inv.
  destruct (hook =? NULL); [injection H as <- <- <-; split; [apply same_tables_refl|done]|].
  apply outcome_bind_inv in H as (h & _ & ([r' d1] & _ & H)%outcome_bind_inv).
  destruct (negb _); injection H as <- <- <-; (split; [|done]); [apply same_tables_refl|by repeat split].
Qed.

Lemma io_in_same e1 e2 io s d r s' d' :
  SvmIo.v3_handle_svm_io_in e1 e2 io s d = Done (r, s', d') ->
  same_tables (info s) (info s') /\ hmem s' = hmem s /\ pool s' = pool s.
Proof.
  unfold SvmIo.v3_handle_svm_io_in. intros (hook & _ & H)%outcome_bind_inv.
  destruct (hook =? NULL); [injection H as <- <- <-; split; [apply same_tables_refl|done]|].
  apply outcome_bind_inv in H as (h & _ & ([[r' bs] d1] & _ & H)%outcome_bind_inv).
  destruct (_ <? _)%nat; [done|].
  destruct (negb _); injection H as <- <- <-; (split; [|done]); by repeat split.
Qed.

Lemma outs_loop_safe l T Dt n h i mask dir seg : forall s d r s' d',
  Isolation.safe M l T Dt s -> SvmIo.outs_loop n h i mask dir seg s d = Done (r, s', d') -> Isolation.safe M l T Dt s'.
Proof.
  induction n as [|n IH]; intros s d r s' d' Hs; cbn [SvmIo.outs_loop]; [by intros [= <- <- <-]|].
  intros ([rt ha] & _ & H)%outcome_bind_inv. destruct (ha =? NULL); [done|].
  apply outcome_bind_inv in H as ([rw dw] & _ & H). destruct (negb _); [by injection H as <- <- <-|].
  eapply IH; [|exact H]. apply (safe_same l T Dt s); [done| |done|done].
  by repeat split.
Qed.

Lemma io_outs_safe l T Dt fuel e1 e2 fl io s d r s' d' :
  Isolation.safe M l T Dt s -> SvmIo.v3_handle_svm_io_outs fuel e1 e2 fl io s d = Done (r, s', d') ->
  Isolation.safe M l T Dt s'.
Proof.
  intros Hs. unfold SvmIo.v3_handle_svm_io_outs. intros (hook & _ & H)%outcome_bind_inv.
  destruct (hook =? NULL); [by injection H as <- <- <-|].
  apply outcome_bind_inv in H as (h & _ & ([rt ip] & _ & H)%outcome_bind_inv).
  destruct (rt =? -1); [by injection H as <- <- <-|].
  apply outcome_bind_inv in H as (seg & _ & ([[rl sl] dl] & Hl & H)%outcome_bind_inv).
  apply (outs_loop_safe l T Dt) in Hl; [|done].
  destruct (negb _); injection H as <- <- <-; [done|].
  apply (safe_same l T Dt sl); [done| |done|done]. by repeat split.
Qed.

(** The loop of INS, when no element lies across a page boundary. *)
Lemma ins_loop_safe l T Dt n h x mask dir g : 0 < SvmIo.io_size x -> forall s d r s' d',
  Isolation.safe M l T Dt s -> mask = SvmIo.addr_mask (info s) x ->
  SvmIo.ins_fits (info s) x g dir (Z.of_nat n) ->
  SvmIo.ins_loop n h x mask dir g s d = Done (r, s', d') -> Isolation.safe M l T Dt s'.
Proof.
  intros Hsz. induction n as [|n IH]; intros s d r s' d' Hs Hmask Hfit; cbn [SvmIo.ins_loop];
    [by intros [= <- <- <-]|].
  set (a := Decoder.get_addr_linear _ _ _). intros ([rt ha] & Hx' & H)%outcome_bind_inv.
  destruct (Z.eqb_spec rt (-1)) as [|Hrt]; [by injection H as <- <- <-|].
  pose proof (inv_paged _ _ _ _ (Isolation.conf_shadow _ _ _ _ (proj1 Hs))) as Hp.
  destruct (GuestMem.guest_va_to_host_va_implements (info s) l (hmem s) Hp a) as (r1 & w & Hx1 & Hr1);
    [apply SvmIo.linear_addr|].
  rewrite Hx' in Hx1. injection Hx1 as <- <-. destruct (GuestMem.gva_hva _ _ _ _) as [v|] eqn:Hv; [|by subst rt].
  destruct Hr1 as [-> ->].
  destruct (SvmIo.gva_hva_page (info s) l (hmem s) a v Hp) as (p & Hg & ->); [apply SvmIo.linear_addr|done|].
  apply outcome_bind_inv in H as ([[rr bs] d1] & Hrd & H). apply SvmIo.dev_read_length in Hrd.
  set (s1 := s <| hmem := _ |>) in H.
  assert (Isolation.safe M l T Dt s1) as Hs1.
  { apply (Isolation.safe_page l T Dt s p); [done|done|]. intros y Hy. unfold GuestMem.copy_to.
    specialize (Hfit 0 ltac:(lia)). unfold SvmIo.elem_addr in Hfit. rewrite Z.mul_0_r, Z.add_0_r, <- Hmask in Hfit.
    fold a in Hfit. pose proof (Z.mod_pos_bound a PAGE_SIZE ltac:(done)).
    destruct (_ && _) eqn:E; [|done]. apply andb_true_iff in E as [?%Z.leb_le ?%Z.ltb_lt]. lia. }
  destruct (negb _); [by injection H as <- <- <-|].
  eapply IH; [| | |exact H].
  - apply (safe_same l T Dt s1); [done| |done|done]. by repeat split.
  - done.
  - apply (SvmIo.ins_fits_step s1). by replace (Z.of_nat n + 1) with (Z.of_nat (S n)) by lia.
Qed.

Lemma io_ins_safe l T Dt fuel e1 e2 fl io s d r s' d' :
  Isolation.safe M l T Dt s -> SvmIo.ins_in_pages fuel e1 fl s ->
  SvmIo.v3_handle_svm_io_ins fuel e1 e2 fl io s d = Done (r, s', d') -> Isolation.safe M l T Dt s'.
Proof.
  intros Hs Hfit. unfold SvmIo.v3_handle_svm_io_ins. intros (hook & _ & H)%outcome_bind_inv.
  destruct (hook =? NULL); [by injection H as <- <- <-|].
  apply outcome_bind_inv in H as (h & _ & ([rt ip] & Hip & H)%outcome_bind_inv).
  destruct (rt =? -1); [by injection H as <- <- <-|].
  apply outcome_bind_inv in H as (seg & Hseg & H). pose proof (Hfit _ _ _ Hip Hseg) as Hf.
  destruct (Z.eqb_spec (SvmIo.io_size (SvmIo.io_info e1)) 0) as [|Hne]; [by injection H as <- <- <-|].
  apply outcome_bind_inv in H as ([[rl sl] dl] & Hl & H).
  apply (ins_loop_safe l T Dt) in Hl; [| |done|done|].
  - destruct (negb _); injection H as <- <- <-; [done|].
    apply (safe_same l T Dt sl); [done| |done|done]. by repeat split.
  - revert Hne. unfold SvmIo.io_size. by repeat case_match.
  - rewrite Z2Nat.id; [exact Hf|]. case_match; [|done]. by apply wrap_range.
Qed.

(** The exits that the theorem covers: what the processor reports as a read of CR0 is no
    LMSW, and no element of a string that INS stores lies across a page boundary. *)
Definition covered (xe : exit_env) m : Prop :=
  let s := (m_vm m) <| info := load_regs (info (m_vm m)) (vmcb (m_vm m)) |> in
  let c := ctrl_area (vmcb s) in
  let i := SvmIo.io_info (exit_info1 c) in
  (ulong (exit_code c) = VMEXIT_CR0_READ -> CtrlRegs.not_lmsw (xe_instr xe) (decoder s) s) /\
  (ulong (exit_code c) = VMEXIT_IOIO -> SvmIo.io_type i <> 0 -> SvmIo.str i <> 0 ->
     SvmIo.ins_in_pages (xe_fuel xe) (exit_info1 c) (rflags (ctrl_regs (info s))) s).

Lemma covered_pf xe m : ulong (exit_code (ctrl_area (vmcb (m_vm m)))) = VMEXIT_EXCP14 -> covered xe m.
Proof. intros Hc'. split; cbn [vmcb]; change (vmcb (_ <| info := _ |>)) with (vmcb (m_vm m)); by rewrite Hc'. Qed.

Lemma ioio_safe l T Dt xe m m' :
  let c := ctrl_area (vmcb (m_vm m)) in
  let i := SvmIo.io_info (exit_info1 c) in
  (SvmIo.io_type i <> 0 -> SvmIo.str i <> 0 ->
     SvmIo.ins_in_pages (xe_fuel xe) (exit_info1 c) (rflags (ctrl_regs (info (m_vm m)))) (m_vm m)) ->
  Isolation.safe M l T Dt (m_vm m) ->
  handle_ioio xe m = Done (0, m') -> Isolation.safe M l T Dt (m_vm m').
Proof.
  intros c i Hi Hs. unfold handle_ioio, on_io. cbv zeta. fold c. fold i.
  destruct (Z.eqb_spec (SvmIo.io_type i) 0) as [H0|H0]; destruct (Z.eqb_spec (SvmIo.str i) 0) as [Hst|Hst]; cbn [negb].
  - intros ([[r s] d] & (H1 & H2 & H3)%io_out_same & [= _ <-])%outcome_bind_inv. by eapply safe_same.
  - intros ([[r s] d] & H & [= _ <-])%outcome_bind_inv. by eapply io_outs_safe.
  - intros ([[r s] d] & (H1 & H2 & H3)%io_in_same & [= _ <-])%outcome_bind_inv. by eapply safe_same.
  - intros ([[r s] d] & H & [= _ <-])%outcome_bind_inv. eapply io_ins_safe; [exact Hs|by apply Hi|exact H].
Qed.

Lemma on_vm_inv m o m' : on_vm m o = Done (0, m') -> exists r s, o = Done (r, s) /\ r <> -1 /\ m' = m <| m_vm := s |>.
Proof.
  unfold on_vm. intros ([r s] & -> & H)%outcome_bind_inv. exists r, s.
  destruct (Z.eqb_spec r (-1)); injection H; [done|]. by intros <-.
Qed.

Lemma on_decoder_inv m o m' :
  on_decoder m o = Done (0, m') ->
  exists r st s, o = Done (r, st, s) /\ r <> -1 /\ m' = m <| m_vm := s <| decoder := st |> |>.
Proof.
  unfold on_decoder. intros ([[r st] s] & -> & H)%outcome_bind_inv. exists r, st, s.
  destruct (Z.eqb_spec r (-1)); injection H; [done|]. by intros <-.
Qed.

Lemma cr_safe l T Dt s st s' :
  CtrlRegs.cr_exit (decoder s, s) (st, s') -> Isolation.safe M l T Dt s ->
  exists T', Isolation.safe M l T' Dt (s' <| decoder := st |>).
Proof.
  intros He Hs. destruct (Isolation.cr_exit_safe l T Dt _ _ He Hs) as [T' Hs']. exists T'.
  apply (safe_same l T' Dt s'); [done|apply same_tables_refl|done|done].
Qed.

(** The result is 0 or -1. *)
Lemma handle_exit_result xe code m r m' : handle_exit_code xe code m = Done (r, m') -> r = 0 \/ r = -1.
Proof.
  unfold handle_exit_code, handle_ioio, end_emulation, unhandled_exit, on_io, on_vm, on_decoder. cbv zeta.
  repeat first [done | (intros [= <- <-]; auto; fail) | (intros [= <- _]; auto; fail)
    | match goal with
      | |- (if ?b then _ else _) = _ -> _ => destruct b
      | |- match ?x with _ => _ end = _ -> _ => destruct x
      | |- mbind _ _ = _ -> _ => intros (? & _ & ?)%outcome_bind_inv; repeat case_match; simplify_eq; auto
      | |- Done (if ?b then _ else _, _) = _ -> _ => destruct b
      end].
Qed.

Lemma halt_safe l T Dt m r m' :
  Isolation.safe M l T Dt (m_vm m) -> v3_handle_svm_halt m = Done (r, m') -> Isolation.safe M l T Dt (m_vm m').
Proof.
  intros Hs. unfold v3_handle_svm_halt. destruct (negb _).
  - intros [= _ <-]. apply (safe_same l T Dt (m_vm m)); [done| |done|done]. by repeat split.
  - intros ([r' st] & _ & [= _ <-])%outcome_bind_inv.
    apply (safe_same l T Dt (m_vm m)); [done| |done|done]. by repeat split.
Qed.

Lemma exit_code_safe l T Dt xe code m m' :
  let s := m_vm m in
  let i := SvmIo.io_info (exit_info1 (ctrl_area (vmcb s))) in
  CtrlRegs.exit_modes s = s ->
  (code = VMEXIT_CR0_READ -> CtrlRegs.not_lmsw (xe_instr xe) (decoder s) s) ->
  (code = VMEXIT_IOIO -> SvmIo.io_type i <> 0 -> SvmIo.str i <> 0 ->
     SvmIo.ins_in_pages (xe_fuel xe) (exit_info1 (ctrl_area (vmcb s))) (rflags (ctrl_regs (info s))) s) ->
  Isolation.safe M l T Dt s -> handle_exit_code xe code m = Done (0, m') ->
  exists T', Isolation.safe M l T' Dt (m_vm m').
Proof.
  intros s i Hm Hcr Hio Hs. unfold handle_exit_code. cbv zeta. fold s.
  case_cmp; [intros H; exists T; exact (ioio_safe l T Dt xe m m' (Hio e) Hs H)|].
  case_cmp; [intros (r & st & s' & H & Hr & ->)%on_decoder_inv; eapply cr_safe; [|exact Hs];
    eapply CtrlRegs.exit_cr0_write; [by rewrite Hm|done]|].
  case_cmp; [intros (r & st & s' & H & Hr & ->)%on_decoder_inv; eapply cr_safe; [|exact Hs];
    eapply CtrlRegs.exit_cr0_read; [rewrite Hm; by apply Hcr|by rewrite Hm|done]|].
  case_cmp; [intros (r & st & s' & H & Hr & ->)%on_decoder_inv; eapply cr_safe; [|exact Hs];
    eapply CtrlRegs.exit_cr3_write; [by rewrite Hm|done]|].
  case_cmp; [intros (r & st & s' & H & Hr & ->)%on_decoder_inv; eapply cr_safe; [|exact Hs];
    eapply CtrlRegs.exit_cr3_read; [by rewrite Hm|done]|].
  case_cmp.
  { destruct (shdw_pg_mode (info s)); [|done]. intros (r & s' & H & _ & ->)%on_vm_inv.
    by eapply Isolation.safe_fault. }
  case_cmp; [done|]. case_cmp.
  { destruct (shdw_pg_mode (info s)); [|intros [= <-]; by exists T]. intros (r & s' & H & _ & ->)%on_vm_inv.
    exists T. by eapply Isolation.safe_invlpg. }
  case_cmp; [intros [= <-]; by exists T|]. case_cmp; [intros [= <-]; by exists T|].
  case_cmp; [intros ([r mh] & H & [= _ <-])%outcome_bind_inv; exists T; by eapply halt_safe|].
  case_cmp.
  { intros (r & s' & [= _ <-] & _ & ->)%on_vm_inv. exists T. apply (safe_same l T Dt s); [done| |done|done].
    by repeat split. }
  assert (end_emulation xe m = Done (-1, m)) as He.
  { unfold end_emulation. pose proof (Isolation.conf_quiet _ _ _ _ (proj1 Hs)) as Hq. fold s.
    by destruct (run_state (info s)). }
  case_cmp; [by rewrite He|]. case_cmp; [by rewrite He|]. case_cmp.
  { unfold v3_handle_svm_wbinvd. by destruct (negb _). }
  unfold unhandled_exit. intros ([r a] & _ & H)%outcome_bind_inv. by destruct (r =? -1).
Qed.

Lemma inject_safe l T Dt m r m' :
  Isolation.safe M l T Dt (m_vm m) -> inject_event m = Done (r, m') -> Isolation.safe M l T Dt (m_vm m').
Proof.
  intros Hs. unfold inject_event. intros ([[r' st] g] & _ & [= _ <-])%outcome_bind_inv.
  apply (safe_same l T Dt (m_vm m)); [done| |done|done]. by repeat split.
Qed.

(** At every entry the guest is confined, with the registers that it is about to run on. *)
Definition ready l T Dt m : Prop := Isolation.safe M l T Dt (load_vm (m_vm m)).

Lemma exit_ready l T Dt xe m m' :
  ready l T Dt m -> covered xe m -> v3_handle_svm_exit xe m = Done (0, m') -> exists T', ready l T' Dt m'.
Proof.
  intros Hs [Hc1 Hc2]. unfold v3_handle_svm_exit. cbv zeta.
  intros ([r m1] & H1 & H)%outcome_bind_inv. destruct (Z.eqb_spec r (-1)); [done|].
  apply outcome_bind_inv in H as ([r2 m2] & H2 & H). destruct (r2 =? -1); [done|]. injection H as <-.
  assert (r = 0) as ->.
  { destruct (handle_exit_result _ _ _ _ _ H1); done. }
  apply (exit_code_safe l T Dt) in H1 as [T' H1]; [|apply load_modes|exact Hc1|exact Hc2|exact Hs].
  apply (inject_safe l T' Dt) in H2; [|done]. exists T'.
  apply (safe_same l T' Dt (m_vm m2)); [done|by repeat split|done|done].
Qed.

(** The loop of start_svm_guest.  Between exits the processor runs the guest, which changes
    its registers, but for CR0 and CR3, and the memory that its tables reach, and writes the
    reason of the exit to the VMCB; and the host runs interrupt handlers and timers, which
    change devices and requests.  An exit whose handler fails ends the loop. *)
Definition hw_translate (s : vm) (va : Z) : option Z :=
  Paging.hw_walk (hmem s) (PAGE_SIZE * (u32 (sv_cr3 (save_area (vmcb s))) / PAGE_SIZE)) va.

Inductive svm_step : machine C D -> machine C D -> Prop :=
| hw_regs m v regs :
    sv_cr0 (save_area v) = sv_cr0 (save_area (vmcb (m_vm m))) ->
    sv_cr3 (save_area v) = sv_cr3 (save_area (vmcb (m_vm m))) ->
    svm_step m (m <| m_vm := (m_vm m) <| vmcb := v |> <| info := (info (m_vm m)) <| vm_regs := regs |> |> |>)
| hw_byte m va pa b :
    is_u 32 va -> hw_translate (m_vm m) va = Some pa ->
    svm_step m (m <| m_vm := (m_vm m) <| hmem := store8 (hmem (m_vm m)) (V3_VAddr pa) b |> |>)
| host_event m c hooks d :
    svm_step m (m <| m_controller := c |> <| m_irq_hooks := hooks |> <| m_dev := d |>)
| hw_exit xe m m' : covered xe m -> v3_handle_svm_exit xe m = Done (0, m') -> svm_step m m'.

Lemma step_ready l T Dt m m' : svm_step m m' -> ready l T Dt m -> exists T', ready l T' Dt m'.
Proof.
  intros Hst Hs. destruct Hst as [m v regs H0 H3|m va pa b Hva Hw|m c hooks d|xe m m' Hc' He].
  - exists T. apply (safe_same l T Dt (load_vm (m_vm m))); [done| |done|done].
    repeat split; [auto|exact H0|exact H3].
  - exists T. exact (Isolation.safe_byte l T Dt (load_vm (m_vm m)) va pa b Hs Hva Hw).
  - by exists T.
  - by eapply exit_ready.
Qed.

Lemma run_ready l T Dt m m' : rtc svm_step m m' -> ready l T Dt m -> exists T', ready l T' Dt m'.
Proof.
  intros Hst. revert T. induction Hst as [m|m m1 m2 H1 _ IH]; intros T Hr; [by exists T|].
  destruct (step_ready l T Dt m m1 H1 Hr) as [T1 Hr1]. by apply (IH T1).
Qed.

Lemma ready_regions l T T' Dt m m' :
  ready l T Dt m -> ready l T' Dt m' ->
  GuestMem.regions_of (info (m_vm m')) l = GuestMem.regions_of (info (m_vm m)) l.
Proof. intros H H'. exact (Isolation.safe_regions l T Dt T' _ _ H H'). Qed.

Lemma ready_walk l T Dt m :
  ready l T Dt m -> Cr0.pg (low32 (sv_cr0 (save_area (vmcb (m_vm m))))) = 1 /\
  forall va pa, is_u 32 va -> hw_translate (m_vm m) va = Some pa ->
    guest_page (GuestMem.regions_of (info (m_vm m)) l) (PAGE_SIZE * (pa / PAGE_SIZE)).
Proof.
  intros Hs. split.
  - exact (CtrlRegs.in_step_pg _ _ _ (CtrlRegs.sync_cr0 _ _ (proj2 Hs))).
  - intros va pa Hva Hw. exact (Isolation.safe_walk l T Dt (load_vm (m_vm m)) va pa Hs Hva Hw).
Qed.


End exits.
#[global] Arguments ready {A Hos C D} M l T Dt m.

(** ** What single exits do *)

Lemma land_ff x : is_u 8 x -> Z.land x 0xff = x.
Proof. intros Hx. rewrite (Paging.land_ones_mod _ 8) by done. by apply Z.mod_small. Qed.

(** The registers that [store_regs] copies are those of the VMCB. *)
Definition holds_regs (i : guest_info) (v : vmcb_t) : Prop :=
  let g := save_area v in
  ctrl_regs i = mk_v3_ctrl_regs (sv_cr0 g) (sv_cr2 g) (sv_cr3 g) (sv_cr4 g) (V_TPR (ctrl_area v))
                  (sv_rflags g) (sv_efer g) /\
  dr6 (dbg_regs i) = sv_dr6 g /\ dr7 (dbg_regs i) = sv_dr7 g /\ cpl i = sv_cpl g /\
  rax (vm_regs i) = sv_rax g /\ rsp (vm_regs i) = sv_rsp g /\ segments i = get_vmcb_segments g.

Lemma load_holds i v : holds_regs (load_regs i v) v.
Proof. by repeat split. Qed.

(** The widths of the members. *)
Definition vmcb_wf (v : vmcb_t) : Prop := is_u 8 (V_TPR (ctrl_area v)) /\ is_u 8 (sv_cpl (save_area v)).

Definition set_rip (v : vmcb_t) (r : Z) : vmcb_t := v <| save_area := (save_area v) <| sv_rip := r |> |>.

Definition set_inject (v : vmcb_t) (g : vmcb_inject) : vmcb_t :=
  v <| ctrl_area := (ctrl_area v) <| inject := g |> |>.

Lemma store_holds i v : holds_regs i v -> vmcb_wf v -> store_regs i v = set_rip v (rip i).
Proof.
  intros (Hc & H6 & H7 & Hp & Ha & Hs & Hg) [Ht Hcp]. unfold store_regs. rewrite Hc, H6, H7, Hp, Ha, Hs, Hg.
  cbn [cr0 cr2 cr3 cr4 cr8 rflags efer]. rewrite land_ff by done. rewrite (wrap_small 8) by done.
  cbv zeta. rewrite (set_segments_same (save_area v)) by reflexivity.
  destruct v as [c g]. destruct c. by destruct g.
Qed.

Lemma set_rip_same v : set_rip v (sv_rip (save_area v)) = v.
Proof. destruct v as [c g]. by destruct g. Qed.

Lemma set_inject_same v : set_inject v (inject (ctrl_area v)) = v.
Proof. destruct v as [c g]. by destruct c. Qed.

Section single.
Context {A : Arch} {Hos : OsHooks} {Hx : Xed.XedLib} {Hh : Emulator.MemHooks}.
Context {C D : Type} {Hc : IntrCtrl C} {Hcok : IntrCtrlOk C} {Hd : SvmIo.IoDevices D}.
Implicit Types m : machine C D.

Definition load m : machine C D :=
  m <| m_vm := (m_vm m) <| info := load_regs (info (m_vm m)) (vmcb (m_vm m)) |> |>.

Definition code_of m : Z := ulong (exit_code (ctrl_area (vmcb (m_vm m)))).

(** The guest resumes from [m]: the event [g] is set up and the instruction pointer is
    copied. *)
Definition resume m (st : v3_intr_state C) (g : vmcb_inject) : machine C D :=
  let m := set_intr m st in
  m <| m_vm := (m_vm m) <| vmcb := set_rip (set_inject (vmcb (m_vm m)) g) (rip (info (m_vm m))) |> |>.

(** An exit whose handler changes no register but the instruction pointer. *)
Lemma exit_resume xe m m1 st g :
  let v := vmcb (m_vm m) in
  handle_exit_code xe (code_of m) (load m) = Done (0, m1) ->
  vmcb (m_vm m1) = v -> holds_regs (info (m_vm m1)) v -> vmcb_wf v ->
  svm_inject_intr (intr_of m1) (inject (ctrl_area v)) = Done (0, st, g) ->
  v3_handle_svm_exit xe m = Done (0, resume m1 st g).
Proof.
  intros v H1 Hv Hh1 Hwf Hin. unfold v3_handle_svm_exit. cbv zeta. fold (load m) (code_of m).
  rewrite H1, outcome_bind_done. cbn [Z.eqb]. unfold inject_event. rewrite Hv, Hin, outcome_bind_done.
  rewrite outcome_bind_done. cbn [Z.eqb]. unfold resume. cbv zeta. do 2 f_equal.
  set (m2 := set_intr m1 st). change (vmcb (m_vm m2)) with (vmcb (m_vm m1)). rewrite Hv.
  match goal with |- context [store_regs ?i ?w] => change (store_regs i w) with (store_regs (info (m_vm m2)) (set_inject v g)) end.
  rewrite store_holds; [|exact Hh1|exact Hwf]. by destruct (m_vm m2).
Qed.

Lemma resume_vmcb m st g v :
  vmcb (m_vm m) = v -> vmcb (m_vm (resume m st g)) = set_rip (set_inject v g) (rip (info (m_vm m))).
Proof. by intros <-. Qed.

(** What injection does after an exit: nothing without a request, and otherwise it moves one
    request to the virtual interrupt of the VMCB. *)
Definition injected (c : C) (v : vmcb_t) m' : Prop :=
  (requests c = ∅ -> vmcb (m_vm m') = v /\ m_controller m' = Some c) /\
  (requests c <> ∅ -> exists irq c', irq ∈ requests c /\ m_controller m' = Some c' /\ ctrl_wf c' /\
     requests c' = requests c ∖ {[irq]} /\
     vmcb (m_vm m') = set_inject v ((inject (ctrl_area v)) <| V_IRQ := 1 |>
       <| V_INTR_VECTOR := u8 (vector c irq) |> <| V_IGN_TPR := 1 |> <| V_INTR_PRIO := 0xf |>)).

Lemma exit_injects xe m m1 c :
  let v := vmcb (m_vm m) in
  handle_exit_code xe (code_of m) (load m) = Done (0, m1) ->
  vmcb (m_vm m1) = v -> holds_regs (info (m_vm m1)) v -> vmcb_wf v ->
  excp_pending (intr_excp (info (m_vm m1))) = 0 -> m_controller m1 = Some c -> ctrl_wf c ->
  exists m', v3_handle_svm_exit xe m = Done (0, m') /\ hmem (m_vm m') = hmem (m_vm m1) /\
    m_dev m' = m_dev m1 /\ injected c (set_rip v (rip (info (m_vm m1)))) m'.
Proof.
  intros v H1 Hv Hh1 Hwf Hp Hctl Hcw. destruct (decide (requests c = ∅)) as [He|Hne].
  - eexists. split; [eapply (exit_resume xe m m1); try done; by eapply inject_nothing|].
    split_and!; [done..|]. split; [intros _|done]. split; [|exact Hctl].
    unfold resume. cbn [m_vm vmcb]. change (vmcb (m_vm (set_intr m1 (intr_of m1)))) with (vmcb (m_vm m1)).
    rewrite Hv. by rewrite set_inject_same.
  - destruct (inject_request (intr_of m1) c (inject (ctrl_area v)) Hp Hctl Hcw Hne)
      as (irq & c' & Hin & Heq & Hcw' & Hreq & Hvec).
    eexists. split; [by eapply (exit_resume xe m m1)|]. split_and!; [done..|]. split; [done|intros _].
    exists irq, c'. split_and!; [done..|]. unfold resume. cbv zeta.
    match goal with |- context [set_intr m1 ?st] => change (vmcb (m_vm (set_intr m1 st))) with (vmcb (m_vm m1)) end.
    rewrite Hv. by destruct v.
Qed.


Lemma load_cpl m : cpl (info (m_vm (load m))) = sv_cpl (save_area (vmcb (m_vm m))).
Proof. done. Qed.

Lemma load_rip m : rip (info (m_vm (load m))) = sv_rip (save_area (vmcb (m_vm m))).
Proof. done. Qed.

Lemma load_excp m : intr_excp (info (m_vm (load m))) = intr_excp (info (m_vm m)).
Proof. done. Qed.

Lemma halt_code xe m m1 :
  code_of m = VMEXIT_HLT -> v3_handle_svm_halt (load m) = Done (0, m1) ->
  handle_exit_code xe (code_of m) (load m) = Done (0, m1).
Proof.
  intros -> H1. generalize dependent (load m). intros m2 H2. unfold handle_exit_code. cbn [Z.eqb].
  change (VMEXIT_HLT =? VMEXIT_HLT) with true. cbv iota. by rewrite H2.
Qed.

(** The state that the handler leaves at level 0. *)
Definition halted m (c1 : C) : machine C D :=
  let m := set_intr m ((intr_of m) <| controller := Some c1 |>) in
  m <| m_vm := upd_rip (m_vm m) (fun r => u64 (r + 1)) |>.

Lemma halt_raise m c r c1 :
  cpl (info (m_vm m)) = 0 -> m_controller m = Some c -> raise_intr c 0 = Done (r, c1) ->
  v3_handle_svm_halt m = Done (0, halted m c1) /\ vmcb (m_vm (halted m c1)) = vmcb (m_vm m) /\
  hmem (m_vm (halted m c1)) = hmem (m_vm m) /\ m_controller (halted m c1) = Some c1 /\
  rip (info (m_vm (halted m c1))) = u64 (rip (info (m_vm m)) + 1) /\
  intr_excp (info (m_vm (halted m c1))) = intr_excp (info (m_vm m)) /\
  (forall v, holds_regs (info (m_vm m)) v -> holds_regs (info (m_vm (halted m c1))) v).
Proof.
  intros Hcp Hctl Hr. split; [|done]. unfold v3_handle_svm_halt, v3_raise_irq. rewrite Hcp. cbn [negb Z.eqb].
  change (controller (intr_of m)) with (m_controller m). by rewrite Hctl, Hr.
Qed.

Lemma halt_gpf m :
  cpl (info (m_vm m)) <> 0 -> excp_pending (intr_excp (info (m_vm m))) = 0 ->
  let m1 := (m <| m_vm := raise_gpf (m_vm m) |>) in
  v3_handle_svm_halt m = Done (0, m1) /\ vmcb (m_vm m1) = vmcb (m_vm m) /\
  hmem (m_vm m1) = hmem (m_vm m) /\ m_controller m1 = m_controller m /\
  rip (info (m_vm m1)) = rip (info (m_vm m)) /\
  excp (intr_of m1) = mk_v3_excp_state 1 GPF_EXCEPTION 0 0 /\
  (forall v, holds_regs (info (m_vm m)) v -> holds_regs (info (m_vm m1)) v).
Proof.
  intros Hcp Hp m1. split; [|split_and!; try done].
  - unfold v3_handle_svm_halt. by rewrite (proj2 (Z.eqb_neq _ _) Hcp).
  - unfold m1, raise_gpf, set_excp, intr_of, v3_raise_exception. cbn. by rewrite Hp.
Qed.

(** An exit for HLT.  At a privilege level other than 0 the guest gets #GP at the
    instruction.  At level 0 it does not halt: line 0 of its interrupt controller is raised,
    and it continues after the instruction, with one of its requests injected if there is
    one. *)
Theorem halt_exit xe m c :
  code_of m = VMEXIT_HLT -> excp_pending (intr_excp (info (m_vm m))) = 0 ->
  m_controller m = Some c -> vmcb_wf (vmcb (m_vm m)) ->
  let v := vmcb (m_vm m) in
  (sv_cpl (save_area v) <> 0 ->
     exists m' g, v3_handle_svm_exit xe m = Done (0, m') /\ hmem (m_vm m') = hmem (m_vm m) /\
       vmcb (m_vm m') = set_inject v g /\ ev_type g = SVM_INJECTION_EXCEPTION /\
       ev_vector g = GPF_EXCEPTION /\ ev_valid g = 1 /\ m_controller m' = Some c) /\
  (sv_cpl (save_area v) = 0 ->
     forall r c1, raise_intr c 0 = Done (r, c1) -> ctrl_wf c1 ->
       exists m', v3_handle_svm_exit xe m = Done (0, m') /\ hmem (m_vm m') = hmem (m_vm m) /\
         injected c1 (set_rip v (u64 (sv_rip (save_area v) + 1))) m').
Proof.
  intros Hcode Hp Hctl Hwf v. split.
  - intros Hne. unfold v in Hne. rewrite <- load_cpl in Hne. rewrite <- load_excp in Hp.
    destruct (halt_gpf (load m) Hne Hp) as (Hh1 & Hv & Hm & Hc1 & Hr & Hex & Hho).
    revert Hh1 Hv Hm Hc1 Hr Hex Hho. generalize ((load m) <| m_vm := raise_gpf (m_vm (load m)) |>).
    intros m1 Hh1 Hv Hm Hc1 Hr Hex Hho.
    destruct (inject_exception (intr_of m1) (inject (ctrl_area v))) as (g & Hg & Ht & Hvec & Hval & _);
      [by rewrite Hex|].
    exists (resume m1 ((intr_of m1) <| excp := mk_v3_excp_state 0 0 0 0 |>) g), g.
    split; [eapply exit_resume; [by apply halt_code|done|apply Hho, load_holds|done|done]|].
    rewrite Hex in Hvec. split_and!; [exact Hm| |done|exact Hvec|done|rewrite <- Hctl; exact Hc1].
    rewrite (resume_vmcb m1 _ g v Hv), Hr, load_rip. apply (set_rip_same (set_inject v g)).
  - intros He r c1 Hr Hc1. unfold v in He. rewrite <- load_cpl in He. rewrite <- load_excp in Hp.
    destruct (halt_raise (load m) c r c1 He Hctl Hr) as (Hh1 & Hv & Hm & Hctl1 & Hrip & Hex & Hho).
    revert Hh1 Hv Hm Hctl1 Hrip Hex Hho. generalize (halted (load m) c1). intros m1 Hh1 Hv Hm Hctl1 Hrip Hex Hho.
    destruct (exit_injects xe m m1 c1) as (m' & He' & Hm' & _ & Hi);
      [by apply halt_code|done|apply Hho, load_holds|done|by rewrite Hex|done|done|].
    rewrite Hrip, load_rip in Hi. exists m'. split_and!; [exact He'|by rewrite Hm', Hm|exact Hi].
Qed.

(** WBINVD stops the guest.  At every privilege level the exit handler fails, because
    it takes the result 0 of v3_handle_svm_wbinvd for a failure. *)
Theorem wbinvd_exit_fails xe m :
  code_of m = VMEXIT_WBINVD -> exists m', v3_handle_svm_exit xe m = Done (-1, m').
Proof.
  intros Hcode. unfold v3_handle_svm_exit. cbv zeta. fold (load m) (code_of m). rewrite Hcode.
  change (handle_exit_code xe VMEXIT_WBINVD (load m)) with
    (let '(r, s) := v3_handle_svm_wbinvd (m_vm (load m)) in
     Done (if r =? 0 then -1 else 0, (load m) <| m_vm := s |>)).
  unfold v3_handle_svm_wbinvd. destruct (negb _); by eexists.
Qed.

End single.

(** ** Witnesses

    The guest of Isolation.v with the 8259A of Pic.v, which has the lines 1 and 4 pending. *)

#[local] Existing Instances Pic.intr_ops Pic.pic_ok.

Definition exit_env_demo : exit_env :=
  mk_exit_env (replicate 15 0) CtrlRegs.demo_dec (true, true) (true, true, true) (fun _ => (true, true, true)) 15
    Emulator.demo_env 0.

Definition exit_vmcb (code info1 info2 : Z) : vmcb_t :=
  demo_vmcb <| ctrl_area := (ctrl_area demo_vmcb) <| exit_code := code |> <| exit_info1 := info1 |>
                              <| exit_info2 := info2 |> |>
    <| save_area := (save_area demo_vmcb) <| sv_cr0 := 0x80000001 |> <| sv_cr3 := 0x70000 |>
                      <| sv_rip := 0x1000 |> |>.

Definition demo_machine (v : vmcb_t) : machine Pic.pic_internal (list (list Z)) :=
  mk_machine (Isolation.high_vm <| vmcb := v |>) (Some Pic.pic_demo) (replicate 256 None) IoMap.io_map_70 [].

Abbreviation demo_exit m :=
  (v3_handle_svm_exit (A := V3_64BIT) (Hos := Isolation.high_host) (Hx := CtrlRegs.demo_xed)
     (Hh := Emulator.emu_hooks) (Hd := SvmIo.log_device) exit_env_demo m).

Lemma demo_ready code i1 i2 :
  ready (A := V3_64BIT) (Hos := Isolation.high_host) (mem_map (info Isolation.high_vm)) [1; 2] ∅ ∅ (demo_machine (exit_vmcb code i1 i2)).
Proof.
  apply (safe_same (A := V3_64BIT) (Hos := Isolation.high_host) [1; 2] ∅ ∅ Isolation.high_vm);
    [apply Isolation.high_safe|by repeat split|done|done].
Qed.

Lemma exit_check {R : Type} (o : outcome (Z * R)) (P : R -> bool) :
  match o with Done (r, s) => (r =? 0) && P s | _ => false end = true -> exists s, o = Done (0, s) /\ P s = true.
Proof. destruct o as [[r s]| |]; try done. intros [->%Z.eqb_eq H]%andb_true_iff. by exists s. Qed.


(** Line 4 is due, and a virtual interrupt 0x30 is still to be taken. *)
Definition virq_vmcb : vmcb_t :=
  set_inject (exit_vmcb VMEXIT_INTR 0 0) (mk_vmcb_inject 1 0x30 1 0xf SVM_INJECTION_EXTERNAL_INTR 0 0 0 0).


Lemma halt_exit_witness :
  (exists m', demo_exit (demo_machine (exit_vmcb VMEXIT_HLT 0 0)) = Done (0, m') /\
     hmem (m_vm m') = hmem Isolation.high_vm) /\
  exists m' g, demo_exit (demo_machine ((exit_vmcb VMEXIT_HLT 0 0) <| save_area :=
      (save_area (exit_vmcb VMEXIT_HLT 0 0)) <| sv_cpl := 3 |> |>)) = Done (0, m') /\
    inject (ctrl_area (vmcb (m_vm m'))) = g /\ ev_vector g = 13.
Proof.
  split.
  - destruct (halt_exit (A := V3_64BIT) (Hos := Isolation.high_host) (Hx := CtrlRegs.demo_xed)
      (Hh := Emulator.emu_hooks) (Hd := SvmIo.log_device) exit_env_demo
      (demo_machine (exit_vmcb VMEXIT_HLT 0 0)) Pic.pic_demo) as [_ Hk]; [done..|].
    edestruct (Hk eq_refl 0) as (m' & He & Hm & _); [reflexivity|split; [done|done|exists 4; done|exists 5; done|done]|].
    exists m'. split; [exact He|exact Hm].
  - destruct (halt_exit (A := V3_64BIT) (Hos := Isolation.high_host) (Hx := CtrlRegs.demo_xed)
      (Hh := Emulator.emu_hooks) (Hd := SvmIo.log_device) exit_env_demo
      (demo_machine ((exit_vmcb VMEXIT_HLT 0 0) <| save_area :=
        (save_area (exit_vmcb VMEXIT_HLT 0 0)) <| sv_cpl := 3 |> |>)) Pic.pic_demo) as [Hk _]; [done..|].
    destruct (Hk ltac:(done)) as (m' & g & He & _ & Hv & _ & Hvec & _).
    exists m', g. split_and!; [exact He|rewrite Hv; reflexivity|exact Hvec].
Defined.

Lemma wbinvd_exit_fails_witness : exists m',
  demo_exit (demo_machine (exit_vmcb VMEXIT_WBINVD 0 0)) = Done (-1, m').
Proof.
  apply (wbinvd_exit_fails (A := V3_64BIT) (Hos := Isolation.high_host) (Hx := CtrlRegs.demo_xed)
    (Hh := Emulator.emu_hooks) (Hd := SvmIo.log_device) exit_env_demo (demo_machine (exit_vmcb VMEXIT_WBINVD 0 0))).
  done.
Defined.

End SvmExit.
