(* ===== verification/Svm.v ===== *)
(** The set-up of a guest and of the processor: svm.c.

    [Module Svm] translates the test for SVM, the set-up of the processor and of a guest:
    the VMCB with its intercepts and the state of the processor after reset, the bitmap of
    I/O ports that cause an exit, and the tables the guest starts on.  The theorems show
    that the bitmap is the I/O map, that the guest starts at the reset vector, and that the
    set-up is a starting point for SvmExit.v: from there on the guest never leaves its
    memory. *)
From stdpp Require Import base tactics numbers list gmap sorting relations.
From S2P Require Import Prelude Chain Host MemMap IoMap Paging Intr Pic Hashtable GuestInfo GuestMem Decoder.
From S2P Require Import Xed Vmcb ShadowPaging Passthrough Invlpg CtrlRegs Isolation SvmIo Emulator SvmExit.

Module Svm.
Import Intr GuestInfo Vmcb ShadowPaging SvmExit.

(** ** The processor *)

Definition CPUID_FEATURE_IDS : Z := 0x80000001.
Definition CPUID_FEATURE_IDS_ecx_svm_avail : Z := 0x00000004.
Definition CPUID_SVM_REV_AND_FEATURE_IDS : Z := 0x8000000a.
Definition CPUID_SVM_REV_AND_FEATURE_IDS_edx_np : Z := 0x00000001.
Definition EFER_MSR : Z := 0xc0000080.
Definition EFER_MSR_svm_enable : Z := 0x00001000.
Definition SVM_VM_CR_MSR : Z := 0xc0010114.
Definition SVM_VM_CR_MSR_svmdis : Z := 0x00000010.
Definition SVM_VM_HSAVE_PA_MSR : Z := 0xc0010117.

(** The registers that CPUID returns. *)
Record cpuid_regs := mk_cpuid_regs { c_eax : Z; c_ebx : Z; c_ecx : Z; c_edx : Z }.

(** The model-specific registers: the high and the low word. *)
Definition msrs := Z -> Z * Z.

Section processor.
Context (cpuid : Z -> cpuid_regs).

Definition v3_is_svm_capable (msr : msrs) : Z :=
  if Z.land (c_ecx (cpuid CPUID_FEATURE_IDS)) CPUID_FEATURE_IDS_ecx_svm_avail =? 0 then 0
  else
    let '(_, vm_cr_low) := msr SVM_VM_CR_MSR in
    if Z.land vm_cr_low SVM_VM_CR_MSR_svmdis =? 1 then 0 else 1.

Definition has_svm_nested_paging : Z :=
  if Z.land (c_edx (cpuid CPUID_SVM_REV_AND_FEATURE_IDS)) CPUID_SVM_REV_AND_FEATURE_IDS_edx_np =? 0
  then 0 else 1.

Definition v3_set_msr (msr : msrs) (r high low : Z) : msrs :=
  fun x => if x =? r then (high, low) else msr x.

(** [host_state] is the result of V3_AllocPages(4). *)
Definition v3_init_SVM (msr : msrs) (host_state : Z) : msrs :=
  let low := Z.lor (snd (msr EFER_MSR)) EFER_MSR_svm_enable in
  let msr := v3_set_msr msr EFER_MSR 0 low in
  v3_set_msr msr SVM_VM_HSAVE_PA_MSR (field host_state 32 32) (u32 host_state).

End processor.

(** ** The guest *)

Definition zero_vmcb : vmcb_t :=
  let v := mk_vmcb_selector 0 0 0 0 0 0 0 0 0 0 0 0 in
  mk_vmcb_t
    (mk_vmcb_ctrl_t 0 0 0 0 0 0 0 0 0 0 0 (mk_vmcb_inject 0 0 0 0 SVM_INJECTION_EXTERNAL_INTR 0 0 0 0)
       0 0 0 0 0)
    (mk_vmcb_saved_state_t v v v v v v v v v v 0 0 0 0 0 0 0 0 0 0 0 0 0).

(** The intercept bits [bits] of a word. *)
Definition intercept (w : Z) (bits : list Z) : Z := foldl Z.setbit w bits.

(** Bits of [struct Instr_Intercepts]. *)
Definition I_INTR : Z := 0.
Definition I_NMI : Z := 1.
Definition I_SMI : Z := 2.
Definition I_INIT : Z := 3.
Definition I_PAUSE : Z := 23.
Definition I_HLT : Z := 24.
Definition I_INVLPG : Z := 25.
Definition I_INVLPGA : Z := 26.
Definition I_IOIO_PROT : Z := 27.
Definition I_shutdown_evts : Z := 31.

(** The intercepts of every guest; the members of [struct SVM_Instr_Intercepts] from VMRUN to
    MWAIT_if_armed are the bits 0 to 12. *)
Definition init_intercepts (c : vmcb_ctrl_t) : vmcb_ctrl_t :=
  c <| cr_reads := intercept (cr_reads c) [0] |> <| cr_writes := intercept (cr_writes c) [0] |>
    <| svm_instrs := intercept (svm_instrs c) [0; 1; 2; 3; 4; 5; 6; 7; 8; 9; 10; 11; 12] |>
    <| instrs := intercept (instrs c) [I_HLT; I_NMI; I_SMI; I_INIT; I_PAUSE; I_shutdown_evts] |>
    <| guest_ASID := 1 |> <| exit_code := 1 |>.

Definition init_segment (seg : vmcb_selector) : vmcb_selector :=
  (set_raw (seg <| vs_selector := 0 |> <| vs_base := 0 |>) 0xf3) <| vs_limit := 0xffffffff |>.

Definition init_table_reg (seg : vmcb_selector) : vmcb_selector :=
  seg <| vs_limit := 0xffff |> <| vs_base := 0 |>.

Definition init_save_area (info : guest_info) (g : vmcb_saved_state_t) : vmcb_saved_state_t :=
  let g := g <| sv_rsp := rsp (vm_regs info) |> <| sv_rip := 0xfff0 |> <| sv_cpl := 0 |>
             <| sv_efer := Z.lor (sv_efer g) EFER_MSR_svm_enable |> <| sv_rflags := 2 |>
             <| sv_cr0 := 0x60000010 |> in
  let g := g <| sv_cs := set_raw ((sv_cs g) <| vs_selector := 0xf000 |> <| vs_limit := 0xffff |>
                                    <| vs_base := 0xf0000 |>) 0xf3 |> in
  let g := g <| sv_ss := init_segment (sv_ss g) |> <| sv_ds := init_segment (sv_ds g) |>
             <| sv_es := init_segment (sv_es g) |> <| sv_fs := init_segment (sv_fs g) |>
             <| sv_gs := init_segment (sv_gs g) |> in
  g <| sv_gdtr := init_table_reg (sv_gdtr g) |> <| sv_idtr := init_table_reg (sv_idtr g) |>
    <| sv_ldtr := init_table_reg ((sv_ldtr g) <| vs_selector := 0 |>) |>
    <| sv_tr := init_table_reg ((sv_tr g) <| vs_selector := 0 |>) |>
    <| sv_dr6 := 0xffff0ff0 |> <| sv_dr7 := 0x400 |>.

(** One port of the bitmap. *)
Definition set_port (m : mem) (bitmap prt : Z) : mem :=
  let a := bitmap + prt / 8 in
  store8 m a (Z.lor (load8 m a) (Z.shiftl 1 (prt mod 8))).

(** The loop FOREACH_IO_HOOK. *)
Fixpoint iopm_loop (fuel : nat) (h : gmap Z IoMap.vmm_io_hook) (iter bitmap : Z) (m : mem) : outcome mem :=
  match fuel with
  | O => OutOfFuel
  | S fuel =>
      if iter =? NULL then Done m else
      n ← deref h iter;
      iopm_loop fuel h (IoMap.io_next n) bitmap (set_port m bitmap (IoMap.port n))
  end.

Section guest.
Context {A : Arch} {Hos : OsHooks}.

Definition upd_ctrl (s : vm) (f : vmcb_ctrl_t -> vmcb_ctrl_t) : vm :=
  s <| vmcb := (vmcb s) <| ctrl_area := f (ctrl_area (vmcb s)) |> |>.

Definition upd_save (s : vm) (f : vmcb_saved_state_t -> vmcb_saved_state_t) : vm :=
  s <| vmcb := (vmcb s) <| save_area := f (save_area (vmcb s)) |> |>.

(** The VMCB has a page; its contents are those of [vmcb]. *)
Definition Allocate_VMCB (s : vm) : vm :=
  let '(page, pl) := V3_AllocPages (pool s) in
  s <| pool := pl |> <| hmem := memset0 (hmem s) (V3_VAddr page) 4096 |> <| vmcb := zero_vmcb |>.

(** [iopm] is the result of V3_AllocPages(3). *)
Definition init_io_ports (io : IoMap.vmm_io_map) (iopm : Z) (s : vm) : outcome vm :=
  if IoMap.num_ports io >? 0 then
    let io_port_bitmap := V3_VAddr iopm in
    let m := memset0 (hmem s) io_port_bitmap (PAGE_SIZE * 3) in
    m ← iopm_loop (S (size (IoMap.io_hooks io))) (IoMap.io_hooks io) (IoMap.io_head io) io_port_bitmap m;
    Done (upd_ctrl (s <| hmem := m |>) (fun c =>
      c <| IOPM_BASE_PA := V3_PAddr io_port_bitmap |> <| instrs := intercept (instrs c) [I_IOIO_PROT] |>))
  else Done s.

(** The initial tables with shadow paging: the direct map. *)
Definition init_shadow_paging (s : vm) : outcome vm :=
  '(pts, m, pl) ← Passthrough.create_passthrough_pts_32 (info s) (hmem s) (pool s);
  let s := s <| hmem := m |> <| pool := pl |> <| info := (info s) <| direct_map_pt := V3_PAddr pts |> |> in
  let s := set_shdw s (fun st => st <| shadow_cr3 := 0 |> <| guest_cr0 := 0x10 |>) in
  let s := upd_ctrl s (fun c =>
    c <| cr_reads := intercept (cr_reads c) [3] |> <| cr_writes := intercept (cr_writes c) [3] |>
      <| instrs := intercept (instrs c) [I_INVLPG; I_INVLPGA] |>
      <| exceptions := intercept (exceptions c) [14] |> <| TLB_CONTROL := 1 |>) in
  Done (upd_save s (fun g =>
    g <| sv_cr3 := direct_map_pt (info s) |> <| sv_g_pat := 0x7040600070406 |>
      <| sv_cr0 := Z.lor (sv_cr0 g) 0x80000000 |>)).

Definition init_nested_paging (s : vm) : outcome vm :=
  '(pts, m, pl) ← Passthrough.create_passthrough_pts_32 (info s) (hmem s) (pool s);
  let s := s <| hmem := m |> <| pool := pl |> <| info := (info s) <| direct_map_pt := Z.ldiff pts 0xfff |> |> in
  let s := upd_ctrl s (fun c => c <| TLB_CONTROL := 1 |> <| NP_ENABLE := 1 |> <| N_CR3 := direct_map_pt (info s) |>) in
  Done (upd_save s (fun g => g <| sv_g_pat := 0x7040600070406 |>)).

Definition Init_VMCB_BIOS (io : IoMap.vmm_io_map) (iopm : Z) (s : vm) : outcome vm :=
  let s := upd_ctrl (upd_save s (init_save_area (info s))) init_intercepts in
  let s := s <| info := (info s) <| vm_regs := (vm_regs (info s)) <| rdx := 0xf00 |> |> |> in
  s ← init_io_ports io iopm s;
  let s := upd_ctrl s (fun c => c <| V_INTR_MASKING := 1 |> <| instrs := intercept (instrs c) [I_INTR] |>) in
  match shdw_pg_mode (info s) with
  | SHADOW_PAGING => init_shadow_paging s
  | NESTED_PAGING => init_nested_paging s
  end.

Definition init_svm_guest (io : IoMap.vmm_io_map) (iopm : Z) (s : vm) : outcome (Z * vm) :=
  s ← Init_VMCB_BIOS io iopm (Allocate_VMCB s);
  Done (0, s <| info := (info s) <| run_state := VM_STOPPED |> <| vm_regs := mk_v3_gprs 0 0 0 0 0 0 0 0 |> |>).

(** The beginning of start_svm_guest, before the loop of [svm_step]. *)
Definition start_svm_guest (s : vm) : vm := s <| info := (info s) <| run_state := VM_RUNNING |> |>.

End guest.

(** ** The bitmap of I/O ports *)

Lemma testbit_u8 x b : 0 <= b < 8 -> Z.testbit (u8 x) b = Z.testbit x b.
Proof. intros Hb. apply Z.mod_pow2_bits_low. lia. Qed.

Lemma set_port_bit m bitmap p q :
  Z.testbit (load8 (set_port m bitmap p) (bitmap + q / 8)) (q mod 8) =
  Z.testbit (load8 m (bitmap + q / 8)) (q mod 8) || (q =? p).
Proof.
  pose proof (Z.mod_pos_bound q 8 ltac:(lia)) as Hq. pose proof (Z.mod_pos_bound p 8 ltac:(lia)) as Hp.
  pose proof (Z.div_mod q 8 ltac:(lia)) as Hq'. pose proof (Z.div_mod p 8 ltac:(lia)) as Hp'.
  unfold set_port, load8 at 1, store8. rewrite testbit_u8 by lia.
  destruct (Z.eqb_spec (bitmap + q / 8) (bitmap + p / 8)) as [He|He].
  - rewrite testbit_u8, Z.lor_spec by lia. rewrite Z.shiftl_1_l, Z.pow2_bits_eqb by lia. rewrite <- He. f_equal.
    destruct (Z.eqb_spec (p mod 8) (q mod 8)), (Z.eqb_spec q p); lia.
  - unfold load8. rewrite testbit_u8 by lia. destruct (Z.eqb_spec q p) as [->|]; [lia|]. by rewrite orb_false_r.
Qed.

Lemma set_port_out m bitmap p x :
  is_u 16 p -> ~ bitmap <= x < bitmap + 8192 -> set_port m bitmap p x = m x.
Proof.
  intros Hp Hx. unfold set_port, store8. destruct (Z.eqb_spec x (bitmap + p / 8)); [|done].
  pose proof (Z.div_pos p 8). pose proof (Z.div_lt_upper_bound p 8 8192). unfold is_u in Hp. lia.
Qed.

(** The bitmap for a list of ports. *)
Definition set_ports (m : mem) (bitmap : Z) (ps : list Z) : mem := foldl (fun m p => set_port m bitmap p) m ps.

Lemma set_ports_bit m bitmap ps q :
  Z.testbit (load8 (set_ports m bitmap ps) (bitmap + q / 8)) (q mod 8) =
  Z.testbit (load8 m (bitmap + q / 8)) (q mod 8) || bool_decide (q ∈ ps).
Proof.
  revert m. induction ps as [|p ps IH]; intros m; cbn [set_ports foldl].
  - rewrite bool_decide_eq_false_2 by set_solver. by rewrite orb_false_r.
  - fold (set_ports (set_port m bitmap p) bitmap ps). rewrite IH, set_port_bit, <- orb_assoc. f_equal.
    destruct (Z.eqb_spec q p) as [->|Hne]; cbn [orb].
    + symmetry. apply bool_decide_eq_true_2. by left.
    + apply bool_decide_ext. set_solver.
Qed.

Lemma set_ports_out m bitmap ps x :
  Forall (is_u 16) ps -> ~ bitmap <= x < bitmap + 8192 -> set_ports m bitmap ps x = m x.
Proof.
  intros Hps Hx. revert m. induction Hps as [|p ps Hp _ IH]; intros m; [done|]. cbn [set_ports foldl].
  fold (set_ports (set_port m bitmap p) bitmap ps). by rewrite IH, set_port_out.
Qed.

Lemma iopm_loop_ok fuel h p l bitmap m :
  chain IoMap.io_next h p l -> (length l < fuel)%nat ->
  iopm_loop fuel h p bitmap m = Done (set_ports m bitmap (IoMap.entries h l).*1).
Proof.
  revert p l m. induction fuel as [|fuel IH]; intros p l m Hc Hf; [lia|]. cbn [iopm_loop].
  destruct l as [|x l].
  - apply chain_nil in Hc as ->. done.
  - apply chain_cons in Hc as (-> & Hx & _ & n & Hn & Hc). rewrite (proj2 (Z.eqb_neq _ _) Hx), (deref_some _ _ _ Hn).
    run. rewrite (IH _ l); [|done|cbn in Hf; lia]. by rewrite (IoMap.entries_cons _ _ _ _ Hn).
Qed.

(** The ports of an I/O map are 16 bits wide. *)
Definition io_ok (io : IoMap.vmm_io_map) (lio : list Z) : Prop :=
  IoMap.wf io lio /\ Forall (is_u 16) (IoMap.entries (IoMap.io_hooks io) lio).*1.

Lemma sorted_length (ps : list Z) : StronglySorted Z.lt ps -> Forall (is_u 16) ps -> Z.of_nat (length ps) <= 2 ^ 16.
Proof.
  intros Hs Hu. assert (NoDup ps) as Hn.
  { clear Hu. induction Hs as [|p ps _ IH Hp]; constructor; [|done]. intros Hin.
    rewrite Forall_forall in Hp. specialize (Hp p Hin). lia. }
  assert (length ps <= length (seqZ 0 (2 ^ 16)))%nat as Hl; [|rewrite length_seqZ in Hl; lia].
  apply submseteq_length, NoDup_submseteq; [done|].
  intros p Hp. rewrite Forall_forall in Hu. apply elem_of_seqZ. apply Hu in Hp. unfold is_u in Hp. lia.
Qed.

Lemma num_ports_pos io lio : io_ok io lio -> (IoMap.num_ports io >? 0) = bool_decide (lio <> []).
Proof.
  intros [[Hd Hs Hn] Hu]. pose proof (sorted_length _ Hs Hu) as Hl. rewrite length_fmap in Hl.
  assert (length (IoMap.entries (IoMap.io_hooks io) lio) = length lio) as He.
  { apply dchain_chain in Hd. revert Hd. generalize (IoMap.io_head io). clear.
    induction lio as [|x l IH]; intros p Hc; [done|]. apply chain_cons in Hc as (-> & _ & _ & n & Hx & Hc).
    rewrite (IoMap.entries_cons _ _ _ _ Hx). cbn. by rewrite (IH _ Hc). }
  rewrite Hn, wrap_small by (unfold is_u; lia). destruct lio; [done|]. cbn [length].
  rewrite bool_decide_eq_true_2 by done. rewrite Z.gtb_ltb. apply Z.ltb_lt. lia.
Qed.


(** ** A guest that can be set up *)

Section boot.
Context {A : Arch} {Hos : OsHooks} {Hok : OsHooksOk}.
Implicit Types (l lio : list Z) (io : IoMap.vmm_io_map) (s : vm).

Definition iopm_pages (iopm : Z) : list Z := [iopm; iopm + PAGE_SIZE; iopm + 2 * PAGE_SIZE].

(** What is asked of the host: a guest with memory alone, in whole pages below 4GB, and
    distinct pages that are not the guest's from the allocator, the three of the bitmap at
    consecutive addresses.  The shadow CR3 is 0 until the guest first
    loads its own, so the VMM takes the page at the physical address 0 for its shadow
    tables: the page must be free, without entries. *)
Record bootable l lio io (iopm : Z) s : Prop := {
  bo_map : Passthrough.mappable (info s) l;
  bo_mem r : r ∈ GuestMem.regions_of (info s) l -> ShadowMap.host_type r = ShadowMap.HOST_REGION_PHYSICAL_MEMORY;
  bo_null : ShadowMap.regions (mem_map (info s)) !! NULL = None;
  bo_mode : shdw_pg_mode (info s) = SHADOW_PAGING;
  bo_io : io_ok io lio;
  bo_supply : (1026 <= length (supply (pool s)))%nat;
  bo_distinct : NoDup (NULL :: iopm_pages iopm ++ supply (pool s));
  bo_frames p : p ∈ NULL :: iopm_pages iopm ++ supply (pool s) ->
    frame_ok p /\ ~ guest_page (GuestMem.regions_of (info s) l) p;
  bo_iopm k : 0 <= k < 3 * PAGE_SIZE -> V3_VAddr (iopm + k) = V3_VAddr iopm + k;
  bo_first i : 0 <= i < 1024 -> Z.odd (load32 (hmem s) (Paging.slot NULL i)) = false;
}.

(** The memory after the bitmap is set up. *)
Definition iopm_mem io lio (iopm : Z) (m : mem) : mem :=
  if bool_decide (lio <> []) then
    set_ports (memset0 m (V3_VAddr iopm) (PAGE_SIZE * 3)) (V3_VAddr iopm) (IoMap.entries (IoMap.io_hooks io) lio).*1
  else m.

Lemma init_io_ports_ok l lio io iopm s0 s :
  bootable l lio io iopm s0 ->
  init_io_ports io iopm s = Done (if bool_decide (lio <> [])
    then upd_ctrl (s <| hmem := iopm_mem io lio iopm (hmem s) |>) (fun c =>
      c <| IOPM_BASE_PA := iopm |> <| instrs := intercept (instrs c) [I_IOIO_PROT] |>)
    else s).
Proof.
  intros Hb. pose proof (bo_io _ _ _ _ _ Hb) as Hio. unfold init_io_ports, iopm_mem.
  rewrite (num_ports_pos io lio Hio). case_bool_decide; [|done].
  destruct Hio as [[Hd _ _] _]. apply dchain_chain in Hd.
  rewrite (iopm_loop_ok _ _ _ lio); [|done|pose proof (chain_length _ _ _ _ Hd); lia].
  run. by rewrite os_back.
Qed.

(** The state that the set-up leaves, but for memory and the pages of the allocator. *)
Definition boot_info (i : guest_info) (pd : Z) : guest_info :=
  i <| vm_regs := mk_v3_gprs 0 0 0 0 0 0 0 0 |> <| run_state := VM_STOPPED |> <| direct_map_pt := pd |>
    <| shdw_pg_state := (shdw_pg_state i) <| shadow_cr3 := 0 |> <| guest_cr0 := 0x10 |> |>.

Lemma boot_supply_ok v pd ps :
  (1024 <= length ps)%nat -> NoDup (pd :: ps) -> (forall p, p ∈ ps -> p <> NULL /\ frame_ok p) ->
  Passthrough.supply_ok v {[pd]} 0 1024 ps.
Proof.
  intros Hl [Hn Hd]%NoDup_cons Hf. split; [done| |].
  - intros k p _ Hp%list_elem_of_lookup_2. destruct (Hf p Hp) as (? & ? & ? & ?). split_and!; [done..|]. set_solver.
  - intros k k' p Hk H1 H2. pose proof (NoDup_lookup _ _ _ _ Hd H1 H2). lia.
Qed.

Lemma mappable_same i i' l :
  Passthrough.mappable i l -> mem_map i' = mem_map i -> Passthrough.mappable i' l.
Proof.
  intros [[H1 H2 H3 H4] Ht Hlo] Hm. assert (GuestMem.regions_of i' l = GuestMem.regions_of i l) as Hr
    by (unfold GuestMem.regions_of; by rewrite Hm).
  split; [split|..]; rewrite ?Hr, ?Hm; done.
Qed.

(** The tables are created in the memory [m0], with the pages after that of the VMCB. *)
Lemma create_ok l lio io iopm s vp pd ps i' m0 :
  bootable l lio io iopm s -> supply (pool s) = vp :: pd :: ps -> mem_map i' = mem_map (info s) ->
  exists m pl, Passthrough.create_passthrough_pts_32 i' m0 ((pool s) <| supply := pd :: ps |>) =
      Done (V3_VAddr pd, m, pl) /\
    supply pl = drop 1024 ps /\
    (forall i, 0 <= i < 1024 -> Passthrough.table_ok (fun q => q ∈ take 1024 ps) m pd (GuestMem.regions_of (info s) l) i) /\
    (forall x, (forall q, q ∈ pd :: take 1024 ps -> ~ Passthrough.in_page q x) -> m x = m0 x).
Proof.
  intros Hb Hs Hmm. pose proof (bo_distinct _ _ _ _ _ Hb) as Hd. pose proof (bo_frames _ _ _ _ _ Hb) as Hf.
  pose proof (bo_supply _ _ _ _ _ Hb) as Hl. rewrite Hs in Hd, Hf, Hl. cbn [length] in Hl.
  apply NoDup_cons in Hd as [Hnull Hd]. apply NoDup_app in Hd as (_ & _ & Hd). apply NoDup_cons in Hd as [_ Hd].
  destruct (Passthrough.create_pts_spec (fun q => q ∈ take 1024 ps) i' l m0 ((pool s) <| supply := pd :: ps |>) pd ps)
    as (m & pl & Hc & Ht & Hsu).
  - eapply mappable_same; [apply (bo_map _ _ _ _ _ Hb)|done].
  - done.
  - intros ->. set_solver.
  - destruct (Hf pd) as [[? _] _]; [set_solver|done].
  - apply boot_supply_ok; [lia|done|]. intros p Hp. split; [intros ->; set_solver|]. apply Hf. set_solver.
  - by apply Forall_forall.
  - exists m, pl. assert (GuestMem.regions_of i' l = GuestMem.regions_of (info s) l) as <-
      by (unfold GuestMem.regions_of; by rewrite Hmm).
    split_and!; [done..|]. intros x Hx.
    eapply (Passthrough.create_pts_frame i' m0 _ pd ps); [exact Hc|done|apply Hx; set_solver|].
    intros q Hq. apply Hx. set_solver.
Qed.

(** The VMCB before the tables are set up. *)
Definition boot_vmcb0 (i : guest_info) (iopm : Z) (ports : bool) : vmcb_t :=
  let c := init_intercepts (ctrl_area zero_vmcb) in
  let c := if ports then c <| IOPM_BASE_PA := iopm |> <| instrs := intercept (instrs c) [I_IOIO_PROT] |> else c in
  mk_vmcb_t (c <| V_INTR_MASKING := 1 |> <| instrs := intercept (instrs c) [I_INTR] |>)
    (init_save_area i (save_area zero_vmcb)).

Definition boot_vmcb (i : guest_info) (pd iopm : Z) (ports : bool) : vmcb_t :=
  let v := boot_vmcb0 i iopm ports in
  let c := ctrl_area v in
  mk_vmcb_t
    (c <| cr_reads := intercept (cr_reads c) [3] |> <| cr_writes := intercept (cr_writes c) [3] |>
       <| instrs := intercept (instrs c) [I_INVLPG; I_INVLPGA] |>
       <| exceptions := intercept (exceptions c) [14] |> <| TLB_CONTROL := 1 |>)
    ((save_area v) <| sv_cr3 := pd |> <| sv_g_pat := 0x7040600070406 |> <| sv_cr0 := 0xe0000010 |>).

Lemma init_vmcb_before l lio io iopm s0 i m pl d :
  bootable l lio io iopm s0 ->
  shdw_pg_mode i = SHADOW_PAGING ->
  Init_VMCB_BIOS io iopm (mk_vm i m pl d zero_vmcb) =
  init_shadow_paging (mk_vm (i <| vm_regs := (vm_regs i) <| rdx := 0xf00 |> |>) (iopm_mem io lio iopm m) pl d
    (boot_vmcb0 i iopm (bool_decide (lio <> [])))).
Proof.
  intros Hb Hm. unfold Init_VMCB_BIOS. cbv zeta. rewrite (init_io_ports_ok l lio io iopm s0) by done. run.
  unfold iopm_mem. destruct (bool_decide (lio <> [])); cbn [upd_ctrl upd_save info];
    match goal with |- context [match shdw_pg_mode ?j with _ => _ end] => change (shdw_pg_mode j) with (shdw_pg_mode i) end;
    by rewrite Hm.
Qed.

Lemma init_shadow_done i m0 pl0 d v pd m pl :
  Passthrough.create_passthrough_pts_32 i m0 pl0 = Done (V3_VAddr pd, m, pl) -> sv_cr0 (save_area v) = 0x60000010 ->
  init_shadow_paging (mk_vm i m0 pl0 d v) = Done (mk_vm
    (i <| direct_map_pt := pd |> <| shdw_pg_state := (shdw_pg_state i) <| shadow_cr3 := 0 |> <| guest_cr0 := 0x10 |> |>)
    m pl d (mk_vmcb_t
      ((ctrl_area v) <| cr_reads := intercept (cr_reads (ctrl_area v)) [3] |>
         <| cr_writes := intercept (cr_writes (ctrl_area v)) [3] |>
         <| instrs := intercept (instrs (ctrl_area v)) [I_INVLPG; I_INVLPGA] |>
         <| exceptions := intercept (exceptions (ctrl_area v)) [14] |> <| TLB_CONTROL := 1 |>)
      ((save_area v) <| sv_cr3 := pd |> <| sv_g_pat := 0x7040600070406 |> <| sv_cr0 := 0xe0000010 |>))).
Proof.
  intros Hc H0. unfold init_shadow_paging. cbn [info hmem pool]. rewrite Hc. run. rewrite os_back.
  destruct v as [c g]. cbn in H0. unfold upd_save, upd_ctrl. cbn. by rewrite H0.
Qed.

(** The set-up succeeds. *)
Lemma init_ok l lio io iopm s vp pd ps :
  bootable l lio io iopm s -> supply (pool s) = vp :: pd :: ps ->
  exists m pl, init_svm_guest io iopm s = Done (0, mk_vm (boot_info (info s) pd) m pl (decoder s)
      (boot_vmcb (info s) pd iopm (bool_decide (lio <> [])))) /\
    supply pl = drop 1024 ps /\
    (forall i, 0 <= i < 1024 -> Passthrough.table_ok (fun q => q ∈ take 1024 ps) m pd (GuestMem.regions_of (info s) l) i) /\
    (forall x, (forall q, q ∈ pd :: take 1024 ps -> ~ Passthrough.in_page q x) ->
       m x = iopm_mem io lio iopm (memset0 (hmem s) (V3_VAddr vp) PAGE_SIZE) x).
Proof.
  intros Hb Hs. pose proof (bo_mode _ _ _ _ _ Hb) as Hm.
  destruct (create_ok l lio io iopm s vp pd ps ((info s) <| vm_regs := (vm_regs (info s)) <| rdx := 0xf00 |> |>)
    (iopm_mem io lio iopm (memset0 (hmem s) (V3_VAddr vp) PAGE_SIZE)) Hb Hs) as (m & pl & Hc & Hsu & Ht & Hx);
    [reflexivity|].
  exists m, pl. split_and!; [|done..]. unfold init_svm_guest, Allocate_VMCB, V3_AllocPages. rewrite Hs.
  destruct s as [i h p d v]. cbn [info hmem pool] in *.
  match goal with |- context [Init_VMCB_BIOS io iopm ?s1] =>
    change s1 with (mk_vm i (memset0 h (V3_VAddr vp) PAGE_SIZE) (p <| supply := pd :: ps |>) d zero_vmcb) end.
  rewrite (init_vmcb_before l lio io iopm _ i _ _ _ Hb Hm).
  erewrite init_shadow_done; [|exact Hc|done]. run. by destruct i.
Qed.


(** ** The memory after the set-up *)

Lemma in_page_apart p q x :
  page_aligned p -> page_aligned q -> p <> q -> Passthrough.in_page p x -> ~ Passthrough.in_page q x.
Proof. unfold Passthrough.in_page. intros Hp Hq Hne H1 H2. pose proof (pages_apart p q Hp Hq Hne). lia. Qed.

Lemma iopm_in_page l lio io iopm s k :
  bootable l lio io iopm s -> 0 <= k < 3 * PAGE_SIZE ->
  exists p, p ∈ iopm_pages iopm /\ Passthrough.in_page p (V3_VAddr iopm + k).
Proof.
  intros Hb Hk. pose proof (bo_iopm _ _ _ _ _ Hb) as Hl.
  assert (forall j, 0 <= j < 3 -> PAGE_SIZE * j <= k < PAGE_SIZE * (j + 1) ->
    Passthrough.in_page (iopm + PAGE_SIZE * j) (V3_VAddr iopm + k)) as Hp.
  { intros j Hj Hkj. unfold Passthrough.in_page. rewrite Hl by lia. lia. }
  unfold iopm_pages. destruct (Z_lt_ge_dec k PAGE_SIZE); [|destruct (Z_lt_ge_dec k (2 * PAGE_SIZE))].
  - exists iopm. split; [set_solver|]. rewrite <- (Z.add_0_r iopm) at 1. apply (Hp 0); lia.
  - exists (iopm + PAGE_SIZE). split; [set_solver|]. apply (Hp 1); lia.
  - exists (iopm + 2 * PAGE_SIZE). split; [set_solver|]. apply (Hp 2); lia.
Qed.

(** The pages that the set-up uses are apart. *)
Lemma boot_apart l lio io iopm s p q x :
  bootable l lio io iopm s -> p ∈ NULL :: iopm_pages iopm ++ supply (pool s) ->
  q ∈ NULL :: iopm_pages iopm ++ supply (pool s) -> p <> q ->
  Passthrough.in_page p x -> ~ Passthrough.in_page q x.
Proof.
  intros Hb Hp Hq Hne. apply in_page_apart; [..|done].
  - apply (bo_frames _ _ _ _ _ Hb p Hp).
  - apply (bo_frames _ _ _ _ _ Hb q Hq).
Qed.

Lemma boot_distinct l lio io iopm s p q :
  bootable l lio io iopm s -> p ∈ NULL :: iopm_pages iopm -> q ∈ supply (pool s) -> p <> q.
Proof.
  intros Hb Hp Hq <-. pose proof (bo_distinct _ _ _ _ _ Hb) as Hd. rewrite app_comm_cons in Hd.
  apply NoDup_app in Hd as (_ & Hd & _). by apply (Hd p).
Qed.

(** Memory that is not written: the page at 0. *)
Lemma iopm_mem_out l lio io iopm s m x :
  bootable l lio io iopm s -> (forall p, p ∈ iopm_pages iopm -> ~ Passthrough.in_page p x) ->
  iopm_mem io lio iopm m x = m x.
Proof.
  intros Hb Hx. unfold iopm_mem. case_bool_decide; [|done].
  assert (~ V3_VAddr iopm <= x < V3_VAddr iopm + 3 * PAGE_SIZE) as Hn.
  { intros Hr. destruct (iopm_in_page l lio io iopm s (x - V3_VAddr iopm) Hb) as (p & Hp & Hin); [lia|].
    replace (V3_VAddr iopm + (x - V3_VAddr iopm)) with x in Hin by lia. by apply (Hx p). }
  rewrite set_ports_out; [|apply (bo_io _ _ _ _ _ Hb)|lia]. unfold memset0.
  destruct (_ && _) eqn:E; [|done]. apply andb_true_iff in E as [?%Z.leb_le ?%Z.ltb_lt]. lia.
Qed.

Lemma memset0_out m p x : ~ Passthrough.in_page p x -> memset0 m (V3_VAddr p) PAGE_SIZE x = m x.
Proof.
  intros Hx. unfold memset0. destruct (_ && _) eqn:E; [|done].
  apply andb_true_iff in E as [?%Z.leb_le ?%Z.ltb_lt]. by destruct Hx.
Qed.

Lemma boot_page0 l lio io iopm s vp pd ps m x :
  bootable l lio io iopm s -> supply (pool s) = vp :: pd :: ps ->
  (forall x, (forall q, q ∈ pd :: take 1024 ps -> ~ Passthrough.in_page q x) ->
     m x = iopm_mem io lio iopm (memset0 (hmem s) (V3_VAddr vp) PAGE_SIZE) x) ->
  Passthrough.in_page NULL x -> m x = hmem s x.
Proof.
  intros Hb Hs Hm Hx.
  assert (forall q, q ∈ iopm_pages iopm ++ supply (pool s) -> ~ Passthrough.in_page q x) as Hq.
  { intros q Hq. apply (boot_apart l lio io iopm s NULL q x Hb); [by left|by right| |done].
    intros <-. pose proof (bo_distinct _ _ _ _ _ Hb) as [Hn _]%NoDup_cons. done. }
  rewrite Hs in Hq. rewrite Hm.
  - rewrite (iopm_mem_out l lio io iopm s) by (done || (intros p Hp; apply Hq, elem_of_app; by left)).
    apply memset0_out, Hq, elem_of_app. right. by left.
  - intros q Hin. apply Hq, elem_of_app. right. right. apply elem_of_cons in Hin as [->|Hin]; [by left|].
    right. eapply subseteq_take; exact Hin.
Qed.

Lemma boot_iopm l lio io iopm s vp pd ps m k :
  bootable l lio io iopm s -> supply (pool s) = vp :: pd :: ps ->
  (forall x, (forall q, q ∈ pd :: take 1024 ps -> ~ Passthrough.in_page q x) ->
     m x = iopm_mem io lio iopm (memset0 (hmem s) (V3_VAddr vp) PAGE_SIZE) x) ->
  0 <= k < 3 * PAGE_SIZE ->
  m (V3_VAddr iopm + k) = iopm_mem io lio iopm (memset0 (hmem s) (V3_VAddr vp) PAGE_SIZE) (V3_VAddr iopm + k).
Proof.
  intros Hb Hs Hm Hk. apply Hm. intros q Hq.
  destruct (iopm_in_page l lio io iopm s k Hb Hk) as (p & Hp & Hin).
  assert (q ∈ supply (pool s)) as Hq'.
  { rewrite Hs. right. apply elem_of_cons in Hq as [->|Hq]; [by left|]. right. eapply subseteq_take; exact Hq. }
  apply (boot_apart l lio io iopm s p q _ Hb); [right; apply elem_of_app; by left|right; apply elem_of_app; by right| |done].
  apply (boot_distinct l lio io iopm s p q Hb); [by right|done].
Qed.

(** What the processor does with an access to a port: it exits when protection is on and the
    bit of the port is set. *)
Definition io_trap (s : vm) (prt : Z) : bool :=
  Z.testbit (instrs (ctrl_area (vmcb s))) I_IOIO_PROT &&
  Z.testbit (load8 (hmem s) (V3_VAddr (IOPM_BASE_PA (ctrl_area (vmcb s)) + prt / 8))) (prt mod 8).

Lemma hooked_port io lio prt :
  IoMap.wf io lio -> exists h, IoMap.v3_get_io_hook io prt = Done h /\
    (h <> NULL <-> prt ∈ (IoMap.entries (IoMap.io_hooks io) lio).*1).
Proof.
  intros Hwf. destruct (IoMap.get_io_hook_spec io lio prt Hwf) as (h & Hh & Hc). exists h. split; [done|].
  destruct Hc as [[-> Hn]|(n & Hn & _ & _ & _ & Ha)].
  - split; [done|]. intros Hin. exfalso. by apply not_elem_of_list_to_map in Hn.
  - split; [intros _|done]. apply elem_of_list_to_map_2, (list_elem_of_fmap_2 fst) in Ha. done.
Qed.

(** C7. A guest's I/O reaches the VMM exactly where the VMM handles it: after the set-up, the
    processor exits on an access to a port if and only if the I/O map has a hook for the
    port, so that the exit handler finds a handler for every access that exits, and ports
    without one are the processor's. *)
Theorem io_ports_trapped l lio io iopm s :
  bootable l lio io iopm s ->
  exists s', init_svm_guest io iopm s = Done (0, s') /\
    forall prt, is_u 16 prt -> exists h, IoMap.v3_get_io_hook io prt = Done h /\ (io_trap s' prt = true <-> h <> NULL).
Proof.
  intros Hb. pose proof (bo_supply _ _ _ _ _ Hb) as Hl.
  destruct (supply (pool s)) as [|vp [|pd ps]] eqn:Hs; [cbn in Hl; lia..|].
  destruct (init_ok l lio io iopm s vp pd ps Hb Hs) as (m & pl & Hi & _ & _ & Hm). eexists. split; [exact Hi|].
  intros prt Hp. destruct (hooked_port io lio prt (proj1 (bo_io _ _ _ _ _ Hb))) as (h & Hh & Hin).
  exists h. split; [done|]. rewrite Hin. unfold io_trap. cbn [vmcb hmem].
  case_bool_decide as Hne.
  - change (Z.testbit (instrs (ctrl_area (boot_vmcb (info s) pd iopm true))) I_IOIO_PROT) with true.
    change (IOPM_BASE_PA (ctrl_area (boot_vmcb (info s) pd iopm true))) with iopm. cbn [andb].
    assert (0 <= prt / 8 < 3 * PAGE_SIZE) as Hk.
    { unfold is_u in Hp. split; [apply Z.div_pos; lia|apply Z.div_lt_upper_bound; lia]. }
    rewrite (bo_iopm _ _ _ _ _ Hb) by done. unfold load8 at 1.
    rewrite (boot_iopm l lio io iopm s vp pd ps m _ Hb Hs Hm Hk). unfold iopm_mem.
    rewrite bool_decide_eq_true_2 by done. fold (load8 (set_ports
      (memset0 (memset0 (hmem s) (V3_VAddr vp) PAGE_SIZE) (V3_VAddr iopm) (PAGE_SIZE * 3)) (V3_VAddr iopm)
      (IoMap.entries (IoMap.io_hooks io) lio).*1) (V3_VAddr iopm + prt / 8)).
    rewrite set_ports_bit. unfold load8 at 1, memset0 at 1.
    rewrite (proj2 (andb_true_iff _ _)) by (split; [apply Z.leb_le|apply Z.ltb_lt]; lia).
    change (u8 0) with 0. rewrite Z.bits_0. cbn [orb]. by rewrite bool_decide_eq_true.
  - change (Z.testbit (instrs (ctrl_area (boot_vmcb (info s) pd iopm false))) I_IOIO_PROT) with false. cbn [andb].
    assert (lio = []) as -> by (destruct lio; [done|by destruct Hne]). split; [done|]. cbn. set_solver.
Qed.

(** ** The guest starts confined *)

(** The page tables of the direct map. *)
Definition direct_tables (v : list ShadowMap.shadow_region) (m : mem) (pd : Z) : gset Z :=
  list_to_set ((fun i => PAGE_SIZE * Paging.Pde32.pt_base_addr (Paging.get_pde32 m (V3_VAddr pd) i)) <$>
    filter (fun i => Passthrough.table_used v i = true) (seqZ 0 1024)).

Lemma aligned_base q : page_aligned q -> PAGE_SIZE * (q / PAGE_SIZE) = q.
Proof. unfold page_aligned. intros Hq. pose proof (Z.div_mod q PAGE_SIZE). lia. Qed.

Lemma direct_table v m pd P q :
  (forall i, 0 <= i < 1024 -> Passthrough.table_ok P m pd v i) -> q ∈ direct_tables v m pd ->
  exists i, 0 <= i < 1024 /\ P q /\ page_aligned q /\ is_u 32 q /\
    forall j, 0 <= j < 1024 -> Paging.get_pte32 m (V3_VAddr q) j =
      Passthrough.pte_for (Passthrough.gpa_hpa v (PAGE_SIZE * (1024 * i + j))).
Proof.
  intros Ht Hq. apply elem_of_list_to_set, list_elem_of_fmap in Hq as (i & -> & Hi).
  apply list_elem_of_filter in Hi as [Hu Hi%elem_of_seqZ]. assert (0 <= i < 1024) as Hir by lia.
  specialize (Ht i Hir). unfold Passthrough.table_ok in Ht. rewrite Hu in Ht.
  destruct Ht as (q & HP & Hal & Hqu & Hpde & Hpte). rewrite Hpde. cbn [Paging.Pde32.pt_base_addr].
  rewrite aligned_base by done. by exists i.
Qed.

Lemma gpa_guest_page v a pa :
  Passthrough.gpa_hpa v a = Some pa -> (forall r, ShadowMap.lookup_list v a = Some r -> r ∈ v /\ ShadowMap.inside r a) ->
  guest_page v (PAGE_SIZE * (pa / PAGE_SIZE)).
Proof.
  unfold Passthrough.gpa_hpa. destruct (ShadowMap.lookup_list v a) as [r|] eqn:E; [|done]. cbn.
  intros H Hr. destruct (Hr r eq_refl) as [Hin Hi]. destruct (ShadowMap.host_type r) eqn:Hty; try done.
  injection H as <-. split; [unfold page_aligned; rewrite Z.mul_comm; by apply Z_mod_mult|]. by exists r, a.
Qed.

Lemma boot_direct_iso l lio io iopm s vp pd ps m :
  bootable l lio io iopm s -> supply (pool s) = vp :: pd :: ps ->
  (forall i, 0 <= i < 1024 -> Passthrough.table_ok (fun q => q ∈ take 1024 ps) m pd (GuestMem.regions_of (info s) l) i) ->
  let D := direct_tables (GuestMem.regions_of (info s) l) m pd in
  isolated_but nowhere (GuestMem.regions_of (info s) l) pd D [] m /\ forall q, q ∈ D -> q ∈ take 1024 ps.
Proof.
  intros Hb Hs Ht D. set (v := GuestMem.regions_of (info s) l) in *.
  assert (forall q, q ∈ D -> q ∈ take 1024 ps) as HD.
  { intros q Hq. by destruct (direct_table v m pd _ q Ht Hq) as (i & _ & Hin & _). }
  assert (forall q, q ∈ pd :: ps -> frame_ok q /\ ~ guest_page v q) as Hf.
  { intros q Hq. apply (bo_frames _ _ _ _ _ Hb). rewrite Hs. right. apply elem_of_app. right. by right. }
  assert (forall q, q ∈ {[pd]} ∪ D -> q ∈ pd :: ps) as HpD.
  { intros q [->%elem_of_singleton|Hq%HD]%elem_of_union; [by left|]. right. eapply subseteq_take; exact Hq. }
  split; [|done]. split; try done.
  - intros p Hp. by apply Hf, HpD.
  - intros Hpd%HD. pose proof (bo_distinct _ _ _ _ _ Hb) as Hd. rewrite Hs in Hd.
    apply NoDup_cons in Hd as [_ Hd]. apply NoDup_app in Hd as (_ & _ & Hd).
    apply NoDup_cons in Hd as [_ Hd]. apply NoDup_cons in Hd as [Hn _]. apply Hn. eapply subseteq_take; exact Hpd.
  - intros p Hg Hp%HpD. by apply (proj2 (Hf p Hp)).
  - intros i Hi _. unfold pde_ok. cbv zeta. change (decode (load32 m (Paging.slot pd i))) with (Paging.get_pde32 m (V3_VAddr pd) i).
    specialize (Ht i Hi). pose proof Ht as Ht'. unfold Passthrough.table_ok in Ht.
    destruct (Passthrough.table_used v i) eqn:Hu.
    + destruct Ht as (q & _ & _ & _ & Hpde & _). rewrite Hpde. intros _. split; [done|].
      apply elem_of_list_to_set, list_elem_of_fmap. exists i. rewrite Hpde. split; [done|].
      apply list_elem_of_filter. split; [done|]. apply elem_of_seqZ. lia.
    + rewrite Ht. by intros [].
  - intros p j Hp Hj _. destruct (direct_table v m pd _ p Ht Hp) as (i & Hi & _ & _ & _ & He).
    unfold pte_ok. cbv zeta. change (decode (load32 m (Paging.slot p j))) with (Paging.get_pte32 m (V3_VAddr p) j).
    rewrite He by done. destruct (Passthrough.gpa_hpa v _) as [pa|] eqn:Hg; [intros _|by intros []].
    eapply gpa_guest_page; [exact Hg|]. intros r Hr. apply ShadowMap.lookup_list_some in Hr; [done|].
    apply (GuestMem.paged_wf _ _ (Passthrough.mp_paged _ _ (bo_map _ _ _ _ _ Hb))).
  - constructor.
  - intros p []%elem_of_nil.
Qed.

Lemma boot_shadow_iso l lio io iopm s vp pd ps m :
  bootable l lio io iopm s -> supply (pool s) = vp :: pd :: ps ->
  (forall x, Passthrough.in_page NULL x -> m x = hmem s x) ->
  isolated_but nowhere (GuestMem.regions_of (info s) l) NULL ∅ (drop 1024 ps) m.
Proof.
  intros Hb Hs Hm. pose proof (bo_distinct _ _ _ _ _ Hb) as [Hnull Hd]%NoDup_cons.
  pose proof (bo_frames _ _ _ _ _ Hb) as Hf. rewrite Hs in *.
  assert (forall p, p ∈ drop 1024 ps -> p ∈ iopm_pages iopm ++ vp :: pd :: ps) as Hdr.
  { intros p Hp. apply elem_of_app. right. right. right. eapply subseteq_drop; exact Hp. }
  split; try done.
  - intros p [->%elem_of_singleton|[]%not_elem_of_empty]%elem_of_union. apply (Hf NULL). by left.
  - intros p Hg [->%elem_of_singleton|[]%not_elem_of_empty]%elem_of_union. by apply (proj2 (Hf NULL ltac:(by left))).
  - intros i Hi _. unfold pde_ok. cbv zeta.
    assert (load32 m (Paging.slot NULL i) = load32 (hmem s) (Paging.slot NULL i)) as ->.
    { apply loadn_ext. intros j Hj. apply Hm. unfold Passthrough.in_page, Paging.slot. lia. }
    intros []. change (field (load32 (hmem s) (Paging.slot NULL i)) 0 1 = 0). unfold field.
    rewrite Z.div_1_r. change (2 ^ 1) with 2. pose proof (bo_first _ _ _ _ _ Hb i Hi) as Ho.
    rewrite Zmod_odd, Ho. done.
  - apply NoDup_app in Hd as (_ & _ & Hd). apply NoDup_cons in Hd as [_ Hd]. apply NoDup_cons in Hd as [_ Hd].
    rewrite <- (take_drop 1024 ps) in Hd. by apply NoDup_app in Hd as (_ & _ & Hd).
  - intros p Hp%Hdr. destruct (Hf p) as [Hfp Hg]; [by right|]. split_and!; [by intros ->|done| |done].
    intros [->%elem_of_singleton|[]%not_elem_of_empty]%elem_of_union. done.
Qed.

Lemma boot_inv l lio io iopm s vp pd ps i' m pl d v :
  bootable l lio io iopm s -> supply (pool s) = vp :: pd :: ps ->
  mem_map i' = mem_map (info s) -> shadow_cr3 (shdw_pg_state i') = 0 -> supply pl = drop 1024 ps ->
  (forall x, Passthrough.in_page NULL x -> m x = hmem s x) ->
  inv nowhere ∅ l (mk_vm i' m pl d v).
Proof.
  intros Hb Hs Hmm Hc3 Hpl Hm. pose proof (bo_map _ _ _ _ _ Hb) as Hmp.
  assert (GuestMem.regions_of i' l = GuestMem.regions_of (info s) l) as Hr
    by (unfold GuestMem.regions_of; by rewrite Hmm).
  split; cbn [info hmem pool].
  - apply (mappable_same (info s) i' l); done.
  - rewrite Hr. intros r Hin. pose proof (bo_mem _ _ _ _ _ Hb r Hin) as Ht.
    split; [done|]. by apply (Passthrough.mp_low _ _ Hmp).
  - rewrite Hr, Hpl. unfold pd_of. cbn [info]. rewrite Hc3. change (PAGE_SIZE * (u32 0 / PAGE_SIZE)) with NULL.
    by eapply boot_shadow_iso.
Qed.

(** With any registers that start the guest on the direct map. *)
Lemma boot_safe l lio io iopm s vp pd ps i' m pl d v :
  bootable l lio io iopm s -> supply (pool s) = vp :: pd :: ps ->
  mem_map i' = mem_map (info s) -> shadow_cr3 (shdw_pg_state i') = 0 -> direct_map_pt i' = pd -> run_state i' = VM_RUNNING ->
  supply pl = drop 1024 ps ->
  (forall x, Passthrough.in_page NULL x -> m x = hmem s x) ->
  (forall i, 0 <= i < 1024 -> Passthrough.table_ok (fun q => q ∈ take 1024 ps) m pd (GuestMem.regions_of (info s) l) i) ->
  CtrlRegs.synced false i' ->
  Isolation.safe (mem_map (info s)) l ∅ (direct_tables (GuestMem.regions_of (info s) l) m pd) (mk_vm i' m pl d v).
Proof.
  intros Hb Hs Hmm Hc3 Hdm Hrs Hpl Hm Ht Hsy. split; [|exact Hsy].
  destruct (boot_direct_iso l lio io iopm s vp pd ps m Hb Hs Ht) as [Hiso HD].
  pose proof (bo_distinct _ _ _ _ _ Hb) as [Hnull Hd]%NoDup_cons. rewrite Hs in Hnull, Hd.
  apply NoDup_app in Hd as (_ & _ & Hd). apply NoDup_cons in Hd as [_ Hd]. apply NoDup_cons in Hd as [Hpd Hd].
  assert (frame_ok pd) as Hf.
  { apply (bo_frames _ _ _ _ _ Hb). rewrite Hs. right. apply elem_of_app. right. right. by left. }
  assert (Isolation.direct_pd i' = pd) as Hdp.
  { unfold Isolation.direct_pd. rewrite Hdm. destruct Hf as (Hal & Hu & _). rewrite wrap_small by done. by apply aligned_base. }
  split; cbn [info hmem pool].
  - by eapply boot_inv.
  - rewrite Hmm. apply (bo_null _ _ _ _ _ Hb).
  - rewrite Hdp. assert (GuestMem.regions_of i' l = GuestMem.regions_of (info s) l) as ->
      by (unfold GuestMem.regions_of; by rewrite Hmm). exact Hiso.
  - rewrite Hdp, Hpl. unfold pd_of. cbn [info]. rewrite Hc3. change (PAGE_SIZE * (u32 0 / PAGE_SIZE)) with NULL.
    intros q [->%elem_of_singleton|Hq%HD]%elem_of_union.
    + split; [|intros Hq; apply Hpd; eapply subseteq_drop; exact Hq].
      intros [E%elem_of_singleton|[]%not_elem_of_empty]%elem_of_union. rewrite E in Hnull. set_solver.
    + split.
      * intros [E%elem_of_singleton|[]%not_elem_of_empty]%elem_of_union. apply Hnull, elem_of_app. right. right. right.
        rewrite <- E. eapply subseteq_take; exact Hq.
      * intros Hq'. rewrite <- (take_drop 1024 ps) in Hd. apply NoDup_app in Hd as (_ & Hd & _). by apply (Hd q).
  - by rewrite Hrs.
  - done.
Qed.

Lemma boot_synced i pd iopm ports :
  shdw_pg_mode i = SHADOW_PAGING -> frame_ok pd ->
  CtrlRegs.synced false
    (load_regs ((boot_info i pd) <| run_state := VM_RUNNING |>) (boot_vmcb i pd iopm ports)).
Proof.
  intros Hm (_ & Hu & _). split.
  - exact Hm.
  - change (CtrlRegs.in_step false (low32 0xe0000010) (low32 0x10)). by vm_compute.
  - rewrite CtrlRegs.get_mem_mode_shadow by exact Hm. 
    change (guest_cr0 (shdw_pg_state _)) with 0x10. change (Cr0.pg (low32 0x10) =? 0) with true. cbv iota.
    change (pd = ulong pd). symmetry. by apply ulong_small, is_addr_u32.
Qed.


Lemma boot_regs i0 pd iopm ports :
  shdw_pg_mode i0 = SHADOW_PAGING ->
  let i := load_regs (boot_info i0 pd) (boot_vmcb i0 pd iopm ports) in
  cpu_mode i = REAL /\ mem_mode i = PHYSICAL_MEM /\ cpl i = 0 /\ vm_regs i = mk_v3_gprs 0 0 0 (rsp (vm_regs i0)) 0 0 0 0 /\
  rflags (ctrl_regs i) = 2 /\ selector (cs (segments i)) = 0xf000 /\
  Decoder.get_addr_linear i (rip i) (cs (segments i)) = 0xffff0.
Proof.
  intros Hm i.
  assert (cpu_mode i = REAL) as Hc.
  { unfold i, load_regs. cbv zeta. unfold update_modes. cbv zeta.
    match goal with |- context [v3_get_cpu_mode ?j] => change (v3_get_cpu_mode j = REAL) end.
    unfold v3_get_cpu_mode, visible_cr0. change (shdw_pg_mode (_ <| segments := _ |>)) with (shdw_pg_mode i0). by rewrite Hm. }
  split_and!; try reflexivity; [exact Hc| |].
  - unfold i, load_regs. cbv zeta. unfold update_modes. cbv zeta.
    match goal with |- context [v3_get_mem_mode ?j] => change (v3_get_mem_mode j = PHYSICAL_MEM) end.
    rewrite CtrlRegs.get_mem_mode_shadow by exact Hm. reflexivity.
  - unfold Decoder.get_addr_linear. rewrite Hc. change (ulong (0xfff0 + 0xf0000) = 0xffff0).
    by apply ulong_small, is_addr_u32.
Qed.

(** The guest starts as a processor after reset: in real mode, without paging, at the
    last 16 bytes of the first megabyte, with interrupts disabled and, but for RDX, which
    should hold the processor's identity, the registers it should have. *)
Theorem boot_reset l lio io iopm s :
  bootable l lio io iopm s ->
  exists s', init_svm_guest io iopm s = Done (0, s') /\
    let i := load_regs (info s') (vmcb s') in
    cpu_mode i = REAL /\ mem_mode i = PHYSICAL_MEM /\ cpl i = 0 /\ vm_regs i = mk_v3_gprs 0 0 0 (rsp (vm_regs (info s))) 0 0 0 0 /\
    rflags (ctrl_regs i) = 2 /\ selector (cs (segments i)) = 0xf000 /\
    Decoder.get_addr_linear i (rip i) (cs (segments i)) = 0xffff0.
Proof.
  intros Hb. pose proof (bo_supply _ _ _ _ _ Hb) as Hl. pose proof (bo_mode _ _ _ _ _ Hb) as Hmo.
  destruct (supply (pool s)) as [|vp [|pd ps]] eqn:Hs; [cbn in Hl; lia..|].
  destruct (init_ok l lio io iopm s vp pd ps Hb Hs) as (mm & pl & Hi & _). eexists. split; [exact Hi|].
  cbn [info vmcb]. apply (boot_regs (info s) pd iopm _ Hmo).
Qed.

End boot.

(** ** The capability of the processor *)

(** A processor on which SVM is disabled is taken for capable.  The bit SVMDIS of VM_CR
    is bit 4, and its mask is compared with 1, so that v3_is_svm_capable depends on CPUID
    alone. *)
Theorem svmdis_ignored cpuid msr :
  v3_is_svm_capable cpuid msr =
    (if Z.land (c_ecx (cpuid CPUID_FEATURE_IDS)) CPUID_FEATURE_IDS_ecx_svm_avail =? 0 then 0 else 1).
Proof.
  unfold v3_is_svm_capable. destruct (_ =? 0); [done|]. destruct (msr SVM_VM_CR_MSR) as [h low].
  destruct (Z.eqb_spec (Z.land low SVM_VM_CR_MSR_svmdis) 1) as [E|]; [|done].
  apply (f_equal (fun x => Z.testbit x 0)) in E. rewrite Z.land_spec in E. cbn in E. by rewrite andb_false_r in E.
Qed.

(** ** Witnesses

    The guest of Isolation.v, on a host that maps physical memory at 4GB, with the shadow
    page state as v3_init_shadow_page_state leaves it, a supply of pages from 1MB on, the
    bitmap at 8MB, and a hook on port 0x70. *)

#[local] Existing Instances Pic.intr_ops.

Definition boot_supply : list Z := (fun k => PAGE_SIZE * k) <$> seqZ 256 1030.

Definition boot_vm : vm :=
  snd (v3_init_shadow_page_state (A := V3_64BIT) (true, true)
    (mk_vm (info Isolation.high_vm) (fun _ => 0) (mk_page_pool boot_supply []) demo_decoder demo_vmcb)).

Abbreviation boot_bootable := (bootable (A := V3_64BIT) (Hos := Isolation.high_host) [1; 2] [1] IoMap.io_map_70 0x800000 boot_vm).

Lemma boot_supply_range p : p ∈ boot_supply -> page_aligned p /\ 0x100000 <= p < 0x600000.
Proof.
  unfold boot_supply. intros (k & -> & Hk%elem_of_seqZ)%list_elem_of_fmap. split; [|lia].
  unfold page_aligned. rewrite Z.mul_comm. by apply Z_mod_mult.
Qed.

Lemma boot_frame p : page_aligned p -> 0 <= p < 2 ^ 30 -> frame_ok (A := V3_64BIT) p.
Proof.
  intros Hp Hr. split_and!; [done|unfold is_u; lia|]. unfold Paging.sext. cbn [the_arch].
  by rewrite (proj2 (Z.ltb_lt _ _)) by lia.
Qed.

Lemma boot_guest_pages p :
  guest_page (GuestMem.regions_of (info boot_vm) [1; 2]) p -> 0x20000 <= p < 0x52000.
Proof.
  intros Hg. split; [|exact (proj1 (demo_guest_pages p Hg))].
  destruct Hg as [_ (r & a & Hr & _ & Ha & ->)]. set (x := _ + _).
  assert (0x20000 <= x) as Hx.
  { unfold x. revert Ha. unfold ShadowMap.inside.
    change (r ∈ [ShadowMap.mk_shadow_region ShadowMap.GUEST_REGION_PHYSICAL_MEMORY 0 0x2000
      ShadowMap.HOST_REGION_PHYSICAL_MEMORY 0x50000 0 0; ShadowMap.mk_shadow_region
      ShadowMap.GUEST_REGION_PHYSICAL_MEMORY 0x2000 0x4000 ShadowMap.HOST_REGION_PHYSICAL_MEMORY 0x20000 0 0]) in Hr.
    apply elem_of_cons in Hr as [->| ->%list_elem_of_singleton]; cbn; lia. }
  pose proof (Z.div_le_mono 0x20000 x PAGE_SIZE ltac:(lia) Hx) as Hd. change (0x20000 / PAGE_SIZE) with 32 in Hd. lia.
Qed.

Lemma boot_demo : boot_bootable.
Proof.
  assert (GuestMem.paged (A := V3_64BIT) (Hos := Isolation.high_host) (info boot_vm) [1; 2]) as Hp.
  { assert (GuestMem.paged (A := V3_64BIT) (Hos := Isolation.high_host) (info Isolation.high_vm) [1; 2])
      as [H1 H2 H3 H4] by apply Isolation.high_safe. by split. }
  assert (forall r, r ∈ GuestMem.regions_of (info boot_vm) [1; 2] ->
    ShadowMap.host_type r = ShadowMap.HOST_REGION_PHYSICAL_MEMORY /\
    ShadowMap.host_addr r + (ShadowMap.guest_end r - ShadowMap.guest_start r) <= 2 ^ 32) as Hr.
  { apply Forall_forall. do 2 (apply Forall_cons; split; [by split|]). constructor. }
  assert (forall p, p ∈ NULL :: iopm_pages 0x800000 ++ boot_supply ->
    p = NULL \/ p ∈ iopm_pages 0x800000 \/ page_aligned p /\ 0x100000 <= p < 0x600000) as Hpg.
  { intros p [->|[Hi|Hs%boot_supply_range]%elem_of_app]%elem_of_cons; auto. }
  split.
  - split; [done| |].
    + intros r Hin. destruct (Hr r Hin) as [-> _]. done.
    + intros r Hin _. by apply Hr.
  - intros r Hin. by apply Hr.
  - done.
  - done.
  - split; [apply IoMap.wf_io_map_70|]. by repeat constructor.
  - change (supply (pool boot_vm)) with boot_supply. unfold boot_supply. rewrite length_fmap, length_seqZ. lia.
  - change (supply (pool boot_vm)) with boot_supply. apply NoDup_cons. split; [|apply NoDup_app; split_and!].
    + intros [Hi|Hs%boot_supply_range]%elem_of_app; [|unfold NULL in Hs; lia].
      repeat (apply elem_of_cons in Hi as [Hi|Hi]; [done|]). by apply elem_of_nil in Hi.
    + repeat constructor; set_solver by lia.
    + intros p Hi Hs%boot_supply_range.
      repeat (apply elem_of_cons in Hi as [->|Hi]; [lia|]). by apply elem_of_nil in Hi.
    + unfold boot_supply. apply NoDup_fmap_2; [intros x y; lia|apply NoDup_seqZ].
  - intros p Hin. change (supply (pool boot_vm)) with boot_supply in Hin. destruct (Hpg p Hin) as [->|[Hi|[Ha Hb]]].
    + split; [by apply boot_frame|]. intros Hg%boot_guest_pages. unfold NULL in Hg. lia.
    + assert (page_aligned p /\ 0x800000 <= p < 2 ^ 30) as [Ha Hb].
      { repeat (apply elem_of_cons in Hi as [->|Hi]; [done|]). by apply elem_of_nil in Hi. }
      split; [apply boot_frame; [done|lia]|]. intros Hg%boot_guest_pages. lia.
    + split; [apply boot_frame; [done|lia]|]. intros Hg%boot_guest_pages. lia.
  - intros k Hk. unfold V3_VAddr. cbn [paddr_to_vaddr direct_map]. lia.
  - intros i Hi. reflexivity.
Qed.


Lemma io_ports_trapped_witness : exists s',
  init_svm_guest (A := V3_64BIT) (Hos := Isolation.high_host) IoMap.io_map_70 0x800000 boot_vm = Done (0, s') /\
  io_trap (Hos := Isolation.high_host) s' 0x70 = true.
Proof.
  assert (is_u 16 0x70) as Hu by done. assert (IoMap.v3_get_io_hook IoMap.io_map_70 0x70 = Done 1) as Hk by by vm_compute.
  destruct (io_ports_trapped (A := V3_64BIT) (Hos := Isolation.high_host) (Hok := direct_map_ok _)
    [1; 2] [1] IoMap.io_map_70 0x800000 boot_vm boot_demo) as (s' & Hi & Ht).
  exists s'. split; [exact Hi|]. destruct (Ht 0x70 Hu) as (h & Hh & Hn). apply Hn.
  rewrite Hk in Hh. injection Hh as <-. discriminate.
Defined.

Lemma boot_reset_witness : exists s',
  init_svm_guest (A := V3_64BIT) (Hos := Isolation.high_host) IoMap.io_map_70 0x800000 boot_vm = Done (0, s') /\
  cpu_mode (load_regs (info s') (vmcb s')) = REAL.
Proof.
  destruct (boot_reset (A := V3_64BIT) (Hos := Isolation.high_host) (Hok := direct_map_ok _)
    [1; 2] [1] IoMap.io_map_70 0x800000 boot_vm boot_demo) as (s' & Hi & Hc & _).
  exists s'. split; [exact Hi|exact Hc].
Defined.

End Svm.
