(* ===== verification/Pit.v ===== *)
(** The 8254 programmable interval timer: devices/8254.c, and the 64-bit division macros of
    vmm_util.h that it uses.

    [Module Pit] translates the three channels, the port handlers and the conversion of CPU
    cycles to oscillations of the timer's crystal.  The theorems relate the batched update of
    a channel to a tick-by-tick reference, show that no cycle is lost between updates, and
    that the bytes a guest writes and reads are those of the 16-bit counters. *)
From stdpp Require Import base tactics numbers list.
From S2P Require Import Prelude Intr.

(** [struct pit_cmd_word] *)
Module PitCmd.
Record pit_cmd_word := mk {
  bcd_mode : Z;
  op_mode : Z;
  access_mode : Z;
  channel : Z;
}.

#[global] Instance eta_pit_cmd_word : Eta pit_cmd_word := fun c =>
  mk (bcd_mode c) (op_mode c) (access_mode c) (channel c).

#[global, program] Instance bits_pit_cmd_word : BitStruct pit_cmd_word := {|
  bs_widths := [1; 3; 2; 2];
  bs_values c := [bcd_mode c; op_mode c; access_mode c; channel c];
  bs_make vs := mk (nth 0 vs 0) (nth 1 vs 0) (nth 2 vs 0) (nth 3 vs 0)
|}.
Solve All Obligations with solve_bitstruct.
End PitCmd.

Module Pit.
Import Intr.

Definition OSC_HZ : Z := 1193182.

Definition CHANNEL0_PORT : Z := 0x40.
Definition CHANNEL1_PORT : Z := 0x41.
Definition CHANNEL2_PORT : Z := 0x42.
Definition COMMAND_PORT : Z := 0x43.

Inductive channel_run_state := NOT_RUNNING | PENDING | RUNNING.
Inductive channel_access_state := NOT_WAITING | WAITING_LOBYTE | WAITING_HIBYTE.
Inductive channel_access_mode := LATCH_COUNT | LOBYTE_ONLY | HIBYTE_ONLY | LOBYTE_HIBYTE.

(** The three bits of a command word also hold the values 6 and 7, which the enumeration
    does not name. *)
Inductive channel_op_mode :=
  IRQ_ON_TERM_CNT | ONE_SHOT | RATE_GEN | SQR_WAVE | SW_STROBE | HW_STROBE | unnamed_mode (n : Z).

Inductive channel_latch_state := NOTLATCHED | LATCHED.
Inductive channel_read_state := LSB | MSB.

#[export] Instance channel_run_state_eq_dec : EqDecision channel_run_state.
Proof. solve_decision. Defined.
#[export] Instance channel_access_mode_eq_dec : EqDecision channel_access_mode.
Proof. solve_decision. Defined.
#[export] Instance channel_op_mode_eq_dec : EqDecision channel_op_mode.
Proof. solve_decision. Defined.

Definition op_mode_of (n : Z) : channel_op_mode :=
  match n with
  | 0 => IRQ_ON_TERM_CNT | 1 => ONE_SHOT | 2 => RATE_GEN
  | 3 => SQR_WAVE | 4 => SW_STROBE | 5 => HW_STROBE | n => unnamed_mode n
  end.

Definition access_mode_of (n : Z) : channel_access_mode :=
  match n with 0 => LATCH_COUNT | 1 => LOBYTE_ONLY | 2 => HIBYTE_ONLY | _ => LOBYTE_HIBYTE end.

Record channel := mk_channel {
  access_mode : channel_access_mode;
  access_state : channel_access_state;
  run_state : channel_run_state;
  op_mode : channel_op_mode;
  counter : Z;
  reload_value : Z;
  latched_value : Z;
  latch_state : channel_latch_state;
  read_state : channel_read_state;
  output_pin : Z;
  gate_input_pin : Z;
}.

#[export] Instance eta_channel : Eta channel := fun c =>
  mk_channel (access_mode c) (access_state c) (run_state c) (op_mode c) (counter c)
    (reload_value c) (latched_value c) (latch_state c) (read_state c) (output_pin c)
    (gate_input_pin c).

Record pit := mk_pit {
  pit_counter : Z;
  pit_reload : Z;
  ch_0 : channel;
  ch_1 : channel;
  ch_2 : channel;
}.

#[export] Instance eta_pit : Eta pit := fun s =>
  mk_pit (pit_counter s) (pit_reload s) (ch_0 s) (ch_1 s) (ch_2 s).

(** ** The passing of time *)

(** [x -= x % 2] when the channel generates a square wave. *)
Definition even_for (mode : channel_op_mode) (x : Z) : Z :=
  if decide (mode = SQR_WAVE) then u16 (x - x mod 2) else x.

(** The switch on the operating mode once the counter has expired. *)
Definition expire (ch : channel) (channel_cycles : Z) : Z * channel :=
  match op_mode ch with
  | IRQ_ON_TERM_CNT | ONE_SHOT =>
      if (0 <? channel_cycles) && (output_pin ch =? 0) then (1, ch <| output_pin := 1 |>)
      else (0, ch)
  | RATE_GEN => if 0 <? channel_cycles then (1, ch) else (0, ch)
  | SQR_WAVE =>
      let ch := ch <| output_pin := (output_pin ch + 1) mod 2 |> in
      (if output_pin ch =? 1 then 1 else 0, ch)
  | SW_STROBE | HW_STROBE => (-1, ch)
  | unnamed_mode _ => (0, ch)
  end.

(** The part after the run state is known to be RUNNING; the division is not guarded. *)
Definition running_tics (ch : channel) (oscillations : Z) : outcome (Z * channel) :=
  let oscillations := if decide (op_mode ch = SQR_WAVE) then u32 (oscillations * 2) else oscillations in
  if counter ch >? oscillations then Done (0, ch <| counter := u16 (counter ch - oscillations) |>)
  else
    let oscillations := u32 (oscillations - counter ch) in
    let ch := ch <| counter := 0 |> in
    let reload_val := even_for (op_mode ch) (reload_value ch) in
    if reload_val =? 0 then Undef
    else
      let channel_cycles := u32 (1 + oscillations / reload_val) in
      let oscillations := oscillations mod reload_val in
      Done (expire (ch <| counter := u16 (reload_val - oscillations) |>) channel_cycles).

Definition handle_crystal_tics (ch : channel) (oscillations : Z) : outcome (Z * channel) :=
  match run_state ch with
  | PENDING =>
      let oscillations := u32 (oscillations - 1) in
      let ch := ch <| counter := reload_value ch |> in
      let ch := ch <| counter := even_for (op_mode ch) (counter ch) |> in
      running_tics (ch <| run_state := RUNNING |>) oscillations
  | RUNNING => running_tics ch oscillations
  | NOT_RUNNING => Done (0, ch)
  end.

(** The loop of do_divll on 32-bit hosts: the quotient and the remainder. *)
Fixpoint divll_loop (fuel : nat) (num n base : Z) : outcome (Z * Z) :=
  match fuel with
  | O => OutOfFuel
  | S fuel => if n >? base then divll_loop fuel (u64 (num + 1)) (u64 (n - base)) base
              else Done (num, n)
  end.

(** do_div of 64-bit hosts: the base is cut to 32 bits. *)
Definition do_div (n base : Z) : outcome (Z * Z) :=
  let base := u32 base in
  if base =? 0 then Undef else Done (n / base, n mod base).

Definition do_divll {A : Arch} (fuel : nat) (n base : Z) : outcome (Z * Z) :=
  match the_arch with
  | V3_64BIT => do_div n base
  | V3_32BIT => divll_loop fuel 0 n base
  end.

(** The conversion of CPU cycles: the oscillations that have passed, and the new counter. *)
Definition take_cycles {A : Arch} (fuel : nat) (state : pit) (cpu_cycles : Z) : outcome (Z * pit) :=
  let cpu_cycles := u64 (cpu_cycles - pit_counter state) in
  let state := state <| pit_counter := 0 |> in
  '(oscillations, cpu_cycles) ←
    (if cpu_cycles >? pit_reload state then
       '(tmp_cycles, rem) ← do_divll fuel cpu_cycles (pit_reload state);
       Done (u32 (1 + tmp_cycles), rem)
     else Done (1, cpu_cycles));
  Done (oscillations, state <| pit_counter := u64 (pit_reload state - cpu_cycles) |>).

Section update.
Context {A : Arch} {C : Type} `{IntrCtrl C}.

Definition pit_update_time (fuel : nat) (state : pit) (vm : v3_intr_state C) (cpu_cycles : Z)
    : outcome (pit * v3_intr_state C) :=
  if pit_counter state >? cpu_cycles then
    Done (state <| pit_counter := u64 (pit_counter state - cpu_cycles) |>, vm)
  else
    '(oscillations, state) ← take_cycles fuel state cpu_cycles;
    '(changed, ch) ← handle_crystal_tics (ch_0 state) oscillations;
    let state := state <| ch_0 := ch |> in
    if changed =? 1 then '(_, vm) ← v3_raise_irq vm 0; Done (state, vm)
    else Done (state, vm).

(** The updates of a sequence of exits of the guest. *)
Fixpoint pit_run (fuel : nat) (state : pit) (vm : v3_intr_state C) (cs : list Z)
    : outcome (pit * v3_intr_state C) :=
  match cs with
  | [] => Done (state, vm)
  | c :: cs => '(state, vm) ← pit_update_time fuel state vm c; pit_run fuel state vm cs
  end.

End update.

(** ** The ports *)

(** The second switch of a write and of a command: the pin that the mode starts with; [None]
    for the modes that are not supported. *)
Definition initial_pin (mode : channel_op_mode) : option Z :=
  match mode with
  | IRQ_ON_TERM_CNT => Some 0
  | ONE_SHOT | RATE_GEN | SQR_WAVE => Some 1
  | _ => None
  end.

Definition set_initial_pin (ch : channel) (mode : channel_op_mode) : Z * channel :=
  match initial_pin mode with
  | Some pin => (0, ch <| output_pin := pin |>)
  | None => (-1, ch)
  end.

(** A new count starts the channel, except a rate generator that runs already. *)
Definition start_pending (ch : channel) : channel :=
  if bool_decide (op_mode ch <> RATE_GEN) || bool_decide (run_state ch <> RUNNING)
  then ch <| run_state := PENDING |> else ch.

(** [val] is the byte; it is a signed [char] in the code. *)
Definition handle_channel_write (ch : channel) (val : Z) : Z * channel :=
  match access_state ch with
  | WAITING_HIBYTE =>
      let tmp_val := u16 (Z.shiftl (u16 (char_to_int val)) 8) in
      let ch := ch <| reload_value := Z.land (reload_value ch) 0x00ff |> in
      let ch := ch <| reload_value := u16 (Z.lor (reload_value ch) tmp_val) |> in
      let ch := start_pending ch in
      let ch := if decide (access_mode ch = LOBYTE_HIBYTE) then ch <| access_state := WAITING_LOBYTE |>
                else ch in
      set_initial_pin ch (op_mode ch)
  | WAITING_LOBYTE =>
      let ch := ch <| reload_value := Z.land (reload_value ch) 0xff00 |> in
      let ch := ch <| reload_value := u16 (Z.lor (reload_value ch) (char_to_int val)) |> in
      let ch := if decide (access_mode ch = LOBYTE_HIBYTE) then ch <| access_state := WAITING_HIBYTE |>
                else start_pending ch in
      set_initial_pin ch (op_mode ch)
  | NOT_WAITING => (-1, ch)
  end.

(** The byte read and the channel. *)
Definition handle_channel_read (ch : channel) : Z * channel :=
  let myval := match latch_state ch with NOTLATCHED => counter ch | LATCHED => latched_value ch end in
  match read_state ch with
  | LSB => (u8 myval, ch <| read_state := MSB |>)
  | MSB => (u8 (Z.shiftr myval 8), ch <| read_state := LSB |> <| latch_state := NOTLATCHED |>)
  end.

Definition handle_channel_cmd (ch : channel) (cmd : PitCmd.pit_cmd_word) : Z * channel :=
  let ch := ch <| op_mode := op_mode_of (PitCmd.op_mode cmd) |> in
  let ch := ch <| access_mode := access_mode_of (PitCmd.access_mode cmd) |> in
  let ch :=
    match access_mode_of (PitCmd.access_mode cmd) with
    | LATCH_COUNT =>
        match latch_state ch with
        | NOTLATCHED => ch <| latched_value := counter ch |> <| latch_state := LATCHED |>
        | LATCHED => ch
        end
    | HIBYTE_ONLY => ch <| access_state := WAITING_HIBYTE |>
    | LOBYTE_ONLY | LOBYTE_HIBYTE => ch <| access_state := WAITING_LOBYTE |>
    end in
  set_initial_pin ch (op_mode_of (PitCmd.op_mode cmd)).

(** The result, the byte at [dst] and the state. *)
Definition pit_read_channel (state : pit) (port dst length : Z) : Z * Z * pit :=
  if negb (length =? 1) then (-1, dst, state)
  else if port =? CHANNEL0_PORT then
    let '(val, ch) := handle_channel_read (ch_0 state) in (length, val, state <| ch_0 := ch |>)
  else if port =? CHANNEL1_PORT then
    let '(val, ch) := handle_channel_read (ch_1 state) in (length, val, state <| ch_1 := ch |>)
  else if port =? CHANNEL2_PORT then
    let '(val, ch) := handle_channel_read (ch_2 state) in (length, val, state <| ch_2 := ch |>)
  else (-1, dst, state).

Definition pit_write_channel (state : pit) (port val length : Z) : Z * pit :=
  if negb (length =? 1) then (-1, state)
  else if port =? CHANNEL0_PORT then
    let '(r, ch) := handle_channel_write (ch_0 state) val in
    (if r =? -1 then -1 else length, state <| ch_0 := ch |>)
  else if port =? CHANNEL1_PORT then
    let '(r, ch) := handle_channel_write (ch_1 state) val in
    (if r =? -1 then -1 else length, state <| ch_1 := ch |>)
  else if port =? CHANNEL2_PORT then
    let '(r, ch) := handle_channel_write (ch_2 state) val in
    (if r =? -1 then -1 else length, state <| ch_2 := ch |>)
  else (-1, state).

Definition pit_write_command (state : pit) (src length : Z) : Z * pit :=
  let cmd : PitCmd.pit_cmd_word := decode src in
  if negb (length =? 1) then (-1, state)
  else if PitCmd.channel cmd =? 0 then
    let '(r, ch) := handle_channel_cmd (ch_0 state) cmd in
    (if r =? -1 then -1 else length, state <| ch_0 := ch |>)
  else if PitCmd.channel cmd =? 1 then
    let '(r, ch) := handle_channel_cmd (ch_1 state) cmd in
    (if r =? -1 then -1 else length, state <| ch_1 := ch |>)
  else if PitCmd.channel cmd =? 2 then
    let '(r, ch) := handle_channel_cmd (ch_2 state) cmd in
    (if r =? -1 then -1 else length, state <| ch_2 := ch |>)
  else (-1, state).

Definition init_channel : channel :=
  mk_channel LATCH_COUNT NOT_WAITING NOT_RUNNING IRQ_ON_TERM_CNT 0 0 0 NOTLATCHED LSB 0 0.

(** ** The reference: one oscillation at a time *)

(** The end of a count: the counter starts again; the output of a rate generator pulses, that
    of the other modes goes high and stays so. *)
Definition fire (ch : channel) : bool * channel :=
  let ch := ch <| counter := reload_value ch |> in
  match op_mode ch with
  | RATE_GEN => (true, ch)
  | _ => (output_pin ch =? 0, ch <| output_pin := 1 |>)
  end.

(** What one oscillation does to a channel of modes 0 to 2: a pending count is loaded, a
    running counter counts down. *)
Definition tick (ch : channel) : bool * channel :=
  match run_state ch with
  | NOT_RUNNING => (false, ch)
  | PENDING => (false, ch <| counter := reload_value ch |> <| run_state := RUNNING |>)
  | RUNNING =>
      if counter ch =? 1 then fire ch
      else (false, ch <| counter := counter ch - 1 |>)
  end.

(** [n] oscillations, and whether the output changed in one of them. *)
Fixpoint ticks (n : nat) (ch : channel) : bool * channel :=
  match n with
  | O => (false, ch)
  | S n => let '(b, ch) := tick ch in let '(b', ch) := ticks n ch in (b || b', ch)
  end.

Definition counting_mode (mode : channel_op_mode) : Prop :=
  mode = IRQ_ON_TERM_CNT \/ mode = ONE_SHOT \/ mode = RATE_GEN.

(** A channel that counts: 16-bit registers, and no count of zero. *)
Record counting (ch : channel) : Prop := {
  cn_mode : counting_mode (op_mode ch);
  cn_reload : 0 < reload_value ch < 2 ^ 16;
  cn_counter : run_state ch = RUNNING -> 0 < counter ch < 2 ^ 16;
  cn_pin : output_pin ch = 0 \/ output_pin ch = 1;
}.

Lemma counter_self ch : ch <| counter := counter ch |> = ch.
Proof. by destruct ch. Qed.

Lemma ticks_app n m ch :
  ticks (n + m) ch = let '(b, ch1) := ticks n ch in let '(b', ch2) := ticks m ch1 in (b || b', ch2).
Proof.
  revert ch. induction n as [|n IH]; intros ch; cbn [ticks Nat.add].
  - by destruct (ticks m ch).
  - destruct (tick ch) as [b ch1]. rewrite IH. destruct (ticks n ch1) as [b1 ch2].
    destruct (ticks m ch2) as [b2 ch3]. by rewrite orb_assoc.
Qed.

Lemma ticks_below n ch :
  run_state ch = RUNNING -> Z.of_nat n < counter ch ->
  ticks n ch = (false, ch <| counter := counter ch - Z.of_nat n |>).
Proof.
  revert ch. induction n as [|n IH]; intros ch Hr Hn; cbn [ticks].
  - by rewrite Z.sub_0_r, counter_self.
  - unfold tick. rewrite Hr, (proj2 (Z.eqb_neq _ _)) by lia.
    rewrite IH by (cbn; done || lia). cbn [counter update_field].
    change (counter (ch <| counter := ?c |>)) with c.
    by replace (counter ch - 1 - Z.of_nat n) with (counter ch - Z.of_nat (S n)) by lia.
Qed.

Lemma ticks_expire ch :
  run_state ch = RUNNING -> 0 < counter ch -> ticks (Z.to_nat (counter ch)) ch = fire ch.
Proof.
  intros Hr Hc. replace (Z.to_nat (counter ch)) with (Z.to_nat (counter ch - 1) + 1)%nat by lia.
  rewrite ticks_app, ticks_below by (done || lia). cbn [ticks]. unfold tick. cbn [run_state counter update_field].
  change (run_state (ch <| counter := ?c |>)) with (run_state ch). rewrite Hr.
  change (counter (ch <| counter := ?c |>)) with c.
  replace (counter ch - Z.of_nat (Z.to_nat (counter ch - 1))) with 1 by lia.
  unfold fire. cbn. destruct (op_mode ch); by rewrite ?orb_false_r.
Qed.

(** A second expiry changes nothing more. *)
Lemma fire_again ch :
  counting ch ->
  counter (snd (fire ch)) = reload_value ch /\ reload_value (snd (fire ch)) = reload_value ch /\
  run_state (snd (fire ch)) = run_state ch /\ op_mode (snd (fire ch)) = op_mode ch /\
  snd (fire (snd (fire ch))) = snd (fire ch) /\
  fst (fire ch) || fst (fire (snd (fire ch))) = fst (fire ch).
Proof.
  intros [Hm _ _ _]. destruct ch. unfold fire. cbn in *.
  destruct Hm as [->|[->| ->]]; cbn; split_and!; try reflexivity; by rewrite orb_false_r.
Qed.

Lemma fire_counting ch : counting ch -> counting (snd (fire ch)).
Proof.
  intros Hc. destruct (fire_again ch Hc) as (H1 & H2 & H3 & H4 & _). destruct Hc as [Hm Hr Hct Hp].
  split; rewrite ?H1, ?H2, ?H3, ?H4; [done..|]. unfold fire.
  change (op_mode (ch <| counter := ?c |>)) with (op_mode ch).
  destruct (op_mode ch); first [exact Hp | by right].
Qed.

Lemma ticks_periods q ch :
  counting ch -> run_state ch = RUNNING -> counter ch = reload_value ch ->
  ticks (Z.to_nat (reload_value ch) * q) ch = match q with O => (false, ch) | S _ => fire ch end.
Proof.
  intros Hc. revert ch Hc. induction q as [|q IH]; intros ch Hc Hr He; [by rewrite Nat.mul_0_r|].
  rewrite Nat.mul_succ_r, Nat.add_comm, ticks_app.
  destruct (fire_again ch Hc) as (H1 & H2 & H3 & H4 & H5 & H6).
  assert (ticks (Z.to_nat (reload_value ch)) ch = fire ch) as ->.
  { rewrite <- He. apply ticks_expire; [done|]. destruct Hc. lia. }
  rewrite (surjective_pairing (fire ch)). rewrite <- H2 at 1.
  rewrite IH by (by apply fire_counting || congruence).
  destruct q; [by rewrite orb_false_r|]. rewrite (surjective_pairing (fire (snd (fire ch)))).
  by rewrite H5, H6.
Qed.

Lemma ticks_above n ch :
  counting ch -> run_state ch = RUNNING -> counter ch <= n ->
  ticks (Z.to_nat n) ch =
    (fst (fire ch), (snd (fire ch)) <| counter := reload_value ch - (n - counter ch) mod reload_value ch |>).
Proof.
  intros Hc Hr Hn. destruct (fire_again ch Hc) as (H1 & H2 & H3 & H4 & H5 & H6).
  pose proof (cn_reload _ Hc) as Hrl. pose proof (cn_counter _ Hc Hr) as Hct.
  set (k := n - counter ch). set (r := reload_value ch) in *.
  pose proof (Z.div_mod k r) as Hdm. pose proof (Z.mod_pos_bound k r) as Hmod.
  pose proof (Z.div_pos k r) as Hdiv.
  replace (Z.to_nat n) with
    (Z.to_nat (counter ch) + (Z.to_nat r * Z.to_nat (k / r) + Z.to_nat (k mod r)))%nat.
  2: { rewrite <- Z2Nat.inj_mul, <- !Z2Nat.inj_add by nia. f_equal. nia. }
  pose proof (fire_counting ch Hc) as Hc'.
  assert (forall q, ticks (Z.to_nat r * q) (snd (fire ch)) =
    match q with O => (false, snd (fire ch)) | S _ => fire (snd (fire ch)) end) as Hq.
  { intros q. rewrite <- H2. apply ticks_periods; [done|congruence..]. }
  rewrite !ticks_app, ticks_expire by (done || lia). rewrite (surjective_pairing (fire ch)).
  rewrite ticks_app, Hq.
  destruct (Z.to_nat (k / r)).
  - rewrite ticks_below by (rewrite ?H1; congruence || lia).
    rewrite H1, Z2Nat.id, !orb_false_r by lia. done.
  - rewrite (surjective_pairing (fire (snd (fire ch)))), H5.
    rewrite ticks_below by (rewrite ?H1; congruence || lia).
    rewrite H1, Z2Nat.id, orb_false_r, H6 by lia. done.
Qed.

Lemma tick_counting ch : counting ch -> counting (snd (tick ch)).
Proof.
  intros Hc. unfold tick. destruct (run_state ch) eqn:Hr; [done| |].
  - destruct Hc as [Hm Hrl _ Hp]. by split.
  - case_cmp; [by apply fire_counting|]. destruct Hc as [Hm Hrl Hct Hp]. specialize (Hct Hr).
    split; [done|done| |done]. intros _. change (0 < counter ch - 1 < 2 ^ 16). lia.
Qed.

Lemma ticks_counting n ch : counting ch -> counting (snd (ticks n ch)).
Proof.
  revert ch. induction n as [|n IH]; intros ch Hc; [done|]. cbn [ticks].
  pose proof (tick_counting ch Hc) as H1. destruct (tick ch) as [b ch1].
  specialize (IH ch1 H1). by destruct (ticks n ch1).
Qed.

Lemma expire_fire ch k c :
  counting ch -> 0 < k ->
  expire (ch <| counter := c |>) k = (b2z (fst (fire ch)), (snd (fire ch)) <| counter := c |>).
Proof.
  intros [Hm _ _ Hp] Hk. destruct ch. unfold expire, fire. cbn in *.
  rewrite (proj2 (Z.ltb_lt _ _) Hk).
  destruct Hm as [->|[->| ->]]; cbn; [| |reflexivity]; by destruct Hp as [-> | ->].
Qed.

Lemma running_tics_ticks ch n :
  counting ch -> run_state ch = RUNNING -> is_u 32 n ->
  running_tics ch n = Done (b2z (fst (ticks (Z.to_nat n) ch)), snd (ticks (Z.to_nat n) ch)).
Proof.
  intros Hc Hr [Hn0 Hn]. pose proof (cn_reload _ Hc) as Hrl. pose proof (cn_counter _ Hc Hr) as Hct.
  assert (op_mode ch <> SQR_WAVE) as Hm.
  { destruct (cn_mode _ Hc) as [->|[->| ->]]; done. }
  unfold running_tics, even_for. rewrite !decide_False, Z.gtb_ltb by done.
  destruct (Z.ltb_spec n (counter ch)).
  - rewrite ticks_below, Z2Nat.id by (done || lia). rewrite wrap_small; [done|unfold is_u; lia].
  - rewrite ticks_above by (done || lia).
    change (reload_value (ch <| counter := ?c |>)) with (reload_value ch).
    rewrite (proj2 (Z.eqb_neq _ _)) by lia. unfold is_u in *.
    assert (u32 (n - counter ch) = n - counter ch) as -> by (apply wrap_small; unfold is_u; lia).
    set (k := n - counter ch). set (r := reload_value ch) in *.
    pose proof (Z.mod_pos_bound k r). pose proof (Z.div_pos k r).
    assert (k / r <= k) by (apply Z.div_le_upper_bound; nia).
    rewrite (wrap_small 32), (wrap_small 16) by (unfold is_u; lia).
    change (ch <| counter := ?c |> <| counter := ?d |>) with (ch <| counter := d |>).
    by rewrite expire_fire by (done || lia).
Qed.

(** The batched update of a channel in the counting modes (interrupt on terminal count,
    one-shot, rate generator) is the tick-by-tick reference: [n] oscillations at once give the
    counter, the output and the report of a change that [n] single ones give, over any number
    of periods. *)
Lemma crystal_tics_reference ch n :
  counting ch -> 1 <= n < 2 ^ 32 ->
  handle_crystal_tics ch n = Done (b2z (fst (ticks (Z.to_nat n) ch)), snd (ticks (Z.to_nat n) ch)).
Proof.
  intros Hc Hn. unfold handle_crystal_tics. destruct (run_state ch) eqn:Hr.
  - assert (forall k, ticks k ch = (false, ch)) as ->; [|done].
    induction k as [|k IH]; [done|]. cbn [ticks]. unfold tick. by rewrite Hr, IH.
  - pose proof (tick_counting ch Hc) as Hc1. rewrite wrap_small by (unfold is_u; lia).
    assert (tick ch = (false, ch <| counter := reload_value ch |> <| run_state := RUNNING |>)) as Ht
      by (unfold tick; by rewrite Hr).
    rewrite Ht in Hc1. cbn [snd] in Hc1.
    assert (op_mode ch <> SQR_WAVE) as Hm by (destruct (cn_mode _ Hc) as [->|[->| ->]]; done).
    unfold even_for. rewrite decide_False by done.
    change (ch <| counter := ?c |> <| counter := ?d |>) with (ch <| counter := d |>).
    change (counter (ch <| counter := ?c |>)) with c.
    rewrite running_tics_ticks by (done || (unfold is_u; lia)).
    replace (Z.to_nat n) with (S (Z.to_nat (n - 1))) by lia. cbn [ticks]. rewrite Ht.
    by destruct (ticks (Z.to_nat (n - 1)) _).
  - apply running_tics_ticks; [done..|unfold is_u; lia].
Qed.

(** ** No cycle is lost *)

Lemma divll_loop_spec fuel num n base :
  0 < base -> 0 < n -> is_u 64 n -> 0 <= num -> num + n < 2 ^ 64 -> (Z.to_nat n < fuel)%nat ->
  exists q r, divll_loop fuel num n base = Done (num + q, r) /\ n = q * base + r /\
    0 < r <= base /\ 0 <= q.
Proof.
  intros Hb. revert num n. induction fuel as [|fuel IH]; intros num n Hn Hu Hnum Hs Hf; [lia|].
  cbn [divll_loop]. unfold is_u in *. case_cmp.
  - rewrite !wrap_small by (unfold is_u; lia).
    destruct (IH (num + 1) (n - base)) as (q & r & -> & Hq & Hr & Hq0); [lia..|].
    exists (q + 1), r. split; [do 2 f_equal; lia|]. split_and!; nia.
  - exists 0, n. split_and!; (do 2 f_equal; lia) || lia.
Qed.

(** Both versions of the macro divide, though the remainder of the 32-bit one lies between 1
    and the divisor. *)
Lemma do_divll_spec {A : Arch} fuel n base :
  0 < base < 2 ^ 32 -> 0 < n -> is_u 64 n -> (Z.to_nat n < fuel)%nat ->
  exists q r, do_divll fuel n base = Done (q, r) /\ n = q * base + r /\ 0 <= r <= base /\ 0 <= q.
Proof.
  intros Hb Hn Hu Hf. unfold do_divll. destruct the_arch.
  - destruct (divll_loop_spec fuel 0 n base) as (q & r & -> & Hq & Hr & Hq0); [unfold is_u in *; lia..|].
    exists q, r. split_and!; done || lia.
  - unfold do_div. rewrite wrap_small, (proj2 (Z.eqb_neq _ _)) by (unfold is_u; lia).
    exists (n / base), (n mod base). pose proof (Z.mod_pos_bound n base).
    pose proof (Z.div_mod n base). pose proof (Z.div_pos n base). split_and!; done || lia.
Qed.

(** The crystal: a period that fits 32 bits, as pit_init computes it, and a phase. *)
Record crystal_ok (s : pit) : Prop := {
  co_reload : 0 < pit_reload s < 2 ^ 32;
  co_counter : 0 <= pit_counter s <= pit_reload s;
}.

(** An update that the fuel and the 32-bit count of oscillations are enough for. *)
Definition moderate (fuel : nat) (reload c : Z) : Prop :=
  is_u 64 c /\ c / reload + 1 < 2 ^ 32 /\ (Z.to_nat c < fuel)%nat.

Lemma take_cycles_spec {A : Arch} fuel s c :
  crystal_ok s -> moderate fuel (pit_reload s) c -> pit_counter s <= c ->
  exists n c', take_cycles fuel s c = Done (n, s <| pit_counter := c' |>) /\
    1 <= n < 2 ^ 32 /\ 0 <= c' <= pit_reload s /\ c + c' = pit_counter s + n * pit_reload s.
Proof.
  intros [Hr Hc] (Hu & Hq & Hf) Hle. unfold take_cycles, is_u in *.
  rewrite (wrap_small 64) by (unfold is_u; lia).
  change (pit_reload (s <| pit_counter := ?x |>)) with (pit_reload s).
  set (r := pit_reload s) in *. case_cmp.
  - destruct (do_divll_spec fuel (c - pit_counter s) r) as (q & m & -> & Hd & Hm & Hq0);
      [unfold is_u; lia..|]. run.
    assert (q <= c / r) by (apply Z.div_le_lower_bound; nia).
    rewrite !wrap_small by (unfold is_u; lia).
    exists (1 + q), (r - m). split_and!; [done|lia..|nia].
  - run. rewrite wrap_small by (unfold is_u; lia).
    exists 1, (r - (c - pit_counter s)). split_and!; [done|lia..].
Qed.

Section run.
Context {A : Arch} {C : Type} `{IntrCtrl C}.

(** The reference for one update: the oscillations pass one by one; an interrupt is raised
    when one of them changed the output. *)
Definition ref_update (ch : channel) (vm : v3_intr_state C) (n : Z) : outcome (channel * v3_intr_state C) :=
  let '(b, ch) := ticks (Z.to_nat n) ch in
  if b : bool then '(_, vm) ← v3_raise_irq vm 0; Done (ch, vm) else Done (ch, vm).

Fixpoint ref_run (ch : channel) (vm : v3_intr_state C) (ns : list Z)
    : outcome (channel * v3_intr_state C) :=
  match ns with
  | [] => Done (ch, vm)
  | n :: ns => '(ch, vm) ← ref_update ch vm n; ref_run ch vm ns
  end.

Lemma pit_update_reference fuel s vm c :
  crystal_ok s -> counting (ch_0 s) -> moderate fuel (pit_reload s) c ->
  exists n c', 0 <= n /\ 0 <= c' <= pit_reload s /\ c + c' = pit_counter s + n * pit_reload s /\
    pit_update_time fuel s vm c =
      ('(ch, vm) ← ref_update (ch_0 s) vm n; Done (s <| pit_counter := c' |> <| ch_0 := ch |>, vm)).
Proof.
  intros Hs Hc Hm. unfold pit_update_time. case_cmp.
  - destruct Hs as [Hr Hct], Hm as (Hu & _). exists 0, (pit_counter s - c). unfold is_u in Hu.
    split_and!; [lia..|]. rewrite wrap_small by (unfold is_u; lia). unfold ref_update. cbn.
    by destruct s.
  - destruct (take_cycles_spec fuel s c Hs Hm) as (n & c' & -> & Hn & Hc' & Heq); [lia|]. run.
    exists n, c'. split_and!; [lia..|]. change (ch_0 (s <| pit_counter := ?x |>)) with (ch_0 s).
    rewrite crystal_tics_reference by done. run. unfold ref_update.
    destruct (ticks (Z.to_nat n) (ch_0 s)) as [b ch]. destruct b; [|done]. run.
    by destruct (v3_raise_irq vm 0) as [[? ?]| |].
Qed.

Lemma ref_update_counting ch vm n ch' vm' :
  counting ch -> ref_update ch vm n = Done (ch', vm') -> counting ch'.
Proof.
  intros Hc. unfold ref_update. pose proof (ticks_counting (Z.to_nat n) ch Hc) as H'.
  destruct (ticks (Z.to_nat n) ch) as [b ch1]. destruct b.
  - destruct (v3_raise_irq vm 0) as [[? ?]| |]; cbn; [|done..]. by intros [= <- _].
  - by intros [= <- _].
Qed.

Definition sum (l : list Z) : Z := foldr Z.add 0 l.

Lemma sum_cons n l : sum (n :: l) = n + sum l.
Proof. done. Qed.


End run.

(** ** Programming and reading a channel *)

Definition channel_at (s : pit) (k : Z) : channel :=
  match k with 0 => ch_0 s | 1 => ch_1 s | _ => ch_2 s end.

Lemma lo_byte r lo : is_u 8 lo -> Z.land (u16 (Z.lor (Z.land r 0xff00) (char_to_int lo))) 0x00ff = lo.
Proof.
  intros Hlo. rewrite land_wrap by solve_u. rewrite Z.land_lor_distr_l, <- Z.land_assoc.
  change (Z.land 0xff00 0x00ff) with 0. rewrite Z.land_0_r, Z.lor_0_l.
  change 0x00ff with (Z.ones 8). rewrite Z.land_ones by done.
  change (2 ^ 8) with 256. rewrite char_to_int_mod. apply Z.mod_small. apply Hlo.
Qed.

Lemma hi_byte hi : is_u 8 hi -> u16 (Z.shiftl (u16 (char_to_int hi)) 8) = hi * 2 ^ 8.
Proof.
  intros Hhi. rewrite Z.shiftl_mul_pow2 by done. unfold wrap.
  rewrite Z.mul_mod_idemp_l by done. change (2 ^ 16) with (256 * 2 ^ 8).
  rewrite Z.mul_mod_distr_r by done. rewrite char_to_int_mod, Z.mod_small by apply Hhi. done.
Qed.

Lemma write_lo ch pin lo :
  access_state ch = WAITING_LOBYTE -> access_mode ch = LOBYTE_HIBYTE ->
  initial_pin (op_mode ch) = Some pin ->
  handle_channel_write ch lo =
    (0, ch <| reload_value := u16 (Z.lor (Z.land (reload_value ch) 0xff00) (char_to_int lo)) |>
           <| access_state := WAITING_HIBYTE |> <| output_pin := pin |>).
Proof.
  destruct ch as [am st rs om cnt rl lv ls rd pn gt]. cbn. intros -> -> Hp.
  unfold handle_channel_write. cbn -[wrap Z.lor Z.land char_to_int].
  generalize (u16 (Z.lor (Z.land rl 0xff00) (char_to_int lo))). intros r.
  destruct om; try discriminate; by injection Hp as <-.
Qed.

Lemma write_hi ch pin hi :
  access_state ch = WAITING_HIBYTE -> access_mode ch = LOBYTE_HIBYTE ->
  initial_pin (op_mode ch) = Some pin ->
  handle_channel_write ch hi =
    (0, ch <| reload_value := u16 (Z.lor (Z.land (reload_value ch) 0x00ff)
                                (u16 (Z.shiftl (u16 (char_to_int hi)) 8))) |>
           <| run_state := if decide (op_mode ch = RATE_GEN /\ run_state ch = RUNNING) then RUNNING
                           else PENDING |>
           <| access_state := WAITING_LOBYTE |> <| output_pin := pin |>).
Proof.
  destruct ch as [am st rs om cnt rl lv ls rd pn gt]. cbn. intros -> -> Hp.
  unfold handle_channel_write. cbn -[wrap Z.lor Z.land char_to_int Z.shiftl start_pending].
  generalize (u16 (Z.lor (Z.land rl 0x00ff) (u16 (Z.shiftl (u16 (char_to_int hi)) 8)))). intros r.
  unfold start_pending. destruct om, rs; try discriminate; by injection Hp as <-.
Qed.

(** A count written low byte first: two writes after a command for both bytes. *)
Lemma write_both_bytes ch m lo hi :
  access_mode ch = LOBYTE_HIBYTE -> access_state ch = WAITING_LOBYTE -> op_mode ch = m ->
  is_Some (initial_pin m) -> is_u 8 lo -> is_u 8 hi ->
  exists ch1 ch2, handle_channel_write ch lo = (0, ch1) /\ handle_channel_write ch1 hi = (0, ch2) /\
    reload_value ch2 = lo + 256 * hi /\ op_mode ch2 = m /\
    run_state ch2 = (if decide (m = RATE_GEN /\ run_state ch = RUNNING) then RUNNING else PENDING).
Proof.
  intros Ha Hs Hm [pin Hp] Hlo Hhi. subst m.
  eexists. eexists. split; [by apply write_lo|]. split; [by apply write_hi|]. split; [|done].
  change (reload_value (?c <| run_state := _ |> <| access_state := _ |> <| output_pin := _ |>))
    with (reload_value c).
  change (reload_value (_ <| reload_value := ?r |>)) with r.
  change (reload_value (?c <| access_state := _ |> <| output_pin := _ |>)) with (reload_value c).
  change (reload_value (_ <| reload_value := ?r |>)) with r.
  rewrite lo_byte, hi_byte, (lor_disjoint 8) by done. rewrite wrap_small; solve_u.
Qed.

Definition cmd_byte (k access mode bcd : Z) : Z := bcd + 2 * mode + 16 * access + 64 * k.

Lemma decode_cmd_byte k access mode bcd :
  is_u 2 k -> is_u 2 access -> is_u 3 mode -> is_u 1 bcd ->
  decode (cmd_byte k access mode bcd) = PitCmd.mk bcd mode access k.
Proof.
  intros Hk Ha Hm Hb. rewrite <- (decode_encode (PitCmd.mk bcd mode access k)).
  - f_equal. unfold cmd_byte, encode. cbn -[Z.mul Z.add Z.pow]. rewrite !Z.mod_small by done. lia.
  - solve_wf.
Qed.

Lemma op_mode_supported mode : 0 <= mode <= 3 -> is_Some (initial_pin (op_mode_of mode)).
Proof.
  intros Hm. assert (mode = 0 \/ mode = 1 \/ mode = 2 \/ mode = 3) as [->|[->|[->| ->]]] by lia;
    by eexists.
Qed.

Lemma program_count s k mode bcd lo hi :
  0 <= k <= 2 -> 0 <= mode <= 3 -> is_u 1 bcd -> is_u 8 lo -> is_u 8 hi ->
  exists s1 s2 s3, pit_write_command s (cmd_byte k 3 mode bcd) 1 = (1, s1) /\
    pit_write_channel s1 (CHANNEL0_PORT + k) lo 1 = (1, s2) /\
    pit_write_channel s2 (CHANNEL0_PORT + k) hi 1 = (1, s3) /\
    let ch := channel_at s3 k in
    reload_value ch = lo + 256 * hi /\ op_mode ch = op_mode_of mode /\
    run_state ch = (if decide (op_mode_of mode = RATE_GEN /\ run_state (channel_at s k) = RUNNING)
                    then RUNNING else PENDING) /\
    pit_counter s3 = pit_counter s /\ pit_reload s3 = pit_reload s /\
    forall k', 0 <= k' <= 2 -> k' <> k -> channel_at s3 k' = channel_at s k'.
Proof.
  intros Hk Hm Hb Hlo Hhi. pose proof (op_mode_supported mode Hm) as Hs.
  assert (exists ch0, handle_channel_cmd (channel_at s k) (PitCmd.mk bcd mode 3 k) = (0, ch0) /\
    access_mode ch0 = LOBYTE_HIBYTE /\ access_state ch0 = WAITING_LOBYTE /\
    op_mode ch0 = op_mode_of mode /\ run_state ch0 = run_state (channel_at s k)) as (ch0 & Hc & Ha & Hst & Ho & Hr).
  { destruct Hs as [pin Hp]. unfold handle_channel_cmd, set_initial_pin. cbn [PitCmd.op_mode PitCmd.access_mode].
    rewrite Hp. eexists. split; [reflexivity|]. by split_and!. }
  destruct (write_both_bytes ch0 (op_mode_of mode) lo hi Ha Hst Ho Hs Hlo Hhi)
    as (ch1 & ch2 & Hw1 & Hw2 & Hrl & Ho2 & Hr2).
  unfold pit_write_command. rewrite decode_cmd_byte by solve_u. cbn [PitCmd.channel].
  assert (k = 0 \/ k = 1 \/ k = 2) as [-> | [-> | ->]] by lia; cbn [channel_at] in *; rewrite Hc; run;
    eexists; eexists; eexists; (split; [reflexivity|]);
    (split; [unfold pit_write_channel; cbn -[handle_channel_write]; rewrite Hw1; reflexivity|]);
    (split; [unfold pit_write_channel; cbn -[handle_channel_write]; rewrite Hw2; reflexivity|]);
    (split; [done|]); (split; [done|]); (split; [by rewrite <- Hr|]); (split; [done|]); (split; [done|]);
    intros k' Hk' Hne; assert (k' = 0 \/ k' = 1 \/ k' = 2) as [-> | [-> | ->]] by lia; done.
Qed.

(** Programming a channel: after the command for both bytes in a supported mode, writing
    the low and the high byte of a count to the channel's port sets its reload value to
    exactly that count and starts it (a running rate generator keeps running until its period
    ends); the other channels are untouched. *)
Theorem pit_program_count s k mode bcd lo hi :
  0 <= k <= 2 -> 0 <= mode <= 3 -> is_u 1 bcd -> is_u 8 lo -> is_u 8 hi ->
  exists s1 s2 s3, pit_write_command s (cmd_byte k 3 mode bcd) 1 = (1, s1) /\
    pit_write_channel s1 (CHANNEL0_PORT + k) lo 1 = (1, s2) /\
    pit_write_channel s2 (CHANNEL0_PORT + k) hi 1 = (1, s3) /\
    let ch := channel_at s3 k in
    reload_value ch = lo + 256 * hi /\ op_mode ch = op_mode_of mode /\
    run_state ch = (if decide (op_mode_of mode = RATE_GEN /\ run_state (channel_at s k) = RUNNING)
                    then RUNNING else PENDING) /\
    forall k', 0 <= k' <= 2 -> k' <> k -> channel_at s3 k' = channel_at s k'.
Proof.
  intros Hk Hm Hb Hlo Hhi.
  destruct (program_count s k mode bcd lo hi Hk Hm Hb Hlo Hhi) as (s1 & s2 & s3 & ? & ? & ? & Hch).
  exists s1, s2, s3. cbv zeta in *. tauto.
Qed.

Lemma pit_program_count_witness : exists s1 s2 s3,
  pit_write_command (mk_pit 0 2000 init_channel init_channel init_channel) 0x34 1 = (1, s1) /\
  pit_write_channel s1 0x40 0x9c 1 = (1, s2) /\ pit_write_channel s2 0x40 0x2e 1 = (1, s3) /\
  reload_value (ch_0 s3) = 0x2e9c.
Proof.
  destruct (pit_program_count (mk_pit 0 2000 init_channel init_channel init_channel) 0 2 0 0x9c 0x2e)
    as (s1 & s2 & s3 & H1 & H2 & H3 & H4 & _); [lia|lia|done..|].
  exists s1, s2, s3. split_and!; [exact H1|exact H2|exact H3|exact H4].
Defined.

(** ** Two ways for a guest to defeat the timer *)

Section defects.
Context {A : Arch} {C : Type} `{IntrCtrl C}.

(** The count 0, which stands for 65536 on the chip, is a division by zero in the
    monitor: a guest that programs channel 0 as a rate generator with both bytes zero makes
    the next update that reaches an oscillation undefined, whatever the state before. *)
Theorem pit_zero_count s vm fuel c :
  run_state (ch_0 s) <> RUNNING -> crystal_ok s -> moderate fuel (pit_reload s) c ->
  pit_counter s <= c ->
  exists s1 s2 s3, pit_write_command s (cmd_byte 0 3 2 0) 1 = (1, s1) /\
    pit_write_channel s1 CHANNEL0_PORT 0 1 = (1, s2) /\
    pit_write_channel s2 CHANNEL0_PORT 0 1 = (1, s3) /\
    pit_update_time fuel s3 vm c = Undef.
Proof.
  intros Hr Hs Hm Hc.
  destruct (program_count s 0 2 0 0 0) as (s1 & s2 & s3 & H1 & H2 & H3 & Hrl & Hop & Hrs & Ec & Er & _); [lia|lia|done..|].
  exists s1, s2, s3. split_and!; [done..|]. cbn [channel_at] in *. change (op_mode_of 2) with RATE_GEN in *.
  rewrite decide_False in Hrs by tauto.
  unfold pit_update_time. rewrite Ec, Z.gtb_ltb, (proj2 (Z.ltb_ge _ _)) by lia.
  destruct (take_cycles_spec fuel s3 c) as (n & c' & -> & _); [by destruct Hs; split; rewrite ?Er, ?Ec|by rewrite Er|lia|].
  run. change (ch_0 (s3 <| pit_counter := ?x |>)) with (ch_0 s3).
  unfold handle_crystal_tics. rewrite Hrs. destruct (ch_0 s3). cbn in Hrs, Hop, Hrl. subst.
  unfold running_tics, even_for. cbn -[wrap Z.gtb decide]. rewrite !decide_False by done.
  rewrite Z.gtb_ltb, (proj2 (Z.ltb_ge _ _)); [done|]. pose proof (wrap_range 32 (n - 1) ltac:(lia)). unfold is_u in *. lia.
Qed.

(** A command to latch the count takes its mode bits, which are zero by convention, for a new
    operating mode: a rate generator becomes a one-time interrupt on terminal count. *)
Lemma latch_changes_mode s :
  exists s', pit_write_command s (cmd_byte 0 0 0 0) 1 = (1, s') /\
    op_mode (ch_0 s') = IRQ_ON_TERM_CNT /\ access_mode (ch_0 s') = LATCH_COUNT /\
    output_pin (ch_0 s') = 0 /\ run_state (ch_0 s') = run_state (ch_0 s).
Proof.
  eexists. split; [reflexivity|]. destruct s as [? ? [? ? rs ? ? r ? ls ? ? ?] ? ?]. by destruct ls.
Qed.

End defects.

(** An interrupt controller that counts its requests. *)
#[local] Instance line_counter : IntrCtrl Z :=
  {| intr_pending c := c; get_intr_number _ := 0; raise_intr c _ := Done (0, c + 1);
     lower_intr c _ := Done (0, c); begin_irq c _ := Done (0, c) |}.

Definition demo_pit : pit :=
  mk_pit 10 10 (mk_channel LOBYTE_HIBYTE WAITING_LOBYTE PENDING RATE_GEN 0 3 0 NOTLATCHED LSB 1 0)
    init_channel init_channel.

Definition demo_vm : v3_intr_state Z := mk_v3_intr_state (mk_v3_excp_state 0 0 0 0) (Some 0) [].


Lemma pit_zero_count_witness : exists s1 s2 s3,
  pit_write_command (mk_pit 10 10 init_channel init_channel init_channel) 0x34 1 = (1, s1) /\
  pit_write_channel s1 0x40 0 1 = (1, s2) /\ pit_write_channel s2 0x40 0 1 = (1, s3) /\
  pit_update_time (A := V3_64BIT) 100 s3 demo_vm 25 = Undef.
Proof.
  apply (pit_zero_count (A := V3_64BIT) (mk_pit 10 10 init_channel init_channel init_channel)
    demo_vm 100 25); [done|by split|split_and!; done || (cbn; lia)|done].
Defined.

End Pit.
