(* ===== verification/ListHead.v ===== *)
(** The circular doubly linked lists of vmm_list.h.

    A list is a head and the entries that embed a [struct list_head]; all of them live in one
    heap of links.  [Module ListHead] translates the operations; [ring] says that a head and
    its entries form a list, [rings] that a heap holds several disjoint ones.  The theorem
    shows that every operation is the operation on sequences its name says, that it leaves
    the other lists alone, and that it never follows a link out of the heap. *)
From stdpp Require Import base tactics numbers list gmap.
From S2P Require Import Prelude.

Module ListHead.

Record list_head := mk_list_head {
  next : Z;
  prev : Z;
}.

#[export] Instance eta_list_head : Eta list_head := fun n => mk_list_head (next n) (prev n).

Abbreviation links := (gmap Z list_head).

Definition LIST_POISON1 : Z := 0x00100100.
Definition LIST_POISON2 : Z := 0x00200200.

(** [p->next = v] and [p->prev = v] *)
Definition set_next (h : links) (p v : Z) : outcome links := modify h p (fun n => n <| next := v |>).
Definition set_prev (h : links) (p v : Z) : outcome links := modify h p (fun n => n <| prev := v |>).
Definition get_next (h : links) (p : Z) : outcome Z := n ← deref h p; Done (next n).
Definition get_prev (h : links) (p : Z) : outcome Z := n ← deref h p; Done (prev n).

Definition INIT_LIST_HEAD (h : links) (list : Z) : outcome links :=
  h ← set_next h list list;
  set_prev h list list.

Definition __list_add (h : links) (new prev next : Z) : outcome links :=
  h ← set_prev h next new;
  h ← set_next h new next;
  h ← set_prev h new prev;
  set_next h prev new.

Definition list_add (h : links) (new head : Z) : outcome links :=
  n ← get_next h head; __list_add h new head n.

Definition list_add_tail (h : links) (new head : Z) : outcome links :=
  p ← get_prev h head; __list_add h new p head.

Definition __list_del (h : links) (prev next : Z) : outcome links :=
  h ← set_prev h next prev;
  set_next h prev next.

Definition list_del (h : links) (entry : Z) : outcome links :=
  p ← get_prev h entry; n ← get_next h entry;
  h ← __list_del h p n;
  h ← set_next h entry LIST_POISON1;
  set_prev h entry LIST_POISON2.

Definition list_del_init (h : links) (entry : Z) : outcome links :=
  p ← get_prev h entry; n ← get_next h entry;
  h ← __list_del h p n;
  INIT_LIST_HEAD h entry.

Definition list_move (h : links) (list head : Z) : outcome links :=
  p ← get_prev h list; n ← get_next h list;
  h ← __list_del h p n;
  list_add h list head.

Definition list_move_tail (h : links) (list head : Z) : outcome links :=
  p ← get_prev h list; n ← get_next h list;
  h ← __list_del h p n;
  list_add_tail h list head.

Definition list_empty (h : links) (head : Z) : outcome bool :=
  n ← get_next h head; Done (n =? head).

Definition list_empty_careful (h : links) (head : Z) : outcome bool :=
  n ← get_next h head; p ← get_prev h head; Done ((n =? head) && (n =? p)).

Definition __list_splice (h : links) (list head : Z) : outcome links :=
  first ← get_next h list; last ← get_prev h list; at_ ← get_next h head;
  h ← set_prev h first head;
  h ← set_next h head first;
  h ← set_next h last at_;
  set_prev h at_ last.

Definition list_splice (h : links) (list head : Z) : outcome links :=
  e ← list_empty h list;
  if e : bool then Done h else __list_splice h list head.

Definition list_splice_init (h : links) (list head : Z) : outcome links :=
  e ← list_empty h list;
  if e : bool then Done h
  else h ← __list_splice h list head; INIT_LIST_HEAD h list.

(** The loop of list_for_each_entry: the entries from [pos] up to the head. *)
Fixpoint for_each (fuel : nat) (h : links) (head pos : Z) : outcome (list Z) :=
  match fuel with
  | O => OutOfFuel
  | S fuel =>
      n ← get_next h pos;
      if pos =? head then Done []
      else r ← for_each fuel h head n; Done (pos :: r)
  end.

Definition list_for_each (fuel : nat) (h : links) (head : Z) : outcome (list Z) :=
  n ← get_next h head; for_each fuel h head n.

(** ** Lists in the heap *)

Definition nextf (h : links) (p : Z) : option Z := next <$> h !! p.
Definition prevf (h : links) (p : Z) : option Z := prev <$> h !! p.

Definition adjacent (h : links) (a b : Z) : Prop := nextf h a = Some b /\ prevf h b = Some a.

(** Each node of the sequence is linked to the next one. *)
Fixpoint linked (h : links) (s : list Z) : Prop :=
  match s with
  | a :: (b :: _) as t => adjacent h a b /\ linked h t
  | _ => True
  end.

Definition ring (h : links) (head : Z) (l : list Z) : Prop :=
  NoDup (head :: l) /\ linked h (head :: l ++ [head]).

(** Disjoint lists, by their heads. *)
Record rings (h : links) (R : gmap Z (list Z)) : Prop := {
  rs_ring hd l : R !! hd = Some l -> ring h hd l;
  rs_disjoint hd l hd' l' x : R !! hd = Some l -> R !! hd' = Some l' -> hd <> hd' ->
    x ∈ hd :: l -> x ∈ hd' :: l' -> False;
}.

(** A node that no list has. *)
Definition unlisted (h : links) (R : gmap Z (list Z)) (x : Z) : Prop :=
  x ∈ dom h /\ forall hd l, R !! hd = Some l -> x ∉ hd :: l.

Lemma get_next_some h p v : nextf h p = Some v -> get_next h p = Done v.
Proof. intros (n & Hn & ->)%fmap_Some. unfold get_next. by rewrite (deref_some _ _ _ Hn). Qed.

Lemma get_prev_some h p v : prevf h p = Some v -> get_prev h p = Done v.
Proof. intros (n & Hn & ->)%fmap_Some. unfold get_prev. by rewrite (deref_some _ _ _ Hn). Qed.

(** What a heap [h'] holds that differs from [h] in the links of the given nodes. *)
Record relinked (h h' : links) (fn fp : Z -> option Z) : Prop := {
  rl_next p : nextf h' p = match fn p with Some v => Some v | None => nextf h p end;
  rl_prev p : prevf h' p = match fp p with Some v => Some v | None => prevf h p end;
  rl_dom : dom h' = dom h;
}.

Definition at_node (p v : Z) (f : Z -> option Z) : Z -> option Z :=
  fun q => if decide (q = p) then Some v else f q.
Definition nowhere : Z -> option Z := fun _ => None.

Lemma set_next_spec h h0 fn fp p v :
  relinked h0 h fn fp -> p ∈ dom h0 ->
  exists h', set_next h p v = Done h' /\ relinked h0 h' (at_node p v fn) fp.
Proof.
  intros [H1 H2 H3] Hp. rewrite <- H3 in Hp. apply elem_of_dom in Hp as [n Hn].
  unfold set_next. rewrite (modify_some _ _ _ _ Hn). eexists. split; [done|]. split.
  - intros q. unfold nextf, at_node in *. destruct (decide (q = p)) as [->|Hne].
    + by rewrite lookup_insert_eq.
    + by rewrite lookup_insert_ne, H1.
  - intros q. unfold prevf in *. rewrite <- H2. destruct (decide (q = p)) as [->|Hne].
    + by rewrite lookup_insert_eq, Hn.
    + by rewrite lookup_insert_ne.
  - by rewrite dom_insert_lookup_L.
Qed.

Lemma set_prev_spec h h0 fn fp p v :
  relinked h0 h fn fp -> p ∈ dom h0 ->
  exists h', set_prev h p v = Done h' /\ relinked h0 h' fn (at_node p v fp).
Proof.
  intros [H1 H2 H3] Hp. rewrite <- H3 in Hp. apply elem_of_dom in Hp as [n Hn].
  unfold set_prev. rewrite (modify_some _ _ _ _ Hn). eexists. split; [done|]. split.
  - intros q. unfold nextf in *. rewrite <- H1. destruct (decide (q = p)) as [->|Hne].
    + by rewrite lookup_insert_eq, Hn.
    + by rewrite lookup_insert_ne.
  - intros q. unfold prevf, at_node in *. destruct (decide (q = p)) as [->|Hne].
    + by rewrite lookup_insert_eq.
    + by rewrite lookup_insert_ne, H2.
  - by rewrite dom_insert_lookup_L.
Qed.

Lemma relinked_refl h : relinked h h nowhere nowhere.
Proof. by split. Qed.

Lemma nextf_dom h p v : nextf h p = Some v -> p ∈ dom h.
Proof. intros (n & Hn & _)%fmap_Some. by apply elem_of_dom_2 in Hn. Qed.

Lemma prevf_dom h p v : prevf h p = Some v -> p ∈ dom h.
Proof. intros (n & Hn & _)%fmap_Some. by apply elem_of_dom_2 in Hn. Qed.

(** The writes of a sequence of assignments, one after the other. *)
Ltac relink H :=
  match goal with
  | |- context [set_next ?h ?p ?v] =>
      let h' := fresh "h" in let E := fresh in
      destruct (set_next_spec _ _ _ _ p v H) as (h' & -> & E); [|clear H; rename E into H; run]
  | |- context [set_prev ?h ?p ?v] =>
      let h' := fresh "h" in let E := fresh in
      destruct (set_prev_spec _ _ _ _ p v H) as (h' & -> & E); [|clear H; rename E into H; run]
  end.

Lemma list_add_between_spec h new p n :
  new ∈ dom h -> p ∈ dom h -> n ∈ dom h ->
  exists h', __list_add h new p n = Done h' /\
    relinked h h' (at_node p new (at_node new n nowhere)) (at_node new p (at_node n new nowhere)).
Proof.
  intros Hnew Hp Hn. unfold __list_add. pose proof (relinked_refl h) as H.
  do 4 (relink H; [done|]). by eexists.
Qed.

Lemma list_del_between_spec h p n :
  p ∈ dom h -> n ∈ dom h ->
  exists h', __list_del h p n = Done h' /\ relinked h h' (at_node p n nowhere) (at_node n p nowhere).
Proof.
  intros Hp Hn. unfold __list_del. pose proof (relinked_refl h) as H.
  do 2 (relink H; [done|]). by eexists.
Qed.

(** ** Sequences of links *)

Lemma linked_app h s1 x s2 :
  linked h (s1 ++ x :: s2) <-> linked h (s1 ++ [x]) /\ linked h (x :: s2).
Proof.
  induction s1 as [|a s1 IH]; cbn [app]; [cbn; tauto|].
  destruct s1 as [|b s1]; cbn [app] in *; [cbn; tauto|].
  change (adjacent h a b /\ linked h (b :: s1 ++ x :: s2) <->
    (adjacent h a b /\ linked h (b :: s1 ++ [x])) /\ linked h (x :: s2)). tauto.
Qed.

Lemma linked_cons h a b s : linked h (a :: b :: s) <-> adjacent h a b /\ linked h (b :: s).
Proof. done. Qed.

Lemma linked_frame h h' s :
  (forall q, q ∈ removelast s -> nextf h' q = nextf h q) ->
  (forall q, q ∈ tail s -> prevf h' q = prevf h q) ->
  linked h s -> linked h' s.
Proof.
  induction s as [|a s IH]; [done|]. destruct s as [|b s]; [done|]. intros Hn Hp [[H1 H2] Hl].
  apply linked_cons. split.
  - split; [rewrite Hn; [done|by left]|rewrite Hp; [done|by left]].
  - apply IH; [|..]; [intros q Hq; apply Hn; by right|intros q Hq; apply Hp; by right|done].
Qed.

Lemma linked_dom h s q : linked h s -> q ∈ s -> (2 <= length s)%nat -> q ∈ dom h.
Proof.
  induction s as [|a s IH]; [by rewrite elem_of_nil|]. destruct s as [|b s]; [cbn; lia|].
  intros [[H1 H2] Hl] Hq _. apply elem_of_cons in Hq as [->|Hq]; [by eapply nextf_dom|].
  destruct s as [|c s].
  - apply list_elem_of_singleton in Hq as ->. by eapply prevf_dom.
  - apply IH; [done|done|cbn; lia].
Qed.

Lemma ring_dom h hd l q : ring h hd l -> q ∈ hd :: l -> q ∈ dom h.
Proof.
  intros [_ Hl] Hq. eapply linked_dom; [exact Hl| |cbn; rewrite length_app; cbn; lia].
  rewrite app_comm_cons. apply elem_of_app. by left.
Qed.

(** A sequence cut between two neighbours. *)
Record cut (s1 : list Z) (p n : Z) (s2 : list Z) : Prop := {
  cut_p1 : p ∉ s1;
  cut_p2 : p ∉ removelast (n :: s2);
  cut_n1 : n ∉ tail (s1 ++ [p]);
  cut_n2 : n ∉ s2;
}.

Lemma removelast_tail {X} (s : list X) x y : x ∈ removelast (y :: s) -> x ∈ y :: s.
Proof.
  revert y. induction s as [|z s IH]; intros y; [by intros ?%elem_of_nil|].
  change (removelast (y :: z :: s)) with (y :: removelast (z :: s)).
  rewrite !(elem_of_cons _ x y). intros [->|H]; [by left|right; by apply IH].
Qed.

Lemma elem_of_tail {X} (s : list X) x : x ∈ tail s -> x ∈ s.
Proof. destruct s; [done|]. by right. Qed.

Lemma relinked_keeps h h' s fn fp :
  relinked h h' fn fp -> (forall q, q ∈ removelast s -> fn q = None) ->
  (forall q, q ∈ tail s -> fp q = None) -> linked h s -> linked h' s.
Proof.
  intros [Hn Hp _] H1 H2. apply linked_frame.
  - intros q Hq. by rewrite Hn, H1.
  - intros q Hq. by rewrite Hp, H2.
Qed.

Lemma at_node_ne p v f q : q <> p -> at_node p v f q = f q.
Proof. intros. unfold at_node. by rewrite decide_False. Qed.
Lemma at_node_eq p v f : at_node p v f p = Some v.
Proof. unfold at_node. by rewrite decide_True. Qed.

Lemma add_linked h h' s1 p n s2 x :
  relinked h h' (at_node p x (at_node x n nowhere)) (at_node x p (at_node n x nowhere)) ->
  cut s1 p n s2 -> x ∉ s1 ++ p :: n :: s2 ->
  linked h (s1 ++ p :: n :: s2) -> linked h' (s1 ++ p :: x :: n :: s2).
Proof.
  intros Hr [Hp1 Hp2 Hn1 Hn2] Hx. rewrite linked_app, linked_cons. intros (H1 & _ & H2).
  apply linked_app. rewrite !linked_cons. split_and!.
  - eapply relinked_keeps; [exact Hr|..|exact H1]; intros q Hq.
    + rewrite removelast_last in Hq. rewrite !at_node_ne; [done|..]; intros ->; set_solver.
    + assert (q <> n) by (by intros ->). apply elem_of_tail in Hq.
      rewrite !at_node_ne; [done|done|]. intros ->. set_solver.
  - destruct Hr as [Hn Hp _]. split.
    + by rewrite Hn, at_node_eq.
    + by rewrite Hp, at_node_eq.
  - destruct Hr as [Hn Hp _]. assert (x <> p /\ n <> x) as [? ?] by set_solver. split.
    + by rewrite Hn, at_node_ne, at_node_eq.
    + by rewrite Hp, at_node_ne, at_node_eq.
  - eapply relinked_keeps; [exact Hr|..|exact H2]; intros q Hq.
    + assert (q <> p) by (by intros ->). apply removelast_tail in Hq.
      rewrite !at_node_ne; [done| |done]. intros ->. set_solver.
    + cbn [tail] in Hq. rewrite !at_node_ne; [done|..]; intros ->; set_solver.
Qed.

Lemma del_linked h h' s1 p x n s2 :
  relinked h h' (at_node p n nowhere) (at_node n p nowhere) -> cut s1 p n s2 ->
  linked h (s1 ++ p :: x :: n :: s2) -> linked h' (s1 ++ p :: n :: s2).
Proof.
  intros Hr [Hp1 Hp2 Hn1 Hn2]. rewrite linked_app, !linked_cons. intros (H1 & _ & _ & H2).
  apply linked_app. rewrite linked_cons. split_and!.
  - eapply relinked_keeps; [exact Hr|..|exact H1]; intros q Hq.
    + rewrite removelast_last in Hq. rewrite at_node_ne; [done|]. intros ->; set_solver.
    + rewrite at_node_ne; [done|]. by intros ->.
  - destruct Hr as [Hn Hp _]. split; [by rewrite Hn, at_node_eq|by rewrite Hp, at_node_eq].
  - eapply relinked_keeps; [exact Hr|..|exact H2]; intros q Hq.
    + rewrite at_node_ne; [done|]. by intros ->.
    + rewrite at_node_ne; [done|]. by intros ->.
Qed.

Lemma removelast_ring hd (l : list Z) s1 p n s2 :
  hd :: l ++ [hd] = s1 ++ p :: n :: s2 -> hd :: l = s1 ++ p :: removelast (n :: s2).
Proof.
  intros H. apply (f_equal (@removelast Z)) in H. rewrite app_comm_cons, removelast_last in H.
  rewrite H. by rewrite removelast_app.
Qed.

Lemma tail_ring hd (l : list Z) s1 p n s2 :
  hd :: l ++ [hd] = s1 ++ p :: n :: s2 -> l ++ [hd] = tail (s1 ++ [p]) ++ n :: s2.
Proof.
  intros H. apply (f_equal (@tail Z)) in H. destruct s1 as [|a s1]; cbn in *; [done|].
  rewrite H. by rewrite <- app_assoc.
Qed.

Lemma ring_cut hd l s1 p n s2 :
  NoDup (hd :: l) -> hd :: l ++ [hd] = s1 ++ p :: n :: s2 -> cut s1 p n s2.
Proof.
  intros Hd H. pose proof (removelast_ring _ _ _ _ _ _ H) as H1.
  pose proof (tail_ring _ _ _ _ _ _ H) as H2.
  assert (NoDup (l ++ [hd])) as Hd2 by (eapply NoDup_Permutation_proper; [apply Permutation_app_comm|done]).
  rewrite H1 in Hd. rewrite H2 in Hd2. apply NoDup_app in Hd as (_ & Hd & Hd').
  apply NoDup_app in Hd2 as (_ & Hd2 & Hd2'). apply NoDup_cons in Hd' as [? _].
  apply NoDup_cons in Hd2' as [? _]. split; [|done| |done].
  - intros Hp. apply (Hd p Hp). by left.
  - intros Hn. apply (Hd2 n Hn). by left.
Qed.

Lemma ring_frame h h' hd l fn fp :
  relinked h h' fn fp -> (forall q, q ∈ hd :: l -> fn q = None /\ fp q = None) ->
  ring h hd l -> ring h' hd l.
Proof.
  intros Hr Hq [Hd Hl]. split; [done|]. eapply relinked_keeps; [exact Hr|..|exact Hl].
  - intros q. rewrite app_comm_cons, removelast_last. intros H. by apply Hq.
  - intros q H. apply Hq. cbn in H. rewrite elem_of_app, list_elem_of_singleton in H. set_solver.
Qed.

(** Replacing one list of several. *)
Lemma rings_insert h h' R hd l' fn fp :
  rings h R -> relinked h h' fn fp ->
  (forall hd1 l1 q, R !! hd1 = Some l1 -> hd1 <> hd -> q ∈ hd1 :: l1 -> fn q = None /\ fp q = None) ->
  ring h' hd l' ->
  (forall hd1 l1 x, R !! hd1 = Some l1 -> hd1 <> hd -> x ∈ hd :: l' -> x ∈ hd1 :: l1 -> False) ->
  rings h' (<[hd := l']> R).
Proof.
  intros [Hr Hd] Hrel Hf Hring Hdis. split.
  - intros hd1 l1. destruct (decide (hd1 = hd)) as [->|Hne].
    + rewrite lookup_insert_eq. by intros [= <-].
    + rewrite lookup_insert_ne by done. intros H1. eapply ring_frame; [exact Hrel| |by apply Hr].
      intros q Hq. by eapply Hf.
  - intros hd1 l1 hd2 l2 x. destruct (decide (hd1 = hd)) as [->|Hne1], (decide (hd2 = hd)) as [->|Hne2];
      rewrite ?lookup_insert_eq, ?lookup_insert_ne by done; try done.
    + intros [= <-] H2 _ Hx1 Hx2. by eapply Hdis.
    + intros H1 [= <-] _ Hx1 Hx2. by eapply Hdis.
    + intros H1 H2 Hne. by eapply Hd.
Qed.

Lemma rings_nodes h R hd l q : rings h R -> R !! hd = Some l -> q ∈ hd :: l -> q ∈ dom h.
Proof. intros [Hr _] H. by eapply ring_dom, Hr. Qed.

(** An entry put between two neighbours of a list. *)
Lemma rings_add h R hd l l' s1 p n s2 x :
  rings h R -> R !! hd = Some l -> unlisted h R x ->
  hd :: l ++ [hd] = s1 ++ p :: n :: s2 -> hd :: l' ++ [hd] = s1 ++ p :: x :: n :: s2 ->
  l' ≡ₚ x :: l ->
  exists h', __list_add h x p n = Done h' /\ rings h' (<[hd := l']> R) /\ dom h' = dom h.
Proof.
  intros HR Hl [Hx Hun] Hs Hs' Hperm. pose proof (rs_ring _ _ HR _ _ Hl) as [Hd Hlk].
  assert (forall q, q ∈ s1 ++ p :: n :: s2 -> q ∈ hd :: l) as Hsub.
  { intros q Hq. rewrite <- Hs in Hq. set_solver. }
  assert (p ∈ hd :: l /\ n ∈ hd :: l) as [Hp Hn] by (split; apply Hsub; set_solver).
  pose proof (Hun _ _ Hl) as Hxl.
  destruct (list_add_between_spec h x p n) as (h' & -> & Hr); [done|by eapply rings_nodes..|].
  exists h'. split; [done|]. split; [|apply Hr]. eapply rings_insert; [done|exact Hr|..].
  - intros hd1 l1 q H1 Hne Hq.
    assert (q <> p /\ q <> n /\ q <> x) as (? & ? & ?).
    { split_and!; intros ->; [by eapply (rs_disjoint _ _ HR hd1 l1 hd l)..|by eapply Hun]. }
    by rewrite !at_node_ne.
  - split.
    + rewrite Hperm. apply NoDup_cons in Hd as [? ?]. rewrite !NoDup_cons. set_solver.
    + rewrite Hs'. eapply add_linked; [exact Hr|by eapply ring_cut| |by rewrite <- Hs].
      intros Hxs. by apply Hxl, Hsub.
  - intros hd1 l1 y H1 Hne Hy Hy1. rewrite Hperm in Hy.
    apply elem_of_cons in Hy as [->|[->|Hy]%elem_of_cons].
    + eapply (rs_disjoint _ _ HR hd1 l1 hd l hd); [done..|]. by left.
    + by eapply Hun.
    + eapply (rs_disjoint _ _ HR hd1 l1 hd l y); [done..|]. by right.
Qed.

(** The neighbours of a place in a list, whether the parts around it are empty or not. *)
Lemma first_of (l : list Z) hd : exists n s2, l ++ [hd] = n :: s2.
Proof. destruct l as [|n l]; [by exists hd, []|by exists n, (l ++ [hd])]. Qed.

Lemma last_of (l : list Z) hd : exists s1 p, hd :: l = s1 ++ [p].
Proof. destruct (exists_last (l := hd :: l) ltac:(done)) as (s1 & p & H). by exists s1, p. Qed.

Lemma list_add_spec h R hd l x :
  rings h R -> R !! hd = Some l -> unlisted h R x ->
  exists h', list_add h x hd = Done h' /\ rings h' (<[hd := x :: l]> R) /\ dom h' = dom h.
Proof.
  intros HR Hl Hx. destruct (first_of l hd) as (n & s2 & E).
  destruct (rings_add h R hd l (x :: l) [] hd n s2 x) as (h' & H & ?); [done..| | |done|].
  - by rewrite E.
  - cbn. by rewrite E.
  - exists h'. split; [|done]. unfold list_add.
    pose proof (rs_ring _ _ HR _ _ Hl) as [_ Hlk]. rewrite E in Hlk. destruct Hlk as [[Hn _] _].
    by rewrite (get_next_some _ _ _ Hn).
Qed.

Lemma list_add_tail_spec h R hd l x :
  rings h R -> R !! hd = Some l -> unlisted h R x ->
  exists h', list_add_tail h x hd = Done h' /\ rings h' (<[hd := l ++ [x]]> R) /\ dom h' = dom h.
Proof.
  intros HR Hl Hx. destruct (last_of l hd) as (s1 & p & E).
  destruct (rings_add h R hd l (l ++ [x]) s1 p hd [] x) as (h' & H & ?); [done..| | | |].
  - by rewrite app_comm_cons, E, <- app_assoc.
  - by rewrite <- app_assoc, app_comm_cons, E, <- app_assoc.
  - by rewrite Permutation_app_comm.
  - exists h'. split; [|done]. unfold list_add_tail.
    pose proof (rs_ring _ _ HR _ _ Hl) as [_ Hlk]. rewrite app_comm_cons, E, <- app_assoc in Hlk.
    apply linked_app in Hlk as [_ [[_ Hp] _]]. by rewrite (get_prev_some _ _ _ Hp).
Qed.

(** Taking an entry out of its list. *)
Lemma rings_remove h R hd l1 x l2 :
  rings h R -> R !! hd = Some (l1 ++ x :: l2) ->
  exists p n h', get_prev h x = Done p /\ get_next h x = Done n /\ __list_del h p n = Done h' /\
    rings h' (<[hd := l1 ++ l2]> R) /\ dom h' = dom h /\ unlisted h' (<[hd := l1 ++ l2]> R) x.
Proof.
  intros HR Hl. destruct (last_of l1 hd) as (s1 & p & E1). destruct (first_of l2 hd) as (n & s2 & E2).
  pose proof (rs_ring _ _ HR _ _ Hl) as [Hd Hlk].
  assert (hd :: (l1 ++ x :: l2) ++ [hd] = s1 ++ p :: x :: n :: s2) as Es.
  { rewrite <- app_assoc, app_comm_cons, E1, <- app_assoc. cbn [app]. by rewrite E2. }
  assert (hd :: (l1 ++ l2) ++ [hd] = s1 ++ p :: n :: s2) as Es'.
  { by rewrite <- app_assoc, app_comm_cons, E1, <- app_assoc, E2. }
  assert (NoDup (hd :: l1 ++ l2) /\ x ∉ hd :: l1 ++ l2) as [Hd' Hx'].
  { assert (hd :: l1 ++ x :: l2 ≡ₚ x :: hd :: l1 ++ l2) as Hp by (rewrite <- Permutation_middle; apply perm_swap).
    rewrite Hp in Hd. apply NoDup_cons in Hd. tauto. }
  assert (forall q, q ∈ s1 ++ p :: n :: s2 -> q ∈ hd :: l1 ++ x :: l2) as Hsub.
  { intros q Hq. rewrite <- Es' in Hq. set_solver. }
  assert (p ∈ hd :: l1 ++ x :: l2 /\ n ∈ hd :: l1 ++ x :: l2) as [Hp Hn] by (split; apply Hsub; set_solver).
  rewrite Es in Hlk. pose proof Hlk as Hlk2. apply linked_app in Hlk2 as [_ [[_ Hpx] [[Hxn _] _]]].
  destruct (list_del_between_spec h p n) as (h' & Hdel & Hr); [by eapply rings_nodes..|].
  exists p, n, h'. rewrite (get_prev_some _ _ _ Hpx), (get_next_some _ _ _ Hxn). split_and!; [done..| | |].
  - eapply rings_insert; [done|exact Hr|..].
    + intros hd1 l0 q H1 Hne Hq. assert (q <> p /\ q <> n) as [? ?].
      { split; intros ->; by eapply (rs_disjoint _ _ HR hd1 l0 hd). }
      by rewrite !at_node_ne.
    + split; [done|]. rewrite Es'. eapply del_linked; [exact Hr|by eapply ring_cut|done].
    + intros hd1 l0 y H1 Hne Hy Hy1. eapply (rs_disjoint _ _ HR hd1 l0 hd _ y); [done..|]. set_solver.
  - apply Hr.
  - split; [rewrite (rl_dom _ _ _ _ Hr); eapply (rings_nodes h R hd); [done..|set_solver]|].
    intros hd1 l0. destruct (decide (hd1 = hd)) as [->|Hne].
    + rewrite lookup_insert_eq. by intros [= <-].
    + rewrite lookup_insert_ne by done. intros H1 Hy. eapply (rs_disjoint _ _ HR hd1 l0 hd _ x); [done..|].
      set_solver.
Qed.

(** Writes to an entry that no list has. *)
Lemma rings_private h h' R x fn fp :
  rings h R -> unlisted h R x -> relinked h h' fn fp ->
  (forall q, q <> x -> fn q = None /\ fp q = None) -> rings h' R /\ unlisted h' R x.
Proof.
  intros [Hr Hd] [Hx Hun] Hrel Hf. split; [split; [|done]|].
  - intros hd l Hl. eapply ring_frame; [exact Hrel| |by apply Hr]. intros q Hq. apply Hf.
    intros ->. by eapply Hun.
  - split; [|done]. by rewrite (rl_dom _ _ _ _ Hrel).
Qed.

Lemma list_del_spec h R hd l1 x l2 :
  rings h R -> R !! hd = Some (l1 ++ x :: l2) ->
  exists h', list_del h x = Done h' /\ rings h' (<[hd := l1 ++ l2]> R) /\ dom h' = dom h /\
    unlisted h' (<[hd := l1 ++ l2]> R) x.
Proof.
  intros HR Hl. destruct (rings_remove h R hd l1 x l2 HR Hl) as (p & n & h1 & Ep & En & Ed & HR1 & Hdom & Hx).
  unfold list_del. rewrite Ep. run. rewrite En. run. rewrite Ed. run.
  pose proof (relinked_refl h1) as H. do 2 (relink H; [apply Hx|]).
  eexists. split; [done|].
  destruct (rings_private h1 h2 _ x _ _ HR1 Hx H) as [? ?]; [|split_and!; [done| |done]].
  - intros q Hq. by rewrite !at_node_ne.
  - rewrite <- Hdom. apply H.
Qed.

Lemma INIT_LIST_HEAD_spec h R x :
  rings h R -> unlisted h R x ->
  exists h', INIT_LIST_HEAD h x = Done h' /\ rings h' (<[x := []]> R) /\ dom h' = dom h.
Proof.
  intros HR Hx. unfold INIT_LIST_HEAD. pose proof (relinked_refl h) as H.
  do 2 (relink H; [apply Hx|]). eexists. split; [done|]. split; [|apply H].
  eapply rings_insert; [done|exact H|..].
  - intros hd1 l1 q H1 Hne Hq. destruct Hx as [_ Hun]. assert (q <> x) by (intros ->; by eapply Hun).
    by rewrite !at_node_ne.
  - split; [apply NoDup_singleton|]. destruct H as [Hn Hp _]. split; [|done].
    split; [by rewrite Hn, at_node_eq|by rewrite Hp, at_node_eq].
  - intros hd1 l1 y H1 Hne ->%list_elem_of_singleton Hy. by eapply (proj2 Hx).
Qed.

Lemma list_empty_spec h R hd l :
  rings h R -> R !! hd = Some l -> list_empty h hd = Done (bool_decide (l = [])).
Proof.
  intros HR Hl. pose proof (rs_ring _ _ HR _ _ Hl) as [Hd Hlk]. unfold list_empty.
  destruct l as [|x l]; destruct Hlk as [[Hn _] _]; rewrite (get_next_some _ _ _ Hn); run.
  - by rewrite Z.eqb_refl.
  - apply NoDup_cons in Hd as [Hd _]. rewrite (proj2 (Z.eqb_neq _ _)); [done|]. set_solver.
Qed.

Lemma list_empty_careful_spec h R hd l :
  rings h R -> R !! hd = Some l -> list_empty_careful h hd = Done (bool_decide (l = [])).
Proof.
  intros HR Hl. pose proof (list_empty_spec h R hd l HR Hl) as He. unfold list_empty in He.
  pose proof (rs_ring _ _ HR _ _ Hl) as [Hd Hlk]. unfold list_empty_careful.
  destruct (last_of l hd) as (s1 & p & E). rewrite app_comm_cons, E, <- app_assoc in Hlk.
  apply linked_app in Hlk as [_ [[_ Hp] _]]. rewrite (get_prev_some _ _ _ Hp).
  destruct (get_next h hd) as [n| |]; [|done..]. run. cbn in He. injection He as He. rewrite He.
  case_bool_decide; [subst l|done]. destruct s1 as [|? [|? ?]]; [|done..]. cbn in E. injection E as ->.
  apply Z.eqb_eq in He as ->. by rewrite Z.eqb_refl.
Qed.

Lemma unlisted_delete h R a la : rings h R -> R !! a = Some la -> unlisted h (delete a R) a.
Proof.
  intros HR Ha. split; [eapply (rings_nodes h R a la); [done..|by left]|].
  intros hd l. destruct (decide (hd = a)) as [->|Hne]; [by rewrite lookup_delete_eq|].
  rewrite lookup_delete_ne by done. intros Hl Hin.
  eapply (rs_disjoint _ _ HR hd l a la a); [done..|by left].
Qed.

Lemma rings_delete h R a : rings h R -> rings h (delete a R).
Proof.
  intros [Hr Hd]. split.
  - intros hd l Hl. apply lookup_delete_Some in Hl as [_ Hl]. by apply Hr.
  - intros hd l hd' l' x Hl Hl'. apply lookup_delete_Some in Hl as [_ Hl], Hl' as [_ Hl']. by eapply Hd.
Qed.

(** The links of a joined list. *)
Lemma splice_linked h h' a la b lb first last at_ m m' s2 :
  ring h a la -> ring h b lb -> (forall x, x ∈ a :: la -> x ∈ b :: lb -> False) ->
  la = first :: m -> la = m' ++ [last] -> lb ++ [b] = at_ :: s2 ->
  relinked h h' (at_node last at_ (at_node b first nowhere)) (at_node at_ last (at_node first b nowhere)) ->
  linked h' (b :: (la ++ lb) ++ [b]).
Proof.
  intros [Hda Ha] [Hdb Hb] Hdis E1 E2 E3 Hr. rewrite <- app_assoc, E3.
  assert (linked h la) as Hla.
  { assert (linked h (la ++ [a])) as Hl by (rewrite E1 in Ha |- *; exact (proj2 Ha)).
    rewrite E2, <- app_assoc in Hl. apply linked_app in Hl as [Hl _]. by rewrite E2. }
  rewrite E3 in Hb. destruct Hb as [_ Hb].
  apply NoDup_cons in Hda as [Hda1 Hda2]. apply NoDup_cons in Hdb as [Hdb1 Hdb2].
  assert (NoDup (at_ :: s2)) as Hds by (rewrite <- E3, Permutation_app_comm; by apply NoDup_cons).
  assert (forall q, q ∈ lb -> q ∈ b :: lb) as Hlb by (by right).
  assert (forall q, q ∈ at_ :: s2 -> q ∈ b :: lb) as Hsub.
  { intros q Hq. rewrite <- E3, elem_of_app, list_elem_of_singleton in Hq.
    apply elem_of_cons. tauto. }
  assert (forall q, q ∈ la -> q <> b /\ q <> at_ /\ q ∉ at_ :: s2) as Hout.
  { intros q Hq. split_and!; [intros ->|intros ->|intros Hs].
    - apply (Hdis b); [by right|by left].
    - apply (Hdis at_); [by right|apply Hsub; by left].
    - apply (Hdis q); [by right|by apply Hsub]. }
  assert (first ∈ la /\ last ∈ la) as [Hf Hl].
  { split; [rewrite E1; by left|rewrite E2; apply elem_of_app; right; by left]. }
  assert (linked h' la) as Hla'.
  { eapply relinked_keeps; [exact Hr|..|exact Hla]; intros q Hq.
    - assert (q ∈ la /\ q <> last) as [Hq1 Hq2].
      { rewrite E2, removelast_last in Hq. rewrite E2 in Hda2 |- *.
        apply NoDup_app in Hda2 as (_ & Hn & _). split; [apply elem_of_app; by left|].
        intros ->. apply (Hn last); [done|by left]. }
      rewrite !at_node_ne; [done|apply (Hout q Hq1)|done].
    - assert (q ∈ la /\ q <> first) as [Hq1 Hq2].
      { rewrite E1 in Hq, Hda2 |- *. apply NoDup_cons in Hda2 as [? _]. split; [by right|by intros ->]. }
      rewrite !at_node_ne; [done|done|apply (Hout q Hq1)]. }
  assert (linked h' (at_ :: s2)) as Hb'.
  { eapply relinked_keeps; [exact Hr|..|exact Hb]; intros q Hq.
    - assert (q ∈ at_ :: s2) as Hq1 by by apply removelast_tail.
      rewrite <- E3, removelast_last in Hq.
      rewrite !at_node_ne; [done| |]; intros ->; [done|]. by apply (Hout last Hl).
    - apply NoDup_cons in Hds as [? _].
      rewrite !at_node_ne; [done| |]; intros ->; [|done]. apply (Hout first Hf). by right. }
  destruct Hr as [Hn Hp _]. rewrite E1. cbn [app]. rewrite linked_cons. split.
  - assert (b <> last /\ first <> at_) as [? ?].
    { split; [apply not_eq_sym, (Hout last Hl)|apply (Hout first Hf)]. }
    split; [by rewrite Hn, at_node_ne, at_node_eq|by rewrite Hp, at_node_ne, at_node_eq].
  - rewrite app_comm_cons, <- E1, E2, <- app_assoc. apply linked_app. rewrite <- E2. split; [done|].
    apply linked_cons. split; [|done]. split; [by rewrite Hn, at_node_eq|by rewrite Hp, at_node_eq].
Qed.

Lemma list_splice_nonempty h R a la b lb :
  rings h R -> R !! a = Some la -> R !! b = Some lb -> a <> b -> la <> [] ->
  exists h', __list_splice h a b = Done h' /\ rings h' (<[b := la ++ lb]> (delete a R)) /\
    dom h' = dom h /\ unlisted h' (<[b := la ++ lb]> (delete a R)) a.
Proof.
  intros HR Ha Hb Hne Hla. pose proof (rs_ring _ _ HR _ _ Ha) as HRa. pose proof (rs_ring _ _ HR _ _ Hb) as HRb.
  assert (forall x, x ∈ a :: la -> x ∈ b :: lb -> False) as Hdis by (intros x; by apply (rs_disjoint _ _ HR a la b lb)).
  destruct la as [|first m] eqn:E1; [done|]. rewrite <- E1 in *.
  destruct (exists_last (l := la)) as (m' & last & E2); [by rewrite E1|].
  destruct (first_of lb b) as (at_ & s2 & E3).
  assert (first ∈ la /\ last ∈ la) as [Hf Hl].
  { split; [rewrite E1; by left|rewrite E2; apply elem_of_app; right; by left]. }
  assert (at_ ∈ b :: lb) as Hat.
  { assert (at_ ∈ lb ++ [b]) as H by (rewrite E3; by left). set_solver. }
  unfold __list_splice.
  assert (nextf h a = Some first /\ prevf h a = Some last /\ nextf h b = Some at_) as (Hn & Hp & Hn').
  { destruct HRa as [_ HRa], HRb as [_ HRb]. rewrite E3 in HRb. split; [|split; [|apply HRb]].
    - rewrite E1 in HRa. apply HRa.
    - rewrite E2, <- app_assoc, app_comm_cons in HRa. apply linked_app in HRa as [_ [[_ H] _]]. exact H. }
  rewrite (get_next_some _ _ _ Hn), (get_prev_some _ _ _ Hp), (get_next_some _ _ _ Hn'). run.
  pose proof (relinked_refl h) as H.
  relink H; [eapply (rings_nodes h R a la); [done..|by right]|].
  relink H; [eapply (rings_nodes h R b lb); [done..|by left]|].
  relink H; [eapply (rings_nodes h R a la); [done..|by right]|].
  relink H; [by eapply (rings_nodes h R b lb)|].
  eexists. split; [done|]. pose proof (splice_linked _ _ _ _ _ _ _ _ _ _ _ _ HRa HRb Hdis E1 E2 E3 H) as Hlk.
  assert (rings h (delete a R)) as HRd by by apply rings_delete.
  assert (forall hd1 l1 q, delete a R !! hd1 = Some l1 -> hd1 <> b -> q ∈ hd1 :: l1 ->
    q ∉ a :: la /\ q ∉ b :: lb) as Hout.
  { intros hd1 l1 q [Hna Hl1]%lookup_delete_Some Hnb Hq. split; intros Hin.
    - by eapply (rs_disjoint _ _ HR hd1 l1 a la q).
    - by eapply (rs_disjoint _ _ HR hd1 l1 b lb q). }
  assert (rings h3 (<[b := la ++ lb]> (delete a R))) as HR'.
  { eapply rings_insert; [done|exact H|..].
    - intros hd1 l1 q H1 Hnb Hq. destruct (Hout hd1 l1 q H1 Hnb Hq) as [Hqa Hqb].
      rewrite !at_node_ne; [done|..]; intros ->; set_solver.
    - split; [|done]. destruct HRa as [Hda _], HRb as [Hdb _]. apply NoDup_cons in Hda as [_ Hda], Hdb as [Hdb1 Hdb2].
      apply NoDup_cons. split; [set_solver|]. apply NoDup_app. split_and!; [done| |done].
      intros x Hx Hx'. apply (Hdis x); by right.
    - intros hd1 l1 x H1 Hnb Hx Hx1. destruct (Hout hd1 l1 x H1 Hnb Hx1). set_solver. }
  split_and!; [done|apply H|]. split.
  - rewrite (rl_dom _ _ _ _ H). eapply (rings_nodes h R a la); [done..|by left].
  - intros hd l. destruct (decide (hd = b)) as [->|Hnb].
    + rewrite lookup_insert_eq. intros [= <-]. destruct HRa as [Hda _]. apply NoDup_cons in Hda as [Hda _].
      assert (a ∉ b :: lb) by (intros Hin; by apply (Hdis a); [left|]). set_solver.
    + rewrite lookup_insert_ne by done. apply (proj2 (unlisted_delete _ _ _ _ HR Ha)).
Qed.

Lemma lookup_rest (R : gmap Z (list Z)) hd l hd2 l' :
  <[hd := l]> R !! hd2 = Some l' -> hd2 = hd /\ l' = l \/ hd2 <> hd /\ R !! hd2 = Some l'.
Proof. rewrite lookup_insert_Some. naive_solver. Qed.

(** The nodes that a loop over the list visits, in order. *)
Lemma for_each_spec h hd t fuel :
  linked h (t ++ [hd]) -> is_Some (nextf h hd) -> hd ∉ t -> (length t < fuel)%nat ->
  for_each fuel h hd (List.hd hd t) = Done t.
Proof.
  intros Hl [n Hn] Hhd. revert fuel Hl. induction t as [|x t IH]; intros fuel Hl Hf.
  - destruct fuel; [lia|]. cbn. by rewrite (get_next_some _ _ _ Hn), Z.eqb_refl.
  - destruct fuel; cbn in Hf; [lia|]. cbn [for_each List.hd].
    assert (nextf h x = Some (List.hd hd t)) as Hx by (destruct t; apply Hl).
    rewrite (get_next_some _ _ _ Hx). run. rewrite (proj2 (Z.eqb_neq _ _)) by set_solver.
    rewrite IH; [done|set_solver| |lia]. destruct t; apply Hl.
Qed.

Lemma list_for_each_spec h R hd l fuel :
  rings h R -> R !! hd = Some l -> (length l < fuel)%nat -> list_for_each fuel h hd = Done l.
Proof.
  intros HR Hl Hf. pose proof (rs_ring _ _ HR _ _ Hl) as [Hd Hlk]. apply NoDup_cons in Hd as [Hd _].
  assert (nextf h hd = Some (List.hd hd l)) as Hn by (destruct l; apply Hlk).
  unfold list_for_each. rewrite (get_next_some _ _ _ Hn). run.
  apply for_each_spec; [destruct l; apply Hlk|by eexists|done|done].
Qed.

(** ** Allocation of entries *)

Lemma ring_agree h h' hd l :
  (forall q, q ∈ hd :: l -> h' !! q = h !! q) -> ring h hd l -> ring h' hd l.
Proof.
  intros Hq [Hd Hl]. split; [done|]. eapply linked_frame; [..|exact Hl]; intros q Hin.
  - rewrite app_comm_cons, removelast_last in Hin. unfold nextf. by rewrite Hq.
  - cbn in Hin. rewrite elem_of_app, list_elem_of_singleton in Hin. unfold prevf.
    rewrite Hq; [done|]. apply elem_of_cons. tauto.
Qed.

Lemma rings_alloc h R x n :
  rings h R -> x ∉ dom h -> rings (<[x := n]> h) R /\ unlisted (<[x := n]> h) R x.
Proof.
  intros HR Hx. assert (forall hd l q, R !! hd = Some l -> q ∈ hd :: l -> q <> x) as Hne.
  { intros hd l q Hl Hq ->. apply Hx. by eapply rings_nodes. }
  split; [split; [|apply HR]|].
  - intros hd l Hl. eapply ring_agree; [|by eapply rs_ring].
    intros q Hq. rewrite lookup_insert_ne; [done|]. apply not_eq_sym. by eapply Hne.
  - split; [rewrite dom_insert_L; set_solver|]. intros hd l Hl Hq. by eapply Hne.
Qed.

Lemma rings_free h R x : rings h R -> unlisted h R x -> rings (delete x h) R.
Proof.
  intros HR [_ Hx]. split; [|apply HR]. intros hd l Hl. eapply ring_agree; [|by eapply rs_ring].
  intros q Hq. rewrite lookup_delete_ne; [done|]. intros ->. by eapply Hx.
Qed.

(** ** Loops over the structures that embed a link at offset [off] *)

Definition list_entry (off ptr : Z) : Z := ptr - off.

Section entries.
Context {W X : Type} (off : Z) (body : Z -> W -> outcome (option X * W)).

(** list_for_each_entry: the body is given the structure; it returns a value when it leaves
    the function. *)
Fixpoint list_for_each_entry (fuel : nat) (h : links) (head pos : Z) (w : W) : outcome (option X * W) :=
  match fuel with
  | O => OutOfFuel
  | S fuel =>
      n ← get_next h (pos + off);
      if pos + off =? head then Done (None, w)
      else
        '(r, w) ← body pos w;
        match r with
        | Some x => Done (Some x, w)
        | None => list_for_each_entry fuel h head (list_entry off n) w
        end
  end.

Definition list_for_each_entry_from_head (fuel : nat) (h : links) (head : Z) (w : W) : outcome (option X * W) :=
  n ← get_next h head; list_for_each_entry fuel h head (list_entry off n) w.

(** The body run on a sequence of structures. *)
Fixpoint visit_all (ps : list Z) (w : W) : outcome (option X * W) :=
  match ps with
  | [] => Done (None, w)
  | p :: ps =>
      '(r, w) ← body p w;
      match r with Some x => Done (Some x, w) | None => visit_all ps w end
  end.

Lemma list_for_each_entry_spec fuel h hd t w :
  linked h (t ++ [hd]) -> is_Some (nextf h hd) -> hd ∉ t -> (length t < fuel)%nat ->
  list_for_each_entry fuel h hd (list_entry off (List.hd hd t)) w = visit_all (list_entry off <$> t) w.
Proof.
  intros Hl [n Hn] Hhd. revert fuel Hl w. induction t as [|x t IH]; intros fuel Hl w Hf.
  - destruct fuel; [lia|]. cbn. unfold list_entry. rewrite Z.sub_add.
    by rewrite (get_next_some _ _ _ Hn), Z.eqb_refl.
  - destruct fuel; cbn in Hf; [lia|]. cbn [list_for_each_entry List.hd fmap list_fmap visit_all].
    assert (nextf h x = Some (List.hd hd t)) as Hx by (destruct t; apply Hl).
    replace (list_entry off x + off) with x by (unfold list_entry; lia).
    rewrite (get_next_some _ _ _ Hx). run. rewrite (proj2 (Z.eqb_neq _ _)) by set_solver.
    destruct (body (list_entry off x) w) as [[[r|] w']| |]; [done| |done..]. run.
    apply IH; [set_solver| |lia]. destruct t; apply Hl.
Qed.

Lemma list_for_each_entry_visits fuel h R hd ps w :
  rings h R -> R !! hd = Some ((fun p => p + off) <$> ps) -> (length ps < fuel)%nat ->
  list_for_each_entry_from_head fuel h hd w = visit_all ps w.
Proof.
  intros HR Hl Hf. set (l := (fun p => p + off) <$> ps) in *.
  pose proof (rs_ring _ _ HR _ _ Hl) as [Hd Hlk]. apply NoDup_cons in Hd as [Hd _].
  assert (nextf h hd = Some (List.hd hd l)) as Hn by (destruct l; apply Hlk).
  unfold list_for_each_entry_from_head. rewrite (get_next_some _ _ _ Hn). run.
  rewrite list_for_each_entry_spec; [|destruct l; apply Hlk|by eexists|done|by subst l; rewrite length_fmap].
  f_equal. subst l. rewrite <- list_fmap_compose. rewrite <- (list_fmap_id ps) at 2.
  apply list_fmap_ext. intros ? p _. cbn. unfold list_entry. lia.
Qed.
End entries.

(** ** The operations as operations on sequences *)

Inductive list_op :=
| op_init (x : Z) | op_add (x hd : Z) | op_add_tail (x hd : Z) | op_del (x : Z) | op_del_init (x : Z)
| op_move (x hd : Z) | op_move_tail (x hd : Z) | op_splice (a b : Z) | op_splice_init (a b : Z).

Definition run_op (h : links) (o : list_op) : outcome links :=
  match o with
  | op_init x => INIT_LIST_HEAD h x
  | op_add x hd => list_add h x hd
  | op_add_tail x hd => list_add_tail h x hd
  | op_del x => list_del h x
  | op_del_init x => list_del_init h x
  | op_move x hd => list_move h x hd
  | op_move_tail x hd => list_move_tail h x hd
  | op_splice a b => list_splice h a b
  | op_splice_init a b => list_splice_init h a b
  end.

(** What an operation does to the lists [R], and when it may be used.  After list_splice the
    head of a list that had entries is no list any more. *)
Inductive spec_op (h : links) (R : gmap Z (list Z)) : list_op -> gmap Z (list Z) -> Prop :=
| spec_init x : unlisted h R x -> spec_op h R (op_init x) (<[x := []]> R)
| spec_add x hd l : unlisted h R x -> R !! hd = Some l -> spec_op h R (op_add x hd) (<[hd := x :: l]> R)
| spec_add_tail x hd l : unlisted h R x -> R !! hd = Some l ->
    spec_op h R (op_add_tail x hd) (<[hd := l ++ [x]]> R)
| spec_del x hd l1 l2 : R !! hd = Some (l1 ++ x :: l2) -> spec_op h R (op_del x) (<[hd := l1 ++ l2]> R)
| spec_del_init x hd l1 l2 : R !! hd = Some (l1 ++ x :: l2) ->
    spec_op h R (op_del_init x) (<[x := []]> (<[hd := l1 ++ l2]> R))
| spec_move x hd l1 l2 hd' l : R !! hd = Some (l1 ++ x :: l2) -> <[hd := l1 ++ l2]> R !! hd' = Some l ->
    spec_op h R (op_move x hd') (<[hd' := x :: l]> (<[hd := l1 ++ l2]> R))
| spec_move_tail x hd l1 l2 hd' l : R !! hd = Some (l1 ++ x :: l2) ->
    <[hd := l1 ++ l2]> R !! hd' = Some l ->
    spec_op h R (op_move_tail x hd') (<[hd' := l ++ [x]]> (<[hd := l1 ++ l2]> R))
| spec_splice a la b lb : R !! a = Some la -> R !! b = Some lb -> a <> b ->
    spec_op h R (op_splice a b)
      (match la with [] => R | _ :: _ => <[b := la ++ lb]> (delete a R) end)
| spec_splice_init a la b lb : R !! a = Some la -> R !! b = Some lb -> a <> b ->
    spec_op h R (op_splice_init a b) (<[a := []]> (<[b := la ++ lb]> R)).

Lemma splice_init_empty (R : gmap Z (list Z)) a b lb :
  R !! a = Some [] -> R !! b = Some lb -> a <> b -> <[a := []]> (<[b := [] ++ lb]> R) = R.
Proof.
  intros Ha Hb Hne. rewrite app_nil_l, (insert_id R b lb), (insert_id R a []); done.
Qed.

(** C28. Every list operation returns, and on any heap of disjoint lists it is the operation on
    sequences of its name: adding in front or at the end, deleting, moving between lists and
    joining two lists, with or without a new start for the one that is emptied, with all the
    other lists unchanged; a loop over a list of the result visits its entries in order, and
    both tests for an empty list tell whether it has any. *)
Theorem list_ops_refine h R o R' :
  rings h R -> spec_op h R o R' ->
  exists h', run_op h o = Done h' /\ rings h' R' /\ dom h' = dom h /\
    forall hd l, R' !! hd = Some l ->
      (forall fuel, (length l < fuel)%nat -> list_for_each fuel h' hd = Done l) /\
      list_empty h' hd = Done (bool_decide (l = [])) /\ list_empty_careful h' hd = Done (bool_decide (l = [])).
Proof.
  intros HR Ho.
  assert (exists h', run_op h o = Done h' /\ rings h' R' /\ dom h' = dom h) as (h' & H1 & H2 & H3).
  2: { exists h'. split_and!; [done..|]. intros hd l Hl. split_and!;
         [intros; by eapply list_for_each_spec|by eapply list_empty_spec|by eapply list_empty_careful_spec]. }
  destruct Ho; cbn [run_op].
  - by apply INIT_LIST_HEAD_spec.
  - by apply list_add_spec.
  - by apply list_add_tail_spec.
  - destruct (list_del_spec h R hd l1 x l2) as (h' & ? & ? & ? & _); [done..|]. by exists h'.
  - destruct (rings_remove h R hd l1 x l2) as (p & n & h1 & Ep & En & Ed & HR1 & Hdom & Hx); [done..|].
    unfold list_del_init. rewrite Ep, En. run. rewrite Ed. run.
    destruct (INIT_LIST_HEAD_spec _ _ _ HR1 Hx) as (h' & ? & ? & ?). exists h'. split_and!; congruence.
  - destruct (rings_remove h R hd l1 x l2) as (p & n & h1 & Ep & En & Ed & HR1 & Hdom & Hx); [done..|].
    unfold list_move. rewrite Ep, En. run. rewrite Ed. run.
    destruct (list_add_spec _ _ _ _ _ HR1 H0 Hx) as (h' & ? & ? & ?). exists h'. split_and!; congruence.
  - destruct (rings_remove h R hd l1 x l2) as (p & n & h1 & Ep & En & Ed & HR1 & Hdom & Hx); [done..|].
    unfold list_move_tail. rewrite Ep, En. run. rewrite Ed. run.
    destruct (list_add_tail_spec _ _ _ _ _ HR1 H0 Hx) as (h' & ? & ? & ?). exists h'. split_and!; congruence.
  - unfold list_splice. rewrite (list_empty_spec h R a la) by done. run. destruct la as [|x la]; [by exists h|].
    destruct (list_splice_nonempty h R a (x :: la) b lb) as (h1 & -> & HR1 & Hdom & _); [done..|]. by exists h1.
  - unfold list_splice_init. rewrite (list_empty_spec h R a la) by done. run.
    case_bool_decide as Hla; [subst; rewrite splice_init_empty by done; by exists h|].
    destruct (list_splice_nonempty h R a la b lb) as (h1 & -> & HR1 & Hdom & Hx); [done..|]. run.
    destruct (INIT_LIST_HEAD_spec _ _ _ HR1 Hx) as (h' & ? & Hr & ?). exists h'.
    split_and!; [done| |congruence].
    by rewrite (insert_insert_ne _ a b), insert_delete_eq, (insert_insert_ne _ b a) in Hr by done.
Qed.

(** Two lists with heads 1 and 2, the first one with an entry, and a free node. *)
Definition demo_links : links :=
  {[ 1 := mk_list_head 3 3; 3 := mk_list_head 1 1; 2 := mk_list_head 2 2; 4 := mk_list_head 0 0 ]}.

Lemma demo_rings : rings demo_links {[ 1 := [3]; 2 := [] ]}.
Proof.
  split.
  - intros hd l [[<- <-]|[? [<- <-]%lookup_singleton_Some]]%lookup_insert_Some;
      (split; [repeat constructor; set_solver|by repeat split]).
  - intros hd l hd' l' x [[<- <-]|[? [<- <-]%lookup_singleton_Some]]%lookup_insert_Some
      [[<- <-]|[? [<- <-]%lookup_singleton_Some]]%lookup_insert_Some; set_solver.
Qed.

Lemma list_ops_refine_witness : exists h', list_move demo_links 3 2 = Done h' /\
  list_for_each 5 h' 1 = Done [] /\ list_for_each 5 h' 2 = Done [3] /\ list_empty h' 1 = Done true.
Proof.
  destruct (list_ops_refine demo_links _ (op_move 3 2) _ demo_rings
    (spec_move demo_links {[ 1 := [3]; 2 := [] ]} 3 1 [] [] 2 [] ltac:(done) ltac:(done))) as (h' & H1 & _ & _ & H).
  exists h'. destruct (H 1 []) as (H2 & H3 & _); [reflexivity|]. destruct (H 2 [3]) as (H4 & _); [reflexivity|].
  split_and!; [exact H1|apply H2; cbn; lia|apply H4; cbn; lia|exact H3].
Defined.

End ListHead.
