(* ===== verification/Queue.v ===== *)
(** The generic queue of vmm_queue.c, on the lists of vmm_list.h.

    [Module Queue] has the queue with its entries in a heap: the results of V3_Malloc are
    arguments.  The theorem shows that the queue is first-in first-out. *)
From stdpp Require Import base tactics numbers list gmap.
From S2P Require Import Prelude ListHead.

Module Queue.
Import ListHead.

(** [struct gen_queue], its list head at [entries] and the entries in memory: the member
    [entry] of each [struct queue_entry], and the links. *)
Record gen_queue := mk_gen_queue {
  num_entries : Z;
  entries : Z;
  q_entry : gmap Z Z;
  q_links : links;
}.

#[export] Instance eta_gen_queue : Eta gen_queue := fun q =>
  mk_gen_queue (num_entries q) (entries q) (q_entry q) (q_links q).

Section queue.
Context {A : Arch}.

(** The offset of [entry_list]: it follows an [addr_t]. *)
Definition entry_list_off : Z := BITS_PER_LONG the_arch / 8.

(** [tmp_queue = V3_Malloc(...)]: the head is at [ptr]. *)
Definition v3_init_queue (q : gen_queue) : outcome gen_queue :=
  let q := q <| num_entries := 0 |> in
  h ← INIT_LIST_HEAD (q_links q) (entries q);
  Done (q <| q_links := h |>).

Definition v3_create_queue (ptr : Z) : outcome gen_queue :=
  if ptr =? NULL then Undef
  else v3_init_queue (mk_gen_queue 0 ptr ∅ {[ ptr := mk_list_head 0 0 ]}).

(** [ptr]: the result of V3_Malloc, which is not checked. *)
Definition v3_enqueue (q : gen_queue) (ptr entry : Z) : outcome gen_queue :=
  if ptr =? NULL then Undef else
  let q := q <| q_links := <[ptr + entry_list_off := mk_list_head 0 0]> (q_links q) |> in
  let q := q <| q_entry := <[ptr := entry]> (q_entry q) |> in
  h ← list_add_tail (q_links q) (ptr + entry_list_off) (entries q);
  let q := q <| q_links := h |> in
  Done (q <| num_entries := u32 (num_entries q + 1) |>).

Definition v3_dequeue (q : gen_queue) : outcome (Z * gen_queue) :=
  e ← list_empty (q_links q) (entries q);
  if e : bool then Done (0, q)
  else
    q_ent ← get_next (q_links q) (entries q);
    let tmp_entry := list_entry entry_list_off q_ent in
    entry_val ← deref (q_entry q) tmp_entry;
    h ← list_del (q_links q) q_ent;
    ents ← v3_free (q_entry q) tmp_entry;
    h ← v3_free h (tmp_entry + entry_list_off);
    Done (entry_val, q <| q_links := h |> <| q_entry := ents |>).

(** ** What a queue holds *)

(** The values [vs], oldest first, in the entries at [ps]. *)
Record holds (q : gen_queue) (ps vs : list Z) : Prop := {
  hd_rings : rings (q_links q) {[ entries q := (fun p => p + entry_list_off) <$> ps ]};
  hd_values : Forall2 (fun p v => q_entry q !! p = Some v) ps vs;
}.

Definition queue_rep (q : gen_queue) (vs : list Z) : Prop := exists ps, holds q ps vs.

(** A pointer that V3_Malloc may return: memory that is not in use. *)
Definition fresh (q : gen_queue) (ptr : Z) : Prop :=
  ptr <> NULL /\ q_entry q !! ptr = None /\ ptr + entry_list_off ∉ dom (q_links q).

Lemma enqueue_holds q ps vs ptr v :
  holds q ps vs -> fresh q ptr ->
  exists q', v3_enqueue q ptr v = Done q' /\ holds q' (ps ++ [ptr]) (vs ++ [v]) /\
    num_entries q' = u32 (num_entries q + 1).
Proof.
  intros [HR HV] (Hnull & He & Hl). unfold v3_enqueue. rewrite (proj2 (Z.eqb_neq _ _) Hnull).
  destruct (rings_alloc _ _ _ (mk_list_head 0 0) HR Hl) as [HR1 Hun].
  destruct (list_add_tail_spec _ _ _ _ _ HR1 (lookup_singleton_eq _ _) Hun) as (h & Hh & HR2 & _).
  cbn [q_links entries update_field] in *. change (q_links (?q <| q_links := ?h |> <| q_entry := _ |>)) with h.
  rewrite Hh. run. eexists. split; [done|]. split; [|done]. split.
  - change (rings h {[ entries q := (fun p => p + entry_list_off) <$> (ps ++ [ptr]) ]}).
    rewrite fmap_app. by rewrite insert_singleton_eq in HR2.
  - change (Forall2 (fun p v0 => <[ptr := v]> (q_entry q) !! p = Some v0) (ps ++ [ptr]) (vs ++ [v])).
    apply Forall2_app; [|constructor; [by rewrite lookup_insert_eq|constructor]].
    eapply Forall2_impl; [exact HV|]. intros p w Hp. rewrite lookup_insert_ne; [done|congruence].
Qed.

Lemma dequeue_holds q p ps v vs :
  holds q (p :: ps) (v :: vs) ->
  exists q', v3_dequeue q = Done (v, q') /\ holds q' ps vs /\ num_entries q' = num_entries q /\
    q_entry q !! p = Some v /\ q_entry q' = delete p (q_entry q).
Proof.
  intros [HR HV]. apply Forall2_cons in HV as [Hp HV]. unfold v3_dequeue.
  rewrite (list_empty_spec _ _ _ _ HR (lookup_singleton_eq _ _)). rewrite fmap_cons. run.
  pose proof (rs_ring _ _ HR _ _ (lookup_singleton_eq _ _)) as [Hd [[Hn _] _]].
  rewrite (get_next_some _ _ _ Hn). run.
  replace (list_entry entry_list_off (p + entry_list_off)) with p by (unfold list_entry; lia).
  rewrite (deref_some _ _ _ Hp). run.
  destruct (list_del_spec (q_links q) _ (entries q) [] (p + entry_list_off)
    ((fun p => p + entry_list_off) <$> ps) HR) as (h & -> & HR1 & Hdom & Hun);
    [by rewrite lookup_singleton_eq|]. run.
  unfold v3_free. rewrite (deref_some _ _ _ Hp). run.
  destruct (proj1 (elem_of_dom _ _) (proj1 Hun)) as [n Hn']. rewrite (deref_some _ _ _ Hn'). run.
  eexists. split; [done|]. split; [|done]. split.
  - change (rings (delete (p + entry_list_off) h) {[ entries q := (fun p => p + entry_list_off) <$> ps ]}).
    rewrite insert_singleton_eq in *. by apply rings_free.
  - change (Forall2 (fun p0 v0 => delete p (q_entry q) !! p0 = Some v0) ps vs).
    apply NoDup_cons in Hd as [_ Hd]. rewrite fmap_cons in Hd. apply NoDup_cons in Hd as [Hd _].
    rewrite Forall2_same_length_lookup in HV |- *. destruct HV as [Hlen HV]. split; [done|].
    intros i x y Hx Hy. rewrite lookup_delete_ne; [by eapply HV|]. intros ->. apply Hd.
    apply list_elem_of_fmap. exists x. split; [done|]. by eapply list_elem_of_lookup_2.
Qed.

(** The queue is first-in first-out: enqueueing appends the value, dequeueing returns and
    removes the oldest one and frees its entry, and gives 0 on an empty queue; neither reads
    memory that is not allocated.  The count of entries is not decremented. *)
Theorem queue_fifo q vs :
  queue_rep q vs ->
  (forall ptr v, fresh q ptr -> exists q', v3_enqueue q ptr v = Done q' /\ queue_rep q' (vs ++ [v]) /\
    num_entries q' = u32 (num_entries q + 1)) /\
  match vs with
  | [] => v3_dequeue q = Done (0, q)
  | v :: vs' => exists q' p, v3_dequeue q = Done (v, q') /\ queue_rep q' vs' /\
      q_entry q !! p = Some v /\ q_entry q' = delete p (q_entry q) /\ num_entries q' = num_entries q
  end.
Proof.
  intros [ps Hq]. split.
  - intros ptr v Hf. destruct (enqueue_holds q ps vs ptr v Hq Hf) as (q' & ? & ? & ?).
    exists q'. split_and!; [done|by eexists|done].
  - destruct vs as [|v vs].
    + destruct Hq as [HR HV]. apply Forall2_nil_inv_r in HV as ->. unfold v3_dequeue.
      by rewrite (list_empty_spec _ _ _ _ HR (lookup_singleton_eq _ _)).
    + pose proof (hd_values _ _ _ Hq) as HV. destruct ps as [|p ps]; [by apply Forall2_nil_inv_l in HV|].
      destruct (dequeue_holds q p ps v vs Hq) as (q' & ? & ? & ? & ? & ?).
      exists q', p. split_and!; [done|by eexists|done..].
Qed.

Lemma create_queue_rep ptr : ptr <> NULL -> exists q, v3_create_queue ptr = Done q /\ queue_rep q [].
Proof.
  intros Hp. unfold v3_create_queue, v3_init_queue. rewrite (proj2 (Z.eqb_neq _ _) Hp). cbn [q_links entries update_field].
  destruct (INIT_LIST_HEAD_spec {[ptr := mk_list_head 0 0]} ∅ ptr) as (h & Hh & HR & _).
  - split; [done|]. intros ????? Hl. by rewrite lookup_empty in Hl.
  - split; [by rewrite dom_singleton_L, elem_of_singleton|]. intros ?? Hl. by rewrite lookup_empty in Hl.
  - set (q := mk_gen_queue 0 ptr ∅ {[ptr := mk_list_head 0 0]}).
    change (entries (q <| num_entries := 0 |>)) with ptr.
    change (q_links (q <| num_entries := 0 |>)) with ({[ptr := mk_list_head 0 0]} : links).
    rewrite Hh. run. eexists. split; [done|]. exists []. split; [exact HR|constructor].
Qed.

End queue.

Definition demo_queue : gen_queue := mk_gen_queue 0 64 ∅ {[ 64 := mk_list_head 64 64 ]}.

Lemma demo_queue_rep : queue_rep (A := V3_64BIT) demo_queue [].
Proof.
  exists []. split; [|constructor]. split.
  - intros hd l [<- <-]%lookup_singleton_Some. split; [by apply NoDup_singleton|by repeat split].
  - intros hd l hd' l' x [<- <-]%lookup_singleton_Some [<- <-]%lookup_singleton_Some. done.
Qed.

Lemma queue_fifo_witness : exists q, v3_enqueue (A := V3_64BIT) demo_queue 128 7 = Done q /\
  queue_rep (A := V3_64BIT) q [7].
Proof.
  destruct (proj1 (queue_fifo (A := V3_64BIT) demo_queue [] demo_queue_rep) 128 7) as (q & H1 & H2 & _).
  - split_and!; [done|done|]. unfold entry_list_off. cbn. by rewrite dom_singleton_L, elem_of_singleton.
  - exists q. split; [exact H1|exact H2].
Defined.

End Queue.
