(* ===== verification/VmTime.v ===== *)
(** Guest time: vmm_time.c and vmm_time.h.

    [Module VmTime] has the time stamp counter of the guest and the list of installed timers.
    A timer is a structure in memory with its callback and private data; what a callback does
    is an argument of the model.  The theorem shows which timers an update notifies. *)
From stdpp Require Import base tactics numbers list gmap.
From S2P Require Import Prelude ListHead.

Module VmTime.
Import ListHead.

(** [struct vm_timer]; the address of its operations stands for the callback. *)
Record vm_timer := mk_vm_timer {
  tm_private_data : Z;
  tm_ops : Z;
}.

(** [struct vm_time], with the timers in memory; [timers] is the address of the list head. *)
Record vm_time := mk_vm_time {
  cpu_freq : Z;
  guest_tsc : Z;
  cached_host_tsc : Z;
  num_timers : Z;
  timers : Z;
  tm_objs : gmap Z vm_timer;
  tm_links : links;
}.

#[export] Instance eta_vm_time : Eta vm_time := fun t =>
  mk_vm_time (cpu_freq t) (guest_tsc t) (cached_host_tsc t) (num_timers t) (timers t) (tm_objs t)
    (tm_links t).

Section time.
Context {A : Arch}.

(** The offset of [timer_link]: it follows two pointers. *)
Definition timer_link_off : Z := 2 * (BITS_PER_LONG the_arch / 8).

Definition v3_init_time (t : vm_time) (cpu_khz : Z) : outcome vm_time :=
  let t := t <| cpu_freq := u32 cpu_khz |> in
  let t := t <| guest_tsc := 0 |> <| cached_host_tsc := 0 |> in
  h ← INIT_LIST_HEAD (tm_links t) (timers t);
  let t := t <| tm_links := h |> in
  Done (t <| num_timers := 0 |>).

(** [timer]: the result of V3_Malloc; a failed assertion does not return. *)
Definition v3_add_timer (t : vm_time) (timer ops private_data : Z) : outcome (Z * vm_time) :=
  if timer =? NULL then OutOfFuel else
  let t := t <| tm_objs := <[timer := mk_vm_timer private_data ops]> (tm_objs t) |> in
  let t := t <| tm_links := <[timer + timer_link_off := mk_list_head 0 0]> (tm_links t) |> in
  h ← list_add (tm_links t) (timer + timer_link_off) (timers t);
  let t := t <| tm_links := h |> in
  Done (0, t <| num_timers := u32 (num_timers t + 1) |>).

Definition v3_remove_timer (t : vm_time) (timer : Z) : outcome (Z * vm_time) :=
  h ← list_del (tm_links t) (timer + timer_link_off);
  let t := t <| tm_links := h |> in
  let t := t <| num_timers := u32 (num_timers t - 1) |> in
  objs ← v3_free (tm_objs t) timer;
  h ← v3_free (tm_links t) (timer + timer_link_off);
  Done (0, t <| tm_objs := objs |> <| tm_links := h |>).

(** The callbacks: [update_time ops cycles freq private_data] on the rest of the machine. *)
Context {W : Type} (update_time : Z -> Z -> Z -> Z -> W -> outcome W).

(** The body of the loop. *)
Definition notify (objs : gmap Z vm_timer) (cycles freq timer : Z) (w : W) : outcome (option unit * W) :=
  tm ← deref objs timer;
  w ← update_time (tm_ops tm) cycles freq (tm_private_data tm) w;
  Done (None, w).

Definition v3_update_time (fuel : nat) (t : vm_time) (cycles : Z) (w : W) : outcome (vm_time * W) :=
  let t := t <| guest_tsc := u64 (guest_tsc t + cycles) |> in
  '(_, w) ← list_for_each_entry_from_head timer_link_off (notify (tm_objs t) cycles (cpu_freq t))
             fuel (tm_links t) (timers t) w;
  Done (t, w).

(** ** The timers that are installed *)

(** The timers [ps], newest first, and nothing else. *)
Record installed (t : vm_time) (ps : list Z) : Prop := {
  in_rings : rings (tm_links t) {[ timers t := (fun p => p + timer_link_off) <$> ps ]};
  in_objs p : p ∈ ps -> is_Some (tm_objs t !! p);
  in_count : num_timers t = u32 (Z.of_nat (length ps));
}.

(** What one update does to the machine: every installed timer once, newest first. *)
Fixpoint notify_all (tms : list vm_timer) (cycles freq : Z) (w : W) : outcome W :=
  match tms with
  | [] => Done w
  | tm :: tms => w ← update_time (tm_ops tm) cycles freq (tm_private_data tm) w; notify_all tms cycles freq w
  end.

Definition installed_timers (t : vm_time) (ps : list Z) : list vm_timer := omap (fun p => tm_objs t !! p) ps.

Lemma visit_notify objs cycles freq ps w :
  (forall p, p ∈ ps -> is_Some (objs !! p)) ->
  visit_all (notify objs cycles freq) ps w =
    (w ← notify_all (omap (fun p => objs !! p) ps) cycles freq w; Done (None, w)).
Proof.
  revert w. induction ps as [|p ps IH]; intros w Hp; [done|]. cbn [visit_all omap list_omap].
  destruct (Hp p) as [tm Htm]; [by left|]. rewrite Htm.
  assert (notify objs cycles freq p w = (w ← update_time (tm_ops tm) cycles freq (tm_private_data tm) w;
    Done (None, w))) as -> by (unfold notify; by rewrite (deref_some _ _ _ Htm)).
  cbn [notify_all]. destruct (update_time _ _ _ _ w) as [w'| |]; [|done..]. run.
  apply IH. intros q Hq. apply Hp. by right.
Qed.

Lemma update_time_spec fuel t ps cycles w :
  installed t ps -> (length ps < fuel)%nat ->
  v3_update_time fuel t cycles w =
    (w ← notify_all (installed_timers t ps) cycles (cpu_freq t) w;
     Done (t <| guest_tsc := u64 (guest_tsc t + cycles) |>, w)).
Proof.
  intros [HR Ho _] Hf. unfold v3_update_time.
  erewrite list_for_each_entry_visits; [|exact HR|apply lookup_singleton_eq|done].
  rewrite visit_notify by done. unfold installed_timers.
  change (tm_objs (t <| guest_tsc := ?x |>)) with (tm_objs t).
  change (cpu_freq (t <| guest_tsc := ?x |>)) with (cpu_freq t).
  by destruct (notify_all _ cycles (cpu_freq t) w).
Qed.

Definition fresh_timer (t : vm_time) (p : Z) : Prop :=
  p <> NULL /\ tm_objs t !! p = None /\ p + timer_link_off ∉ dom (tm_links t).

Lemma add_timer_spec t ps p ops priv :
  installed t ps -> fresh_timer t p ->
  exists t', v3_add_timer t p ops priv = Done (0, t') /\ installed t' (p :: ps) /\
    tm_objs t' = <[p := mk_vm_timer priv ops]> (tm_objs t) /\
    guest_tsc t' = guest_tsc t /\ cpu_freq t' = cpu_freq t.
Proof.
  intros [HR Ho Hn] (Hnull & He & Hl). unfold v3_add_timer. rewrite (proj2 (Z.eqb_neq _ _) Hnull).
  destruct (rings_alloc _ _ _ (mk_list_head 0 0) HR Hl) as [HR1 Hun].
  destruct (list_add_spec _ _ _ _ _ HR1 (lookup_singleton_eq _ _) Hun) as (h & Hh & HR2 & _).
  change (tm_links (?t <| tm_objs := ?o |> <| tm_links := ?h |>)) with h.
  change (timers (?t <| tm_objs := ?o |> <| tm_links := ?h |>)) with (timers t).
  change (tm_links (t <| tm_objs := ?o |>)) with (tm_links t).
  rewrite Hh. run. eexists. split; [done|]. split; [|done]. split.
  - by rewrite insert_singleton_eq in HR2.
  - intros q [->|Hq]%elem_of_cons.
    + exists (mk_vm_timer priv ops). apply lookup_insert_eq.
    + change (is_Some (<[p := mk_vm_timer priv ops]> (tm_objs t) !! q)).
      rewrite lookup_insert_is_Some. destruct (decide (p = q)); [by left|right; auto].
  - change (u32 (num_timers t + 1) = u32 (Z.of_nat (length (p :: ps)))). rewrite Hn.
    apply wrap_eqw. setoid_rewrite eqw_wrap. split. f_equal. cbn. lia.
Qed.

Lemma remove_timer_spec t l1 p l2 :
  installed t (l1 ++ p :: l2) ->
  exists t', v3_remove_timer t p = Done (0, t') /\ installed t' (l1 ++ l2) /\
    tm_objs t' = delete p (tm_objs t) /\ guest_tsc t' = guest_tsc t /\ cpu_freq t' = cpu_freq t.
Proof.
  intros [HR Ho Hn]. unfold v3_remove_timer.
  destruct (list_del_spec (tm_links t) {[timers t := (fun p => p + timer_link_off) <$> (l1 ++ p :: l2)]}
    (timers t) ((fun p => p + timer_link_off) <$> l1) (p + timer_link_off)
    ((fun p => p + timer_link_off) <$> l2) HR) as (h & -> & HR1 & Hdom & Hun);
    [by rewrite lookup_singleton_eq, fmap_app|]. run.
  change (tm_objs (t <| tm_links := ?h |> <| num_timers := ?n |>)) with (tm_objs t).
  change (tm_links (t <| tm_links := ?h |> <| num_timers := ?n |>)) with h.
  unfold v3_free. destruct (Ho p) as [tm Htm]; [set_solver|]. rewrite (deref_some _ _ _ Htm). run.
  destruct (proj1 (elem_of_dom _ _) (proj1 Hun)) as [n Hn']. rewrite (deref_some _ _ _ Hn'). run.
  eexists. split; [done|]. split; [|done]. rewrite insert_singleton_eq, <- fmap_app in *. split.
  - change (rings (delete (p + timer_link_off) h) {[timers t := (fun p => p + timer_link_off) <$> (l1 ++ l2)]}).
    by apply rings_free.
  - intros q Hq. change (is_Some (delete p (tm_objs t) !! q)).
    pose proof (rs_ring _ _ HR _ _ (lookup_singleton_eq _ _)) as [Hd _].
    apply NoDup_cons in Hd as [_ Hd]. apply NoDup_fmap_1, NoDup_app in Hd as (_ & H1 & [H2 _]%NoDup_cons).
    rewrite lookup_delete_ne; [apply Ho; set_solver|]. intros ->.
    apply elem_of_app in Hq as [Hq|Hq]; [by apply (H1 q Hq); left|done].
  - change (u32 (num_timers t - 1) = u32 (Z.of_nat (length (l1 ++ l2)))). rewrite Hn.
    apply wrap_eqw. setoid_rewrite eqw_wrap. split. f_equal. rewrite !length_app. cbn. lia.
Qed.

(** C29. An update advances the guest's time stamp counter by the cycles, modulo 2^64, and
    calls every installed timer exactly once, newest first, with the cycles and its own
    private data; installing a timer puts it in front, removing one takes exactly that one out
    and frees it, and both keep the count right. *)
Theorem timers_notified fuel t ps cycles w :
  installed t ps -> (length ps < fuel)%nat ->
  v3_update_time fuel t cycles w =
    (w ← notify_all (installed_timers t ps) cycles (cpu_freq t) w;
     Done (t <| guest_tsc := u64 (guest_tsc t + cycles) |>, w)) /\
  (forall p ops priv, fresh_timer t p ->
     exists t', v3_add_timer t p ops priv = Done (0, t') /\ installed t' (p :: ps) /\
       installed_timers t' (p :: ps) = mk_vm_timer priv ops :: installed_timers t ps) /\
  (forall l1 p l2, ps = l1 ++ p :: l2 ->
     exists t', v3_remove_timer t p = Done (0, t') /\ installed t' (l1 ++ l2) /\
       installed_timers t' (l1 ++ l2) = installed_timers t l1 ++ installed_timers t l2).
Proof.
  intros Ht Hf. split; [by apply update_time_spec|]. split.
  - intros p ops priv Hp. destruct (add_timer_spec t ps p ops priv Ht Hp) as (t' & ? & ? & Ho & _).
    exists t'. split_and!; [done..|]. unfold installed_timers. rewrite Ho. cbn. rewrite lookup_insert_eq.
    f_equal. apply list_omap_ext, Forall2_same_length_lookup_2; [done|].
    intros i q q' Hq Hq'. replace q' with q by congruence.
    rewrite lookup_insert_ne; [done|]. intros <-.
    destruct (in_objs _ _ Ht p) as [? ?]; [by eapply list_elem_of_lookup_2|]. destruct Hp as (_ & ? & _). congruence.
  - intros l1 p l2 ->. destruct (remove_timer_spec t l1 p l2 Ht) as (t' & ? & Hin & Ho & _).
    exists t'. split_and!; [done..|]. unfold installed_timers. rewrite Ho, <- omap_app.
    apply list_omap_ext, Forall2_same_length_lookup_2; [done|].
    intros i q q' Hq Hq'. replace q' with q by congruence. destruct (decide (p = q)) as [->|]; [|by rewrite lookup_delete_ne].
    exfalso. destruct (in_objs _ _ Hin q) as [x Hx]; [by eapply list_elem_of_lookup_2|].
    rewrite Ho, lookup_delete_eq in Hx. done.
Qed.

End time.

(** Two timers, at 0x100 and 0x200, with callbacks that log their arguments. *)
Definition demo_time : vm_time :=
  mk_vm_time 2000000 5 0 2 8 {[ 0x100 := mk_vm_timer 1 11; 0x200 := mk_vm_timer 2 22 ]}
    {[ 8 := mk_list_head 0x110 0x210; 0x110 := mk_list_head 0x210 8; 0x210 := mk_list_head 8 0x110 ]}.

Definition log_update (ops cycles freq priv : Z) (w : list (Z * Z * Z)) : outcome (list (Z * Z * Z)) :=
  Done (w ++ [(ops, cycles, priv)]).

Lemma timers_notified_witness :
  v3_update_time (A := V3_64BIT) log_update 3 demo_time 7 [] =
    Done (demo_time <| guest_tsc := 12 |>, [(11, 7, 1); (22, 7, 2)]) /\
  exists t', v3_remove_timer (A := V3_64BIT) demo_time 0x100 = Done (0, t') /\
    installed_timers t' [0x200] = [mk_vm_timer 2 22].
Proof.
  destruct (timers_notified (A := V3_64BIT) log_update 3 demo_time [0x100; 0x200] 7 []) as (H1 & _ & H3).
  - split; [|by intros p [->|[->|[]%elem_of_nil]%elem_of_cons]%elem_of_cons; eexists|done]. split.
    + intros hd l [<- <-]%lookup_singleton_Some. split; [repeat constructor; set_solver by lia|by repeat split].
    + intros hd l hd' l' x [<- <-]%lookup_singleton_Some [<- <-]%lookup_singleton_Some. done.
  - cbn. lia.
  - split; [exact H1|]. destruct (H3 [] 0x100 [0x200] eq_refl) as (t' & Ht & _ & Hi). by exists t'.
Defined.

End VmTime.
