(* ===== verification/HostEvents.v ===== *)
(** Events of the host that a guest can receive: vmm_host_events.c.

    [Module HostEvents] has the three lists of hooks, one for each kind of event, in one heap;
    what a handler does is an argument of the model.  The theorem shows which handlers an
    event reaches. *)
From stdpp Require Import base tactics numbers list gmap.
From S2P Require Import Prelude ListHead.

Module HostEvents.
Import ListHead.

Inductive v3_host_evt_type := HOST_KEYBOARD_EVT | HOST_MOUSE_EVT | HOST_TIMER_EVT.

#[export] Instance v3_host_evt_type_eq_dec : EqDecision v3_host_evt_type.
Proof. solve_decision. Defined.

(** [struct v3_host_event_hook]; the address of the function stands for the handler. *)
Record v3_host_event_hook := mk_v3_host_event_hook {
  cb : Z;
  hk_private_data : Z;
}.

(** [struct v3_host_events]: the addresses of its list heads, the hooks and their links. *)
Record v3_host_events := mk_v3_host_events {
  keyboard_events : Z;
  mouse_events : Z;
  timer_events : Z;
  ev_hooks : gmap Z v3_host_event_hook;
  ev_links : links;
}.

#[export] Instance eta_v3_host_events : Eta v3_host_events := fun e =>
  mk_v3_host_events (keyboard_events e) (mouse_events e) (timer_events e) (ev_hooks e) (ev_links e).

Definition events_of (e : v3_host_events) (ty : v3_host_evt_type) : Z :=
  match ty with
  | HOST_KEYBOARD_EVT => keyboard_events e
  | HOST_MOUSE_EVT => mouse_events e
  | HOST_TIMER_EVT => timer_events e
  end.

Section events.
Context {A : Arch}.

(** The offset of [link]: it follows the handler and the private data. *)
Definition link_off : Z := 2 * (BITS_PER_LONG the_arch / 8).

Definition v3_init_host_events (e : v3_host_events) : outcome (Z * v3_host_events) :=
  h ← INIT_LIST_HEAD (ev_links e) (keyboard_events e);
  h ← INIT_LIST_HEAD h (mouse_events e);
  h ← INIT_LIST_HEAD h (timer_events e);
  Done (0, e <| ev_links := h |>).

(** [hook]: the result of V3_Malloc. *)
Definition v3_hook_host_event (e : v3_host_events) (hook : Z) (event_type : v3_host_evt_type)
    (handler private_data : Z) : outcome (Z * v3_host_events) :=
  if hook =? NULL then Done (-1, e) else
  let e := e <| ev_hooks := <[hook := mk_v3_host_event_hook handler private_data]> (ev_hooks e) |> in
  let e := e <| ev_links := <[hook + link_off := mk_list_head 0 0]> (ev_links e) |> in
  h ← match event_type with
      | HOST_KEYBOARD_EVT => list_add (ev_links e) (hook + link_off) (keyboard_events e)
      | HOST_MOUSE_EVT => list_add (ev_links e) (hook + link_off) (mouse_events e)
      | HOST_TIMER_EVT => list_add (ev_links e) (hook + link_off) (timer_events e)
      end;
  Done (0, e <| ev_links := h |>).

(** The handlers: [handler fn evt private_data] on the rest of the machine. *)
Context {W E : Type} (handler : Z -> E -> Z -> W -> outcome (Z * W)).

(** The body of the loops. *)
Definition deliver_to (hooks : gmap Z v3_host_event_hook) (evt : E) (hook : Z) (w : W)
    : outcome (option Z * W) :=
  h ← deref hooks hook;
  '(r, w) ← handler (cb h) evt (hk_private_data h) w;
  Done (if r =? -1 then Some (-1) else None, w).

Definition deliver (fuel : nat) (e : v3_host_events) (head : Z) (evt : E) (w : W) : outcome (Z * W) :=
  '(r, w) ← list_for_each_entry_from_head link_off (deliver_to (ev_hooks e) evt) fuel (ev_links e) head w;
  Done (default 0 r, w).

Definition v3_deliver_keyboard_event (fuel : nat) (e : v3_host_events) (evt : E) (w : W) : outcome (Z * W) :=
  deliver fuel e (keyboard_events e) evt w.
Definition v3_deliver_mouse_event (fuel : nat) (e : v3_host_events) (evt : E) (w : W) : outcome (Z * W) :=
  deliver fuel e (mouse_events e) evt w.
Definition v3_deliver_timer_event (fuel : nat) (e : v3_host_events) (evt : E) (w : W) : outcome (Z * W) :=
  deliver fuel e (timer_events e) evt w.

Definition v3_deliver_event (fuel : nat) (e : v3_host_events) (ty : v3_host_evt_type) (evt : E) (w : W)
    : outcome (Z * W) :=
  match ty with
  | HOST_KEYBOARD_EVT => v3_deliver_keyboard_event fuel e evt w
  | HOST_MOUSE_EVT => v3_deliver_mouse_event fuel e evt w
  | HOST_TIMER_EVT => v3_deliver_timer_event fuel e evt w
  end.

(** ** The hooks that are installed *)

Definition lists (e : v3_host_events) (hs : v3_host_evt_type -> list Z) : gmap Z (list Z) :=
  {[ keyboard_events e := (fun p => p + link_off) <$> hs HOST_KEYBOARD_EVT;
     mouse_events e := (fun p => p + link_off) <$> hs HOST_MOUSE_EVT;
     timer_events e := (fun p => p + link_off) <$> hs HOST_TIMER_EVT ]}.

Record hooked (e : v3_host_events) (hs : v3_host_evt_type -> list Z) : Prop := {
  hk_heads : NoDup [keyboard_events e; mouse_events e; timer_events e];
  hk_rings : rings (ev_links e) (lists e hs);
  hk_hooks ty p : p ∈ hs ty -> is_Some (ev_hooks e !! p);
}.

(** The handlers of an event in order, up to the first that fails. *)
Fixpoint call_handlers (hks : list v3_host_event_hook) (evt : E) (w : W) : outcome (Z * W) :=
  match hks with
  | [] => Done (0, w)
  | h :: hks =>
      '(r, w) ← handler (cb h) evt (hk_private_data h) w;
      if r =? -1 then Done (-1, w) else call_handlers hks evt w
  end.

Definition handlers (e : v3_host_events) (ps : list Z) : list v3_host_event_hook :=
  omap (fun p => ev_hooks e !! p) ps.

Lemma lists_lookup e hs ty :
  NoDup [keyboard_events e; mouse_events e; timer_events e] ->
  lists e hs !! events_of e ty = Some ((fun p => p + link_off) <$> hs ty).
Proof.
  rewrite !NoDup_cons, !not_elem_of_cons. intros ((H1 & H2 & _) & (H3 & _) & _).
  unfold lists, events_of. destruct ty.
  - by rewrite lookup_insert_eq.
  - by rewrite lookup_insert_ne, lookup_insert_eq.
  - by rewrite lookup_insert_ne, lookup_insert_ne, lookup_singleton_eq.
Qed.

Lemma visit_deliver hooks evt ps w :
  (forall p, p ∈ ps -> is_Some (hooks !! p)) ->
  ('(r, w) ← visit_all (deliver_to hooks evt) ps w; Done (default 0 r, w)) =
    call_handlers (omap (fun p => hooks !! p) ps) evt w.
Proof.
  revert w. induction ps as [|p ps IH]; intros w Hp; [done|]. cbn [visit_all omap list_omap].
  destruct (Hp p) as [h Hh]; [by left|]. rewrite Hh.
  assert (deliver_to hooks evt p w = ('(r, w) ← handler (cb h) evt (hk_private_data h) w;
    Done (if r =? -1 then Some (-1) else None, w))) as ->
    by (unfold deliver_to; by rewrite (deref_some _ _ _ Hh)).
  cbn [call_handlers]. destruct (handler _ evt _ w) as [[r w']| |]; [|done..]. run.
  destruct (r =? -1); [done|]. apply IH. intros q Hq. apply Hp. by right.
Qed.

Definition upd_hooks (hs : v3_host_evt_type -> list Z) ty p : v3_host_evt_type -> list Z :=
  fun ty' => if decide (ty' = ty) then p :: hs ty' else hs ty'.

Lemma lists_upd e hs ty p :
  NoDup [keyboard_events e; mouse_events e; timer_events e] ->
  <[events_of e ty := p + link_off :: ((fun p => p + link_off) <$> hs ty)]> (lists e hs) =
    lists e (upd_hooks hs ty p).
Proof.
  rewrite !NoDup_cons, !not_elem_of_cons. intros ((H1 & H2 & _) & (H3 & _) & _).
  unfold lists, events_of, upd_hooks. destruct ty; cbn [decide].
  - by rewrite insert_insert_eq.
  - by rewrite insert_insert_ne, insert_insert_eq by done.
  - by rewrite insert_insert_ne, (insert_insert_ne _ (timer_events e)), insert_singleton_eq by done.
Qed.

Definition fresh_hook (e : v3_host_events) (p : Z) : Prop :=
  p <> NULL /\ ev_hooks e !! p = None /\ p + link_off ∉ dom (ev_links e).

Lemma hook_host_event_spec e hs p ty fn priv :
  hooked e hs -> fresh_hook e p ->
  exists e', v3_hook_host_event e p ty fn priv = Done (0, e') /\ hooked e' (upd_hooks hs ty p) /\
    ev_hooks e' = <[p := mk_v3_host_event_hook fn priv]> (ev_hooks e) /\
    (forall ty, events_of e' ty = events_of e ty).
Proof.
  intros [Hd HR Ho] (Hnull & He & Hl). unfold v3_hook_host_event. rewrite (proj2 (Z.eqb_neq _ _) Hnull).
  destruct (rings_alloc _ _ _ (mk_list_head 0 0) HR Hl) as [HR1 Hun].
  destruct (list_add_spec _ _ _ _ _ HR1 (lists_lookup e hs ty Hd) Hun) as (h & Hh & HR2 & _).
  rewrite lists_upd in HR2 by done. cbv zeta.
  set (e2 := e <| ev_hooks := _ |> <| ev_links := _ |>).
  assert (match ty with
    | HOST_KEYBOARD_EVT => list_add (ev_links e2) (p + link_off) (keyboard_events e2)
    | HOST_MOUSE_EVT => list_add (ev_links e2) (p + link_off) (mouse_events e2)
    | HOST_TIMER_EVT => list_add (ev_links e2) (p + link_off) (timer_events e2) end = Done h) as ->
    by (destruct ty; exact Hh).
  run. eexists. split; [done|]. split; [|split; [done|by intros []]]. split; [done|done|].
  intros ty' q Hq. change (is_Some (<[p := mk_v3_host_event_hook fn priv]> (ev_hooks e) !! q)).
  rewrite lookup_insert_is_Some. destruct (decide (p = q)) as [|Hne]; [by left|right]. split; [done|].
  unfold upd_hooks in Hq. destruct (decide (ty' = ty)) as [->|]; [|by eapply Ho].
  apply elem_of_cons in Hq as [->|Hq]; [done|by eapply Ho].
Qed.

(** An event of a kind reaches the handlers hooked for that kind, newest first, each with the
    private data it was hooked with, up to the first handler that returns -1, which is then
    the result; a new hook comes first for its kind and changes nothing for the others. *)
Lemma events_delivered fuel e hs ty evt w :
  hooked e hs -> (length (hs ty) < fuel)%nat ->
  v3_deliver_event fuel e ty evt w = call_handlers (handlers e (hs ty)) evt w /\
  forall p ty' fn priv, fresh_hook e p ->
    exists e', v3_hook_host_event e p ty' fn priv = Done (0, e') /\ hooked e' (upd_hooks hs ty' p) /\
      handlers e' (upd_hooks hs ty' p ty) =
        if decide (ty = ty') then mk_v3_host_event_hook fn priv :: handlers e (hs ty)
        else handlers e (hs ty).
Proof.
  intros Hh Hf. split.
  - assert (v3_deliver_event fuel e ty evt w = deliver fuel e (events_of e ty) evt w) as -> by by destruct ty.
    unfold deliver. destruct Hh as [Hd HR Ho].
    erewrite list_for_each_entry_visits; [|exact HR|by apply lists_lookup|done].
    apply visit_deliver. eauto.
  - intros p ty' fn priv Hp. destruct (hook_host_event_spec e hs p ty' fn priv Hh Hp) as (e' & ? & ? & Ho & _).
    exists e'. split_and!; [done..|].
    assert (omap (fun q => <[p := mk_v3_host_event_hook fn priv]> (ev_hooks e) !! q) (hs ty) =
      handlers e (hs ty)) as Hold.
    { apply list_omap_ext, Forall2_same_length_lookup_2; [done|].
      intros i q q' Hq Hq'. replace q' with q by congruence.
      rewrite lookup_insert_ne; [done|]. intros <-.
      destruct (hk_hooks _ _ Hh ty p) as [? ?]; [by eapply list_elem_of_lookup_2|].
      destruct Hp as (_ & ? & _). congruence. }
    unfold handlers at 1. rewrite Ho. unfold upd_hooks. destruct (decide (ty = ty')); [|done].
    cbn. rewrite lookup_insert_eq. f_equal. exact Hold.
Qed.

End events.
End HostEvents.
