(* ===== verification/DevMgr.v ===== *)
(** The device manager: vm_dev.c and vmm_dev_mgr.c.

    Devices hook I/O ports through the manager, which keeps every hook on a list of its own
    and on a list of the device, both embedded in the hook, besides the port map of IoMap.v.
    [Module DevMgr] translates the operations; what a device does when it is attached and
    detached is an argument of the model.  The theorem shows that the three structures stay
    in step. *)
From stdpp Require Import base tactics numbers list gmap.
From S2P Require Import Prelude Chain IoMap ListHead.

Module DevMgr.
Import ListHead.

(** [struct vm_device]; its list heads are nodes of the heap of links. *)
Record vm_device := mk_vm_device {
  dev_name : list Z;
  private_data : Z;
  dev_ops : Z;
  dev_vm : Z;
  num_io_hooks : Z;
  num_mem_hooks : Z;
  num_irq_hooks : Z;
}.

#[export] Instance eta_vm_device : Eta vm_device := fun d =>
  mk_vm_device (dev_name d) (private_data d) (dev_ops d) (dev_vm d) (num_io_hooks d)
    (num_mem_hooks d) (num_irq_hooks d).

(** [struct dev_io_hook] *)
Record dev_io_hook := mk_dev_io_hook {
  dh_port : Z;
  dh_read : Z;
  dh_write : Z;
  dh_dev : Z;
}.

(** [struct vmm_dev_mgr], with the structures its lists lead to and the port map of the
    guest; [dev_list] and [mgr_io_hooks] are the addresses of the list heads. *)
Record vmm_dev_mgr := mk_vmm_dev_mgr {
  num_devs : Z;
  dev_list : Z;
  mgr_num_io_hooks : Z;
  mgr_io_hooks : Z;
  devices : gmap Z vm_device;
  dev_hooks : gmap Z dev_io_hook;
  mg_links : links;
  mg_io_map : IoMap.vmm_io_map;
}.

#[export] Instance eta_vmm_dev_mgr : Eta vmm_dev_mgr := fun m =>
  mk_vmm_dev_mgr (num_devs m) (dev_list m) (mgr_num_io_hooks m) (mgr_io_hooks m) (devices m)
    (dev_hooks m) (mg_links m) (mg_io_map m).

Section dev_mgr.
Context {A : Arch}.

(** The offsets of the links: [w] is the size of a pointer, to which the members before them
    are padded. *)
Local Abbreviation w := (BITS_PER_LONG the_arch / 8).
Definition dev_link_off : Z := 32 + 3 * w.
Definition io_hooks_off : Z := 32 + 6 * w.
Definition mem_hooks_off : Z := 32 + 9 * w.
Definition irq_hooks_off : Z := 32 + 12 * w.
Definition hook_dev_list_off : Z := 4 * w.
Definition hook_mgr_list_off : Z := 6 * w.

(** What a link holds that malloc returned. *)
Definition garbage : list_head := mk_list_head 0 0.

(** ** Devices *)

(** [dev]: the result of V3_Malloc; a failed assertion does not return. *)
Definition v3_allocate_device (m : vmm_dev_mgr) (dev : Z) : outcome vmm_dev_mgr :=
  if dev =? NULL then OutOfFuel else
  let m := m <| mg_links := <[dev + dev_link_off := garbage]> (<[dev + io_hooks_off := garbage]>
    (<[dev + mem_hooks_off := garbage]> (<[dev + irq_hooks_off := garbage]> (mg_links m)))) |> in
  let m := m <| devices := <[dev := mk_vm_device (replicate 32 0) NULL NULL NULL 0 0 0]> (devices m) |> in
  h ← INIT_LIST_HEAD (mg_links m) (dev + io_hooks_off);
  h ← INIT_LIST_HEAD h (dev + mem_hooks_off);
  h ← INIT_LIST_HEAD h (dev + irq_hooks_off);
  Done (m <| mg_links := h |>).

(** [name] without its terminator; strncpy pads with zeros. *)
Definition v3_create_device (m : vmm_dev_mgr) (dev : Z) (name : list Z) (ops priv : Z)
    : outcome vmm_dev_mgr :=
  m ← v3_allocate_device m dev;
  devs ← modify (devices m) dev (fun d => d <| dev_name := take 32 (name ++ replicate 32 0) |>
    <| dev_ops := ops |> <| private_data := priv |>);
  Done (m <| devices := devs |>).

Definition v3_free_device (m : vmm_dev_mgr) (dev : Z) : outcome vmm_dev_mgr :=
  devs ← v3_free (devices m) dev;
  let h := delete (dev + dev_link_off) (delete (dev + io_hooks_off)
    (delete (dev + mem_hooks_off) (delete (dev + irq_hooks_off) (mg_links m)))) in
  Done (m <| devices := devs |> <| mg_links := h |>).

(** ** The manager *)

Definition v3_init_dev_mgr (m : vmm_dev_mgr) : outcome (Z * vmm_dev_mgr) :=
  h ← INIT_LIST_HEAD (mg_links m) (dev_list m);
  let m := m <| mg_links := h |> <| num_devs := 0 |> in
  h ← INIT_LIST_HEAD (mg_links m) (mgr_io_hooks m);
  Done (0, m <| mg_links := h |> <| mgr_num_io_hooks := 0 |>).

Definition dev_mgr_add_device (m : vmm_dev_mgr) (dev : Z) : outcome vmm_dev_mgr :=
  h ← list_add (mg_links m) (dev + dev_link_off) (dev_list m);
  Done (m <| mg_links := h |> <| num_devs := u32 (num_devs m + 1) |>).

Definition dev_mgr_remove_device (m : vmm_dev_mgr) (dev : Z) : outcome vmm_dev_mgr :=
  h ← list_del (mg_links m) (dev + dev_link_off);
  Done (m <| mg_links := h |> <| num_devs := u32 (num_devs m - 1) |>).

Definition dev_mgr_add_io_hook (m : vmm_dev_mgr) (hook : Z) : outcome vmm_dev_mgr :=
  h ← list_add (mg_links m) (hook + hook_mgr_list_off) (mgr_io_hooks m);
  Done (m <| mg_links := h |> <| mgr_num_io_hooks := u32 (mgr_num_io_hooks m + 1) |>).

Definition dev_mgr_remove_io_hook (m : vmm_dev_mgr) (hook : Z) : outcome vmm_dev_mgr :=
  h ← list_del (mg_links m) (hook + hook_mgr_list_off);
  Done (m <| mg_links := h |> <| mgr_num_io_hooks := u32 (mgr_num_io_hooks m - 1) |>).

Definition dev_add_io_hook (m : vmm_dev_mgr) (dev hook : Z) : outcome vmm_dev_mgr :=
  h ← list_add (mg_links m) (hook + hook_dev_list_off) (dev + io_hooks_off);
  devs ← modify (devices m) dev (fun d => d <| num_io_hooks := u32 (num_io_hooks d + 1) |>);
  Done (m <| mg_links := h |> <| devices := devs |>).

Definition dev_remove_io_hook (m : vmm_dev_mgr) (dev hook : Z) : outcome vmm_dev_mgr :=
  h ← list_del (mg_links m) (hook + hook_dev_list_off);
  devs ← modify (devices m) dev (fun d => d <| num_io_hooks := u32 (num_io_hooks d - 1) |>);
  Done (m <| mg_links := h |> <| devices := devs |>).

(** The body of the loop: it returns the hook of the port. *)
Definition is_hook_of (m : vmm_dev_mgr) (port hook : Z) (_ : unit) : outcome (option Z * unit) :=
  k ← deref (dev_hooks m) hook;
  Done (if dh_port k =? port then Some hook else None, tt).

Definition dev_mgr_find_io_hook (m : vmm_dev_mgr) (port : Z) : outcome Z :=
  '(r, _) ← list_for_each_entry_from_head hook_mgr_list_off (is_hook_of m port)
    (S (size (mg_links m))) (mg_links m) (mgr_io_hooks m) tt;
  Done (default NULL r).

(** The addresses of the handlers of vmm_io.c for ports without callbacks. *)
Context (default_read_ptr default_write_ptr : Z).

(** [hook] and [io_hook]: the results of V3_Malloc here and in v3_hook_io_port.  When the
    port is taken the hook stays allocated. *)
Definition v3_dev_hook_io (m : vmm_dev_mgr) (hook io_hook : Z) (dev port read write : Z)
    : outcome (Z * vmm_dev_mgr) :=
  if hook =? NULL then Done (-1, m) else
  let m := m <| dev_hooks := <[hook := mk_dev_io_hook 0 0 0 0]> (dev_hooks m) |>
             <| mg_links := <[hook + hook_dev_list_off := garbage]>
                  (<[hook + hook_mgr_list_off := garbage]> (mg_links m)) |> in
  d ← deref (devices m) dev;
  if dev_vm d =? NULL then Undef else
  let port := u16 port in
  '(r, io) ← IoMap.v3_hook_io_port default_read_ptr default_write_ptr (mg_io_map m) io_hook port read write dev;
  let m := m <| mg_io_map := io |> in
  if r =? 0 then
    let m := m <| dev_hooks := <[hook := mk_dev_io_hook port read write dev]> (dev_hooks m) |> in
    m ← dev_mgr_add_io_hook m hook;
    m ← dev_add_io_hook m dev hook;
    Done (0, m)
  else Done (-1, m).

(** A sequence of calls by a device that does not look at their results; [mallocs]: the results of
    V3_Malloc in each of them. *)
Fixpoint hook_ports (m : vmm_dev_mgr) (dev : Z) (ps : list (Z * Z * Z)) (mallocs : list (Z * Z))
    : outcome vmm_dev_mgr :=
  match ps, mallocs with
  | [], _ => Done m
  | (port, read, write) :: ps, (hook, io_hook) :: mallocs =>
      '(_, m) ← v3_dev_hook_io m hook io_hook dev port read write;
      hook_ports m dev ps mallocs
  | _ :: _, [] => OutOfFuel
  end.

Definition v3_dev_unhook_io (m : vmm_dev_mgr) (dev port : Z) : outcome (Z * vmm_dev_mgr) :=
  d ← deref (devices m) dev;
  if dev_vm d =? NULL then Undef else
  let port := u16 port in
  hook ← dev_mgr_find_io_hook m port;
  if hook =? NULL then Done (-1, m) else
  m ← dev_mgr_remove_io_hook m hook;
  m ← dev_remove_io_hook m dev hook;
  '(r, io) ← IoMap.v3_unhook_io_port (mg_io_map m) port;
  Done (r, m <| mg_io_map := io |>).

Fixpoint unhook_ports (m : vmm_dev_mgr) (dev : Z) (ports : list Z) : outcome vmm_dev_mgr :=
  match ports with
  | [] => Done m
  | port :: ports => '(_, m) ← v3_dev_unhook_io m dev port; unhook_ports m dev ports
  end.

Section attach.

(** The members [init] and [deinit] of the operations of a device, on the manager and the
    rest [X] of the machine. *)
Context {X : Type} (op_init op_deinit : Z -> Z -> vmm_dev_mgr -> X -> outcome (Z * vmm_dev_mgr * X)).

Definition set_vm (m : vmm_dev_mgr) (dev vm : Z) : outcome vmm_dev_mgr :=
  devs ← modify (devices m) dev (fun d => d <| dev_vm := vm |>); Done (m <| devices := devs |>).

Definition v3_attach_device (m : vmm_dev_mgr) (x : X) (vm dev : Z) : outcome (Z * vmm_dev_mgr * X) :=
  m ← set_vm m dev vm;
  m ← dev_mgr_add_device m dev;
  d ← deref (devices m) dev;
  if dev_ops d =? NULL then Undef else
  '(_, m, x) ← op_init (dev_ops d) dev m x;
  Done (0, m, x).

Definition v3_unattach_device (m : vmm_dev_mgr) (x : X) (dev : Z) : outcome (Z * vmm_dev_mgr * X) :=
  d ← deref (devices m) dev;
  if (dev_vm d =? NULL) || (dev_ops d =? NULL) then Undef else
  '(_, m, x) ← op_deinit (dev_ops d) dev m x;
  m ← dev_mgr_remove_device m dev;
  m ← set_vm m dev NULL;
  Done (0, m, x).

(** list_for_each_entry_safe: the next entry is read before the body frees this one. *)
Fixpoint deinit_loop (fuel : nat) (m : vmm_dev_mgr) (x : X) (dev tmp : Z) : outcome (vmm_dev_mgr * X) :=
  match fuel with
  | O => OutOfFuel
  | S fuel =>
      if dev + dev_link_off =? dev_list m then Done (m, x) else
      '(_, m, x) ← v3_unattach_device m x dev;
      m ← v3_free_device m dev;
      n ← get_next (mg_links m) (tmp + dev_link_off);
      deinit_loop fuel m x tmp (list_entry dev_link_off n)
  end.

Definition v3_dev_mgr_deinit (fuel : nat) (m : vmm_dev_mgr) (x : X) : outcome (Z * vmm_dev_mgr * X) :=
  n ← get_next (mg_links m) (dev_list m);
  let dev := list_entry dev_link_off n in
  n ← get_next (mg_links m) (dev + dev_link_off);
  '(m, x) ← deinit_loop fuel m x dev (list_entry dev_link_off n);
  Done (0, m, x).

End attach.

(** ** The three structures together *)

(** The handler that the port map gets for a hook. *)
Definition handler_of (k : dev_io_hook) : IoMap.io_handler :=
  IoMap.mk_io_handler (if dh_read k =? NULL then default_read_ptr else dh_read k)
    (if dh_write k =? NULL then default_write_ptr else dh_write k) (dh_dev k).

Definition hook_of_dev (dv : Z) (hk : Z * dev_io_hook) : Prop := dh_dev hk.2 = dv.
#[local] Instance hook_of_dev_dec dv hk : Decision (hook_of_dev dv hk).
Proof. unfold hook_of_dev. apply _. Defined.

(** The manager has the hooks [hks], newest first: they are on its list, each is on the list of
    its device and no other, and the port map leads to their callbacks. *)
Record managed (m : vmm_dev_mgr) (hks : list (Z * dev_io_hook)) : Prop := {
  mg_rings : exists R, rings (mg_links m) R /\
    R !! mgr_io_hooks m = Some ((fun hk => hk.1 + hook_mgr_list_off) <$> hks) /\
    forall dv, is_Some (devices m !! dv) -> dv + io_hooks_off <> mgr_io_hooks m /\
      R !! (dv + io_hooks_off) =
        Some ((fun hk => hk.1 + hook_dev_list_off) <$> filter (hook_of_dev dv) hks);
  mg_hooks h k : (h, k) ∈ hks ->
    h <> NULL /\ dev_hooks m !! h = Some k /\ is_u 16 (dh_port k) /\ is_Some (devices m !! dh_dev k);
  mg_port_map : exists l, IoMap.wf (mg_io_map m) l /\ forall h k, (h, k) ∈ hks ->
    IoMap.abs (IoMap.io_hooks (mg_io_map m)) l !! dh_port k = Some (handler_of k);
  mg_ports : NoDup ((fun hk => dh_port hk.2) <$> hks);
  mg_count : mgr_num_io_hooks m = u32 (Z.of_nat (length hks));
  mg_dev_count dv d : devices m !! dv = Some d ->
    num_io_hooks d = u32 (Z.of_nat (length (filter (hook_of_dev dv) hks)));
}.

Definition fresh_hook (m : vmm_dev_mgr) (x : Z) : Prop :=
  x <> NULL /\ dev_hooks m !! x = None /\
  x + hook_dev_list_off ∉ dom (mg_links m) /\ x + hook_mgr_list_off ∉ dom (mg_links m).

Lemma word_pos : 0 < w.
Proof. destruct the_arch; done. Qed.

Lemma offsets_ne x : x + hook_dev_list_off <> x + hook_mgr_list_off.
Proof. unfold hook_dev_list_off, hook_mgr_list_off. pose proof word_pos. lia. Qed.

(** Lists are no longer than the heap. *)
Lemma ring_size h R hd l : rings h R -> R !! hd = Some l -> (length l <= size h)%nat.
Proof.
  intros HR Hl. pose proof (rs_ring _ _ HR _ _ Hl) as [Hd _]. apply NoDup_cons in Hd as [_ Hd].
  rewrite <- size_dom, <- (size_list_to_set (C := gset Z)) by done. apply subseteq_size.
  intros q Hq%elem_of_list_to_set. eapply rings_nodes; [done..|]. by right.
Qed.

(** The allocation of a hook adds nodes that no list has. *)
Lemma alloc_hook h R x :
  rings h R -> x + hook_dev_list_off ∉ dom h -> x + hook_mgr_list_off ∉ dom h ->
  let h' := <[x + hook_dev_list_off := garbage]> (<[x + hook_mgr_list_off := garbage]> h) in
  rings h' R /\ unlisted h' R (x + hook_dev_list_off) /\ unlisted h' R (x + hook_mgr_list_off).
Proof.
  intros HR H1 H2. cbv zeta. destruct (rings_alloc h R _ garbage HR H2) as [HR1 Hu1].
  destruct (rings_alloc (<[x + hook_mgr_list_off := garbage]> h) R (x + hook_dev_list_off) garbage HR1) as [HR2 Hu2].
  { rewrite dom_insert_L. pose proof (offsets_ne x). set_solver. }
  split_and!; [done..|]. destruct Hu1 as [Hd Hu]. split; [|done]. rewrite dom_insert_L. set_solver.
Qed.

(** Both lists of a new hook. *)
Lemma link_hook h R x mgr dv lm ld :
  rings h R -> R !! mgr = Some lm -> R !! dv = Some ld -> dv <> mgr ->
  unlisted h R (x + hook_dev_list_off) -> unlisted h R (x + hook_mgr_list_off) ->
  exists h1 h2, list_add h (x + hook_mgr_list_off) mgr = Done h1 /\
    list_add h1 (x + hook_dev_list_off) dv = Done h2 /\
    rings h2 (<[dv := (x + hook_dev_list_off) :: ld]> (<[mgr := (x + hook_mgr_list_off) :: lm]> R)) /\
    dom h2 = dom h.
Proof.
  intros HR Hm Hv Hne [Hd1 Hu1] Hu2.
  destruct (list_add_spec h R mgr lm _ HR Hm Hu2) as (h1 & H1 & HR1 & Hdom).
  destruct (list_add_spec h1 (<[mgr := (x + hook_mgr_list_off) :: lm]> R) dv ld (x + hook_dev_list_off) HR1)
    as (h2 & H2 & HR2 & Hdom2); [by rewrite lookup_insert_ne| |exists h1, h2; split_and!; congruence].
  split; [by rewrite Hdom|]. intros hd l [[-> ->]|[_ Hl]]%lookup_rest.
  - pose proof (offsets_ne x). specialize (Hu1 mgr lm Hm). set_solver.
  - by apply (Hu1 hd).
Qed.

Lemma u32_succ n : u32 (u32 (Z.of_nat n) + 1) = u32 (Z.of_nat (S n)).
Proof. apply wrap_eqw. setoid_rewrite eqw_wrap. split. f_equal. lia. Qed.

Lemma u32_pred n : u32 (u32 (Z.of_nat (S n)) - 1) = u32 (Z.of_nat n).
Proof. apply wrap_eqw. setoid_rewrite eqw_wrap. split. f_equal. lia. Qed.

Lemma get_hook_abs io l port :
  IoMap.wf io l -> exists q, IoMap.v3_get_io_hook io port = Done q /\
    (q = NULL <-> IoMap.abs (IoMap.io_hooks io) l !! port = None).
Proof.
  intros Hwf. destruct (IoMap.get_io_hook_spec io l port Hwf) as (q & Hq & [[Hn Hm]|(n & Hn & _ & _ & _ & Hm)]);
    exists q; naive_solver congruence.
Qed.

Lemma modify_dom {N} (h h' : gmap Z N) p f : modify h p f = Done h' -> dom h' = dom h.
Proof.
  unfold modify. intros (n & Hn & [= <-])%outcome_bind_inv. unfold deref in Hn.
  destruct (h !! p) eqn:E; [|done]. apply dom_insert_lookup_L. by eexists.
Qed.

(** The allocations of the port map. *)
Lemma add_io_hook_dom io x r io' :
  IoMap.add_io_hook io x = Done (r, io') -> dom (IoMap.io_hooks io') = dom (IoMap.io_hooks io).
Proof.
  unfold IoMap.add_io_hook. case_match; [by intros [= <- <-]|].
  intros (hd & _ & (hk & _ & H2)%outcome_bind_inv)%outcome_bind_inv. revert H2. case_match.
  - intros (h1 & ?%modify_dom & (h2 & ?%modify_dom & [= <- <-])%outcome_bind_inv)%outcome_bind_inv.
    cbn. congruence.
  - intros (t & _ & (tn & _ & H3)%outcome_bind_inv)%outcome_bind_inv. revert H3. case_match; [by intros [= <- <-]|].
    intros (h1 & ?%modify_dom & (h2 & ?%modify_dom & (h3 & Hh3 & (h4 & ?%modify_dom & [= <- <-])%outcome_bind_inv)
      %outcome_bind_inv)%outcome_bind_inv)%outcome_bind_inv.
    assert (dom h3 = dom h2) by (revert Hh3; case_match; [by intros [= <-]|by intros ?%modify_dom]).
    cbn. congruence.
Qed.

Lemma hook_io_port_dom io x port rd wr priv io' :
  IoMap.v3_hook_io_port default_read_ptr default_write_ptr io x port rd wr priv = Done (0, io') ->
  dom (IoMap.io_hooks io') = {[x]} ∪ dom (IoMap.io_hooks io).
Proof.
  unfold IoMap.v3_hook_io_port. case_match; [done|].
  intros ([r io1] & Hio%add_io_hook_dom & Hr)%outcome_bind_inv. revert Hr. case_match.
  - by intros (? & _ & [=])%outcome_bind_inv.
  - intros [= <-]. rewrite Hio. apply dom_insert_L.
Qed.

(** The manager after a hook is allocated, and after it is linked. *)
Definition with_alloc (m : vmm_dev_mgr) (x : Z) : vmm_dev_mgr :=
  m <| dev_hooks := <[x := mk_dev_io_hook 0 0 0 0]> (dev_hooks m) |>
    <| mg_links := <[x + hook_dev_list_off := garbage]>
         (<[x + hook_mgr_list_off := garbage]> (mg_links m)) |>.

Lemma alloc_links_dom m x :
  dom (mg_links (with_alloc m x)) = {[x + hook_dev_list_off; x + hook_mgr_list_off]} ∪ dom (mg_links m).
Proof.
  change (mg_links (with_alloc m x)) with
    (<[x + hook_dev_list_off := garbage]> (<[x + hook_mgr_list_off := garbage]> (mg_links m))).
  by rewrite !dom_insert_L, union_assoc_L.
Qed.

Lemma managed_alloc m hks x : managed m hks -> fresh_hook m x -> managed (with_alloc m x) hks.
Proof.
  intros [(R & HR & Hm & Hd) Hh Hp Hn Hc Hdc] (Hx & Hf & H1 & H2). split; [|..|done|done|done].
  - exists R. split_and!; [by apply alloc_hook|done..].
  - intros h k Hin. destruct (Hh h k Hin) as (? & Hk & ?). split_and!; [done| |tauto..].
    change (<[x := mk_dev_io_hook 0 0 0 0]> (dev_hooks m) !! h = Some k).
    rewrite lookup_insert_ne; [done|]. congruence.
  - done.
Qed.

Definition with_hook (m : vmm_dev_mgr) (x dev : Z) (k : dev_io_hook) (io : IoMap.vmm_io_map) (h : links)
    (d : vm_device) : vmm_dev_mgr :=
  m <| mg_io_map := io |> <| dev_hooks := <[x := k]> (dev_hooks m) |> <| mg_links := h |>
    <| mgr_num_io_hooks := u32 (mgr_num_io_hooks m + 1) |>
    <| devices := <[dev := d <| num_io_hooks := u32 (num_io_hooks d + 1) |>]> (devices m) |>.

Lemma filter_hook dv x k hks :
  filter (hook_of_dev dv) ((x, k) :: hks) =
    if decide (dh_dev k = dv) then (x, k) :: filter (hook_of_dev dv) hks else filter (hook_of_dev dv) hks.
Proof. rewrite filter_cons. by repeat case_decide. Qed.

Lemma managed_hook m hks x dev d k io l R h :
  managed m hks -> devices m !! dev = Some d -> dh_dev k = dev -> is_u 16 (dh_port k) -> x <> NULL ->
  (forall h' k', (h', k') ∈ hks -> h' <> x) ->
  rings h R -> R !! mgr_io_hooks m = Some ((fun hk => hk.1 + hook_mgr_list_off) <$> (x, k) :: hks) ->
  (forall dv, is_Some (devices m !! dv) -> R !! (dv + io_hooks_off) =
     Some ((fun hk => hk.1 + hook_dev_list_off) <$> filter (hook_of_dev dv) ((x, k) :: hks))) ->
  IoMap.wf io l -> IoMap.abs (IoMap.io_hooks io) l !! dh_port k = Some (handler_of k) ->
  (forall h' k', (h', k') ∈ hks ->
     IoMap.abs (IoMap.io_hooks io) l !! dh_port k' = Some (handler_of k') /\ dh_port k' <> dh_port k) ->
  managed (with_hook m x dev k io h d) ((x, k) :: hks).
Proof.
  intros [(R0 & _ & _ & Hd) Hh _ Hn Hc Hdc] Hdev Hk Hu Hx Hfr HR HRm HRd Hwf Hpk Hpo.
  assert (forall dv, is_Some (devices (with_hook m x dev k io h d) !! dv) <-> is_Some (devices m !! dv)) as Hds.
  { intros dv. change (devices (with_hook m x dev k io h d)) with
      (<[dev := d <| num_io_hooks := u32 (num_io_hooks d + 1) |>]> (devices m)).
    rewrite lookup_insert_is_Some'. split; [intros [<-|?]; [by eexists|done]|tauto]. }
  split.
  - exists R. split_and!; [done..|]. intros dv Hdv%Hds. split; [by apply Hd|by apply HRd].
  - intros h' k' Hin. change (dev_hooks (with_hook m x dev k io h d)) with (<[x := k]> (dev_hooks m)).
    rewrite Hds. apply elem_of_cons in Hin as [[= -> ->]|Hin].
    + rewrite lookup_insert_eq, Hk. split_and!; [done..|by eexists].
    + destruct (Hh h' k' Hin) as (? & ? & ? & ?). rewrite lookup_insert_ne; [done|].
      apply not_eq_sym. by eapply Hfr.
  - exists l. split; [done|]. intros h' k' [[= -> ->]|Hin]%elem_of_cons; [done|]. by eapply Hpo.
  - cbn [fmap list_fmap]. apply NoDup_cons. split; [|done].
    intros ([h' k'] & E & Hin)%list_elem_of_fmap. destruct (Hpo h' k' Hin) as [_ Hne]. cbn in E. congruence.
  - change (u32 (mgr_num_io_hooks m + 1) = u32 (Z.of_nat (length ((x, k) :: hks)))).
    rewrite Hc. apply u32_succ.
  - intros dv d'. change (devices (with_hook m x dev k io h d)) with
      (<[dev := d <| num_io_hooks := u32 (num_io_hooks d + 1) |>]> (devices m)).
    rewrite filter_hook, Hk. intros [[<- <-]|[Hne Hd']]%lookup_insert_Some.
    + rewrite decide_True by done. change (u32 (num_io_hooks d + 1) = u32 (Z.of_nat (S (length (filter (hook_of_dev dev) hks))))).
      rewrite (Hdc dev d Hdev). apply u32_succ.
    + rewrite decide_False by done. by apply Hdc.
Qed.

(** What else a new hook changes: its own addresses, the entry of its port and the count of
    its device. *)
Record hook_frame (m m' : vmm_dev_mgr) (x y dev : Z) (d : vm_device) (k : dev_io_hook) (l : list Z) : Prop := {
  hf_hooks : dev_hooks m' = <[x := k]> (dev_hooks m);
  hf_links : dom (mg_links m') = {[x + hook_dev_list_off; x + hook_mgr_list_off]} ∪ dom (mg_links m);
  hf_devices : devices m' = <[dev := d <| num_io_hooks := u32 (num_io_hooks d + 1) |>]> (devices m);
  hf_io_hooks : dom (IoMap.io_hooks (mg_io_map m')) = {[y]} ∪ dom (IoMap.io_hooks (mg_io_map m));
  hf_ports : exists l', IoMap.wf (mg_io_map m') l' /\ IoMap.abs (IoMap.io_hooks (mg_io_map m')) l' =
    <[dh_port k := handler_of k]> (IoMap.abs (IoMap.io_hooks (mg_io_map m)) l);
}.

(** Hooking a port that the port map does not have. *)
Lemma hook_free_spec m hks x y dev d port rd wr l :
  managed m hks -> devices m !! dev = Some d -> dev_vm d <> NULL -> fresh_hook m x ->
  IoMap.io_hooks (mg_io_map m) !! y = None -> y <> NULL -> is_u 16 port ->
  IoMap.wf (mg_io_map m) l -> IoMap.abs (IoMap.io_hooks (mg_io_map m)) l !! port = None ->
  (forall h k, (h, k) ∈ hks ->
     IoMap.abs (IoMap.io_hooks (mg_io_map m)) l !! dh_port k = Some (handler_of k)) ->
  exists m', v3_dev_hook_io m x y dev port rd wr = Done (0, m') /\
    managed m' ((x, mk_dev_io_hook port rd wr dev) :: hks) /\
    hook_frame m m' x y dev d (mk_dev_io_hook port rd wr dev) l.
Proof.
  intros Hm Hdev Hvm Hx Hy Hyn Hp Hwf Hfree Hpo. unfold v3_dev_hook_io.
  rewrite (proj2 (Z.eqb_neq x NULL)) by apply Hx. fold (with_alloc m x).
  change (devices (with_alloc m x)) with (devices m). rewrite (deref_some _ _ _ Hdev). run.
  rewrite (proj2 (Z.eqb_neq _ _) Hvm), (wrap_small 16 port) by done.
  change (mg_io_map (with_alloc m x)) with (mg_io_map m).
  pose proof (IoMap.hook_io_port_spec default_read_ptr default_write_ptr (mg_io_map m) l y port rd wr dev Hwf Hy Hyn) as Hio.
  cbv zeta in Hio. rewrite (wrap_small 16 port) in Hio by done. rewrite Hfree in Hio.
  destruct Hio as (io & l' & Hio & Hwf' & _ & Habs). rewrite Hio. apply hook_io_port_dom in Hio. run.
  set (k := mk_dev_io_hook port rd wr dev).
  assert (forall h' k', (h', k') ∈ hks -> h' <> x) as Hne.
  { intros h' k' Hin ->. destruct (mg_hooks _ _ Hm x k' Hin) as (_ & Hk & _). destruct Hx as (_ & Hf & _). congruence. }
  pose proof (managed_alloc _ _ _ Hm Hx) as Hm1. destruct (mg_rings _ _ Hm) as (R & HR & HRm & HRd).
  destruct (HRd dev ltac:(by eexists)) as [Hdne HRdev].
  destruct (alloc_hook (mg_links m) R x HR) as (HR1 & Hu1 & Hu2); [apply Hx..|].
  change (<[x + hook_dev_list_off := garbage]> _) with (mg_links (with_alloc m x)) in HR1, Hu1, Hu2.
  destruct (link_hook _ R x _ _ _ _ HR1 HRm HRdev Hdne Hu1 Hu2) as (h1 & h2 & Hh1 & Hh2 & HR2 & Hdom2).
  unfold dev_mgr_add_io_hook. set (m2 := (with_alloc m x) <| mg_io_map := io |> <| dev_hooks := _ |>).
  change (mg_links m2) with (mg_links (with_alloc m x)). change (mgr_io_hooks m2) with (mgr_io_hooks m).
  rewrite Hh1. run. unfold dev_add_io_hook.
  set (m3 := m2 <| mg_links := h1 |> <| mgr_num_io_hooks := _ |>).
  change (mg_links m3) with h1. rewrite Hh2. run. change (devices m3) with (devices m).
  rewrite (modify_some _ _ _ _ Hdev). run. eexists. split; [done|].
  change (m3 <| mg_links := h2 |> <| devices := _ |>) with (with_hook (with_alloc m x) x dev k io h2 d).
  split; [|split; [apply insert_insert_eq|by etrans; [exact Hdom2|apply alloc_links_dom]|done|done|by exists l']].
  eapply managed_hook; [exact Hm1|done|done|done|apply Hx|exact Hne|exact HR2|..].
  - rewrite lookup_insert_ne by done. apply lookup_insert_eq.
  - intros dv Hdv. rewrite filter_hook. change (dh_dev k) with dev. case_decide as E.
    + subst dv. apply lookup_insert_eq.
    + destruct (HRd dv Hdv) as [Hv1 Hv2]. rewrite !lookup_insert_ne; [done|done|lia].
  - exact Hwf'.
  - rewrite Habs, lookup_insert_eq. done.
  - intros h' k' Hin. pose proof (Hpo h' k' Hin) as Hpk.
    assert (dh_port k' <> port) as Hpne by (intros E; rewrite E, Hfree in Hpk; done).
    split; [|done]. rewrite Habs, lookup_insert_ne by done. done.
Qed.

(** ** Sequences of hooks *)

Definition free_port (m : vmm_dev_mgr) (port : Z) : Prop :=
  IoMap.v3_get_io_hook (mg_io_map m) port = Done NULL.

Lemma free_port_abs m l port :
  IoMap.wf (mg_io_map m) l ->
  free_port m port <-> IoMap.abs (IoMap.io_hooks (mg_io_map m)) l !! port = None.
Proof. intros Hwf. unfold free_port. destruct (get_hook_abs _ _ port Hwf) as (q & -> & <-). naive_solver. Qed.

(** Blocks of memory that malloc can return one after the other. *)
Definition sizeof_hook : Z := 8 * w.
Definition apart (a b : Z * Z) : Prop :=
  (a.1 + sizeof_hook <= b.1 \/ b.1 + sizeof_hook <= a.1) /\ a.2 <> b.2.

Fixpoint allocs (m : vmm_dev_mgr) (ms : list (Z * Z)) : Prop :=
  match ms with
  | [] => True
  | a :: ms => fresh_hook m a.1 /\ IoMap.io_hooks (mg_io_map m) !! a.2 = None /\ a.2 <> NULL /\
      Forall (apart a) ms /\ allocs m ms
  end.

Lemma allocs_frame m m' x y dev d k l ms :
  hook_frame m m' x y dev d k l -> Forall (apart (x, y)) ms -> allocs m ms -> allocs m' ms.
Proof.
  intros [Hh Hl _ Hio _]. induction 1 as [|[x' y'] ms [Hx Hy] _ IH]; [done|].
  cbn in *. intros ((H1 & H2 & H3 & H4) & H5 & H6 & H7 & H8). pose proof word_pos.
  unfold sizeof_hook, hook_dev_list_off, hook_mgr_list_off in *.
  split_and!; [split_and!|..|done|done|auto]; [done| | | |].
  - rewrite Hh, lookup_insert_ne by lia. done.
  - rewrite Hl. apply not_elem_of_union. split; [|done]. rewrite not_elem_of_union, !not_elem_of_singleton.
    unfold hook_dev_list_off, hook_mgr_list_off. lia.
  - rewrite Hl. apply not_elem_of_union. split; [|done]. rewrite not_elem_of_union, !not_elem_of_singleton.
    unfold hook_dev_list_off, hook_mgr_list_off. lia.
  - apply not_elem_of_dom. rewrite Hio. apply not_elem_of_dom in H5. set_solver.
Qed.

Definition hooks_of (dev : Z) (ps : list (Z * Z * Z)) (ms : list (Z * Z)) : list (Z * dev_io_hook) :=
  zip_with (fun p a => (a.1, mk_dev_io_hook p.1.1 p.1.2 p.2 dev)) ps ms.

(** Every port of a sequence of free ones gets its hook. *)
Lemma hook_ports_spec dev ps : forall ms m hks d,
  length ps = length ms -> managed m hks -> devices m !! dev = Some d -> dev_vm d <> NULL ->
  allocs m ms -> Forall (fun p => is_u 16 p.1.1 /\ free_port m p.1.1) ps -> NoDup ((fun p => p.1.1) <$> ps) ->
  exists m', hook_ports m dev ps ms = Done m' /\ managed m' (reverse (hooks_of dev ps ms) ++ hks).
Proof.
  induction ps as [|[[port rd] wr] ps IH]; intros [|[x y] ms] m hks d Hlen Hm Hdev Hvm Ha Hp Hnd; [|done..|].
  { by exists m. }
  cbn in Ha. destruct Ha as (Hx & Hy & Hyn & Hap & Ha). apply Forall_cons in Hp as [[Hu Hf] Hp].
  cbn in Hnd. apply NoDup_cons in Hnd as [Hnin Hnd]. cbn [fst snd] in *.
  destruct (mg_port_map _ _ Hm) as (l & Hwf & Hpo).
  destruct (hook_free_spec m hks x y dev d port rd wr l) as (m1 & H1 & Hm1 & Hfr); [done..|by apply free_port_abs|done|].
  cbn [hook_ports]. rewrite H1. run. destruct (hf_ports _ _ _ _ _ _ _ _ Hfr) as (l' & Hwf' & Habs).
  destruct (IH ms m1 ((x, mk_dev_io_hook port rd wr dev) :: hks) (d <| num_io_hooks := u32 (num_io_hooks d + 1) |>))
    as (m' & H' & Hm'); [by injection Hlen|done| |done|by eapply allocs_frame| |done|].
  - rewrite (hf_devices _ _ _ _ _ _ _ _ Hfr). apply lookup_insert_eq.
  - rewrite Forall_forall in Hp |- *. intros p Hin. destruct (Hp p Hin) as [Hpu Hpf]. split; [done|].
    apply (free_port_abs _ _ _ Hwf'). rewrite Habs. apply (free_port_abs _ _ _ Hwf) in Hpf.
    rewrite lookup_insert_ne; [done|]. intros E. apply Hnin. rewrite list_elem_of_fmap. by exists p.
  - exists m'. split; [done|]. unfold hooks_of. cbn [zip_with]. by rewrite reverse_cons, <- app_assoc.
Qed.

Lemma hook_taken_spec m hks x y dev d port rd wr l c :
  managed m hks -> devices m !! dev = Some d -> dev_vm d <> NULL -> fresh_hook m x ->
  IoMap.io_hooks (mg_io_map m) !! y = None -> y <> NULL -> is_u 16 port ->
  IoMap.wf (mg_io_map m) l -> IoMap.abs (IoMap.io_hooks (mg_io_map m)) l !! port = Some c ->
  exists m', v3_dev_hook_io m x y dev port rd wr = Done (-1, m') /\ managed m' hks.
Proof.
  intros Hm Hdev Hvm Hx Hy Hyn Hp Hwf Htk. unfold v3_dev_hook_io.
  rewrite (proj2 (Z.eqb_neq x NULL)) by apply Hx. fold (with_alloc m x).
  change (devices (with_alloc m x)) with (devices m). rewrite (deref_some _ _ _ Hdev). run.
  rewrite (proj2 (Z.eqb_neq _ _) Hvm), (wrap_small 16 port) by done.
  change (mg_io_map (with_alloc m x)) with (mg_io_map m).
  pose proof (IoMap.hook_io_port_spec default_read_ptr default_write_ptr (mg_io_map m) l y port rd wr dev Hwf Hy Hyn) as Hio.
  cbv zeta in Hio. rewrite (wrap_small 16 port) in Hio by done. rewrite Htk in Hio. rewrite Hio. run.
  eexists. split; [done|]. pose proof (managed_alloc _ _ _ Hm Hx) as [H1 H2 H3 H4 H5 H6]. by split.
Qed.

(** ** Unhooking *)

Fixpoint lookup_hook (port : Z) (hks : list (Z * dev_io_hook)) : option Z :=
  match hks with
  | [] => None
  | (h, k) :: hks => if dh_port k =? port then Some h else lookup_hook port hks
  end.

Lemma lookup_hook_split h1 x k h2 :
  NoDup ((fun hk => dh_port hk.2) <$> h1 ++ (x, k) :: h2) ->
  lookup_hook (dh_port k) (h1 ++ (x, k) :: h2) = Some x.
Proof.
  induction h1 as [|[h k'] h1 IH]; intros Hn; cbn [app lookup_hook].
  - by rewrite Z.eqb_refl.
  - cbn [app fmap list_fmap] in Hn. apply NoDup_cons in Hn as [Hnin Hn]. rewrite (proj2 (Z.eqb_neq _ _)); [by apply IH|].
    intros E. apply Hnin. cbn in E |- *. rewrite E. apply (list_elem_of_fmap_2 (fun hk => dh_port hk.2) _ (x, k)). set_solver.
Qed.

Lemma lookup_hook_none port hks :
  (forall h k, (h, k) ∈ hks -> dh_port k <> port) -> lookup_hook port hks = None.
Proof.
  induction hks as [|[h k] hks IH]; intros Hp; [done|]. cbn [lookup_hook].
  rewrite (proj2 (Z.eqb_neq _ _)) by (apply (Hp h k); by left).
  apply IH. intros h' k' Hin. apply (Hp h' k'). by right.
Qed.

Lemma is_hook_of_at m port h k u :
  dev_hooks m !! h = Some k -> is_hook_of m port h u = Done (if dh_port k =? port then Some h else None, tt).
Proof. intros Hk. unfold is_hook_of. by rewrite (deref_some _ _ _ Hk). Qed.

Lemma find_hook_spec m hks port :
  managed m hks -> dev_mgr_find_io_hook m port = Done (default NULL (lookup_hook port hks)).
Proof.
  intros Hm. unfold dev_mgr_find_io_hook. destruct (mg_rings _ _ Hm) as (R & HR & HRm & _).
  rewrite (list_for_each_entry_visits _ _ _ _ R _ (fst <$> hks)); [| |by rewrite <- list_fmap_compose|].
  - assert (forall l, (forall h k, (h, k) ∈ l -> dev_hooks m !! h = Some k) ->
      visit_all (is_hook_of m port) (fst <$> l) tt = Done (lookup_hook port l, tt)) as Hv.
    { induction l as [|[h k] l IH]; intros Hl; [done|]. cbn [fmap list_fmap visit_all lookup_hook fst].
      rewrite (is_hook_of_at m port h k) by (apply Hl; by left). run.
      destruct (dh_port k =? port); [done|]. apply IH. intros h' k' Hin. apply Hl. by right. }
    rewrite Hv; [done|]. intros h k Hin. by apply (mg_hooks _ _ Hm).
  - done.
  - rewrite length_fmap. pose proof (ring_size _ _ _ _ HR HRm) as Hs. rewrite length_fmap in Hs. lia.
Qed.

Lemma unlink_hook h R x mgr dv m1 m2 d1 d2 :
  rings h R -> R !! mgr = Some (m1 ++ (x + hook_mgr_list_off) :: m2) ->
  R !! dv = Some (d1 ++ (x + hook_dev_list_off) :: d2) -> dv <> mgr ->
  exists h1 h2, list_del h (x + hook_mgr_list_off) = Done h1 /\
    list_del h1 (x + hook_dev_list_off) = Done h2 /\
    rings h2 (<[dv := d1 ++ d2]> (<[mgr := m1 ++ m2]> R)).
Proof.
  intros HR Hm Hd Hne. destruct (list_del_spec h R mgr m1 _ m2 HR Hm) as (h1 & H1 & HR1 & _).
  destruct (list_del_spec h1 (<[mgr := m1 ++ m2]> R) dv d1 (x + hook_dev_list_off) d2 HR1)
    as (h2 & H2 & HR2 & _); [by rewrite lookup_insert_ne|]. by exists h1, h2.
Qed.

Lemma filter_split dv h1 x k h2 :
  filter (hook_of_dev dv) (h1 ++ (x, k) :: h2) =
    if decide (dh_dev k = dv) then filter (hook_of_dev dv) h1 ++ (x, k) :: filter (hook_of_dev dv) h2
    else filter (hook_of_dev dv) (h1 ++ h2).
Proof. rewrite !filter_app, filter_hook. by case_decide. Qed.

Definition without_hook (m : vmm_dev_mgr) (dev : Z) (io : IoMap.vmm_io_map) (h : links) (d : vm_device)
    : vmm_dev_mgr :=
  m <| mg_links := h |> <| mgr_num_io_hooks := u32 (mgr_num_io_hooks m - 1) |>
    <| devices := <[dev := d <| num_io_hooks := u32 (num_io_hooks d - 1) |>]> (devices m) |>
    <| mg_io_map := io |>.

Lemma managed_rest m h1 x k h2 :
  managed m (h1 ++ (x, k) :: h2) ->
  (forall h' k', (h', k') ∈ h1 ++ h2 -> (h', k') ∈ h1 ++ (x, k) :: h2 /\ dh_port k' <> dh_port k) /\
  NoDup ((fun hk => dh_port hk.2) <$> h1 ++ h2).
Proof.
  intros [_ _ _ Hn _ _].
  assert (NoDup ((fun hk => dh_port hk.2) <$> (x, k) :: h1 ++ h2)) as [Hnin Hn']%NoDup_cons.
  { eapply NoDup_Permutation_proper; [|exact Hn]. by rewrite Permutation_middle. }
  split; [|done]. intros h' k' Hin. split; [set_solver|]. intros E. apply Hnin.
  change (dh_port (x, k).2) with (dh_port k). rewrite <- E.
  apply (list_elem_of_fmap_2 (fun hk => dh_port hk.2) (h1 ++ h2) (h', k') Hin).
Qed.

Lemma managed_unhook m h1 x k h2 d io l R h :
  managed m (h1 ++ (x, k) :: h2) -> devices m !! dh_dev k = Some d ->
  rings h R -> R !! mgr_io_hooks m = Some ((fun hk => hk.1 + hook_mgr_list_off) <$> h1 ++ h2) ->
  (forall dv, is_Some (devices m !! dv) -> R !! (dv + io_hooks_off) =
     Some ((fun hk => hk.1 + hook_dev_list_off) <$> filter (hook_of_dev dv) (h1 ++ h2))) ->
  IoMap.wf io l ->
  (forall h' k', (h', k') ∈ h1 ++ h2 -> IoMap.abs (IoMap.io_hooks io) l !! dh_port k' = Some (handler_of k')) ->
  managed (without_hook m (dh_dev k) io h d) (h1 ++ h2).
Proof.
  intros Hm Hdev HR HRm HRd Hwf Hpo. destruct (managed_rest _ _ _ _ _ Hm) as [Hsub Hn'].
  destruct Hm as [(R0 & _ & _ & Hd) Hh _ _ Hc Hdc].
  set (m' := without_hook m (dh_dev k) io h d).
  assert (devices m' = <[dh_dev k := d <| num_io_hooks := u32 (num_io_hooks d - 1) |>]> (devices m)) as Ed by done.
  assert (forall dv, is_Some (devices m' !! dv) <-> is_Some (devices m !! dv)) as Hds.
  { intros dv. rewrite Ed, lookup_insert_is_Some'. split; [intros [<-|?]; [by eexists|done]|tauto]. }
  split.
  - exists R. split_and!; [done..|]. intros dv Hdv%Hds. split; [by apply Hd|by apply HRd].
  - intros h' k' Hin. rewrite Hds. by apply Hh, Hsub.
  - by exists l.
  - done.
  - change (mgr_num_io_hooks m') with (u32 (mgr_num_io_hooks m - 1)). rewrite Hc, !length_app. cbn [length].
    rewrite Nat.add_succ_r. apply u32_pred.
  - intros dv d0. rewrite Ed. intros [[<- <-]|[Hne Hd0]]%lookup_insert_Some.
    + change (num_io_hooks (d <| num_io_hooks := u32 (num_io_hooks d - 1) |>)) with (u32 (num_io_hooks d - 1)).
      rewrite (Hdc _ d Hdev), filter_split, decide_True, filter_app, !length_app by done. cbn [length].
      rewrite Nat.add_succ_r. apply u32_pred.
    + by rewrite (Hdc dv d0 Hd0), filter_split, decide_False.
Qed.

(** Unhooking a port of the device that hooked it. *)
Lemma unhook_spec m h1 x k h2 d :
  managed m (h1 ++ (x, k) :: h2) -> devices m !! dh_dev k = Some d -> dev_vm d <> NULL ->
  exists m' l, v3_dev_unhook_io m (dh_dev k) (dh_port k) = Done (0, m') /\ managed m' (h1 ++ h2) /\
    IoMap.wf (mg_io_map m') l /\ IoMap.abs (IoMap.io_hooks (mg_io_map m')) l !! dh_port k = None.
Proof.
  intros Hm Hdev Hvm. unfold v3_dev_unhook_io. rewrite (deref_some _ _ _ Hdev). run.
  rewrite (proj2 (Z.eqb_neq _ _) Hvm).
  destruct (mg_hooks _ _ Hm x k) as (Hx & Hk & Hu & _); [set_solver|].
  rewrite (wrap_small 16) by done. rewrite (find_hook_spec m _ (dh_port k) Hm).
  rewrite lookup_hook_split by apply Hm. run. change (default NULL (Some x)) with x. rewrite (proj2 (Z.eqb_neq _ _) Hx).
  destruct (mg_rings _ _ Hm) as (R & HR & HRm & HRd). destruct (mg_port_map _ _ Hm) as (l & Hwf & Hpo).
  destruct (HRd (dh_dev k) ltac:(by eexists)) as [Hdne HRdev].
  rewrite filter_split, decide_True in HRdev by done. rewrite fmap_app in HRm, HRdev.
  destruct (unlink_hook _ R x _ _ _ _ _ _ HR HRm HRdev Hdne) as (g1 & g2 & Hg1 & Hg2 & HR2).
  unfold dev_mgr_remove_io_hook. rewrite Hg1. run. unfold dev_remove_io_hook.
  set (m2 := m <| mg_links := g1 |> <| mgr_num_io_hooks := _ |>). change (mg_links m2) with g1.
  rewrite Hg2. run. change (devices m2) with (devices m). rewrite (modify_some _ _ _ _ Hdev). run.
  change (mg_io_map (m2 <| mg_links := g2 |> <| devices := _ |>)) with (mg_io_map m).
  pose proof (IoMap.unhook_io_port_spec (mg_io_map m) l (dh_port k) Hwf) as Hio. cbv zeta in Hio.
  rewrite (Hpo x k) in Hio by set_solver. destruct Hio as (io & l' & -> & Hwf' & Habs). run.
  exists (without_hook m (dh_dev k) io g2 d), l'. split; [done|]. change (mg_io_map (without_hook _ _ _ _ _)) with io.
  split; [|split; [done|by rewrite Habs, lookup_delete_eq]].
  destruct (managed_rest _ _ _ _ _ Hm) as [Hsub _].
  eapply managed_unhook; [exact Hm|exact Hdev|exact HR2|..|exact Hwf'|].
  - rewrite lookup_insert_ne by done. by rewrite lookup_insert_eq, fmap_app.
  - intros dv Hdv. destruct (HRd dv Hdv) as [Hv1 Hv2]. destruct (decide (dh_dev k = dv)) as [<-|Hne].
    + by rewrite lookup_insert_eq, filter_app, fmap_app.
    + rewrite !lookup_insert_ne by (done || lia). by rewrite Hv2, filter_split, decide_False.
  - intros h' k' Hin. destruct (Hsub _ _ Hin) as [Hin' Hne]. rewrite Habs, lookup_delete_ne by done. by eapply Hpo.
Qed.

(** C24. Hooks stay in step: in a manager whose hooks are [hks], a device that hooks a port no
    one has hooked gets 0 and the port leads to its callbacks, through the list of the manager
    and that of the device; a taken port gives -1 and changes no list.  Unhooking one of its ports
    takes exactly that hook from both lists and the port from the map; unhooking a port without
    a hook gives -1 and leaves the manager as it was.  The counts follow the lists throughout. *)
Theorem dev_hooks_in_step m hks dev d port :
  managed m hks -> devices m !! dev = Some d -> dev_vm d <> NULL -> is_u 16 port ->
  (forall x y rd wr, fresh_hook m x -> IoMap.io_hooks (mg_io_map m) !! y = None -> y <> NULL ->
    exists m' l, IoMap.wf (mg_io_map m) l /\
    match IoMap.abs (IoMap.io_hooks (mg_io_map m)) l !! port with
    | None => v3_dev_hook_io m x y dev port rd wr = Done (0, m') /\
        managed m' ((x, mk_dev_io_hook port rd wr dev) :: hks)
    | Some _ => v3_dev_hook_io m x y dev port rd wr = Done (-1, m') /\ managed m' hks
    end) /\
  (forall h1 x k h2, hks = h1 ++ (x, k) :: h2 -> dh_dev k = dev -> dh_port k = port ->
    exists m' l, v3_dev_unhook_io m dev port = Done (0, m') /\ managed m' (h1 ++ h2) /\
      IoMap.wf (mg_io_map m') l /\ IoMap.abs (IoMap.io_hooks (mg_io_map m')) l !! port = None) /\
  ((forall h k, (h, k) ∈ hks -> dh_port k <> port) -> v3_dev_unhook_io m dev port = Done (-1, m)).
Proof.
  intros Hm Hdev Hvm Hp. split_and!.
  - intros x y rd wr Hx Hy Hyn. destruct (mg_port_map _ _ Hm) as (l & Hwf & Hpo).
    destruct (IoMap.abs (IoMap.io_hooks (mg_io_map m)) l !! port) eqn:E.
    + destruct (hook_taken_spec m hks x y dev d port rd wr l _ Hm Hdev Hvm Hx Hy Hyn Hp Hwf E) as (m' & H1 & H2).
      exists m', l. by rewrite E.
    + destruct (hook_free_spec m hks x y dev d port rd wr l Hm Hdev Hvm Hx Hy Hyn Hp Hwf E Hpo) as (m' & H1 & H2 & _).
      exists m', l. by rewrite E.
  - intros h1 x k h2 -> <- <-. by apply (unhook_spec m h1 x k h2 d).
  - intros Hno. unfold v3_dev_unhook_io. rewrite (deref_some _ _ _ Hdev). run.
    rewrite (proj2 (Z.eqb_neq _ _) Hvm), (wrap_small 16) by done.
    by rewrite (find_hook_spec m _ port Hm), lookup_hook_none.
Qed.

End dev_mgr.

(** A manager with one attached device that has hooked nothing; port 0x70 belongs to another
    handler. *)
Definition demo_mgr : vmm_dev_mgr :=
  mk_vmm_dev_mgr 1 0x100 0 0x200 {[ 0x1000 := mk_vm_device [] 0 0 5 0 0 0 ]} ∅
    {[ 0x200 := mk_list_head 0x200 0x200; 0x1050 := mk_list_head 0x1050 0x1050 ]} IoMap.io_map_70.

Definition demo_arch : Arch := V3_64BIT.

Lemma demo_mgr_rings : rings (mg_links demo_mgr) {[ 0x200 := []; 0x1050 := [] ]}.
Proof.
  split.
  - intros hd l [[<- <-]|[_ [<- <-]%lookup_singleton_Some]]%lookup_insert_Some;
      (split; [by apply NoDup_singleton|]); by split.
  - intros h1 l1 h2 l2 q H1 H2 Hq1 Hq2.
    apply lookup_insert_Some in H1 as [[<- <-]|[_ [<- <-]%lookup_singleton_Some]];
      apply lookup_insert_Some in H2 as [[<- <-]|[_ [<- <-]%lookup_singleton_Some]]; set_solver.
Qed.

Lemma demo_devices dv d :
  devices demo_mgr !! dv = Some d -> dv = 0x1000 /\ d = mk_vm_device [] 0 0 5 0 0 0.
Proof. unfold demo_mgr. cbn [devices]. by intros [<- <-]%lookup_singleton_Some. Qed.

Lemma demo_managed : managed (A := demo_arch) 11 12 demo_mgr [].
Proof.
  split.
  - exists {[ 0x200 := []; 0x1050 := [] ]}. split_and!; [exact demo_mgr_rings|done|].
    intros dv [d [-> ->]%demo_devices]. split; done.
  - set_solver.
  - exists [1]. split; [exact IoMap.wf_io_map_70|set_solver].
  - constructor.
  - done.
  - by intros dv d [-> ->]%demo_devices.
Qed.

Lemma dev_hooks_in_step_witness :
  (exists m', v3_dev_hook_io (A := demo_arch) 11 12 demo_mgr 0x2000 0x3000 0x1000 0x71 21 22 = Done (0, m') /\
    managed (A := demo_arch) 11 12 m' [(0x2000, mk_dev_io_hook 0x71 21 22 0x1000)]) /\
  v3_dev_unhook_io (A := demo_arch) demo_mgr 0x1000 0x71 = Done (-1, demo_mgr).
Proof.
  destruct (dev_hooks_in_step (A := demo_arch) 11 12 demo_mgr [] 0x1000 (mk_vm_device [] 0 0 5 0 0 0) 0x71
    demo_managed eq_refl ltac:(done) ltac:(done)) as (H1 & _ & H3).
  split; [|apply H3; set_solver].
  destruct (H1 0x2000 0x3000 21 22) as (m' & l & Hwf & Hm); [split_and!; [done|done|by apply not_elem_of_dom|by apply not_elem_of_dom]|done..|].
  exists m'. assert (IoMap.abs (IoMap.io_hooks (mg_io_map demo_mgr)) l !! 0x71 = None) as E; [|by rewrite E in Hm].
  destruct (get_hook_abs _ _ 0x71 Hwf) as (q & Hq & Hn). apply Hn.
  apply (f_equal (fun o => match o with Done x => x | _ => 1 end)) in Hq. by vm_compute in Hq.
Defined.

End DevMgr.
