(* ===== verification/Nvram.v ===== *)
(** The CMOS memory and its real-time clock: nvram.c.

    The device is 256 bytes behind two ports, some of which are a clock that timer events of
    the host advance.  [Module Nvram] translates the clock, the ports and the attachment of
    the device to the port map and the timer events.  The theorems show that in 24-hour mode
    the registers are a calendar clock that loses no time, and that a guest reads back through
    the I/O instructions what it wrote. *)
From stdpp Require Import base tactics numbers list gmap.
From S2P Require Import Prelude Chain Host IoMap Intr GuestInfo GuestMem ShadowPaging SvmIo.
From S2P Require Import ListHead HostEvents DevMgr.

Module Nvram.
Import Intr.

Abbreviation NVRAM_REG_PORT := 0x70.
Abbreviation NVRAM_DATA_PORT := 0x71.
Abbreviation NVRAM_RTC_IRQ := 0x8.
Abbreviation NVRAM_REG_MAX := 256.
Abbreviation NVRAM_REG_SEC := 0x00.
Abbreviation NVRAM_REG_SEC_ALARM := 0x01.
Abbreviation NVRAM_REG_MIN := 0x02.
Abbreviation NVRAM_REG_MIN_ALARM := 0x03.
Abbreviation NVRAM_REG_HOUR := 0x04.
Abbreviation NVRAM_REG_HOUR_ALARM := 0x05.
Abbreviation NVRAM_REG_WEEK_DAY := 0x06.
Abbreviation NVRAM_REG_MONTH_DAY := 0x07.
Abbreviation NVRAM_REG_MONTH := 0x08.
Abbreviation NVRAM_REG_YEAR := 0x09.
Abbreviation NVRAM_REG_STAT_A := 0x0a.
Abbreviation NVRAM_REG_STAT_B := 0x0b.
Abbreviation NVRAM_REG_STAT_C := 0x0c.
Abbreviation NVRAM_REG_STAT_D := 0x0d.
Abbreviation NVRAM_REG_SHUTDOWN_STATUS := 0x0f.
Abbreviation NVRAM_REG_FLOPPY_TYPE := 0x10.
Abbreviation NVRAM_IBM_HD_DATA := 0x12.
Abbreviation NVRAM_REG_EQUIPMENT_BYTE := 0x14.
Abbreviation NVRAM_REG_BASE_MEMORY_LOW := 0x15.
Abbreviation NVRAM_REG_BASE_MEMORY_HIGH := 0x16.
Abbreviation NVRAM_REG_EXT_MEMORY_LOW := 0x17.
Abbreviation NVRAM_REG_EXT_MEMORY_HIGH := 0x18.
Abbreviation NVRAM_REG_BOOTSEQ_OLD := 0x2d.
Abbreviation NVRAM_REG_EXT_MEMORY_2ND_LOW := 0x30.
Abbreviation NVRAM_REG_EXT_MEMORY_2ND_HIGH := 0x31.
Abbreviation NVRAM_REG_IBM_CENTURY_BYTE := 0x32.
Abbreviation NVRAM_REG_AMI_BIG_MEMORY_LOW := 0x34.
Abbreviation NVRAM_REG_AMI_BIG_MEMORY_HIGH := 0x35.
Abbreviation NVRAM_REG_BOOTSEQ_NEW_SECOND := 0x38.
Abbreviation NVRAM_REG_BOOTSEQ_NEW_FIRST := 0x3D.

Inductive nvram_state_t := NVRAM_READY | NVRAM_REG_POSTED.

(** [struct nvram_internal] *)
Record nvram_internal := mk_nvram_internal {
  dev_state : nvram_state_t;
  thereg : Z;
  mem_state : list Z;
  us : Z;
  pus : Z;
}.

#[export] Instance eta_nvram_internal : Eta nvram_internal := fun d =>
  mk_nvram_internal (dev_state d) (thereg d) (mem_state d) (us d) (pus d).

Record rtc_stata := mk_rtc_stata { rate : Z; basis : Z; uip : Z }.

#[global, program] Instance bits_rtc_stata : BitStruct rtc_stata := {|
  bs_widths := [4; 3; 1];
  bs_values c := [rate c; basis c; uip c];
  bs_make vs := mk_rtc_stata (nth 0 vs 0) (nth 1 vs 0) (nth 2 vs 0)
|}.
Solve All Obligations with solve_bitstruct.

Record rtc_statb := mk_rtc_statb {
  sum : Z; h24 : Z; dm : Z; rec : Z; ui : Z; ai : Z; pi : Z; set : Z;
}.

#[global, program] Instance bits_rtc_statb : BitStruct rtc_statb := {|
  bs_widths := [1; 1; 1; 1; 1; 1; 1; 1];
  bs_values c := [sum c; h24 c; dm c; rec c; ui c; ai c; pi c; set c];
  bs_make vs := mk_rtc_statb (nth 0 vs 0) (nth 1 vs 0) (nth 2 vs 0) (nth 3 vs 0) (nth 4 vs 0)
    (nth 5 vs 0) (nth 6 vs 0) (nth 7 vs 0)
|}.
Solve All Obligations with solve_bitstruct.

Record rtc_statc := mk_rtc_statc { res : Z; uf : Z; af : Z; pf : Z; irq : Z }.

#[export] Instance eta_rtc_statc : Eta rtc_statc := fun c =>
  mk_rtc_statc (res c) (uf c) (af c) (pf c) (irq c).

#[global, program] Instance bits_rtc_statc : BitStruct rtc_statc := {|
  bs_widths := [4; 1; 1; 1; 1];
  bs_values c := [res c; uf c; af c; pf c; irq c];
  bs_make vs := mk_rtc_statc (nth 0 vs 0) (nth 1 vs 0) (nth 2 vs 0) (nth 3 vs 0) (nth 4 vs 0)
|}.
Solve All Obligations with solve_bitstruct.

Record bcd_num := mk_bcd_num { bot : Z; top : Z }.

#[export] Instance eta_bcd_num : Eta bcd_num := fun b => mk_bcd_num (bot b) (top b).

#[global, program] Instance bits_bcd_num : BitStruct bcd_num := {|
  bs_widths := [4; 4];
  bs_values b := [bot b; top b];
  bs_make vs := mk_bcd_num (nth 0 vs 0) (nth 1 vs 0)
|}.
Solve All Obligations with solve_bitstruct.

(** ** The clock *)

Definition reg (data : nvram_internal) (r : Z) : Z := mem_state data !!! Z.to_nat r.
Definition set_reg (data : nvram_internal) (r v : Z) : nvram_internal :=
  data <| mem_state := <[Z.to_nat r := v]> (mem_state data) |>.

Definition stata (data : nvram_internal) : rtc_stata := decode (reg data NVRAM_REG_STAT_A).
Definition statb (data : nvram_internal) : rtc_statb := decode (reg data NVRAM_REG_STAT_B).
Definition statc (data : nvram_internal) : rtc_statc := decode (reg data NVRAM_REG_STAT_C).
Definition set_statc (data : nvram_internal) (f : rtc_statc -> rtc_statc) : nvram_internal :=
  set_reg data NVRAM_REG_STAT_C (encode (f (statc data))).

(** The carry and the new value of [*left]. *)
Definition add_to (left right : Z) (bcd : bool) : Z * Z :=
  if bcd then
    let bl := decode left in
    let br := decode right in
    let bl := bl <| bot := wrap 4 (bot bl + bot br) |> in
    let carry := bot bl / 0xa in
    let bl := bl <| bot := bot bl mod 0xa |> in
    let bl := bl <| top := wrap 4 (top bl + (carry + top br)) |> in
    let carry := top bl / 0xa in
    let bl := bl <| top := top bl mod 0xa |> in
    (carry, encode bl)
  else
    let temp := left in
    let left := u8 (left + right) in
    (if left <? temp then 1 else 0, left).

Definition days_in_month (month : Z) (bcd : bool) : Z :=
  if bcd then
    match month with
    | 0x1 | 0x3 | 0x5 | 0x7 | 0x8 | 0x10 | 0x12 => 0x31
    | 0x4 | 0x6 | 0x9 | 0x11 => 0x30
    | 0x2 => 0x28
    | _ => 0x30
    end
  else
    match month with
    | 1 | 3 | 5 | 7 | 8 | 10 | 12 => 31
    | 4 | 6 | 9 | 11 => 30
    | 2 => 28
    | _ => 30
    end.

(** One is added to a register: [carry = 1; carry = add_to(r, &carry, bcd)]. *)
Definition add_one (data : nvram_internal) (r : Z) (bcd : bool) : Z * nvram_internal :=
  let '(carry, v) := add_to (reg data r) 1 bcd in (carry, set_reg data r v).

(** The register holds a limit, written in BCD and in binary. *)
Definition at_limit (bcd : bool) (v b d : Z) : bool := (bcd && (v =? b)) || (negb bcd && (v =? d)).

Definition next_year (data : nvram_internal) (bcd : bool) : nvram_internal :=
  let '(carry, data) := add_one data NVRAM_REG_YEAR bcd in
  if (bcd && negb (carry =? 0)) || (negb bcd && (reg data NVRAM_REG_YEAR =? 100)) then
    let data := set_reg data NVRAM_REG_YEAR 0 in
    snd (add_one data NVRAM_REG_IBM_CENTURY_BYTE bcd)
  else data.

Definition next_month (data : nvram_internal) (bcd : bool) : nvram_internal :=
  let data := set_reg data NVRAM_REG_MONTH_DAY 0x1 in
  let '(_, data) := add_one data NVRAM_REG_MONTH bcd in
  if at_limit bcd (reg data NVRAM_REG_MONTH) 0x13 13
  then next_year (set_reg data NVRAM_REG_MONTH 1) bcd
  else data.

Definition next_day (data : nvram_internal) (bcd : bool) : nvram_internal :=
  let '(_, data) := add_one data NVRAM_REG_WEEK_DAY bcd in
  let data := set_reg data NVRAM_REG_WEEK_DAY (reg data NVRAM_REG_WEEK_DAY mod 0x7) in
  if negb (reg data NVRAM_REG_MONTH_DAY =? days_in_month (reg data NVRAM_REG_MONTH) bcd)
  then snd (add_one data NVRAM_REG_MONTH_DAY bcd)
  else next_month data bcd.

(** The hour of the day that the register holds. *)
Definition load_hour (data : nvram_internal) (bcd : bool) : Z :=
  let hour24 := reg data NVRAM_REG_HOUR in
  if h24 (statb data) =? 0 then
    if negb (Z.land hour24 0x80 =? 0) then
      let hour24 := Z.land hour24 0x8f in
      let temp := if bcd then 0x12 else 12 in
      snd (add_to hour24 temp bcd)
    else hour24
  else hour24.

Definition store_hour (data : nvram_internal) (hour24 : Z) (bcd : bool) : nvram_internal :=
  if negb (h24 (statb data) =? 0) then set_reg data NVRAM_REG_HOUR hour24
  else if (bcd && (hour24 <? 0x12)) || (negb bcd && (hour24 <? 12)) then set_reg data NVRAM_REG_HOUR hour24
  else if negb bcd then set_reg data NVRAM_REG_HOUR (u8 (Z.lor (hour24 - 12) 0x80))
  else
    let n := decode hour24 in
    let n := if bot n <? 0x2
             then n <| top := wrap 4 (top n - 1) |> <| bot := wrap 4 (bot n + 0xa) |> else n in
    let n := n <| bot := wrap 4 (bot n - 0x2) |> in
    let n := n <| top := wrap 4 (top n - 0x1) |> in
    set_reg data NVRAM_REG_HOUR (encode n).

Definition next_hour (data : nvram_internal) (bcd : bool) : nvram_internal :=
  let hour24 := load_hour data bcd in
  let '(_, hour24) := add_to hour24 1 bcd in
  let nextday := at_limit bcd hour24 0x24 24 in
  let hour24 := if nextday then 0 else hour24 in
  let data := store_hour data hour24 bcd in
  if nextday then next_day data bcd else data.

Definition next_min (data : nvram_internal) (bcd : bool) : nvram_internal :=
  let '(_, data) := add_one data NVRAM_REG_MIN bcd in
  if at_limit bcd (reg data NVRAM_REG_MIN) 0x60 60
  then next_hour (set_reg data NVRAM_REG_MIN 0) bcd
  else data.

Definition next_sec (data : nvram_internal) (bcd : bool) : nvram_internal :=
  let '(_, data) := add_one data NVRAM_REG_SEC bcd in
  if at_limit bcd (reg data NVRAM_REG_SEC) 0x60 60
  then next_min (set_reg data NVRAM_REG_SEC 0) bcd
  else data.

Definition check_alarm (data : nvram_internal) : nvram_internal :=
  if negb (ai (statb data) =? 0) then
    if (reg data NVRAM_REG_SEC =? reg data NVRAM_REG_SEC_ALARM) &&
       (reg data NVRAM_REG_MIN =? reg data NVRAM_REG_MIN_ALARM) &&
       (reg data NVRAM_REG_HOUR =? reg data NVRAM_REG_HOUR_ALARM)
    then set_statc data (fun c => c <| af := 1 |>)
    else data
  else data.

Definition check_periodic (data : nvram_internal) : nvram_internal :=
  if negb (pi (statb data) =? 0) then
    let periodic_period := 1000000 / (65536 / Z.shiftl 0x1 (rate (stata data))) in
    if periodic_period <=? pus data then
      let data := set_statc data (fun c => c <| pf := 1 |>) in
      data <| pus := u32 (pus data - periodic_period) |>
    else data
  else data.

(** The registers after [period_us] microseconds. *)
Definition update_registers (data : nvram_internal) (period_us : Z) : nvram_internal :=
  let bcd := dm (statb data) =? 1 in
  let data := set_statc data (fun c => c <| irq := 0 |> <| pf := 0 |> <| af := 0 |> <| uf := 0 |>) in
  let data := data <| us := u32 (us data + period_us) |> in
  let data := data <| pus := u32 (pus data + period_us) |> in
  let data :=
    if 1000000 <? us data then
      let data := next_sec data bcd in
      let data := data <| us := u32 (us data - 1000000) |> in
      check_alarm data
    else data in
  let data := check_periodic data in
  let data := if negb (ui (statb data) =? 0) then set_statc data (fun c => c <| uf := 1 |>) else data in
  set_statc data (fun c => c <| irq :=
    if negb (pf c =? 0) || negb (af c =? 0) || negb (uf c =? 0) then 1 else 0 |>).

Section clock.
Context {C : Type} `{IntrCtrl C}.

Definition update_time (data : nvram_internal) (vm : v3_intr_state C) (period_us : Z)
    : outcome (nvram_internal * v3_intr_state C) :=
  let data := update_registers data period_us in
  if negb (irq (statc data) =? 0) then
    '(_, vm) ← v3_raise_irq vm NVRAM_RTC_IRQ;
    Done (data, vm)
  else Done (data, vm).

(** [priv_data]: the pointer to the device. *)
Definition handle_timer_event (data : nvram_internal) (vm : v3_intr_state C) (period_us priv_data : Z)
    : outcome (Z * nvram_internal * v3_intr_state C) :=
  if negb (priv_data =? NULL) then
    '(data, vm) ← update_time data vm period_us;
    Done (0, data, vm)
  else Done (0, data, vm).

End clock.

(** ** The device *)

Definition set_nvram_defaults (nvram_state : nvram_internal) : Z * nvram_internal :=
  let d := nvram_state in
  let d := set_reg d NVRAM_REG_FLOPPY_TYPE 0x44 in
  let d := set_reg d NVRAM_REG_BOOTSEQ_OLD 0x10 in
  let d := set_reg d NVRAM_REG_BOOTSEQ_NEW_FIRST 0x23 in
  let d := set_reg d NVRAM_REG_BOOTSEQ_NEW_SECOND 0x10 in
  let d := set_reg d NVRAM_REG_EQUIPMENT_BYTE 0x4f in
  let d := set_reg d NVRAM_REG_BASE_MEMORY_HIGH 0x02 in
  let d := set_reg d NVRAM_REG_BASE_MEMORY_LOW 0x80 in
  let d := set_reg d NVRAM_REG_EXT_MEMORY_HIGH 0x3C in
  let d := set_reg d NVRAM_REG_EXT_MEMORY_LOW 0x00 in
  let d := set_reg d NVRAM_REG_EXT_MEMORY_2ND_HIGH 0x3C in
  let d := set_reg d NVRAM_REG_EXT_MEMORY_2ND_LOW 0x00 in
  let d := set_reg d NVRAM_REG_AMI_BIG_MEMORY_HIGH 0x7 in
  let d := set_reg d NVRAM_REG_AMI_BIG_MEMORY_LOW 0x00 in
  let d := set_reg d NVRAM_IBM_HD_DATA 0x20 in
  let d := set_reg d NVRAM_REG_SHUTDOWN_STATUS 0x0 in
  let d := set_reg d NVRAM_REG_STAT_A 0x26 in
  let d := set_reg d NVRAM_REG_STAT_B 0x06 in
  let d := set_reg d NVRAM_REG_STAT_C 0x00 in
  let d := set_reg d NVRAM_REG_STAT_D 0x80 in
  let d := set_reg d NVRAM_REG_MONTH 0x1 in
  let d := set_reg d NVRAM_REG_MONTH_DAY 0x1 in
  let d := set_reg d NVRAM_REG_WEEK_DAY 0x1 in
  let d := set_reg d NVRAM_REG_YEAR 0x08 in
  (0, d <| us := 0 |> <| pus := 0 |>).

Definition nvram_reset_device (data : nvram_internal) : Z * nvram_internal :=
  (0, data <| dev_state := NVRAM_READY |> <| thereg := 0 |>).

Definition nvram_start_device (data : nvram_internal) : Z * nvram_internal := (0, data).
Definition nvram_stop_device (data : nvram_internal) : Z * nvram_internal := (0, data).

(** One byte is copied, whatever the length; [src]: the bytes at the source. *)
Definition nvram_write_reg_port (data : nvram_internal) (src : list Z) : outcome (Z * nvram_internal) :=
  match src with
  | [] => Undef
  | b :: _ => Done (1, data <| thereg := b |>)
  end.

Definition nvram_read_data_port (data : nvram_internal) : Z * list Z * nvram_internal :=
  let dst := [reg data (thereg data)] in
  let data :=
    if thereg data =? NVRAM_REG_STAT_A
    then set_reg data (thereg data) (Z.lxor (reg data (thereg data)) 0x80) else data in
  (1, dst, data).

Definition nvram_write_data_port (data : nvram_internal) (src : list Z) : outcome (Z * nvram_internal) :=
  match src with
  | [] => Undef
  | b :: _ => Done (1, set_reg data (thereg data) b)
  end.

Section device.
Context {A : Arch}.

(** The addresses of the functions of the device and of the default port handlers. *)
Context (default_read_ptr default_write_ptr : Z).
Context (write_reg_ptr read_data_ptr write_data_ptr timer_event_ptr : Z).

(** The results of V3_Malloc: for the hooks of the two ports in the manager and in the port map,
    and for the hook on timer events.  The results of the three calls are not looked at. *)
Definition nvram_init_device (m : DevMgr.vmm_dev_mgr) (e : HostEvents.v3_host_events)
    (data : nvram_internal) (dev hook1 io_hook1 hook2 io_hook2 evt_hook : Z)
    : outcome (Z * DevMgr.vmm_dev_mgr * HostEvents.v3_host_events * nvram_internal) :=
  let data := data <| mem_state := replicate 256 0 |> in
  let '(_, data) := set_nvram_defaults data in
  let '(_, data) := nvram_reset_device data in
  '(_, m) ← DevMgr.v3_dev_hook_io default_read_ptr default_write_ptr m hook1 io_hook1 dev
    NVRAM_REG_PORT NULL write_reg_ptr;
  '(_, m) ← DevMgr.v3_dev_hook_io default_read_ptr default_write_ptr m hook2 io_hook2 dev
    NVRAM_DATA_PORT read_data_ptr write_data_ptr;
  '(_, e) ← HostEvents.v3_hook_host_event e evt_hook HostEvents.HOST_TIMER_EVT timer_event_ptr dev;
  Done (0, m, e, data).

Definition nvram_deinit_device (m : DevMgr.vmm_dev_mgr) (data : nvram_internal) (dev : Z)
    : outcome (Z * DevMgr.vmm_dev_mgr * nvram_internal) :=
  '(_, m) ← DevMgr.v3_dev_unhook_io m dev NVRAM_REG_PORT;
  '(_, m) ← DevMgr.v3_dev_unhook_io m dev NVRAM_DATA_PORT;
  let '(_, data) := nvram_reset_device data in
  Done (0, m, data).

(** [nvram_state], [device]: the results of V3_Malloc; [dev_ops]: the address of the operations. *)
Definition v3_create_nvram (m : DevMgr.vmm_dev_mgr) (nvram_state device dev_ops : Z)
    : outcome (Z * DevMgr.vmm_dev_mgr) :=
  m ← DevMgr.v3_create_device m device [78; 86; 82; 65; 77] dev_ops nvram_state;
  Done (device, m).

End device.

(** ** The clock keeps the time *)

(** A number below 100 as the registers hold it. *)
Definition num (bcd : bool) (n : Z) : Z := if bcd then 16 * (n / 10) + n mod 10 else n.

(** A time of the calendar, in years of 365 days. *)
Record clock := mk_clock {
  c_sec : Z; c_min : Z; c_hour : Z; c_weekday : Z; c_monthday : Z; c_month : Z; c_year : Z; c_cent : Z;
}.

#[export] Instance eta_clock : Eta clock := fun c =>
  mk_clock (c_sec c) (c_min c) (c_hour c) (c_weekday c) (c_monthday c) (c_month c) (c_year c) (c_cent c).

Definition month_lengths : list Z := [31; 28; 31; 30; 31; 30; 31; 31; 30; 31; 30; 31].
Definition month_days (m : Z) : Z := nth (Z.to_nat (m - 1)) month_lengths 0.
Definition days_before (m : Z) : Z := foldr Z.add 0 (take (Z.to_nat (m - 1)) month_lengths).

(** The register of the century counts to 100 in BCD and to 256 in binary. *)
Definition centuries (bcd : bool) : Z := if bcd then 100 else 256.

Record in_range (bcd : bool) (c : clock) : Prop := {
  ir_sec : 0 <= c_sec c < 60;
  ir_min : 0 <= c_min c < 60;
  ir_hour : 0 <= c_hour c < 24;
  ir_weekday : 0 <= c_weekday c < 7;
  ir_monthday : 1 <= c_monthday c <= month_days (c_month c);
  ir_month : 1 <= c_month c <= 12;
  ir_year : 0 <= c_year c < 100;
  ir_cent : 0 <= c_cent c < centuries bcd;
}.

(** Days and seconds since the first of January of year 0. *)
Definition day_number (c : clock) : Z :=
  365 * (100 * c_cent c + c_year c) + days_before (c_month c) + c_monthday c - 1.
Definition seconds (c : clock) : Z := 86400 * day_number c + 3600 * c_hour c + 60 * c_min c + c_sec c.
Definition span (bcd : bool) : Z := 86400 * 365 * 100 * centuries bcd.

(** The registers show [c], in 24-hour mode. *)
Record shows (bcd : bool) (data : nvram_internal) (c : clock) : Prop := {
  sh_length : length (mem_state data) = 256%nat;
  sh_sec : reg data NVRAM_REG_SEC = num bcd (c_sec c);
  sh_min : reg data NVRAM_REG_MIN = num bcd (c_min c);
  sh_hour : reg data NVRAM_REG_HOUR = num bcd (c_hour c);
  sh_weekday : reg data NVRAM_REG_WEEK_DAY = num bcd (c_weekday c);
  sh_monthday : reg data NVRAM_REG_MONTH_DAY = num bcd (c_monthday c);
  sh_month : reg data NVRAM_REG_MONTH = num bcd (c_month c);
  sh_year : reg data NVRAM_REG_YEAR = num bcd (c_year c);
  sh_cent : reg data NVRAM_REG_IBM_CENTURY_BYTE = num bcd (c_cent c);
  sh_dm : dm (statb data) = if bcd then 1 else 0;
  sh_h24 : h24 (statb data) = 1;
}.

(** The calendar: what carries where. *)
Definition tick_year (bcd : bool) (c : clock) : clock :=
  if c_year c + 1 =? 100 then c <| c_year := 0 |> <| c_cent := (c_cent c + 1) mod centuries bcd |>
  else c <| c_year := c_year c + 1 |>.
Definition tick_month (bcd : bool) (c : clock) : clock :=
  let c := c <| c_monthday := 1 |> in
  if c_month c + 1 =? 13 then tick_year bcd (c <| c_month := 1 |>) else c <| c_month := c_month c + 1 |>.
Definition tick_day (bcd : bool) (c : clock) : clock :=
  let c := c <| c_weekday := (c_weekday c + 1) mod 7 |> in
  if c_monthday c =? month_days (c_month c) then tick_month bcd c else c <| c_monthday := c_monthday c + 1 |>.
Definition tick_hour (bcd : bool) (c : clock) : clock :=
  if c_hour c + 1 =? 24 then tick_day bcd (c <| c_hour := 0 |>) else c <| c_hour := c_hour c + 1 |>.
Definition tick_min (bcd : bool) (c : clock) : clock :=
  if c_min c + 1 =? 60 then tick_hour bcd (c <| c_min := 0 |>) else c <| c_min := c_min c + 1 |>.
Definition tick_sec (bcd : bool) (c : clock) : clock :=
  if c_sec c + 1 =? 60 then tick_min bcd (c <| c_sec := 0 |>) else c <| c_sec := c_sec c + 1 |>.

(** A property of small numbers, by evaluation. *)
Lemma below_check (P : Z -> Prop) `{forall n, Decision (P n)} (k : Z) :
  forallb (fun n => bool_decide (P n)) (seqZ 0 k) = true -> forall n, 0 <= n < k -> P n.
Proof.
  intros Hk n Hn. rewrite forallb_forall in Hk.
  eapply bool_decide_eq_true_1, Hk, list_elem_of_In, elem_of_seqZ. lia.
Qed.

Lemma add_to_num bcd n : 0 <= n < 99 -> add_to (num bcd n) 1 bcd = (0, num bcd (n + 1)).
Proof. destruct bcd; intros Hn; revert n Hn; by apply (below_check (fun n => add_to _ 1 _ = _) 99). Qed.

Lemma num_eqb bcd n m : (num bcd n =? num bcd m) = (n =? m).
Proof. unfold num. destruct bcd; [|done]. apply eq_true_iff_eq. rewrite !Z.eqb_eq. Z.div_mod_to_equations. lia. Qed.

Lemma at_limit_num bcd n b d : b = num true d -> at_limit bcd (num bcd n) b d = (n =? d).
Proof.
  intros ->. unfold at_limit. destruct bcd; cbn [andb orb negb]; [|done]. by rewrite num_eqb, orb_false_r.
Qed.

Lemma days_in_month_num bcd m : 1 <= m <= 12 -> days_in_month (num bcd m) bcd = num bcd (month_days m).
Proof.
  intros Hm. assert (0 <= m < 13) as Hr by lia. revert Hm. revert m Hr.
  destruct bcd; apply (below_check (fun m => 1 <= m <= 12 -> days_in_month _ _ = _) 13); by vm_compute.
Qed.

Lemma reg_set data r r' v :
  length (mem_state data) = 256%nat -> 0 <= r < 256 -> 0 <= r' ->
  reg (set_reg data r v) r' = if r =? r' then v else reg data r'.
Proof.
  intros Hl Hr Hr'. unfold reg, set_reg. change (mem_state (data <| mem_state := ?l |>)) with l. case_cmp.
  - subst r'. rewrite list_lookup_total_insert_eq; [done|lia].
  - rewrite list_lookup_total_insert_ne; [done|lia].
Qed.

Lemma length_set_reg data r v : length (mem_state (set_reg data r v)) = length (mem_state data).
Proof. apply length_insert. Qed.

Lemma statb_set data r v :
  length (mem_state data) = 256%nat -> 0 <= r < 256 -> r <> NVRAM_REG_STAT_B ->
  statb (set_reg data r v) = statb data.
Proof. intros Hl Hr Hne. unfold statb. by rewrite reg_set, (proj2 (Z.eqb_neq _ _) Hne) by (done || lia). Qed.

Ltac set_regs :=
  repeat first
    [ rewrite length_set_reg
    | rewrite statb_set by (rewrite ?length_set_reg; done || lia)
    | rewrite reg_set by (rewrite ?length_set_reg; done || lia) ];
  cbn [Z.eqb Pos.eqb].

(** Each register of the clock after some of them are set. *)
Ltac show_regs := split; set_regs; try done.

Lemma add_one_num bcd data r n :
  reg data r = num bcd n -> 0 <= n < 99 -> add_one data r bcd = (0, set_reg data r (num bcd (n + 1))).
Proof. intros Hr Hn. unfold add_one. by rewrite Hr, add_to_num. Qed.

Lemma add_to_cent bcd n :
  0 <= n < centuries bcd -> snd (add_to (num bcd n) 1 bcd) = num bcd ((n + 1) mod centuries bcd).
Proof. destruct bcd; revert n; by apply (below_check (fun n => snd (add_to _ 1 _) = _)). Qed.

Lemma next_year_shows bcd data c :
  shows bcd data c -> in_range bcd c -> shows bcd (next_year data bcd) (tick_year bcd c).
Proof.
  intros [] []. unfold next_year, tick_year. case_cmp.
  - assert (c_year c = 99) as Hy by lia.
    assert (add_one data NVRAM_REG_YEAR bcd = (if bcd then 1 else 0, set_reg data NVRAM_REG_YEAR (if bcd then 0 else 100))) as ->.
    { unfold add_one. rewrite sh_year0, Hy. by destruct bcd. }
    rewrite (reg_set _ _ NVRAM_REG_YEAR) by (done || lia). rewrite Z.eqb_refl.
    replace (_ || _) with true by by destruct bcd.
    unfold add_one. set_regs. rewrite sh_cent0. pose proof (add_to_cent bcd _ ir_cent0) as Hc.
    destruct (add_to (num bcd (c_cent c)) 1 bcd) as [k v]. cbn [snd] in Hc |- *. subst v.
    show_regs. by destruct bcd.
  - rewrite (add_one_num bcd _ _ (c_year c)) by (done || lia). rewrite (reg_set _ _ NVRAM_REG_YEAR) by (done || lia).
    rewrite Z.eqb_refl. replace (_ || _) with false; [show_regs|].
    destruct bcd; [done|]. cbn. lia.
Qed.

Lemma next_month_shows bcd data c :
  shows bcd data c -> in_range bcd c -> shows bcd (next_month data bcd) (tick_month bcd c).
Proof.
  intros Hs Hr. pose proof (sh_length _ _ _ Hs) as Hl. unfold next_month, tick_month. cbv zeta.
  rewrite (add_one_num bcd _ _ (c_month c)); [|set_regs; apply Hs|destruct Hr; lia].
  destruct Hs. rewrite reg_set by (rewrite ?length_set_reg; done || lia). rewrite Z.eqb_refl.
  rewrite at_limit_num by done. change (c_month (c <| c_monthday := 1 |>)) with (c_month c).
  case_cmp; [|show_regs; by destruct bcd].
  apply next_year_shows.
  - show_regs; by destruct bcd.
  - destruct Hr. split; try done.
Qed.

Lemma num_mod7 bcd n : 0 <= n < 7 -> num bcd (n + 1) mod 7 = num bcd ((n + 1) mod 7).
Proof. destruct bcd; revert n; by apply (below_check (fun n => num _ _ mod 7 = _)). Qed.

Lemma next_day_shows bcd data c :
  shows bcd data c -> in_range bcd c -> shows bcd (next_day data bcd) (tick_day bcd c).
Proof.
  intros Hs Hr. unfold next_day, tick_day. cbv zeta.
  rewrite (add_one_num bcd _ _ (c_weekday c)); [|apply Hs|destruct Hr; lia].
  set (d := set_reg (set_reg data _ _) _ _). set (c1 := c <| c_weekday := _ |>).
  assert (shows bcd d c1) as Hd.
  { destruct Hs. subst d. show_regs. by apply num_mod7, Hr. }
  assert (in_range bcd c1) as Hr1.
  { destruct Hr. split; try done. apply Z.mod_pos_bound. lia. }
  clearbody d c1. clear Hs Hr. rewrite (sh_monthday _ _ _ Hd), (sh_month _ _ _ Hd).
  rewrite days_in_month_num, num_eqb by apply Hr1.
  case_cmp; cbn [negb]; [by apply next_month_shows|].
  rewrite (add_one_num bcd _ _ (c_monthday c1)); [|apply Hd|].
  - destruct Hd. cbn [snd]. show_regs.
  - pose proof (ir_month _ _ Hr1) as Hm. pose proof (ir_monthday _ _ Hr1) as Hmd.
    assert (month_days (c_month c1) <= 31); [|lia]. assert (0 <= c_month c1 < 13) as Hm' by lia.
    revert Hm'. generalize (c_month c1). by apply (below_check (fun m => month_days m <= 31) 13).
Qed.

Lemma next_hour_shows bcd data c :
  shows bcd data c -> in_range bcd c -> shows bcd (next_hour data bcd) (tick_hour bcd c).
Proof.
  intros Hs Hr. unfold next_hour, tick_hour, load_hour. cbv zeta. rewrite (sh_h24 _ _ _ Hs). cbn [Z.eqb].
  rewrite (sh_hour _ _ _ Hs), add_to_num by (destruct Hr; lia). rewrite at_limit_num by done.
  unfold store_hour. rewrite (sh_h24 _ _ _ Hs). cbn [Z.eqb negb].
  case_cmp; [apply next_day_shows|]; destruct Hs; [show_regs; by destruct bcd|by destruct Hr|show_regs].
Qed.

Lemma next_min_shows bcd data c :
  shows bcd data c -> in_range bcd c -> shows bcd (next_min data bcd) (tick_min bcd c).
Proof.
  intros Hs Hr. unfold next_min, tick_min. rewrite (add_one_num bcd _ _ (c_min c)); [|apply Hs|destruct Hr; lia].
  destruct Hs. rewrite reg_set by (done || lia). rewrite Z.eqb_refl, at_limit_num by done.
  case_cmp; [apply next_hour_shows|]; [show_regs; by destruct bcd|by destruct Hr|show_regs].
Qed.

Lemma next_sec_shows bcd data c :
  shows bcd data c -> in_range bcd c -> shows bcd (next_sec data bcd) (tick_sec bcd c).
Proof.
  intros Hs Hr. unfold next_sec, tick_sec. rewrite (add_one_num bcd _ _ (c_sec c)); [|apply Hs|destruct Hr; lia].
  destruct Hs. rewrite reg_set by (done || lia). rewrite Z.eqb_refl, at_limit_num by done.
  case_cmp; [apply next_min_shows|]; [show_regs; by destruct bcd|by destruct Hr|show_regs].
Qed.

#[local] Arguments month_days : simpl never.
#[local] Arguments days_before : simpl never.
#[local] Arguments centuries : simpl never.

(** The calendar counts the days of the year. *)
Lemma month_table m :
  1 <= m <= 12 -> 28 <= month_days m <= 31 /\ 0 <= days_before m /\
    days_before m + month_days m = if m =? 12 then 365 else days_before (m + 1).
Proof.
  intros Hm. assert (0 <= m < 13) as Hr by lia. revert Hm. revert m Hr.
  by apply (below_check (fun m => 1 <= m <= 12 -> _)).
Qed.

Lemma days_before_next m : 1 <= m < 12 -> days_before (m + 1) <= 334.
Proof.
  intros Hm. assert (0 <= m < 12) as Hr by lia. revert Hm. revert m Hr.
  by apply (below_check (fun m => 1 <= m < 12 -> _)).
Qed.

Lemma day_number_range bcd c : in_range bcd c -> 0 <= day_number c < 36500 * centuries bcd.
Proof.
  intros []. destruct (month_table _ ir_month0) as (? & ? & Ht). unfold day_number.
  assert (days_before (c_month c) + month_days (c_month c) <= 365).
  { destruct (Z.eqb_spec (c_month c) 12); [lia|]. pose proof (days_before_next (c_month c)). lia. }
  lia.
Qed.

Lemma tick_day_time bcd c :
  in_range bcd c -> in_range bcd (tick_day bcd c) /\
  day_number (tick_day bcd c) = (day_number c + 1) mod (36500 * centuries bcd) /\
  c_weekday (tick_day bcd c) = (c_weekday c + 1) mod 7 /\ c_hour (tick_day bcd c) = c_hour c /\
  c_min (tick_day bcd c) = c_min c /\ c_sec (tick_day bcd c) = c_sec c.
Proof.
  intros Hr. pose proof (day_number_range bcd c Hr) as Hd. destruct Hr.
  destruct (month_table _ ir_month0) as (Hmd & Hb & Ht).
  pose proof (Z.mod_pos_bound (c_weekday c + 1) 7 ltac:(lia)).
  pose proof (Z.mod_pos_bound (c_cent c + 1) (centuries bcd) ltac:(lia)).
  assert (month_days 1 = 31) as H31 by done. assert (days_before 1 = 0) as Hb1 by done.
  destruct c as [sec min hour wd md mo yr ce]. cbn in *. unfold tick_day, tick_month, tick_year. cbn in *.
  unfold day_number in *. cbn in *. repeat case_cmp; subst; cbn in *.
  - destruct (Z.eqb_spec mo 12); [|lia]. split; [by split; cbn; lia|]. split_and!; try done.
    assert (yr = 99) by lia. subst yr. destruct (decide (ce + 1 = centuries bcd)) as [E|E].
    + rewrite E, Z.mod_same by lia. apply Z.mod_unique with 1; lia.
    + rewrite !Z.mod_small by lia. lia.
  - destruct (Z.eqb_spec mo 12); [|lia]. split; [by split; cbn; lia|]. split_and!; try done.
    rewrite Z.mod_small; lia.
  - destruct (Z.eqb_spec mo 12); [lia|]. pose proof (month_table (mo + 1)). pose proof (days_before_next mo).
    split; [by split; cbn; lia|]. split_and!; try done. rewrite Z.mod_small; lia.
  - split; [by split; cbn; lia|]. split_and!; try done. rewrite Z.mod_small; [lia|].
    destruct (Z.eqb_spec mo 12); [lia|]. pose proof (days_before_next mo). lia.
Qed.

(** The day does not depend on the time of the day. *)
Ltac same_day dn :=
  repeat match goal with |- context [day_number ?x] => change (day_number x) with dn end; cbn.

Lemma tick_sec_time bcd c :
  in_range bcd c -> in_range bcd (tick_sec bcd c) /\
  seconds (tick_sec bcd c) = (seconds c + 1) mod span bcd /\
  (seconds c + 1 < span bcd ->
    (c_weekday (tick_sec bcd c) - day_number (tick_sec bcd c)) mod 7 = (c_weekday c - day_number c) mod 7).
Proof.
  intros Hr. pose proof (day_number_range bcd c Hr) as Hd. destruct c as [sec min hour wd md mo yr ce].
  pose proof (tick_day_time bcd (mk_clock 0 0 0 wd md mo yr ce)) as Ht.
  destruct Hr. cbn in * |-. destruct Ht as (Hr' & Hd' & Hw & Hh & Hm & Hs); [by split|].
  unfold tick_sec, tick_min, tick_hour, seconds, span.
  change (day_number (mk_clock 0 0 0 wd md mo yr ce)) with (day_number (mk_clock sec min hour wd md mo yr ce)) in Hd'.
  set (dn := day_number (mk_clock sec min hour wd md mo yr ce)) in *. cbn in Hw, Hh, Hm, Hs |- *.
  repeat case_cmp.
  - change ((mk_clock sec min hour wd md mo yr ce) <| c_sec := 0 |> <| c_min := 0 |> <| c_hour := 0 |>)
      with (mk_clock 0 0 0 wd md mo yr ce).
    rewrite Hd', Hw, Hh, Hm, Hs. split; [done|]. split.
    + destruct (decide (dn + 1 = 36500 * centuries bcd)) as [E|E].
      * rewrite E, Z.mod_same by lia. apply Z.mod_unique with 1; lia.
      * rewrite !Z.mod_small by lia. lia.
    + intros Hlt. rewrite (Z.mod_small (dn + 1)) by lia. rewrite Zminus_mod_idemp_l. f_equal. lia.
  - split; [by split; cbn; lia|]. same_day dn. rewrite Z.mod_small by lia. split; [lia|done].
  - split; [by split; cbn; lia|]. same_day dn. rewrite Z.mod_small by lia. split; [lia|done].
  - split; [by split; cbn; lia|]. same_day dn. rewrite Z.mod_small by lia. split; [lia|done].
Qed.

(** The counters and the selected register are none of the calendar's. *)
Lemma next_day_frame data bcd : exists l, next_day data bcd = data <| mem_state := l |>.
Proof.
  unfold next_day, next_month, next_year, add_one.
  repeat (match goal with |- context [add_to ?x ?y ?b] => destruct (add_to x y b) end || case_match);
    eexists; reflexivity.
Qed.

Lemma next_sec_frame data bcd : exists l, next_sec data bcd = data <| mem_state := l |>.
Proof.
  unfold next_sec, next_min, next_hour, store_hour, add_one.
  repeat (match goal with |- context [add_to ?x ?y ?b] => destruct (add_to x y b) end || case_match);
    try match goal with |- context [next_day ?d ?b] => destruct (next_day_frame d b) as [l ->] end;
    eexists; reflexivity.
Qed.

Lemma next_sec_us data bcd : us (next_sec data bcd) = us data.
Proof. by destruct (next_sec_frame data bcd) as [l ->]. Qed.

Lemma shows_statc bcd data c f : shows bcd data c -> shows bcd (set_statc data f) c.
Proof. intros []. unfold set_statc. show_regs. Qed.

Lemma shows_counters bcd data c x y : shows bcd data c -> shows bcd (data <| us := x |> <| pus := y |>) c.
Proof. by intros []. Qed.

Lemma shows_us bcd data c x : shows bcd data c -> shows bcd (data <| us := x |>) c.
Proof. by intros []. Qed.

Lemma shows_alarm bcd data c : shows bcd data c -> shows bcd (check_alarm data) c.
Proof. intros Hs. unfold check_alarm. repeat case_match; by auto using shows_statc. Qed.

Lemma shows_periodic bcd data c : shows bcd data c -> shows bcd (check_periodic data) c.
Proof.
  intros Hs. unfold check_periodic. repeat case_match; [|done..].
  apply (shows_statc _ _ _ (fun c => c <| pf := 1 |>)) in Hs. by destruct Hs.
Qed.

Lemma us_alarm data : us (check_alarm data) = us data.
Proof. unfold check_alarm. by repeat case_match. Qed.
Lemma us_periodic data : us (check_periodic data) = us data.
Proof. unfold check_periodic. by repeat case_match. Qed.

(** How far the clock got: [k] seconds from [c] to [c']. *)
Definition elapsed (bcd : bool) (c c' : clock) (k : Z) : Prop :=
  seconds c' = (seconds c + k) mod span bcd /\
  (seconds c + k < span bcd -> (c_weekday c' - day_number c') mod 7 = (c_weekday c - day_number c) mod 7).

Lemma seconds_range bcd c : in_range bcd c -> 0 <= seconds c < span bcd.
Proof. intros Hr. pose proof (day_number_range _ _ Hr). destruct Hr. unfold seconds, span. lia. Qed.

Lemma elapsed_0 bcd c : in_range bcd c -> elapsed bcd c c 0.
Proof. intros Hr. split; [|done]. pose proof (seconds_range _ _ Hr). rewrite Z.mod_small; lia. Qed.

Lemma elapsed_trans bcd c1 c2 c3 j k :
  in_range bcd c1 -> 0 <= j -> 0 <= k ->
  elapsed bcd c1 c2 j -> elapsed bcd c2 c3 k -> elapsed bcd c1 c3 (j + k).
Proof.
  intros Hr%seconds_range Hj Hk [H1 H2] [H3 H4]. split.
  - rewrite H3, H1, Zplus_mod_idemp_l. f_equal. lia.
  - intros Hlt. rewrite Z.mod_small in H1 by lia. rewrite H4, H2; [done|lia|lia].
Qed.

Lemma update_registers_time bcd data c p :
  shows bcd data c -> in_range bcd c -> 0 <= us data -> 0 <= p -> us data + p < 2 ^ 32 ->
  exists k c', 0 <= k <= 1 /\ us (update_registers data p) + 1000000 * k = us data + p /\
    0 <= us (update_registers data p) /\
    (us data <= 1000000 -> p <= 1000000 -> us (update_registers data p) <= 1000000) /\
    shows bcd (update_registers data p) c' /\ in_range bcd c' /\ elapsed bcd c c' k.
Proof.
  intros Hs Hr Hu Hp Hmax. unfold update_registers. cbv zeta.
  replace (dm (statb data) =? 1) with bcd by (rewrite (sh_dm _ _ _ Hs); by destruct bcd).
  apply (shows_statc _ _ _ (fun c => c <| irq := 0 |> <| pf := 0 |> <| af := 0 |> <| uf := 0 |>)) in Hs.
  set (d0 := set_statc data _) in *. change (us data) with (us d0) in Hu, Hmax |- *. clearbody d0.
  rewrite (wrap_small 32 (us d0 + p)) by (unfold is_u; lia).
  apply (shows_counters _ _ _ (us d0 + p) (u32 (pus d0 + p))) in Hs.
  set (d1 := d0 <| us := us d0 + p |> <| pus := _ |>) in *. change (us d1) with (us d0 + p).
  assert (us d1 = us d0 + p) as Hu1 by done. clearbody d1.
  set (d2 := if 1000000 <? us d0 + p then _ else d1).
  assert (exists k c', 0 <= k <= 1 /\ us d2 + 1000000 * k = us d0 + p /\
    (0 <= us d2 /\ (us d0 <= 1000000 -> p <= 1000000 -> us d2 <= 1000000)) /\
    shows bcd d2 c' /\ in_range bcd c' /\ elapsed bcd c c' k) as (k & c' & Hk & He & Hu2 & Hs2 & Hr2 & Hel).
  { subst d2. case_cmp.
    - rewrite us_alarm, next_sec_us, Hu1. rewrite (wrap_small 32) by (unfold is_u; lia).
      change (us ((next_sec d1 bcd) <| us := ?x |>)) with x.
      destruct (tick_sec_time bcd c Hr) as (H1 & H2 & H3). exists 1, (tick_sec bcd c).
      split_and!; [lia..| |done|by split]. by apply shows_alarm, shows_us, next_sec_shows.
    - exists 0, c. split_and!; [lia..|done|done|by apply elapsed_0]. }
  clearbody d2. exists k, c'. rewrite <- us_periodic in He, Hu2. apply shows_periodic in Hs2.
  set (d3 := check_periodic d2) in *. clearbody d3.
  case_match; (split_and!; [apply Hk|apply Hk|exact He|apply Hu2|apply Hu2| |exact Hr2|exact Hel]);
    by repeat apply shows_statc.
Qed.

Section run.
Context {C : Type} `{IntrCtrl C}.

(** What happens to the device: timer events, and accesses of the guest to its ports. *)
Inductive rtc_op :=
| op_timer (period_us : Z)
| op_select (r : Z)
| op_read
| op_write (v : Z).

Definition rtc_step (dev : Z) (data : nvram_internal) (vm : v3_intr_state C) (o : rtc_op)
    : outcome (nvram_internal * v3_intr_state C) :=
  match o with
  | op_timer p => '(_, data, vm) ← handle_timer_event data vm p dev; Done (data, vm)
  | op_select r => '(_, data) ← nvram_write_reg_port data [r]; Done (data, vm)
  | op_read => let '(_, _, data) := nvram_read_data_port data in Done (data, vm)
  | op_write v => '(_, data) ← nvram_write_data_port data [v]; Done (data, vm)
  end.

Fixpoint rtc_run (dev : Z) (data : nvram_internal) (vm : v3_intr_state C) (ops : list rtc_op)
    : outcome (nvram_internal * v3_intr_state C) :=
  match ops with
  | [] => Done (data, vm)
  | o :: ops => '(data, vm) ← rtc_step dev data vm o; rtc_run dev data vm ops
  end.

(** The guest does not set the clock. *)
Definition clock_regs : list Z :=
  [NVRAM_REG_SEC; NVRAM_REG_MIN; NVRAM_REG_HOUR; NVRAM_REG_WEEK_DAY; NVRAM_REG_MONTH_DAY;
   NVRAM_REG_MONTH; NVRAM_REG_YEAR; NVRAM_REG_IBM_CENTURY_BYTE; NVRAM_REG_STAT_B].

Fixpoint undisturbed (r : Z) (ops : list rtc_op) : Prop :=
  match ops with
  | [] => True
  | op_timer p :: ops => 0 <= p /\ undisturbed r ops
  | op_select r' :: ops => is_u 8 r' /\ undisturbed r' ops
  | op_read :: ops => undisturbed r ops
  | op_write v :: ops => r ∉ clock_regs /\ undisturbed r ops
  end.

Fixpoint total_us (ops : list rtc_op) : Z :=
  match ops with
  | [] => 0
  | op_timer p :: ops => p + total_us ops
  | _ :: ops => total_us ops
  end.

(** The number of timer events, and whether they are at most a second apart. *)
Fixpoint events (ops : list rtc_op) : Z :=
  match ops with
  | [] => 0
  | op_timer _ :: ops => 1 + events ops
  | _ :: ops => events ops
  end.

Definition short (o : rtc_op) : Prop := match o with op_timer p => p <= 1000000 | _ => True end.

Lemma undisturbed_total r ops : undisturbed r ops -> 0 <= total_us ops.
Proof.
  revert r. induction ops as [|[p|r'| |v] ops IH]; intros r; cbn; [done|..].
  - intros [? ?%IH]. lia.
  - intros [_ ?%IH]. done.
  - apply IH.
  - intros [_ ?%IH]. done.
Qed.

Lemma shows_set bcd data c r v :
  shows bcd data c -> is_u 8 r -> r ∉ clock_regs -> shows bcd (set_reg data r v) c.
Proof.
  unfold clock_regs. rewrite !not_elem_of_cons. intros [] Hr (H1 & H2 & H3 & H4 & H5 & H6 & H7 & H8 & H9 & _).
  split; rewrite ?length_set_reg, ?statb_set, ?reg_set, ?(proj2 (Z.eqb_neq _ _)) by (done || apply Hr || lia); done.
Qed.

Lemma shows_select bcd data c r : shows bcd data c -> shows bcd (data <| thereg := r |>) c.
Proof. by intros []. Qed.

Lemma thereg_update data p : thereg (update_registers data p) = thereg data.
Proof.
  unfold update_registers. cbv zeta. set (d := if 1000000 <? _ then _ else _).
  assert (thereg d = thereg data) as <-.
  { subst d. case_match; [|done]. unfold check_alarm.
    match goal with |- context [next_sec ?d ?b] => destruct (next_sec_frame d b) as [l ->] end.
    by repeat case_match. }
  clearbody d. unfold check_periodic. by repeat case_match.
Qed.

(** The controller takes requests on the line of the clock. *)
Definition takes_requests (vm : v3_intr_state C) : Prop :=
  takes (fun irq => irq = NVRAM_RTC_IRQ) vm.

Lemma update_time_done data vm p :
  takes_requests vm -> exists vm', update_time data vm p = Done (update_registers data p, vm') /\
    takes_requests vm'.
Proof.
  intros Hv. unfold update_time. case_match; [|by exists vm].
  destruct (raise_takes _ vm NVRAM_RTC_IRQ Hv eq_refl) as (vm' & -> & Hv'). run. by exists vm'.
Qed.

Lemma rtc_step_time bcd dev data vm c o :
  shows bcd data c -> in_range bcd c -> takes_requests vm -> dev <> NULL ->
  0 <= us data -> us data + total_us [o] < 2 ^ 32 -> is_u 8 (thereg data) ->
  forall ops, undisturbed (thereg data) (o :: ops) ->
  exists data' vm' k c', rtc_step dev data vm o = Done (data', vm') /\ takes_requests vm' /\
    us data' + 1000000 * k = us data + total_us [o] /\ 0 <= us data' /\
    (us data <= 1000000 -> short o -> us data' <= 1000000) /\ 0 <= k <= events [o] /\
    shows bcd data' c' /\ in_range bcd c' /\ elapsed bcd c c' k /\
    is_u 8 (thereg data') /\ undisturbed (thereg data') ops.
Proof.
  intros Hs Hr Hv Hdev Hu Hmax Ht ops Hop. destruct o as [p|r| |v]; cbn in Hop, Hmax |- *.
  - destruct Hop as [Hp Hop]. unfold handle_timer_event. rewrite (proj2 (Z.eqb_neq _ _) Hdev). run.
    destruct (update_time_done data vm p Hv) as (vm' & -> & Hv'). run.
    destruct (update_registers_time bcd data c p Hs Hr Hu Hp) as (k & c' & ? & ? & ? & ? & ? & ? & ?); [lia|].
    exists (update_registers data p), vm', k, c'. rewrite thereg_update. split_and!; try done; lia.
  - exists (data <| thereg := r |>), vm, 0, c. destruct Hop as [Hr' Hop].
    split_and!; try done; try (cbn; lia); [by apply shows_select|by apply elapsed_0..].
  - unfold nvram_read_data_port. eexists _, vm, 0, c. split; [done|]. split; [done|].
    destruct (Z.eqb_spec (thereg data) NVRAM_REG_STAT_A) as [E|E];
      split_and!; try done; try (cbn; lia); try by apply elapsed_0.
    apply shows_set; [done..|]. rewrite E. unfold clock_regs. set_solver.
  - eexists _, vm, 0, c. split; [done|]. destruct Hop as [Hr' Hop].
    split_and!; try done; try (cbn; lia); [by apply shows_set|by apply elapsed_0..].
Qed.

(** C25. The clock keeps the time: while the guest reads and writes other registers, the registers
    of the clock follow the timer events, in BCD as in binary, in 24-hour mode.  The
    microseconds that the events announce, 2^32 at most with those of the counter at the
    start, are the seconds the calendar advanced and what is left in the counter; the calendar
    carries into minutes, hours, days, months, years and centuries, and the day of the week
    goes with the date.  An event advances the calendar by one second at most: while no event
    announces more than a second, the rest in the counter is at most a second, and otherwise
    the clock falls behind.  The bit SET of status register B, which should stop the updates,
    makes no difference. *)
Theorem rtc_keeps_time bcd dev data vm c ops :
  shows bcd data c -> in_range bcd c -> takes_requests vm -> dev <> NULL ->
  0 <= us data -> us data + total_us ops < 2 ^ 32 -> is_u 8 (thereg data) ->
  undisturbed (thereg data) ops ->
  exists data' vm' k c', rtc_run dev data vm ops = Done (data', vm') /\
    us data' + 1000000 * k = us data + total_us ops /\ 0 <= us data' /\ 0 <= k <= events ops /\
    (us data <= 1000000 -> Forall short ops -> us data' <= 1000000) /\
    shows bcd data' c' /\ in_range bcd c' /\ seconds c' = (seconds c + k) mod span bcd /\
    (seconds c + k < span bcd ->
      (c_weekday c' - day_number c') mod 7 = (c_weekday c - day_number c) mod 7).
Proof.
  intros Hs Hr Hv Hdev Hu Hmax Ht Hops.
  enough (exists data' vm' k c', rtc_run dev data vm ops = Done (data', vm') /\ 0 <= k <= events ops /\
    us data' + 1000000 * k = us data + total_us ops /\ 0 <= us data' /\
    (us data <= 1000000 -> Forall short ops -> us data' <= 1000000) /\
    shows bcd data' c' /\ in_range bcd c' /\ elapsed bcd c c' k) as (d & v & k & c' & Hd & ? & ? & ? & ? & ? & ? & []).
  { by exists d, v, k, c'. }
  revert data vm c Hs Hr Hv Hu Hmax Ht Hops. induction ops as [|o ops IH]; intros data vm c Hs Hr Hv Hu Hmax Ht Hops.
  - exists data, vm, 0, c. split_and!; try done; cbn; [lia..|by apply elapsed_0].
  - assert (total_us (o :: ops) = total_us [o] + total_us ops) as Htot by (destruct o; cbn; lia).
    assert (events (o :: ops) = events [o] + events ops) as Hev by (destruct o; cbn; lia).
    assert (exists r, undisturbed r ops) as [r0 Hr0] by (destruct o; cbn in Hops; eexists; apply Hops).
    apply undisturbed_total in Hr0.
    destruct (rtc_step_time bcd dev data vm c o Hs Hr Hv Hdev Hu ltac:(lia) Ht ops Hops)
      as (d1 & v1 & k1 & c1 & H1 & Hv1 & He1 & Hu1 & Hb1 & Hk1 & Hs1 & Hr1 & Hel1 & Ht1 & Hops1).
    destruct (IH d1 v1 c1 Hs1 Hr1 Hv1 Hu1 ltac:(lia) Ht1 Hops1)
      as (d2 & v2 & k2 & c2 & H2 & Hk2 & He2 & Hu2 & Hb2 & Hs2 & Hr2 & Hel2).
    exists d2, v2, (k1 + k2), c2. cbn [rtc_run]. rewrite H1. run.
    split_and!; [done|lia..| |done|done|by eapply elapsed_trans; [|apply Hk1|apply Hk2|..]].
    intros Hle [Ho Hops']%Forall_cons. auto.
Qed.

End run.

(** A controller that counts its requests, and the registers of the new device. *)
#[local] Instance request_counter : IntrCtrl Z :=
  {| intr_pending c := c; get_intr_number _ := 0; raise_intr c _ := Done (0, c + 1);
     lower_intr c _ := Done (0, c); begin_irq c _ := Done (0, c) |}.

Definition new_nvram : nvram_internal :=
  snd (nvram_reset_device (snd (set_nvram_defaults (mk_nvram_internal NVRAM_READY 0 (replicate 256 0) 0 0)))).

Definition new_year : clock := mk_clock 0 0 0 1 1 1 8 0.

Lemma rtc_keeps_time_witness :
  exists data' vm' k c', rtc_run 1 new_nvram (mk_v3_intr_state (mk_v3_excp_state 0 0 0 0) (Some 0) [])
    [op_timer 700000; op_select 0x0a; op_read; op_timer 700000] = Done (data', vm') /\
  us data' + 1000000 * k = 1400000 /\ us data' <= 1000000 /\ shows true data' c' /\
  seconds c' = (seconds new_year + k) mod span true.
Proof.
  destruct (rtc_keeps_time true 1 new_nvram (mk_v3_intr_state (mk_v3_excp_state 0 0 0 0) (Some 0) []) new_year
    [op_timer 700000; op_select 0x0a; op_read; op_timer 700000]) as (d & v & k & c' & H1 & H2 & H3 & H4 & H5 & H6 & H7 & H8 & H9).
  - by split; vm_compute.
  - by split; vm_compute.
  - split; [by eexists|]. intros c. by eexists _, _.
  - done.
  - done.
  - done.
  - done.
  - split_and!; try done; lia.
  - exists d, v, k, c'. split_and!; [exact H1|exact H2| |exact H6|exact H8]. apply H5; [done|]. by repeat constructor.
Defined.

(** ** The device behind the I/O instructions *)

(** The exit information of a byte access. *)
Definition outb (port : Z) : Z := encode (SvmIo.mk_svm_io_info 0 0 0 0 1 0 0 0 0 0 0 port).
Definition inb (port : Z) : Z := encode (SvmIo.mk_svm_io_info 1 0 0 0 1 0 0 0 0 0 0 port).

Lemma io_info_encode i : bs_wf i -> SvmIo.io_info (encode i) = i.
Proof.
  intros Hi. unfold SvmIo.io_info. rewrite wrap_small by by apply encode_u. by apply decode_encode.
Qed.

Section guest.
Import GuestInfo ShadowPaging.
Context {A : Arch} {Hos : OsHooks}.
Context (default_read_ptr default_write_ptr write_reg_ptr read_data_ptr write_data_ptr : Z).
Hypothesis ptrs_ne : write_reg_ptr <> write_data_ptr.
Hypothesis ptrs_nonnull : write_reg_ptr <> NULL /\ read_data_ptr <> NULL /\ write_data_ptr <> NULL.

(** The functions that the device hooks to its ports. *)
#[local] Instance nvram_io : SvmIo.IoDevices nvram_internal := {|
  SvmIo.dev_read fn _ _ _ d := if fn =? read_data_ptr then Done (nvram_read_data_port d) else Undef;
  SvmIo.dev_write fn _ src _ _ d :=
    if fn =? write_reg_ptr then nvram_write_reg_port d src
    else if fn =? write_data_ptr then nvram_write_data_port d src else Undef;
|}.

(** The hooks that [nvram_init_device] installs. *)
Definition nvram_hooks (dev x1 x2 : Z) : list (Z * DevMgr.dev_io_hook) :=
  [(x2, DevMgr.mk_dev_io_hook NVRAM_DATA_PORT read_data_ptr write_data_ptr dev);
   (x1, DevMgr.mk_dev_io_hook NVRAM_REG_PORT NULL write_reg_ptr dev)].

(** The device attaches to a manager that has its ports free. *)
Lemma nvram_init_managed timer_event_ptr m hks e e' data dev d x1 y1 x2 y2 z :
  DevMgr.managed default_read_ptr default_write_ptr m hks ->
  DevMgr.devices m !! dev = Some d -> DevMgr.dev_vm d <> NULL ->
  DevMgr.allocs m [(x1, y1); (x2, y2)] ->
  DevMgr.free_port m NVRAM_REG_PORT -> DevMgr.free_port m NVRAM_DATA_PORT ->
  HostEvents.v3_hook_host_event e z HostEvents.HOST_TIMER_EVT timer_event_ptr dev = Done (0, e') ->
  exists m' data', nvram_init_device default_read_ptr default_write_ptr write_reg_ptr read_data_ptr write_data_ptr
    timer_event_ptr m e data dev x1 y1 x2 y2 z = Done (0, m', e', data') /\
    DevMgr.managed default_read_ptr default_write_ptr m' (nvram_hooks dev x1 x2 ++ hks) /\
    length (mem_state data') = 256%nat.
Proof.
  clear ptrs_ne ptrs_nonnull. intros Hm Hdev Hvm Ha H70 H71 He.
  destruct (DevMgr.hook_ports_spec default_read_ptr default_write_ptr dev
    [(NVRAM_REG_PORT, NULL, write_reg_ptr); (NVRAM_DATA_PORT, read_data_ptr, write_data_ptr)]
    [(x1, y1); (x2, y2)] m hks d) as (m' & Hh & Hm'); [done..| | |].
  - repeat constructor; done.
  - apply NoDup_cons. split; [set_solver|]. apply NoDup_singleton.
  - cbn [DevMgr.hook_ports] in Hh. apply outcome_bind_inv in Hh as ([r1 m1] & H1 & ([r2 m2] & H2 & [= ->])%outcome_bind_inv).
    eexists m', _. unfold nvram_init_device. cbn [set_nvram_defaults nvram_reset_device]. rewrite H1. run.
    rewrite H2. run. rewrite He. run. split; [done|]. split; [exact Hm'|reflexivity].
Qed.

(** What a byte access hands to the device and what the guest gets. *)
Lemma out_byte l io s e port h d :
  IoMap.wf io l -> is_u 16 port -> IoMap.abs (IoMap.io_hooks io) l !! port = Some h ->
  SvmIo.v3_handle_svm_io_out (outb port) e io s d =
    '(r, d) ← SvmIo.dev_write (IoMap.hd_write h) port [rax (vm_regs (info s)) mod 256] 1 (IoMap.hd_priv h) d;
    Done (if r =? 1 then (0, s <| info := (info s) <| rip := e |> |>, d) else (-1, s, d)).
Proof.
  intros Hwf Hp Hh. assert (SvmIo.io_info (outb port) = SvmIo.mk_svm_io_info 0 0 0 0 1 0 0 0 0 0 0 port) as Hi
    by (apply io_info_encode; solve_wf).
  rewrite (SvmIo.out_writes l _ _ _ _ _ h Hwf) by by rewrite Hi. rewrite Hi.
  change (SvmIo.le_bytes _ ?g) with [field g 0 8]. by rewrite field_0.
Qed.

Lemma in_byte l io s e port h d b d' :
  IoMap.wf io l -> is_u 16 port -> IoMap.abs (IoMap.io_hooks io) l !! port = Some h ->
  SvmIo.dev_read (IoMap.hd_read h) port 1 (IoMap.hd_priv h) d = Done (1, [b], d') ->
  SvmIo.v3_handle_svm_io_in (inb port) e io s d =
    Done (0, s <| info := (info s) <| vm_regs := (vm_regs (info s)) <| rax := u8 b + 256 * (rax (vm_regs (info s)) / 256) |> |>
      <| rip := e |> |>, d').
Proof.
  intros Hwf Hp Hh Hd. assert (SvmIo.io_info (inb port) = SvmIo.mk_svm_io_info 1 0 0 0 1 0 0 0 0 0 0 port) as Hi
    by (apply io_info_encode; solve_wf).
  rewrite (SvmIo.in_reads l _ _ _ _ _ h Hwf) by by rewrite Hi. rewrite Hi.
  change (SvmIo.io_size _) with 1. change (SvmIo.io_port _) with port. rewrite Hd. done.
Qed.

(** C26. A guest reads back what it wrote: with the hooks of the device in the manager, an OUT of
    a register number to port 0x70, an OUT of a value to port 0x71 and an IN from it all
    succeed and leave the value in AL, the rest of RAX as it was, and every other register of
    the CMOS memory too. *)
Theorem cmos_roundtrip m hks dev x1 x2 s1 s2 s3 data e1 e2 e3 r v :
  DevMgr.managed default_read_ptr default_write_ptr m hks -> nvram_hooks dev x1 x2 ⊆ hks ->
  length (mem_state data) = 256%nat ->
  rax (vm_regs (info s1)) mod 256 = r ->
  rax (vm_regs (info s2)) mod 256 = v ->
  exists s1' s2' s3' d1 d2 d3,
    SvmIo.v3_handle_svm_io_out (outb NVRAM_REG_PORT) e1 (DevMgr.mg_io_map m) s1 data = Done (0, s1', d1) /\
    SvmIo.v3_handle_svm_io_out (outb NVRAM_DATA_PORT) e2 (DevMgr.mg_io_map m) s2 d1 = Done (0, s2', d2) /\
    SvmIo.v3_handle_svm_io_in (inb NVRAM_DATA_PORT) e3 (DevMgr.mg_io_map m) s3 d2 = Done (0, s3', d3) /\
    rax (vm_regs (info s3')) =
      v + 256 * (rax (vm_regs (info s3)) / 256) /\
    rip (info s3') = e3 /\
    forall r', is_u 8 r' -> r' <> r -> reg d3 r' = reg data r'.
Proof.
  intros Hm Hsub Hl Hr Hv. destruct (DevMgr.mg_port_map _ _ _ _ Hm) as (l & Hwf & Hpo).
  assert (H70 := Hpo x1 (DevMgr.mk_dev_io_hook NVRAM_REG_PORT NULL write_reg_ptr dev) ltac:(set_solver)).
  assert (H71 := Hpo x2 (DevMgr.mk_dev_io_hook NVRAM_DATA_PORT read_data_ptr write_data_ptr dev) ltac:(set_solver)).
  destruct ptrs_nonnull as (Hp1 & Hp2 & Hp3). unfold DevMgr.handler_of in H70, H71. cbn in H70, H71.
  rewrite (proj2 (Z.eqb_neq _ _) Hp1) in H70.
  rewrite (proj2 (Z.eqb_neq _ _) Hp2), (proj2 (Z.eqb_neq _ _) Hp3) in H71.
  assert (0 <= r < 256) as Hr8 by (subst r; apply Z.mod_pos_bound; lia).
  assert (0 <= v < 256) as Hv8 by (subst v; apply Z.mod_pos_bound; lia).
  set (d1 := data <| thereg := r |>). set (d2 := set_reg d1 r v).
  set (d3 := if r =? NVRAM_REG_STAT_A then set_reg d2 r (Z.lxor v 0x80) else d2).
  assert (reg d2 r = v) as Hrv.
  { subst d2. rewrite reg_set by (done || lia). by rewrite Z.eqb_refl. }
  eexists _, _, _, d1, d2, d3. split_and!.
  - rewrite (out_byte l _ _ _ NVRAM_REG_PORT _ _ Hwf ltac:(done) H70). cbn. by rewrite Z.eqb_refl, Hr.
  - rewrite (out_byte l _ _ _ NVRAM_DATA_PORT _ _ Hwf ltac:(done) H71). cbn.
    by rewrite (proj2 (Z.eqb_neq _ _) (not_eq_sym ptrs_ne)), Z.eqb_refl, Hv.
  - apply (in_byte l _ _ _ NVRAM_DATA_PORT _ _ v _ Hwf ltac:(done) H71). cbn. rewrite Z.eqb_refl.
    unfold nvram_read_data_port. change (thereg d2) with r. by rewrite Hrv.
  - cbn. by rewrite wrap_small.
  - done.
  - intros r' Hr' Hne. unfold is_u in Hr'. apply not_eq_sym, Z.eqb_neq in Hne.
    subst d3 d2. case_match; by rewrite !reg_set, Hne by (rewrite ?length_set_reg; done || lia).
Qed.

End guest.

(** Attaching the device to a manager without hooks. *)
#[local] Existing Instances DevMgr.eta_vmm_dev_mgr ShadowPaging.eta_vm GuestInfo.eta_guest_info
  GuestInfo.eta_v3_gprs.

Definition bare_mgr : DevMgr.vmm_dev_mgr :=
  DevMgr.demo_mgr <| DevMgr.mg_io_map := IoMap.mk_vmm_io_map 0 NULL ∅ |>.

Definition bare_events : HostEvents.v3_host_events :=
  HostEvents.mk_v3_host_events 1 2 3 ∅ {[ 3 := ListHead.mk_list_head 3 3 ]}.

Lemma bare_managed : DevMgr.managed (A := DevMgr.demo_arch) 11 12 bare_mgr [].
Proof.
  destruct DevMgr.demo_managed as [H1 H2 H3 H4 H5 H6]. split; try done.
  exists []. split; [|set_solver]. split; [|constructor|done]. split; [by exists NULL|constructor].
Qed.

Definition bare_init := nvram_init_device (A := DevMgr.demo_arch) 11 12 21 22 23 24 bare_mgr bare_events
  new_nvram 0x1000 0x2000 0x3000 0x2100 0x3100 0x4000.

Lemma bare_init_managed : exists m e d, bare_init = Done (0, m, e, d) /\
  DevMgr.managed (A := DevMgr.demo_arch) 11 12 m (nvram_hooks 21 22 23 0x1000 0x2000 0x2100) /\
  length (mem_state d) = 256%nat.
Proof.
  destruct (nvram_init_managed (A := DevMgr.demo_arch) 11 12 21 22 23 24 bare_mgr [] bare_events (snd (default (0, bare_events)
    (match HostEvents.v3_hook_host_event (A := DevMgr.demo_arch) bare_events 0x4000 HostEvents.HOST_TIMER_EVT 24 0x1000
     with Done x => Some x | _ => None end))) new_nvram 0x1000 (DevMgr.mk_vm_device [] 0 0 5 0 0 0) 0x2000 0x3000 0x2100 0x3100 0x4000)
    as (m & d & Hi & Hm & Hl); [apply bare_managed|done|done| |done|done|by vm_compute|].
  - cbn [DevMgr.allocs]. rewrite !Forall_cons, !Forall_nil. unfold DevMgr.fresh_hook, DevMgr.apart. cbn [fst snd].
    split_and!; try done; try (by apply not_elem_of_dom); by left.
  - rewrite app_nil_r in Hm. eexists m, _, d. split; [exact Hi|by split].
Qed.

Definition with_rax (v : Z) : ShadowPaging.vm :=
  let i := ShadowPaging.info SvmIo.io_guest in
  SvmIo.io_guest <| ShadowPaging.info := i <| GuestInfo.vm_regs := (GuestInfo.vm_regs i) <| GuestInfo.rax := v |> |> |>.

(** The value 0x42 goes to register 0x50 and back. *)
Lemma cmos_roundtrip_witness :
  let out := SvmIo.v3_handle_svm_io_out (Hd := nvram_io 21 22 23) in
  let inp := SvmIo.v3_handle_svm_io_in (Hd := nvram_io 21 22 23) in
  exists m e d s1 d1 s2 d2 s3 d3, bare_init = Done (0, m, e, d) /\
    out (outb NVRAM_REG_PORT) 2 (DevMgr.mg_io_map m) (with_rax 0x50) d = Done (0, s1, d1) /\
    out (outb NVRAM_DATA_PORT) 4 (DevMgr.mg_io_map m) (with_rax 0x42) d1 = Done (0, s2, d2) /\
    inp (inb NVRAM_DATA_PORT) 6 (DevMgr.mg_io_map m) (with_rax 0x1234) d2 = Done (0, s3, d3) /\
    GuestInfo.rax (GuestInfo.vm_regs (ShadowPaging.info s3)) = 0x1242.
Proof.
  assert (21 <> 23) as N1 by done. assert (21 <> NULL /\ 22 <> NULL /\ 23 <> NULL) as N2 by done.
  destruct bare_init_managed as (m & e & d & Hi & Hm & Hl).
  destruct (cmos_roundtrip (A := DevMgr.demo_arch) 11 12 21 22 23 N1 N2 m _ 0x1000 0x2000 0x2100
    (with_rax 0x50) (with_rax 0x42) (with_rax 0x1234) d 2 4 6 0x50 0x42 Hm (reflexivity _) Hl)
    as (s1 & s2 & s3 & d1 & d2 & d3 & H1 & H2 & H3 & H4 & _); [reflexivity|reflexivity|].
  exists m, e, d, s1, d1, s2, d2, s3, d3. split; [exact Hi|].
  split; [exact H1|]. split; [exact H2|]. split; [exact H3|]. rewrite H4. reflexivity.
Defined.

End Nvram.
