(* ===== verification/Serial.v ===== *)
(** The serial ports: serial.c.

    [Module Serial] translates the four ports with their registers and the ring buffers behind
    the data ports, and the attachment of the device.  The theorem shows what a guest gets
    that reads a data port: the buffer is a queue, but one that lags by one byte. *)
From stdpp Require Import base tactics numbers list gmap.
From S2P Require Import Prelude Chain IoMap ListHead DevMgr.

Module Serial.

Abbreviation COM1_DATA_PORT := 0x3f8.
Abbreviation COM1_IRQ_ENABLE_PORT := 0x3f9.
Abbreviation COM1_FIFO_CTRL_PORT := 0x3fa.
Abbreviation COM1_LINE_CTRL_PORT := 0x3fb.
Abbreviation COM1_MODEM_CTRL_PORT := 0x3fc.
Abbreviation COM1_LINE_STATUS_PORT := 0x3fd.
Abbreviation COM1_MODEM_STATUS_PORT := 0x3fe.
Abbreviation COM1_SCRATCH_PORT := 0x3ff.
Abbreviation COM2_DATA_PORT := 0x2f8.
Abbreviation COM2_IRQ_ENABLE_PORT := 0x2f9.
Abbreviation COM2_FIFO_CTRL_PORT := 0x2fa.
Abbreviation COM2_LINE_CTRL_PORT := 0x2fb.
Abbreviation COM2_MODEM_CTRL_PORT := 0x2fc.
Abbreviation COM2_LINE_STATUS_PORT := 0x2fd.
Abbreviation COM2_MODEM_STATUS_PORT := 0x2fe.
Abbreviation COM2_SCRATCH_PORT := 0x2ff.
Abbreviation COM3_DATA_PORT := 0x3e8.
Abbreviation COM3_IRQ_ENABLE_PORT := 0x3e9.
Abbreviation COM3_FIFO_CTRL_PORT := 0x3ea.
Abbreviation COM3_LINE_CTRL_PORT := 0x3eb.
Abbreviation COM3_MODEM_CTRL_PORT := 0x3ec.
Abbreviation COM3_LINE_STATUS_PORT := 0x3ed.
Abbreviation COM3_MODEM_STATUS_PORT := 0x3ee.
Abbreviation COM3_SCRATCH_PORT := 0x3ef.
Abbreviation COM4_DATA_PORT := 0x2e8.
Abbreviation COM4_IRQ_ENABLE_PORT := 0x2e9.
Abbreviation COM4_FIFO_CTRL_PORT := 0x2ea.
Abbreviation COM4_LINE_CTRL_PORT := 0x2eb.
Abbreviation COM4_MODEM_CTRL_PORT := 0x2ec.
Abbreviation COM4_LINE_STATUS_PORT := 0x2ed.
Abbreviation COM4_MODEM_STATUS_PORT := 0x2ee.
Abbreviation COM4_SCRATCH_PORT := 0x2ef.

Abbreviation SERIAL_BUF_LEN := 256.

(** [struct serial_buffer] *)
Record serial_buffer := mk_serial_buffer {
  head : Z;
  tail : Z;
  buffer : list Z;
}.

#[export] Instance eta_serial_buffer : Eta serial_buffer := fun b =>
  mk_serial_buffer (head b) (tail b) (buffer b).

Definition queue_data (buf : serial_buffer) (data : Z) : Z * serial_buffer :=
  let next_loc := u32 (head buf + 1) mod SERIAL_BUF_LEN in
  if next_loc =? tail buf then (-1, buf) else
  let buf := buf <| buffer := <[Z.to_nat next_loc := data]> (buffer buf) |> in
  (0, buf <| head := next_loc |>).

(** The second component is what is stored in [*data], if anything is. *)
Definition dequeue_data (buf : serial_buffer) : outcome (Z * option Z * serial_buffer) :=
  let next_tail := u32 (tail buf + 1) mod SERIAL_BUF_LEN in
  if head buf =? tail buf then Done (-1, None, buf) else
  match buffer buf !! Z.to_nat (tail buf) with
  | None => Undef
  | Some data => Done (0, Some data, buf <| tail := next_tail |>)
  end.

(** [struct serial_port] *)
Record serial_port := mk_serial_port {
  ier : Z;
  iir : Z;
  fcr : Z;
  lcr : Z;
  mcr : Z;
  lsr : Z;
  msr : Z;
  tx_buffer : serial_buffer;
  rx_buffer : serial_buffer;
}.

#[export] Instance eta_serial_port : Eta serial_port := fun p =>
  mk_serial_port (ier p) (iir p) (fcr p) (lcr p) (mcr p) (lsr p) (msr p) (tx_buffer p) (rx_buffer p).

(** [struct serial_state] *)
Record serial_state := mk_serial_state {
  com1 : serial_port;
  com2 : serial_port;
  com3 : serial_port;
  com4 : serial_port;
}.

#[export] Instance eta_serial_state : Eta serial_state := fun s =>
  mk_serial_state (com1 s) (com2 s) (com3 s) (com4 s).

(** ** The ports *)

(** [src]: the bytes at the source. *)
Definition write_data_port (state : serial_state) (port : Z) (src : list Z) (length : Z)
    : outcome (Z * serial_state) :=
  if negb (length =? 1) then Done (-1, state) else
  match src with
  | [] => Undef
  | val :: _ =>
      match port with
      | COM1_DATA_PORT =>
          let '(_, b) := queue_data (tx_buffer (com1 state)) val in
          Done (length, state <| com1 := (com1 state) <| tx_buffer := b |> |>)
      | COM2_DATA_PORT =>
          let '(_, b) := queue_data (tx_buffer (com2 state)) val in
          Done (length, state <| com2 := (com2 state) <| tx_buffer := b |> |>)
      | COM3_DATA_PORT =>
          let '(_, b) := queue_data (tx_buffer (com3 state)) val in
          Done (length, state <| com3 := (com3 state) <| tx_buffer := b |> |>)
      | COM4_DATA_PORT =>
          let '(_, b) := queue_data (tx_buffer (com4 state)) val in
          Done (length, state <| com4 := (com4 state) <| tx_buffer := b |> |>)
      | _ => Done (-1, state)
      end
  end.

(** The result, the bytes stored at the destination and the new state. *)
Definition read_data_port (state : serial_state) (port length : Z) : outcome (Z * list Z * serial_state) :=
  if negb (length =? 1) then Done (-1, [], state) else
  match port with
  | COM1_DATA_PORT =>
      '(_, v, b) ← dequeue_data (tx_buffer (com1 state));
      Done (length, option_list v, state <| com1 := (com1 state) <| tx_buffer := b |> |>)
  | COM2_DATA_PORT =>
      '(_, v, b) ← dequeue_data (tx_buffer (com2 state));
      Done (length, option_list v, state <| com2 := (com2 state) <| tx_buffer := b |> |>)
  | COM3_DATA_PORT =>
      '(_, v, b) ← dequeue_data (tx_buffer (com3 state));
      Done (length, option_list v, state <| com3 := (com3 state) <| tx_buffer := b |> |>)
  | COM4_DATA_PORT =>
      '(_, v, b) ← dequeue_data (tx_buffer (com4 state));
      Done (length, option_list v, state <| com4 := (com4 state) <| tx_buffer := b |> |>)
  | _ => Done (-1, [], state)
  end.

Definition handle_ier_write (com : serial_port) (val : Z) : Z * serial_port := (-1, com).

Definition write_ctrl_port (state : serial_state) (port : Z) (src : list Z) (length : Z)
    : outcome (Z * serial_state) :=
  if negb (length =? 1) then Done (-1, state) else
  match src with
  | [] => Undef
  | val :: _ =>
      match port with
      | COM1_IRQ_ENABLE_PORT =>
          let '(_, com) := handle_ier_write (com1 state) val in Done (-1, state <| com1 := com |>)
      | COM2_IRQ_ENABLE_PORT =>
          let '(_, com) := handle_ier_write (com2 state) val in Done (-1, state <| com2 := com |>)
      | COM3_IRQ_ENABLE_PORT =>
          let '(_, com) := handle_ier_write (com3 state) val in Done (-1, state <| com3 := com |>)
      | COM4_IRQ_ENABLE_PORT =>
          let '(_, com) := handle_ier_write (com4 state) val in Done (-1, state <| com4 := com |>)
      | _ => Done (-1, state)
      end
  end.

Definition read_ctrl_port (state : serial_state) (port length : Z) : Z * list Z * serial_state :=
  if negb (length =? 1) then (-1, [], state) else
  match port with
  | COM1_IRQ_ENABLE_PORT => (length, [ier (com1 state)], state)
  | COM2_IRQ_ENABLE_PORT => (length, [ier (com2 state)], state)
  | COM3_IRQ_ENABLE_PORT => (length, [ier (com3 state)], state)
  | COM4_IRQ_ENABLE_PORT => (length, [ier (com4 state)], state)
  | COM1_FIFO_CTRL_PORT => (length, [fcr (com1 state)], state)
  | COM2_FIFO_CTRL_PORT => (length, [fcr (com2 state)], state)
  | COM3_FIFO_CTRL_PORT => (length, [fcr (com3 state)], state)
  | COM4_FIFO_CTRL_PORT => (length, [fcr (com4 state)], state)
  | COM1_LINE_CTRL_PORT => (length, [lcr (com1 state)], state)
  | COM2_LINE_CTRL_PORT => (length, [lcr (com2 state)], state)
  | COM3_LINE_CTRL_PORT => (length, [lcr (com3 state)], state)
  | COM4_LINE_CTRL_PORT => (length, [lcr (com4 state)], state)
  | COM1_MODEM_CTRL_PORT => (length, [mcr (com1 state)], state)
  | COM2_MODEM_CTRL_PORT => (length, [mcr (com2 state)], state)
  | COM3_MODEM_CTRL_PORT => (length, [mcr (com3 state)], state)
  | COM4_MODEM_CTRL_PORT => (length, [mcr (com4 state)], state)
  | _ => (-1, [], state)
  end.

Definition write_status_port (state : serial_state) (port : Z) (src : list Z) (length : Z)
    : Z * serial_state := (-1, state).

Definition read_status_port (state : serial_state) (port length : Z) : Z * list Z * serial_state :=
  if negb (length =? 1) then (-1, [], state) else
  match port with
  | COM1_LINE_STATUS_PORT => (length, [lsr (com1 state)], state)
  | COM2_LINE_STATUS_PORT => (length, [lsr (com2 state)], state)
  | COM3_LINE_STATUS_PORT => (length, [lsr (com3 state)], state)
  | COM4_LINE_STATUS_PORT => (length, [lsr (com4 state)], state)
  | COM1_MODEM_STATUS_PORT => (length, [msr (com1 state)], state)
  | COM2_MODEM_STATUS_PORT => (length, [msr (com2 state)], state)
  | COM3_MODEM_STATUS_PORT => (length, [msr (com3 state)], state)
  | COM4_MODEM_STATUS_PORT => (length, [msr (com4 state)], state)
  | _ => (-1, [], state)
  end.

(** The buffers stay as V3_Malloc returned them. *)
Definition init_serial_port (com : serial_port) : Z * serial_port :=
  (0, com <| ier := 0x00 |> <| iir := 0x01 |> <| fcr := 0x00 |> <| lcr := 0x00 |> <| mcr := 0x00 |>
          <| lsr := 0x60 |> <| msr := 0x00 |>).

(** ** The device *)

Section device.
Context {A : Arch} (default_read_ptr default_write_ptr : Z).

(** The addresses of the functions above. *)
Context (read_data_ptr write_data_ptr read_ctrl_ptr write_ctrl_ptr read_status_ptr write_status_ptr : Z).

Definition serial_hooks : list (Z * Z * Z) :=
  [(COM1_DATA_PORT, read_data_ptr, write_data_ptr);
   (COM1_IRQ_ENABLE_PORT, read_ctrl_ptr, write_ctrl_ptr);
   (COM1_FIFO_CTRL_PORT, read_ctrl_ptr, write_ctrl_ptr);
   (COM1_LINE_CTRL_PORT, read_ctrl_ptr, write_ctrl_ptr);
   (COM1_MODEM_CTRL_PORT, read_ctrl_ptr, write_ctrl_ptr);
   (COM1_LINE_STATUS_PORT, read_status_ptr, write_status_ptr);
   (COM1_MODEM_STATUS_PORT, read_status_ptr, write_status_ptr);
   (COM1_SCRATCH_PORT, read_ctrl_ptr, write_ctrl_ptr);
   (COM2_DATA_PORT, read_data_ptr, write_data_ptr);
   (COM2_IRQ_ENABLE_PORT, read_ctrl_ptr, write_ctrl_ptr);
   (COM2_FIFO_CTRL_PORT, read_ctrl_ptr, write_ctrl_ptr);
   (COM2_LINE_CTRL_PORT, read_ctrl_ptr, write_ctrl_ptr);
   (COM2_MODEM_CTRL_PORT, read_ctrl_ptr, write_ctrl_ptr);
   (COM2_LINE_STATUS_PORT, read_status_ptr, write_status_ptr);
   (COM2_MODEM_STATUS_PORT, read_status_ptr, write_status_ptr);
   (COM2_SCRATCH_PORT, read_ctrl_ptr, write_ctrl_ptr);
   (COM3_DATA_PORT, read_data_ptr, write_data_ptr);
   (COM3_IRQ_ENABLE_PORT, read_ctrl_ptr, write_ctrl_ptr);
   (COM3_FIFO_CTRL_PORT, read_ctrl_ptr, write_ctrl_ptr);
   (COM3_LINE_CTRL_PORT, read_ctrl_ptr, write_ctrl_ptr);
   (COM3_MODEM_CTRL_PORT, read_ctrl_ptr, write_ctrl_ptr);
   (COM3_LINE_STATUS_PORT, read_status_ptr, write_status_ptr);
   (COM3_MODEM_STATUS_PORT, read_status_ptr, write_status_ptr);
   (COM3_SCRATCH_PORT, read_ctrl_ptr, write_ctrl_ptr);
   (COM4_DATA_PORT, read_data_ptr, write_data_ptr);
   (COM4_IRQ_ENABLE_PORT, read_ctrl_ptr, write_ctrl_ptr);
   (COM4_FIFO_CTRL_PORT, read_ctrl_ptr, write_ctrl_ptr);
   (COM4_LINE_CTRL_PORT, read_ctrl_ptr, write_ctrl_ptr);
   (COM4_MODEM_CTRL_PORT, read_ctrl_ptr, write_ctrl_ptr);
   (COM4_LINE_STATUS_PORT, read_status_ptr, write_status_ptr);
   (COM4_MODEM_STATUS_PORT, read_status_ptr, write_status_ptr);
   (COM4_SCRATCH_PORT, read_ctrl_ptr, write_ctrl_ptr)].

(** [mallocs]: the results of V3_Malloc for the 32 hooks. *)
Definition serial_init (m : DevMgr.vmm_dev_mgr) (state : serial_state) (dev : Z) (mallocs : list (Z * Z))
    : outcome (Z * DevMgr.vmm_dev_mgr * serial_state) :=
  let '(_, c1) := init_serial_port (com1 state) in
  let '(_, c2) := init_serial_port (com2 state) in
  let '(_, c3) := init_serial_port (com3 state) in
  let '(_, c4) := init_serial_port (com4 state) in
  let state := mk_serial_state c1 c2 c3 c4 in
  m ← DevMgr.hook_ports default_read_ptr default_write_ptr m dev serial_hooks mallocs;
  Done (0, m, state).

Definition serial_deinit (m : DevMgr.vmm_dev_mgr) (dev : Z) : outcome (Z * DevMgr.vmm_dev_mgr) :=
  m ← DevMgr.unhook_ports m dev ((fun p => p.1.1) <$> serial_hooks);
  Done (0, m).

(** A failed assertion does not return. *)
Definition v3_create_serial (m : DevMgr.vmm_dev_mgr) (num_ports state device dev_ops : Z)
    : outcome (Z * DevMgr.vmm_dev_mgr) :=
  if state =? NULL then OutOfFuel else
  m ← DevMgr.v3_create_device m device [83; 101; 114; 105; 97; 108; 32; 85; 65; 82; 84] dev_ops state;
  Done (device, m).

(** Attached to a manager with free ports, the device has all 32 of them. *)
Lemma serial_init_hooks m hks state dev d mallocs :
  DevMgr.managed default_read_ptr default_write_ptr m hks ->
  DevMgr.devices m !! dev = Some d -> DevMgr.dev_vm d <> NULL -> length mallocs = 32%nat ->
  DevMgr.allocs m mallocs -> Forall (fun p => DevMgr.free_port m p.1.1) serial_hooks ->
  exists m' state', serial_init m state dev mallocs = Done (0, m', state') /\
    DevMgr.managed default_read_ptr default_write_ptr m' (reverse (DevMgr.hooks_of dev serial_hooks mallocs) ++ hks) /\
    tx_buffer (com1 state') = tx_buffer (com1 state) /\ lsr (com1 state') = 0x60.
Proof.
  intros Hm Hdev Hvm Hlen Ha Hf.
  destruct (DevMgr.hook_ports_spec default_read_ptr default_write_ptr dev serial_hooks mallocs m hks d)
    as (m' & Hh & Hm'); [done..| | |].
  - apply Forall_and. split; [|done]. repeat (apply Forall_cons; split; [done|]). constructor.
  - apply (bool_decide_unpack _). by vm_compute.
  - eexists m', _. unfold serial_init. cbn [init_serial_port]. rewrite Hh. run. by split_and!.
Qed.

End device.
(** ** What a data port holds *)

Definition slot (buf : serial_buffer) (i : Z) : Z := buffer buf !!! Z.to_nat (i mod SERIAL_BUF_LEN).

(** The bytes from the tail to the head, the one at the tail included. *)
Definition contents (buf : serial_buffer) : list Z :=
  (fun i => slot buf (tail buf + Z.of_nat i)) <$> seq 0 (S (Z.to_nat ((head buf - tail buf) mod SERIAL_BUF_LEN))).

Record wf_buffer (buf : serial_buffer) : Prop := {
  wb_head : 0 <= head buf < SERIAL_BUF_LEN;
  wb_tail : 0 <= tail buf < SERIAL_BUF_LEN;
  wb_length : length (buffer buf) = 256%nat;
}.

Lemma length_contents buf : length (contents buf) = S (Z.to_nat ((head buf - tail buf) mod SERIAL_BUF_LEN)).
Proof. unfold contents. by rewrite length_fmap, length_seq. Qed.

Lemma next_loc_eq x : 0 <= x < 256 -> u32 (x + 1) mod 256 = (x + 1) mod 256.
Proof. intros Hx. by rewrite wrap_small by (unfold is_u; lia). Qed.

Lemma used_succ h t : 0 <= h < 256 -> 0 <= t < 256 -> (h + 1) mod 256 <> t ->
  ((h + 1) mod 256 - t) mod 256 = (h - t) mod 256 + 1.
Proof. intros Hh Ht Hne. Z.div_mod_to_equations. lia. Qed.

Lemma queue_data_spec buf v :
  wf_buffer buf ->
  if (length (contents buf) =? 256)%nat then queue_data buf v = (-1, buf)
  else exists buf', queue_data buf v = (0, buf') /\ wf_buffer buf' /\ contents buf' = contents buf ++ [v].
Proof.
  intros [Hh Ht Hl]. rewrite length_contents. unfold queue_data. rewrite next_loc_eq by done.
  pose proof (Z.mod_pos_bound (head buf + 1) 256 ltac:(lia)) as Hn.
  pose proof (Z.mod_pos_bound (head buf - tail buf) 256 ltac:(lia)) as Hu.
  destruct (Z.eqb_spec ((head buf + 1) mod 256) (tail buf)) as [E|E].
  - rewrite (proj2 (Nat.eqb_eq _ _)); [done|]. Z.div_mod_to_equations. lia.
  - rewrite (proj2 (Nat.eqb_neq _ _)) by (Z.div_mod_to_equations; lia).
    set (n := (head buf + 1) mod 256) in *. eexists. split; [done|].
    split; [split; cbn; [done..|by rewrite length_insert]|].
    pose proof (used_succ _ _ Hh Ht E) as Hs. fold n in Hs. unfold contents, slot. cbn [head tail buffer].
    change (head (_ <| head := n |>)) with n. change (tail (_ <| head := n |>)) with (tail buf).
    change (buffer (_ <| head := n |>)) with (<[Z.to_nat n := v]> (buffer buf)).
    rewrite Hs, Z2Nat.inj_add, Nat.add_1_r by lia. rewrite (seq_S (S _)), fmap_app. f_equal.
    + apply list_fmap_ext. intros i k [-> Hi]%lookup_seq. rewrite list_lookup_total_insert_ne; [done|].
      subst n. Z.div_mod_to_equations. lia.
    + cbn. f_equal. replace ((tail buf + Z.of_nat _) mod 256) with n; [|subst n; Z.div_mod_to_equations; lia].
      rewrite list_lookup_total_insert_eq; [done|lia].
Qed.

Lemma dequeue_data_spec buf x q :
  wf_buffer buf -> contents buf = x :: q ->
  match q with
  | [] => dequeue_data buf = Done (-1, None, buf)
  | _ => exists buf', dequeue_data buf = Done (0, Some x, buf') /\ wf_buffer buf' /\ contents buf' = q
  end.
Proof.
  intros [Hh Ht Hl] Hc. pose proof (length_contents buf) as Hlen. rewrite Hc in Hlen. cbn in Hlen.
  pose proof (Z.mod_pos_bound (tail buf + 1) 256 ltac:(lia)) as Hn.
  unfold dequeue_data. rewrite next_loc_eq by done.
  destruct (Z.eqb_spec (head buf) (tail buf)) as [E|E].
  - rewrite E, Z.sub_diag in Hlen. destruct q; [done|discriminate].
  - destruct (lookup_lt_is_Some_2 (buffer buf) (Z.to_nat (tail buf))) as [y Hy]; [lia|]. rewrite Hy.
    assert (0 < (head buf - tail buf) mod 256) as Hpos by (Z.div_mod_to_equations; lia).
    unfold contents in Hc. cbn [seq fmap list_fmap] in Hc. injection Hc as Hx Hq.
    assert (y = x) as ->.
    { rewrite <- Hx. unfold slot. rewrite Z.add_0_r, Z.mod_small by done. by rewrite (list_lookup_total_correct _ _ _ Hy). }
    destruct q as [|z q]; [cbn in Hlen; lia|]. eexists. split; [done|]. split; [by split|].
    rewrite <- Hq. unfold contents, slot. set (n := (tail buf + 1) mod 256) in *.
    change (head (_ <| tail := n |>)) with (head buf). change (tail (_ <| tail := n |>)) with n.
    change (buffer (_ <| tail := n |>)) with (buffer buf).
    replace ((head buf - n) mod 256) with ((head buf - tail buf) mod 256 - 1) by (subst n; Z.div_mod_to_equations; lia).
    replace (S (Z.to_nat (_ - 1))) with (Z.to_nat ((head buf - tail buf) mod 256)) by lia.
    rewrite <- (fmap_S_seq 0), <- list_fmap_compose.
    apply list_fmap_ext. intros i k Hk. cbn. f_equal. subst n. Z.div_mod_to_equations. lia.
Qed.

(** ** Guest accesses to a data port *)

Inductive data_op := data_write (v : Z) | data_read.

(** The result of a byte access and what a read stores. *)
Definition data_step (state : serial_state) (port : Z) (o : data_op) : outcome (Z * list Z * serial_state) :=
  match o with
  | data_write v => '(r, state) ← write_data_port state port [v] 1; Done (r, [], state)
  | data_read => read_data_port state port 1
  end.

Fixpoint data_run (state : serial_state) (port : Z) (ops : list data_op)
    : outcome (list (Z * list Z) * serial_state) :=
  match ops with
  | [] => Done ([], state)
  | o :: ops =>
      '(r, bs, state) ← data_step state port o;
      '(rs, state) ← data_run state port ops;
      Done ((r, bs) :: rs, state)
  end.

(** A queue of at most 256 bytes that never gives its last one. *)
Definition lag_step (q : list Z) (o : data_op) : list Z * list Z :=
  match o, q with
  | data_write v, _ => ([], if (length q =? 256)%nat then q else q ++ [v])
  | data_read, x :: y :: q => ([x], y :: q)
  | data_read, _ => ([], q)
  end.

Fixpoint lag_run (q : list Z) (ops : list data_op) : list (list Z) * list Z :=
  match ops with
  | [] => ([], q)
  | o :: ops =>
      let '(bs, q) := lag_step q o in
      let '(rs, q) := lag_run q ops in
      (bs :: rs, q)
  end.

(** The port behind a data port, and the others. *)
Definition com_of (port : Z) : option (serial_state -> serial_port) :=
  match port with
  | COM1_DATA_PORT => Some com1
  | COM2_DATA_PORT => Some com2
  | COM3_DATA_PORT => Some com3
  | COM4_DATA_PORT => Some com4
  | _ => None
  end.

Definition others_same (port : Z) (s s' : serial_state) : Prop :=
  forall port' com, port' <> port -> com_of port' = Some com -> com s' = com s.

Lemma com_of_cases port com :
  com_of port = Some com -> exists set : serial_state -> serial_port -> serial_state,
    (forall s b, com (set s b) = b) /\ (forall s b, others_same port s (set s b)) /\
    (forall s v, write_data_port s port [v] 1 =
       let '(_, b) := queue_data (tx_buffer (com s)) v in Done (1, set s ((com s) <| tx_buffer := b |>))) /\
    (forall s, read_data_port s port 1 =
       '(_, v, b) ← dequeue_data (tx_buffer (com s)); Done (1, option_list v, set s ((com s) <| tx_buffer := b |>))).
Proof.
  intros Hp. assert (port = COM1_DATA_PORT /\ com = com1 \/ port = COM2_DATA_PORT /\ com = com2 \/
    port = COM3_DATA_PORT /\ com = com3 \/ port = COM4_DATA_PORT /\ com = com4) as Hc.
  { unfold com_of in Hp. repeat case_match; naive_solver. }
  destruct Hc as [[-> ->]|[[-> ->]|[[-> ->]|[-> ->]]]];
    [exists (fun s b => s <| com1 := b |>)|exists (fun s b => s <| com2 := b |>)
    |exists (fun s b => s <| com3 := b |>)|exists (fun s b => s <| com4 := b |>)];
    (split_and!; [done| |done|done]); intros s b port' com' Hne Hc; unfold com_of in Hc;
    repeat case_match; naive_solver.
Qed.

Lemma data_step_spec port com s q o :
  com_of port = Some com -> wf_buffer (tx_buffer (com s)) -> contents (tx_buffer (com s)) = q ->
  exists s', data_step s port o = Done (1, (lag_step q o).1, s') /\ wf_buffer (tx_buffer (com s')) /\
    contents (tx_buffer (com s')) = (lag_step q o).2 /\ others_same port s s' /\
    com s' = (com s) <| tx_buffer := tx_buffer (com s') |>.
Proof.
  intros Hp Hb Hq. destruct (com_of_cases port com Hp) as (set & Hset & Hoth & Hw & Hr).
  destruct o as [v|]; cbn [data_step].
  - rewrite Hw. pose proof (queue_data_spec _ v Hb) as Hqd. rewrite Hq in Hqd. cbn [lag_step].
    destruct (length q =? 256)%nat.
    + rewrite Hqd. run. eexists. split; [done|]. rewrite !Hset. by split_and!.
    + destruct Hqd as (b' & -> & Hb' & Hc'). run. eexists. split; [done|]. rewrite !Hset. by split_and!.
  - rewrite Hr. destruct q as [|x q].
    { pose proof (length_contents (tx_buffer (com s))) as Hl. by rewrite Hq in Hl. }
    pose proof (dequeue_data_spec _ x q Hb Hq) as Hd. destruct q as [|y q].
    + rewrite Hd. run. eexists. split; [done|]. rewrite !Hset. by split_and!.
    + destruct Hd as (b' & -> & Hb' & Hc'). run. eexists. split; [done|]. rewrite !Hset. by split_and!.
Qed.

(** C32. A data port is a queue that lags: whatever bytes the guest writes and reads at a data
    port, every access succeeds, a read takes the oldest byte the queue holds, and nothing else
    of the device changes.  But the queue starts with the byte that was in the buffer at its
    tail, and its newest byte stays in it: the guest gets each byte one read late.  A write to a
    full queue is dropped, and a read of an empty one stores nothing. *)
Theorem serial_reads_lag port com s q ops :
  com_of port = Some com -> wf_buffer (tx_buffer (com s)) -> contents (tx_buffer (com s)) = q ->
  exists s', data_run s port ops = Done ((fun bs => (1, bs)) <$> (lag_run q ops).1, s') /\
    wf_buffer (tx_buffer (com s')) /\ contents (tx_buffer (com s')) = (lag_run q ops).2 /\
    others_same port s s' /\ com s' = (com s) <| tx_buffer := tx_buffer (com s') |>.
Proof.
  intros Hp. revert s q. induction ops as [|o ops IH]; intros s q Hb Hq.
  - exists s. split_and!; try done. by destruct (com s).
  - destruct (data_step_spec port com s q o Hp Hb Hq) as (s1 & H1 & Hb1 & Hc1 & Ho1 & He1).
    destruct (IH s1 _ Hb1 eq_refl) as (s2 & H2 & Hb2 & Hc2 & Ho2 & He2). rewrite Hc1 in H2, Hc2.
    exists s2. cbn [data_run lag_run]. rewrite H1. run. destruct (lag_step q o) as [bs q1]. cbn [fst snd] in *.
    rewrite H2. run. destruct (lag_run q1 ops) as [rs q2]. cbn [fst snd] in *. split_and!; try done.
    + intros port' com' Hne Hc. rewrite (Ho2 _ _ Hne Hc). by apply (Ho1 port').
    + rewrite He2. by rewrite He1.
Qed.

(** Bytes written to an empty port and read back: the one left over, then all but the last. *)
Lemma lag_echo x vs :
  (length vs < 256)%nat ->
  lag_run [x] ((data_write <$> vs) ++ replicate (length vs) data_read) =
    (replicate (length vs) [] ++ ((fun b => [b]) <$> take (length vs) (x :: vs)), drop (length vs) (x :: vs)).
Proof.
  intros Hl.
  assert (forall q, (length q + length vs <= 256)%nat -> forall ops, lag_run q ((data_write <$> vs) ++ ops) =
    let '(rs, q') := lag_run (q ++ vs) ops in (replicate (length vs) [] ++ rs, q')) as Hw.
  { clear Hl. induction vs as [|v vs IH]; intros q Hq ops; cbn.
    - rewrite app_nil_r. by destruct (lag_run q ops).
    - cbn in Hq. rewrite (proj2 (Nat.eqb_neq _ _)) by lia. rewrite IH by (rewrite length_app; cbn; lia).
      rewrite <- app_assoc. cbn. by destruct (lag_run (q ++ v :: vs) ops). }
  rewrite Hw by (cbn; lia). clear Hw Hl. cbn [app].
  assert (lag_run (x :: vs) (replicate (length vs) data_read) =
    ((fun b => [b]) <$> take (length vs) (x :: vs), drop (length vs) (x :: vs))) as ->; [|done].
  revert x. induction vs as [|v vs IH]; intros x; [done|]. cbn [length replicate lag_run lag_step].
  by rewrite IH.
Qed.

(** A port whose buffer has a leftover byte 0xee. *)
Definition demo_com : serial_port :=
  mk_serial_port 0 1 0 0 0 0x60 0 (mk_serial_buffer 255 255 (replicate 256 0xee)) (mk_serial_buffer 0 0 (replicate 256 0)).

Lemma serial_reads_lag_witness : exists s',
  data_run (mk_serial_state demo_com demo_com demo_com demo_com) COM2_DATA_PORT
    [data_write 65; data_write 66; data_read; data_read; data_read] =
    Done ([(1, []); (1, []); (1, [0xee]); (1, [65]); (1, [])], s') /\ com1 s' = demo_com.
Proof.
  destruct (serial_reads_lag COM2_DATA_PORT com2 (mk_serial_state demo_com demo_com demo_com demo_com) [0xee]
    [data_write 65; data_write 66; data_read; data_read; data_read]) as (s' & H1 & _ & _ & H2 & _); [done| |done|].
  - by split.
  - exists s'. split; [exact H1|]. by apply (H2 COM1_DATA_PORT com1).
Defined.

End Serial.
