(* ===== verification/Keyboard.v ===== *)
(** The keyboard controller with keyboard and mouse: keyboard.c.

    [Module Keyboard] translates the controller behind ports 0x60 and 0x64, the protocol of the
    mouse, the events of the host and the attachment of the device.  The theorems show what
    every sequence of guest accesses and events preserves, that the command byte reads back, and
    what the mouse answers to each command. *)
From stdpp Require Import base tactics numbers list gmap.
From S2P Require Import Prelude Chain IoMap Intr ListHead HostEvents DevMgr.

Module Keyboard.
Import Intr.

Abbreviation KEYBOARD_60H := 0x60.
Abbreviation KEYBOARD_64H := 0x64.
Abbreviation KEYBOARD_IRQ := 0x1.
Abbreviation MOUSE_IRQ := 0xc.

Abbreviation STATUS_OUTPUT_BUFFER_FULL := 0x01.
Abbreviation STATUS_SYSTEM := 0x04.
Abbreviation STATUS_COMMAND_DATA_AVAIL := 0x08.
Abbreviation STATUS_ENABLED := 0x10.
Abbreviation STATUS_MOUSE_BUFFER_FULL := 0x20.

Abbreviation CMD_INTR := 0x01.
Abbreviation CMD_MOUSE_INTR := 0x02.
Abbreviation CMD_SYSTEM := 0x04.
Abbreviation CMD_DISABLE := 0x10.
Abbreviation CMD_MOUSE_DISABLE := 0x20.

Abbreviation INPUT_RAM := 0x10.

Abbreviation OVERWRITE := 1.
Abbreviation DATA := 0.
Abbreviation COMMAND := 1.
Abbreviation KEYBOARD := 0.
Abbreviation MOUSE := 1.

(** The two enumerations of [struct keyboard_internal] *)
Inductive kbd_state := NORMAL | WRITING_CMD_BYTE | TRANSMIT_PASSWD | RESET | WRITING_OUTPUT_PORT
  | INJECTING_KEY | INJECTING_MOUSE | IN_MOUSE.

Inductive mouse_state_t := RESET1 | RESET2 | STREAM1 | STREAM2 | STREAM3 | SAMPLE1 | DEVICE1
  | REMOTE1 | REMOTE2 | REMOTE3 | STATUS1 | STATUS2 | STATUS3 | SETRES1.

#[export] Instance kbd_state_eq_dec : EqDecision kbd_state.
Proof. solve_decision. Defined.
#[export] Instance mouse_state_eq_dec : EqDecision mouse_state_t.
Proof. solve_decision. Defined.

(** [struct keyboard_internal] *)
Record keyboard_internal := mk_keyboard_internal {
  state : kbd_state;
  mouse_state : mouse_state_t;
  wrap_mode : Z;
  mouse_packet : list Z;
  mouse_needs_ack : Z;
  mouse_done_after_ack : Z;
  cmd_byte : Z;
  status_byte : Z;
  output_byte : Z;
  input_byte : Z;
  input_queue : Z;
  input_queue_len : Z;
  output_queue : Z;
  output_queue_len : Z;
}.

#[export] Instance eta_keyboard_internal : Eta keyboard_internal := fun k =>
  mk_keyboard_internal (state k) (mouse_state k) (wrap_mode k) (mouse_packet k) (mouse_needs_ack k)
    (mouse_done_after_ack k) (cmd_byte k) (status_byte k) (output_byte k) (input_byte k) (input_queue k)
    (input_queue_len k) (output_queue k) (output_queue_len k).

(** [x & flag], as a condition. *)
Definition flag (x m : Z) : bool := negb (Z.land x m =? 0).

(** ** The output queue *)

Definition PushToOutputQueue (k : keyboard_internal) (value overwrite cmd mouse : Z) : Z * keyboard_internal :=
  if (output_queue_len k =? 0) || negb (overwrite =? 0) then
    let k := k <| output_queue := value |> in
    let k := k <| output_queue_len := 1 |> in
    let k := k <| status_byte := if negb (cmd =? 0) then Z.lor (status_byte k) STATUS_COMMAND_DATA_AVAIL
                                 else Z.ldiff (status_byte k) STATUS_COMMAND_DATA_AVAIL |> in
    let k := if negb (mouse =? 0)
             then k <| status_byte := Z.lor (status_byte k) STATUS_MOUSE_BUFFER_FULL |> else k in
    (0, k <| status_byte := Z.lor (status_byte k) STATUS_OUTPUT_BUFFER_FULL |>)
  else (-1, k).

(** The push without its result, which no caller looks at. *)
Definition push (k : keyboard_internal) (value cmd mouse : Z) : keyboard_internal :=
  snd (PushToOutputQueue k value OVERWRITE cmd mouse).

Definition PullFromOutputQueue (k : keyboard_internal) : Z * Z * keyboard_internal :=
  let value := output_queue k in
  let k := k <| output_queue_len := 0 |> in
  let clear (m : Z) (k : keyboard_internal) :=
    if flag (status_byte k) m then k <| status_byte := Z.ldiff (status_byte k) m |> else k in
  let k := clear STATUS_OUTPUT_BUFFER_FULL k in
  let k := clear STATUS_MOUSE_BUFFER_FULL k in
  let k := clear STATUS_COMMAND_DATA_AVAIL k in
  (0, value, k).

(** ** Events of the host *)

Section events.
Context {C : Type} `{IntrCtrl C}.

Definition keyboard_interrupt (vm : v3_intr_state C) (irq : Z) : outcome (Z * v3_intr_state C) :=
  '(_, vm) ← v3_raise_irq vm irq;
  Done (0, vm).

Definition key_event_handler (k : keyboard_internal) (vm : v3_intr_state C) (scan_code : Z)
    : outcome (Z * keyboard_internal * v3_intr_state C) :=
  if flag (status_byte k) STATUS_ENABLED && negb (flag (cmd_byte k) CMD_DISABLE) then
    let k := push k scan_code DATA KEYBOARD in
    if flag (cmd_byte k) CMD_INTR then
      '(_, vm) ← keyboard_interrupt vm KEYBOARD_IRQ;
      Done (0, k, vm)
    else Done (0, k, vm)
  else Done (0, k, vm).

Definition mouse_event_handler (k : keyboard_internal) (vm : v3_intr_state C) (data : list Z)
    : outcome (Z * keyboard_internal * v3_intr_state C) :=
  let k := k <| mouse_packet := data |> in
  let k := k <| status_byte := Z.lor (status_byte k) STATUS_MOUSE_BUFFER_FULL |> in
  match mouse_state k with
  | STREAM1 | STREAM2 | STREAM3 =>
      if negb (flag (cmd_byte k) CMD_MOUSE_DISABLE) then
        '(_, vm) ← keyboard_interrupt vm MOUSE_IRQ;
        Done (0, k, vm)
      else Done (0, k, vm)
  | _ => Done (-1, k, vm)
  end.

End events.

Definition keyboard_reset_device (k : keyboard_internal) : Z * keyboard_internal :=
  let k := mk_keyboard_internal NORMAL RESET1 0 [0; 0; 0] 0 0 0 0 0 0 0 0 0 0 in
  let k := k <| state := NORMAL |> <| mouse_state := STREAM1 |> in
  let k := k <| cmd_byte := Z.lor (Z.lor CMD_INTR CMD_MOUSE_INTR) CMD_SYSTEM |> in
  let k := k <| status_byte := Z.lor STATUS_SYSTEM STATUS_ENABLED |> in
  (0, k <| output_byte := 0 |> <| input_byte := INPUT_RAM |>).

Definition keyboard_start_device (k : keyboard_internal) : Z * keyboard_internal := (0, k).
Definition keyboard_stop_device (k : keyboard_internal) : Z * keyboard_internal := (0, k).

(** ** The mouse *)

Definition mouse_read_input (k : keyboard_internal) : Z * keyboard_internal :=
  if negb (mouse_needs_ack k =? 0) then
    let k := k <| mouse_needs_ack := 0 |> in
    (if negb (mouse_done_after_ack k =? 0) then 1 else 0, k)
  else
    match mouse_state k with
    | RESET1 => (0, (push k 0xaa DATA MOUSE) <| mouse_state := RESET2 |>)
    | RESET2 => (1, (push k 0x00 DATA MOUSE) <| mouse_state := STREAM1 |>)
    | STREAM1 => (0, (push k (mouse_packet k !!! 0%nat) DATA MOUSE) <| mouse_state := STREAM2 |>)
    | STREAM2 => (0, (push k (mouse_packet k !!! 1%nat) DATA MOUSE) <| mouse_state := STREAM3 |>)
    | STREAM3 => (1, (push k (mouse_packet k !!! 2%nat) DATA MOUSE) <| mouse_state := STREAM1 |>)
    | REMOTE1 => (0, (push k (mouse_packet k !!! 0%nat) DATA MOUSE) <| mouse_state := REMOTE2 |>)
    | REMOTE2 => (0, (push k (mouse_packet k !!! 1%nat) DATA MOUSE) <| mouse_state := REMOTE3 |>)
    | REMOTE3 => (1, (push k (mouse_packet k !!! 2%nat) DATA MOUSE) <| mouse_state := REMOTE1 |>)
    | STATUS1 => (0, (push k 0x0 DATA MOUSE) <| mouse_state := STATUS2 |>)
    | STATUS2 => (0, (push k 0x0 DATA MOUSE) <| mouse_state := STATUS3 |>)
    | STATUS3 => (1, (push k 0x0 DATA MOUSE) <| mouse_state := STREAM1 |>)
    | DEVICE1 => (1, (push k 0x0 DATA MOUSE) <| mouse_state := STREAM1 |>)
    | _ => (1, k)
    end.

(** A command that the mouse acknowledges. *)
Definition mouse_ack (k : keyboard_internal) (done_after_ack needs_ack : Z) (next : mouse_state_t)
    : Z * keyboard_internal :=
  (0, (push k 0xfa DATA MOUSE) <| mouse_done_after_ack := done_after_ack |>
        <| mouse_needs_ack := needs_ack |> <| mouse_state := next |>).

Definition mouse_command (k : keyboard_internal) (data : Z) : Z * keyboard_internal :=
  match data with
  | 0xff => (1, push k 0xfe DATA MOUSE)
  | 0xfe => mouse_ack k 0 0 STREAM1
  | 0xf6 => mouse_ack k 1 1 STREAM1
  | 0xf5 => mouse_ack k 1 1 STREAM1
  | 0xf4 => mouse_ack k 1 1 STREAM1
  | 0xf3 => mouse_ack k 0 1 SAMPLE1
  | 0xf2 => mouse_ack k 0 1 DEVICE1
  | 0xf0 => mouse_ack k 1 1 REMOTE1
  | 0xee => mouse_ack k 1 1 STREAM1
  | 0xec => mouse_ack k 1 1 STREAM1
  | 0xeb => mouse_ack k 0 1 REMOTE1
  | 0xea => mouse_ack k 1 1 STREAM1
  | 0xe9 => mouse_ack k 0 1 STATUS1
  | 0xe8 => mouse_ack k 0 1 SETRES1
  | 0xe7 => mouse_ack k 1 1 STREAM1
  | 0xe6 => mouse_ack k 1 1 STREAM1
  | _ => (1, k)
  end.

Definition mouse_write_output (k : keyboard_internal) (data : Z) : Z * keyboard_internal :=
  match mouse_state k with
  | STREAM1 | STREAM2 | STREAM3 | REMOTE1 | REMOTE2 | REMOTE3 => mouse_command k data
  | _ => (1, k)
  end.

(** ** The ports *)

(** What a command that returns a byte does. *)
Definition answer (k : keyboard_internal) (v : Z) : keyboard_internal :=
  (push k v COMMAND KEYBOARD) <| state := NORMAL |>.

Definition keyboard_command (k : keyboard_internal) (cmd : Z) : keyboard_internal :=
  match cmd with
  | 0x20 => answer k (cmd_byte k)
  | 0x60 => k <| state := WRITING_CMD_BYTE |>
  | 0xa1 => answer k 0
  | 0xa4 => answer k 0xf1
  | 0xa5 => k <| state := TRANSMIT_PASSWD |>
  | 0xa6 => k <| state := NORMAL |>
  | 0xa7 => k <| cmd_byte := Z.lor (cmd_byte k) CMD_MOUSE_DISABLE |> <| state := NORMAL |>
  | 0xa8 => k <| cmd_byte := Z.ldiff (cmd_byte k) CMD_MOUSE_DISABLE |> <| state := NORMAL |>
  | 0xa9 => answer k 0
  | 0xaa => answer k 0x55
  | 0xab => answer k 0
  | 0xad => k <| cmd_byte := Z.lor (cmd_byte k) CMD_DISABLE |> <| state := NORMAL |>
  | 0xae => k <| cmd_byte := Z.ldiff (cmd_byte k) CMD_DISABLE |> <| state := NORMAL |>
  | 0xaf => answer k 0x00
  | 0xd0 => answer k (output_byte k)
  | 0xd1 => k <| state := WRITING_OUTPUT_PORT |>
  | 0xd2 => k <| state := INJECTING_KEY |>
  | 0xd3 => k <| state := INJECTING_MOUSE |>
  | 0xd4 => k <| state := IN_MOUSE |>
  | 0xc0 => answer k (input_byte k)
  | 0xc1 =>
      let k := k <| status_byte := Z.land (status_byte k) 0x0f |> in
      k <| status_byte := u8 (Z.lor (status_byte k) (Z.shiftl (Z.land (input_byte k) 0xf) 4)) |> <| state := NORMAL |>
  | 0xc2 =>
      let k := k <| status_byte := Z.land (status_byte k) 0x0f |> in
      k <| status_byte := u8 (Z.lor (status_byte k) (Z.land (input_byte k) 0xf0)) |> <| state := NORMAL |>
  | 0xe0 => answer k (Z.shiftr (output_byte k) 6)
  | _ => k <| state := NORMAL |>
  end.

(** [src]: the bytes at the source. *)
Definition keyboard_write_command (k : keyboard_internal) (src : list Z) (length : Z)
    : outcome (Z * keyboard_internal) :=
  if negb (length =? 1) then Done (-1, k) else
  match src with
  | [] => Undef
  | cmd :: _ => Done (1, keyboard_command k cmd)
  end.

(** The result, the bytes stored at the destination and the new state. *)
Definition keyboard_read_status (k : keyboard_internal) (length : Z) : Z * list Z * keyboard_internal :=
  if length =? 1 then (1, [status_byte k], k) else (-1, [], k).

Definition keyboard_data (k : keyboard_internal) (data : Z) : keyboard_internal :=
  match state k with
  | WRITING_CMD_BYTE => k <| cmd_byte := data |> <| state := NORMAL |>
  | WRITING_OUTPUT_PORT => k <| output_byte := data |> <| state := NORMAL |>
  | INJECTING_KEY => answer k data
  | INJECTING_MOUSE => k <| state := NORMAL |>
  | IN_MOUSE =>
      let '(done, k) := mouse_write_output k data in
      if negb (done =? 0) then k <| state := NORMAL |> else k
  | TRANSMIT_PASSWD => if negb (data =? 0) then k else k <| state := NORMAL |>
  | NORMAL =>
      match data with
      | 0xff => (push k 0xfa COMMAND KEYBOARD) <| state := RESET |>
      | 0xf5 | 0xf4 => answer k 0xfa
      | 0xfe | 0xfd | 0xfc | 0xfb | 0xfa | 0xf9 | 0xf8 | 0xf7 | 0xf6 | 0xf3 => k
      | _ => k <| status_byte := Z.lor (status_byte k) 0x1 |>
      end
  | RESET => k
  end.

Definition keyboard_write_output (k : keyboard_internal) (src : list Z) (length : Z)
    : outcome (Z * keyboard_internal) :=
  if negb (length =? 1) then Done (-1, k) else
  match src with
  | [] => Undef
  | data :: _ => Done (1, keyboard_data k data)
  end.

Definition keyboard_read_input (k : keyboard_internal) (length : Z) : Z * list Z * keyboard_internal :=
  if length =? 1 then
    let k :=
      if decide (state k = IN_MOUSE) then
        let '(done_mouse, k) := mouse_read_input k in
        if negb (done_mouse =? 0) then k <| state := NORMAL |> else k
      else k in
    let '(_, data, k) := PullFromOutputQueue k in
    let k := if decide (state k = RESET) then answer k 0xaa else k in
    (1, [data], k)
  else (-1, [], k).

(** ** The device *)

Section device.
Context {A : Arch} (default_read_ptr default_write_ptr : Z).

(** The addresses of the functions above. *)
Context (read_status_ptr write_command_ptr read_input_ptr write_output_ptr key_event_ptr mouse_event_ptr : Z).

Definition keyboard_hooks : list (Z * Z * Z) :=
  [(KEYBOARD_64H, read_status_ptr, write_command_ptr); (KEYBOARD_60H, read_input_ptr, write_output_ptr)].

(** [mallocs], [evt1], [evt2]: the results of V3_Malloc for the hooks. *)
Definition keyboard_init_device (m : DevMgr.vmm_dev_mgr) (e : HostEvents.v3_host_events)
    (k : keyboard_internal) (dev : Z) (mallocs : list (Z * Z)) (evt1 evt2 : Z)
    : outcome (Z * DevMgr.vmm_dev_mgr * HostEvents.v3_host_events * keyboard_internal) :=
  let '(_, k) := keyboard_reset_device k in
  m ← DevMgr.hook_ports default_read_ptr default_write_ptr m dev keyboard_hooks mallocs;
  '(_, e) ← HostEvents.v3_hook_host_event e evt1 HostEvents.HOST_KEYBOARD_EVT key_event_ptr dev;
  '(_, e) ← HostEvents.v3_hook_host_event e evt2 HostEvents.HOST_MOUSE_EVT mouse_event_ptr dev;
  Done (0, m, e, k).

Definition keyboard_deinit_device (m : DevMgr.vmm_dev_mgr) (k : keyboard_internal) (dev : Z)
    : outcome (Z * DevMgr.vmm_dev_mgr * keyboard_internal) :=
  m ← DevMgr.unhook_ports m dev [KEYBOARD_60H; KEYBOARD_64H];
  let '(_, k) := keyboard_reset_device k in
  Done (0, m, k).

Definition v3_create_keyboard (m : DevMgr.vmm_dev_mgr) (keyboard_state device dev_ops : Z)
    : outcome (Z * DevMgr.vmm_dev_mgr) :=
  m ← DevMgr.v3_create_device m device [75; 69; 89; 66; 79; 65; 82; 68] dev_ops keyboard_state;
  Done (device, m).

End device.
(** ** Flags and bytes *)

Lemma flag_testbit x i : 0 <= i -> flag x (2 ^ i) = Z.testbit x i.
Proof.
  intros Hi. unfold flag. destruct (Z.testbit x i) eqn:E.
  - apply negb_true_iff, Z.eqb_neq. intros H0. apply (f_equal (fun y => Z.testbit y i)) in H0.
    by rewrite Z.land_spec, Z.pow2_bits_true, E, Z.bits_0 in H0.
  - apply negb_false_iff, Z.eqb_eq, Z.bits_inj'. intros j Hj. rewrite Z.land_spec, Z.pow2_bits_eqb, Z.bits_0 by done.
    destruct (Z.eqb_spec i j) as [<-|]; [by rewrite E|apply andb_false_r].
Qed.

Lemma full_testbit x : flag x STATUS_OUTPUT_BUFFER_FULL = Z.testbit x 0.
Proof. by apply (flag_testbit x 0). Qed.

Lemma u8_land a : is_u 8 a <-> Z.land a 255 = a.
Proof.
  change 255 with (Z.ones 8). rewrite Z.land_ones by done. unfold is_u. split.
  - apply Z.mod_small.
  - intros <-. by apply Z.mod_pos_bound.
Qed.

Lemma u8_lor a b : is_u 8 a -> is_u 8 b -> is_u 8 (Z.lor a b).
Proof. rewrite !u8_land. intros Ha Hb. by rewrite Z.land_lor_distr_l, Ha, Hb. Qed.

Lemma u8_ldiff a b : is_u 8 a -> is_u 8 (Z.ldiff a b).
Proof.
  rewrite !u8_land. intros Ha. rewrite !Z.ldiff_land. rewrite <- Z.land_assoc, (Z.land_comm _ 255), Z.land_assoc.
  by rewrite Ha.
Qed.

(** ** What always holds *)

Record kbd_ok (k : keyboard_internal) : Prop := {
  ok_cmd : is_u 8 (cmd_byte k);
  ok_status : is_u 8 (status_byte k);
  ok_output : is_u 8 (output_byte k);
  ok_input : is_u 8 (input_byte k);
  ok_queue : is_u 8 (output_queue k);
  ok_len : output_queue_len k = 0 \/ output_queue_len k = 1;
  ok_full : output_queue_len k = 1 -> flag (status_byte k) STATUS_OUTPUT_BUFFER_FULL = true;
  ok_packet : length (mouse_packet k) = 3%nat /\ Forall (is_u 8) (mouse_packet k);
  ok_mouse : mouse_state k <> RESET1 /\ mouse_state k <> RESET2;
}.

Lemma push_ok k v c m : kbd_ok k -> is_u 8 v -> kbd_ok (push k v c m).
Proof.
  intros [] Hv. unfold push, PushToOutputQueue. rewrite orb_true_r. cbn [snd].
  destruct (negb (c =? 0)), (negb (m =? 0)); (split; cbn; try done; try by right);
    try (rewrite full_testbit, ?Z.lor_spec, ?Z.ldiff_spec; intros _; cbn; by rewrite ?orb_true_r);
    repeat first [apply u8_lor|apply u8_ldiff]; done.
Qed.

Lemma state_ok k s : kbd_ok k -> kbd_ok (k <| state := s |>).
Proof. by intros []. Qed.

Lemma answer_ok k v : kbd_ok k -> is_u 8 v -> kbd_ok (answer k v).
Proof. intros Hk Hv. by apply state_ok, push_ok. Qed.

Lemma mouse_state_ok k s : kbd_ok k -> s <> RESET1 -> s <> RESET2 -> kbd_ok (k <| mouse_state := s |>).
Proof. by intros []. Qed.

Lemma mouse_read_ok k : kbd_ok k -> kbd_ok (mouse_read_input k).2.
Proof.
  intros Hk. unfold mouse_read_input. destruct (negb (mouse_needs_ack k =? 0)); [by destruct Hk|].
  assert (forall i, is_u 8 (mouse_packet k !!! i)) as Hp.
  { intros i. rewrite list_lookup_total_alt. destruct (mouse_packet k !! i) eqn:E; [|by split; vm_compute].
    eapply Forall_lookup_1; [apply Hk|done]. }
  destruct (ok_mouse _ Hk) as [H1 H2].
  destruct (mouse_state k); cbn [snd]; try done; (apply mouse_state_ok; [by apply push_ok|done..]).
Qed.

Lemma mouse_ack_ok k d n s : kbd_ok k -> s <> RESET1 -> s <> RESET2 -> kbd_ok (mouse_ack k d n s).2.
Proof.
  intros Hk H1 H2. apply mouse_state_ok; [|done..]. destruct (push_ok k 0xfa DATA MOUSE Hk ltac:(done)). by split.
Qed.

Lemma mouse_write_ok k b : kbd_ok k -> kbd_ok (mouse_write_output k b).2.
Proof.
  intros Hk. assert (kbd_ok (mouse_command k b).2) as Hc.
  { unfold mouse_command. repeat case_match; cbn [snd]; first [done | by apply mouse_ack_ok | by apply push_ok]. }
  unfold mouse_write_output. by destruct (mouse_state k).
Qed.

Lemma command_ok k cmd : kbd_ok k -> kbd_ok (keyboard_command k cmd).
Proof.
  intros Hk. unfold keyboard_command.
  assert (forall c, is_u 8 c -> kbd_ok (k <| cmd_byte := c |> <| state := NORMAL |>)) as Hc.
  { intros c Hc. apply state_ok. destruct Hk. by split. }
  assert (forall y, kbd_ok (k <| status_byte := Z.land (status_byte k) 0x0f |>
    <| status_byte := u8 (Z.lor (Z.land (status_byte k) 0x0f) y) |> <| state := NORMAL |>)) as Hs.
  { intros y. apply state_ok. destruct Hk. split; try done; cbn; [by apply wrap_range|].
    rewrite !full_testbit in *. intros Hl. unfold wrap. rewrite Z.mod_pow2_bits_low, Z.lor_spec, Z.land_spec by done.
    by rewrite ok_full0. }
  assert (is_u 8 (Z.shiftr (output_byte k) 6)).
  { destruct Hk. rewrite Z.shiftr_div_pow2 by done. unfold is_u in *. Z.div_mod_to_equations. lia. }
  repeat case_match; first [by apply state_ok | apply answer_ok; by try apply Hk | apply Hs
    | apply Hc; first [apply u8_lor | apply u8_ldiff]; by try apply Hk].
Qed.

Lemma data_ok k b : kbd_ok k -> is_u 8 b -> kbd_ok (keyboard_data k b).
Proof.
  intros Hk Hb. unfold keyboard_data. pose proof (mouse_write_ok k b Hk) as Hm.
  destruct (state k).
  - assert (kbd_ok (k <| status_byte := Z.lor (status_byte k) 0x1 |>)) as Hs.
    { destruct Hk. split; try done; cbn; [by apply u8_lor|].
      intros _. rewrite full_testbit, Z.lor_spec. apply orb_true_r. }
    repeat case_match; first [done | by apply answer_ok | by apply state_ok, push_ok].
  - apply state_ok. destruct Hk. by split.
  - case_match; [done|by apply state_ok].
  - done.
  - apply state_ok. destruct Hk. by split.
  - by apply answer_ok.
  - by apply state_ok.
  - destruct (mouse_write_output k b) as [d k']. cbn [snd] in Hm. case_match; [by apply state_ok|done].
Qed.

Lemma pull_ok k : kbd_ok k -> kbd_ok (PullFromOutputQueue k).2 /\ is_u 8 (PullFromOutputQueue k).1.2.
Proof.
  intros []. unfold PullFromOutputQueue. cbn [fst snd]. split; [|done].
  repeat case_match; (split; cbn; first [done | by left | by repeat apply u8_ldiff]).
Qed.

Lemma read_input_ok k : kbd_ok k -> exists b k', keyboard_read_input k 1 = (1, [b], k') /\ is_u 8 b /\ kbd_ok k'.
Proof.
  intros Hk. unfold keyboard_read_input. cbn [Z.eqb Pos.eqb]. cbv zeta.
  set (k1 := if decide (state k = IN_MOUSE) then _ else k).
  assert (kbd_ok k1) as Hk1.
  { subst k1. case_decide; [|done]. pose proof (mouse_read_ok k Hk) as Hm.
    destruct (mouse_read_input k) as [d k']. cbn [snd] in Hm. case_match; [by apply state_ok|done]. }
  clearbody k1. destruct (pull_ok k1 Hk1) as [Hp Hb]. destruct (PullFromOutputQueue k1) as [[r b] k2].
  cbn [fst snd] in *. eexists b, _. split; [done|]. split; [done|]. case_decide; [by apply answer_ok|done].
Qed.

(** ** Runs of the device *)

(** Byte accesses of the guest, and events of the host. *)
Inductive kbd_op :=
| write_64 (b : Z)
| write_60 (b : Z)
| read_64
| read_60
| key_event (scan_code : Z)
| mouse_event (data : list Z).

Definition op_ok (o : kbd_op) : Prop :=
  match o with
  | write_64 b | write_60 b | key_event b => is_u 8 b
  | mouse_event d => length d = 3%nat /\ Forall (is_u 8) d
  | _ => True
  end.

Section run.
Context {C : Type} `{IntrCtrl C}.

(** The result of the operation and what a read stores. *)
Definition kbd_step (k : keyboard_internal) (vm : v3_intr_state C) (o : kbd_op)
    : outcome (Z * list Z * keyboard_internal * v3_intr_state C) :=
  match o with
  | write_64 b => '(r, k) ← keyboard_write_command k [b] 1; Done (r, [], k, vm)
  | write_60 b => '(r, k) ← keyboard_write_output k [b] 1; Done (r, [], k, vm)
  | read_64 => let '(r, bs, k) := keyboard_read_status k 1 in Done (r, bs, k, vm)
  | read_60 => let '(r, bs, k) := keyboard_read_input k 1 in Done (r, bs, k, vm)
  | key_event sc => '(r, k, vm) ← key_event_handler k vm sc; Done (r, [], k, vm)
  | mouse_event d => '(r, k, vm) ← mouse_event_handler k vm d; Done (r, [], k, vm)
  end.

Fixpoint kbd_run (k : keyboard_internal) (vm : v3_intr_state C) (ops : list kbd_op)
    : outcome (list (Z * list Z) * keyboard_internal * v3_intr_state C) :=
  match ops with
  | [] => Done ([], k, vm)
  | o :: ops =>
      '(r, bs, k, vm) ← kbd_step k vm o;
      '(rs, k, vm) ← kbd_run k vm ops;
      Done ((r, bs) :: rs, k, vm)
  end.

(** The controller takes requests on the lines of the keyboard and the mouse. *)
Definition lines_ok (vm : v3_intr_state C) : Prop :=
  takes (fun irq => irq = KEYBOARD_IRQ \/ irq = MOUSE_IRQ) vm.

Lemma interrupt_done vm irq :
  lines_ok vm -> irq = KEYBOARD_IRQ \/ irq = MOUSE_IRQ ->
  exists vm', keyboard_interrupt vm irq = Done (0, vm') /\ lines_ok vm'.
Proof.
  intros Hv Hi. destruct (raise_takes _ vm irq Hv Hi) as (vm' & E & Hv').
  unfold keyboard_interrupt. rewrite E. run. by exists vm'.
Qed.

(** What an operation returns: ports give 1 and reads one byte; only mouse events can fail. *)
Definition result_ok (o : kbd_op) (r : Z) (bs : list Z) : Prop :=
  match o with
  | read_64 | read_60 => r = 1 /\ exists b, bs = [b] /\ is_u 8 b
  | write_64 _ | write_60 _ => r = 1 /\ bs = []
  | key_event _ => r = 0 /\ bs = []
  | mouse_event _ => (r = 0 \/ r = -1) /\ bs = []
  end.

Lemma kbd_step_ok k vm o :
  kbd_ok k -> lines_ok vm -> op_ok o ->
  exists r bs k' vm', kbd_step k vm o = Done (r, bs, k', vm') /\ kbd_ok k' /\ lines_ok vm' /\ result_ok o r bs.
Proof.
  intros Hk Hv Ho. destruct o as [b|b| | |sc|d]; cbn [kbd_step op_ok result_ok] in *.
  - eexists _, _, _, _. split; [done|]. split; [by apply command_ok|done].
  - eexists _, _, _, _. split; [done|]. split; [by apply data_ok|done].
  - eexists _, _, k, vm. split; [done|]. split_and!; try done. exists (status_byte k). split; [done|apply Hk].
  - destruct (read_input_ok k Hk) as (b & k' & -> & Hb & Hk'). eexists _, _, k', vm. split; [done|].
    split_and!; try done. by exists b.
  - unfold key_event_handler. pose proof (push_ok k sc DATA KEYBOARD Hk Ho) as Hk'.
    case_match; [|by eexists _, _, k, vm].
    case_match; [|by eexists _, _, _, vm].
    destruct (interrupt_done vm KEYBOARD_IRQ Hv) as (vm' & -> & Hv'); [by left|]. run. by eexists _, _, _, vm'.
  - unfold mouse_event_handler. cbv zeta. set (k' := (k <| mouse_packet := d |>) <| status_byte := _ |>).
    assert (kbd_ok k') as Hk'.
    { destruct Hk. split; try done; cbn; [by apply u8_lor|]. rewrite !full_testbit in *. intros Hl.
      by rewrite Z.lor_spec, ok_full0. }
    destruct (interrupt_done vm MOUSE_IRQ Hv) as (vm' & Hi & Hv'); [by right|].
    destruct (mouse_state k'); try (eexists _, _, k', vm; split; [done|]; split_and!; try done; by right);
      (case_match; [rewrite Hi; run; eexists _, _, k', vm'|eexists _, _, k', vm];
       (split; [done|]; split_and!; try done; by left)).
Qed.

(** C31. The controller stays well-formed and answers: from any well-formed state, as the one after
    reset, through any sequence of guest accesses and host events, every access of the guest
    returns 1, every read gives one byte, the registers stay bytes, and a byte in the output
    queue always shows in the status register. *)
Theorem kbd_run_ok k vm ops :
  kbd_ok k -> lines_ok vm -> Forall op_ok ops ->
  exists rs k' vm', kbd_run k vm ops = Done (rs, k', vm') /\ kbd_ok k' /\
    Forall2 (fun o r => result_ok o r.1 r.2) ops rs.
Proof.
  intros Hk Hv Ho. revert k vm Hk Hv. induction Ho as [|o ops Ho _ IH]; intros k vm Hk Hv.
  - exists [], k, vm. split_and!; [done..|constructor].
  - destruct (kbd_step_ok k vm o Hk Hv Ho) as (r & bs & k1 & vm1 & H1 & Hk1 & Hv1 & Hr1).
    destruct (IH k1 vm1 Hk1 Hv1) as (rs & k2 & vm2 & H2 & Hk2 & Hr2).
    exists ((r, bs) :: rs), k2, vm2. cbn [kbd_run]. rewrite H1. run. rewrite H2. run.
    split; [done|]. split; [done|]. by constructor.
Qed.

End run.

Lemma reset_ok k : kbd_ok (keyboard_reset_device k).2.
Proof. split; try done; [by left|]. split; [done|]. by repeat constructor. Qed.

(** ** Dialogues *)

Lemma push_eq k v c m : exists s,
  push k v c m = k <| output_queue := v |> <| output_queue_len := 1 |> <| status_byte := s |>.
Proof.
  unfold push, PushToOutputQueue. rewrite orb_true_r. destruct (negb (c =? 0)), (negb (m =? 0)); by eexists.
Qed.

Lemma pull_eq k : exists s,
  PullFromOutputQueue k = (0, output_queue k, k <| output_queue_len := 0 |> <| status_byte := s |>).
Proof. unfold PullFromOutputQueue. repeat case_match; by eexists. Qed.

Lemma read_normal k : state k = NORMAL -> exists s,
  keyboard_read_input k 1 = (1, [output_queue k], k <| output_queue_len := 0 |> <| status_byte := s |>).
Proof.
  intros Hs. unfold keyboard_read_input. rewrite Hs. destruct (pull_eq k) as [s Hp]. exists s.
  rewrite decide_False by done. rewrite Hp. cbn. rewrite Hs. by rewrite decide_False.
Qed.

(** One access of a run. *)
Section steps.
Context {C : Type} `{IntrCtrl C}.

Lemma run_write_64 k (vm : v3_intr_state C) b ops k1 :
  keyboard_command k b = k1 -> kbd_run k vm (write_64 b :: ops) =
    ('(rs, k, vm) ← kbd_run k1 vm ops; Done ((1, []) :: rs, k, vm)).
Proof. by intros <-. Qed.

Lemma run_write_60 k (vm : v3_intr_state C) b ops k1 :
  keyboard_data k b = k1 -> kbd_run k vm (write_60 b :: ops) =
    ('(rs, k, vm) ← kbd_run k1 vm ops; Done ((1, []) :: rs, k, vm)).
Proof. by intros <-. Qed.

Lemma run_read_60 k (vm : v3_intr_state C) ops b k1 :
  keyboard_read_input k 1 = (1, [b], k1) -> kbd_run k vm (read_60 :: ops) =
    ('(rs, k, vm) ← kbd_run k1 vm ops; Done ((1, [b]) :: rs, k, vm)).
Proof. intros Hr. cbn [kbd_run kbd_step]. by rewrite Hr. Qed.

End steps.

Lemma read_answer k v : exists k', keyboard_read_input (answer k v) 1 = (1, [v], k') /\
  cmd_byte k' = cmd_byte k /\ output_byte k' = output_byte k /\ state k' = NORMAL.
Proof.
  destruct (read_normal (answer k v) eq_refl) as [s ->]. unfold answer.
  destruct (push_eq k v COMMAND KEYBOARD) as [s0 ->]. by eexists.
Qed.

(** The registers behind the controller read back: in whatever state the device is, the command
    byte and the output port that a guest writes are what it reads, and the self test succeeds. *)
Theorem kbd_roundtrips {C} `{IntrCtrl C} k (vm : v3_intr_state C) b :
  (exists k', kbd_run k vm [write_64 0x60; write_60 b; write_64 0x20; read_60] =
     Done ([(1, []); (1, []); (1, []); (1, [b])], k', vm) /\ cmd_byte k' = b /\ state k' = NORMAL) /\
  (exists k', kbd_run k vm [write_64 0xd1; write_60 b; write_64 0xd0; read_60] =
     Done ([(1, []); (1, []); (1, []); (1, [b])], k', vm) /\ output_byte k' = b /\ state k' = NORMAL) /\
  (exists k', kbd_run k vm [write_64 0xaa; read_60] = Done ([(1, []); (1, [0x55])], k', vm)).
Proof.
  split_and!.
  - set (k1 := k <| state := WRITING_CMD_BYTE |> <| cmd_byte := b |> <| state := NORMAL |>).
    destruct (read_answer k1 b) as (k' & Hr & H1 & _ & H3). exists k'. split; [|done].
    rewrite (run_write_64 k vm 0x60 _ _ eq_refl), (run_write_60 (keyboard_command k 0x60) vm b _ k1 eq_refl).
    rewrite (run_write_64 k1 vm 0x20 _ (answer k1 b) eq_refl), (run_read_60 _ vm _ _ _ Hr). done.
  - set (k1 := k <| state := WRITING_OUTPUT_PORT |> <| output_byte := b |> <| state := NORMAL |>).
    destruct (read_answer k1 b) as (k' & Hr & _ & H2 & H3). exists k'. split; [|done].
    rewrite (run_write_64 k vm 0xd1 _ _ eq_refl), (run_write_60 (keyboard_command k 0xd1) vm b _ k1 eq_refl).
    rewrite (run_write_64 k1 vm 0xd0 _ (answer k1 b) eq_refl), (run_read_60 _ vm _ _ _ Hr). done.
  - destruct (read_answer k 0x55) as (k' & Hr & _). exists k'.
    rewrite (run_write_64 k vm 0xaa _ (answer k 0x55) eq_refl), (run_read_60 _ vm _ _ _ Hr). done.
Qed.

(** ** The mouse *)

(** The device [k] in the course of a dialogue with the mouse. *)
Definition dial (k : keyboard_internal) (st : kbd_state) (ms : mouse_state_t) (ack done q len s : Z)
    : keyboard_internal :=
  k <| state := st |> <| mouse_state := ms |> <| mouse_needs_ack := ack |> <| mouse_done_after_ack := done |>
    <| output_queue := q |> <| output_queue_len := len |> <| status_byte := s |>.

(** The byte that a read gets in a state of the mouse, the next state, and whether it was the last. *)
Definition mouse_next (p : list Z) (ms : mouse_state_t) : option (Z * mouse_state_t * bool) :=
  match ms with
  | STREAM1 => Some (p !!! 0%nat, STREAM2, false)
  | STREAM2 => Some (p !!! 1%nat, STREAM3, false)
  | STREAM3 => Some (p !!! 2%nat, STREAM1, true)
  | REMOTE1 => Some (p !!! 0%nat, REMOTE2, false)
  | REMOTE2 => Some (p !!! 1%nat, REMOTE3, false)
  | REMOTE3 => Some (p !!! 2%nat, REMOTE1, true)
  | STATUS1 => Some (0, STATUS2, false)
  | STATUS2 => Some (0, STATUS3, false)
  | STATUS3 => Some (0, STREAM1, true)
  | DEVICE1 => Some (0, STREAM1, true)
  | _ => None
  end.

Lemma read_mouse k done k1 :
  state k = IN_MOUSE -> mouse_read_input k = (done, k1) -> state k1 = IN_MOUSE ->
  exists s, keyboard_read_input k 1 = (1, [output_queue k1],
    k1 <| state := if done =? 0 then IN_MOUSE else NORMAL |> <| output_queue_len := 0 |> <| status_byte := s |>).
Proof.
  intros Hs Hm Hs1. unfold keyboard_read_input. rewrite decide_True, Hm by done. cbn [Z.eqb Pos.eqb].
  destruct (done =? 0); cbn [negb].
  - destruct (pull_eq k1) as [s ->]. exists s. cbn. rewrite Hs1, decide_False by done.
    destruct k1; cbn in Hs1. by subst.
  - destruct (pull_eq (k1 <| state := NORMAL |>)) as [s ->]. exists s. cbn. by rewrite decide_False.
Qed.

Lemma read_ack k ms done q len s : exists s',
  keyboard_read_input (dial k IN_MOUSE ms 1 done q len s) 1 =
    (1, [q], dial k (if done =? 0 then IN_MOUSE else NORMAL) ms 0 done q 0 s').
Proof.
  destruct (read_mouse (dial k IN_MOUSE ms 1 done q len s) (if negb (done =? 0) then 1 else 0)
    (dial k IN_MOUSE ms 0 done q len s)) as [s' ->]; [done..|]. exists s'. by destruct (done =? 0).
Qed.

Lemma read_data k ms done q len s v ms' last :
  mouse_next (mouse_packet k) ms = Some (v, ms', last) -> exists s',
  keyboard_read_input (dial k IN_MOUSE ms 0 done q len s) 1 =
    (1, [v], dial k (if last : bool then NORMAL else IN_MOUSE) ms' 0 done v 0 s').
Proof.
  intros Hn. set (k0 := dial k IN_MOUSE ms 0 done q len s).
  destruct (push_eq k0 v DATA MOUSE) as [s1 Hp].
  assert (mouse_read_input k0 = (if last then 1 else 0, (push k0 v DATA MOUSE) <| mouse_state := ms' |>)) as Hm.
  { unfold mouse_next in Hn. destruct ms; by simplify_eq. }
  rewrite Hp in Hm. destruct (read_mouse k0 _ _ eq_refl Hm eq_refl) as [s' ->]. exists s'. by destruct last.
Qed.

(** The states in which the mouse takes commands. *)
Definition mouse_idle (ms : mouse_state_t) : bool :=
  match ms with
  | STREAM1 | STREAM2 | STREAM3 | REMOTE1 | REMOTE2 | REMOTE3 => true
  | _ => false
  end.

(** What the mouse answers: acknowledgement, identification, status, and the last packet.  The
    acknowledgement of the resend command is overwritten by the packet.  The reset command is
    answered by 0xfe, for no mouse, and not by the acknowledgement, the BAT code and the
    identification that the states RESET1 and RESET2 are for.  The commands 0xf3 and 0xe8,
    after which the mouse waits for an argument, are not in the table. *)
Definition mouse_answer (p : list Z) (c : Z) : option (list Z) :=
  let packet := [p !!! 0%nat; p !!! 1%nat; p !!! 2%nat] in
  match c with
  | 0xff => Some [0xfe]
  | 0xfe => Some packet
  | 0xf6 | 0xf5 | 0xf4 | 0xf0 | 0xee | 0xec | 0xea | 0xe7 | 0xe6 => Some [0xfa]
  | 0xf2 => Some [0xfa; 0]
  | 0xeb => Some (0xfa :: packet)
  | 0xe9 => Some [0xfa; 0; 0; 0]
  | _ => None
  end.

Lemma ack_dial k done ack ms : exists s,
  mouse_ack (k <| state := IN_MOUSE |>) done ack ms = (0, dial k IN_MOUSE ms ack done 0xfa 1 s).
Proof.
  unfold mouse_ack. destruct (push_eq (k <| state := IN_MOUSE |>) 0xfa DATA MOUSE) as [s ->]. exists s.
  by destruct k.
Qed.

Lemma data_mouse k c done k1 :
  state k = IN_MOUSE -> mouse_idle (mouse_state k) = true -> mouse_command k c = (done, k1) ->
  keyboard_data k c = if negb (done =? 0) then k1 <| state := NORMAL |> else k1.
Proof.
  intros Hs Hi Hm. unfold keyboard_data. rewrite Hs.
  assert (mouse_write_output k c = (done, k1)) as ->; [|done].
  unfold mouse_write_output. by destruct (mouse_state k).
Qed.

Section dialogues.
Context {C : Type} `{IntrCtrl C}.

(** A command to an idle mouse. *)
Lemma run_mouse_command k (vm : v3_intr_state C) c ops done k1 :
  mouse_idle (mouse_state k) = true -> mouse_command (k <| state := IN_MOUSE |>) c = (done, k1) ->
  kbd_run k vm (write_64 0xd4 :: write_60 c :: ops) =
    ('(rs, k, vm) ← kbd_run (if negb (done =? 0) then k1 <| state := NORMAL |> else k1) vm ops;
     Done ((1, []) :: (1, []) :: rs, k, vm)).
Proof.
  intros Hi Hm. set (k0 := k <| state := IN_MOUSE |>) in *. rewrite (run_write_64 k vm 0xd4 _ k0 eq_refl).
  rewrite (run_write_60 _ vm c ops _ (data_mouse k0 c done k1 eq_refl Hi Hm)).
  by destruct (kbd_run _ vm ops) as [[[? ?] ?]| |].
Qed.

Lemma run_acked k (vm : v3_intr_state C) c ops done ack ms :
  mouse_idle (mouse_state k) = true ->
  mouse_command (k <| state := IN_MOUSE |>) c = mouse_ack (k <| state := IN_MOUSE |>) done ack ms ->
  exists s, kbd_run k vm (write_64 0xd4 :: write_60 c :: ops) =
    ('(rs, k, vm) ← kbd_run (dial k IN_MOUSE ms ack done 0xfa 1 s) vm ops;
     Done ((1, []) :: (1, []) :: rs, k, vm)).
Proof.
  intros Hi Hm. destruct (ack_dial k done ack ms) as [s Ha]. rewrite Ha in Hm. exists s.
  by rewrite (run_mouse_command k vm c ops 0 _ Hi Hm).
Qed.

End dialogues.

(** Acknowledged commands, and the reads that follow. *)
Ltac acked :=
  match goal with |- context [kbd_run ?k ?vm (write_64 0xd4 :: write_60 ?c :: ?ops)] =>
    let s := fresh "s" in let E := fresh in
    edestruct (run_acked k vm c ops) as [s E]; [eassumption|cbn [mouse_command]; reflexivity|]; rewrite E; clear E
  end.

Ltac reads :=
  repeat first
    [ match goal with |- context [kbd_run (dial ?k IN_MOUSE ?ms 1 ?d ?q ?l ?s) ?vm (read_60 :: ?ops)] =>
        let H := fresh in let s' := fresh "s" in
        destruct (read_ack k ms d q l s) as [s' H]; apply (run_read_60 _ vm ops) in H; rewrite H; clear H;
        cbn [Z.eqb] end
    | match goal with |- context [kbd_run (dial ?k IN_MOUSE ?ms 0 ?d ?q ?l ?s) ?vm (read_60 :: ?ops)] =>
        let H := fresh in let s' := fresh "s" in
        edestruct (read_data k ms d q l s) as [s' H]; [reflexivity|];
        apply (run_read_60 _ vm ops) in H; rewrite H; clear H; cbv iota end ].

(** C33. The mouse answers: in a state in which it takes commands, each command of the table
    [mouse_answer], which are those of its protocol but 0xf3 and 0xe8, sent through command
    0xd4, is answered by exactly the bytes of the table, after which the controller is back in
    normal mode and the mouse takes commands.  The answer to the reset command 0xff is the one
    byte 0xfe, with which the code pretends that there is no mouse. *)
Theorem mouse_answers {C} `{IntrCtrl C} k (vm : v3_intr_state C) c resp :
  mouse_idle (mouse_state k) = true -> mouse_answer (mouse_packet k) c = Some resp ->
  exists k', kbd_run k vm (write_64 0xd4 :: write_60 c :: replicate (length resp) read_60) =
      Done ((1, []) :: (1, []) :: ((fun b => (1, [b])) <$> resp), k', vm) /\
    state k' = NORMAL /\ mouse_idle (mouse_state k') = true.
Proof.
  intros Hi Ha. unfold mouse_answer in Ha.
  repeat (case_match; try discriminate Ha); injection Ha as <-; cbn [length replicate]; subst.
  2-14: acked; reads; eexists; split; [reflexivity|]; done.
  destruct (push_eq (k <| state := IN_MOUSE |>) 0xfe DATA MOUSE) as [s Hp].
  erewrite run_mouse_command; [|done|cbn [mouse_command]; by rewrite Hp]. cbn [Z.eqb negb].
  destruct (read_normal ((k <| state := IN_MOUSE |>) <| output_queue := 0xfe |> <| output_queue_len := 1 |>
    <| status_byte := s |> <| state := NORMAL |>)) as [s' Hr]; [reflexivity|].
  cbn [replicate]. rewrite (run_read_60 _ vm _ _ _ Hr). by eexists.
Qed.

(** The states in which the mouse waits for an argument that it never takes. *)
Definition mouse_stuck (ms : mouse_state_t) : Prop := ms = SAMPLE1 \/ ms = SETRES1.

Definition refused (o : kbd_op) (r : Z) : Prop := match o with mouse_event _ => r = -1 | _ => True end.

Lemma answer_mouse k v : mouse_state (answer k v) = mouse_state k.
Proof. unfold answer. by destruct (push_eq k v COMMAND KEYBOARD) as [s ->]. Qed.

Lemma command_mouse k b : mouse_state (keyboard_command k b) = mouse_state k.
Proof. unfold keyboard_command. repeat case_match; first [done | apply answer_mouse]. Qed.

Lemma data_mouse_state k b : mouse_stuck (mouse_state k) -> mouse_state (keyboard_data k b) = mouse_state k.
Proof.
  intros Hs. unfold keyboard_data. destruct (state k); try done.
  - repeat case_match; first [done | apply answer_mouse | by destruct (push_eq k 0xfa COMMAND KEYBOARD) as [s ->]].
  - by case_match.
  - apply answer_mouse.
  - assert (mouse_write_output k b = (1, k)) as ->; [|done].
    unfold mouse_write_output. by destruct Hs as [-> | ->].
Qed.

Lemma read_input_mouse k bs k' r :
  mouse_stuck (mouse_state k) -> keyboard_read_input k 1 = (r, bs, k') -> mouse_state k' = mouse_state k.
Proof.
  intros Hs. unfold keyboard_read_input. cbn [Z.eqb Pos.eqb]. cbv zeta.
  set (k1 := if decide (state k = IN_MOUSE) then _ else k).
  assert (mouse_state k1 = mouse_state k) as <-.
  { subst k1. case_decide; [|done]. unfold mouse_read_input.
    destruct (negb (mouse_needs_ack k =? 0)); [by repeat case_match|]. destruct Hs as [E|E]; rewrite E; exact E. }
  clearbody k1. destruct (pull_eq k1) as [s ->]. intros [= <- <- <-]. case_decide; [|done].
  by rewrite answer_mouse.
Qed.

Lemma stuck_step {C} `{IntrCtrl C} k (vm : v3_intr_state C) o r bs k' vm' :
  mouse_stuck (mouse_state k) -> kbd_step k vm o = Done (r, bs, k', vm') ->
  mouse_state k' = mouse_state k /\ refused o r.
Proof.
  intros Hs. destruct o as [b|b| | |sc|d]; cbn [kbd_step refused].
  - intros [= <- <- <- <-]. split; [apply command_mouse|done].
  - intros [= <- <- <- <-]. split; [by apply data_mouse_state|done].
  - by intros [= <- <- <- <-].
  - destruct (keyboard_read_input k 1) as [[r0 bs0] k0] eqn:E. intros [= <- <- <- <-]. split; [|done].
    by eapply read_input_mouse.
  - unfold key_event_handler. destruct (push_eq k sc DATA KEYBOARD) as [s ->].
    case_match; [|run; by intros [= <- <- <- <-]]. case_match; [|run; by intros [= <- <- <- <-]].
    intros ([[r0 k0] vm0] & ([r1 vm1] & _ & [= <- <- <-])%outcome_bind_inv & [= <- <- <- <-])%outcome_bind_inv. done.
  - unfold mouse_event_handler. change (mouse_state (_ <| status_byte := _ |>)) with (mouse_state k).
    destruct Hs as [E|E]; rewrite E; run; by intros [= <- <- <- <-].
Qed.

(** C34. The commands 0xf3 and 0xe8 end the mouse: after the guest has sent one of them, the mouse
    never takes another command or event.  Whatever the guest does and the host reports from then
    on, the mouse stays in the state that waits for the argument, and every mouse event fails. *)
Theorem mouse_stuck_forever {C} `{IntrCtrl C} k (vm : v3_intr_state C) c ops :
  kbd_ok k -> lines_ok vm -> mouse_idle (mouse_state k) = true -> c = 0xf3 \/ c = 0xe8 -> Forall op_ok ops ->
  exists rs k' vm', kbd_run k vm (write_64 0xd4 :: write_60 c :: ops) = Done ((1, []) :: (1, []) :: rs, k', vm') /\
    mouse_state k' = (if c =? 0xf3 then SAMPLE1 else SETRES1) /\ Forall2 (fun o r => refused o r.1) ops rs.
Proof.
  intros Hk Hv Hi Hc Hops. set (ms := if c =? 0xf3 then SAMPLE1 else SETRES1).
  set (k0 := k <| state := IN_MOUSE |>). set (k1 := keyboard_data k0 c).
  rewrite (run_write_64 k vm 0xd4 _ k0 eq_refl), (run_write_60 k0 vm c ops k1 eq_refl).
  assert (kbd_ok k1) as Hk1 by (apply data_ok; [by apply state_ok|by destruct Hc as [-> | ->]]).
  assert (mouse_state k1 = ms) as Hms.
  { destruct (ack_dial k 0 1 ms) as [s Ha]. fold k0 in Ha. subst k1.
    rewrite (data_mouse k0 c 0 (dial k IN_MOUSE ms 1 0 0xfa 1 s)); [done|done|done|].
    rewrite <- Ha. subst ms. by destruct Hc as [-> | ->]. }
  assert (mouse_stuck ms) as Hs by (subst ms; destruct Hc as [-> | ->]; [by left|by right]).
  assert (exists rs k' vm', kbd_run k1 vm ops = Done (rs, k', vm') /\ mouse_state k' = ms /\
    Forall2 (fun o r => refused o r.1) ops rs) as (rs & k' & vm' & -> & H1 & H2); [|by exists rs, k', vm'].
  clearbody ms k1. clear Hk Hi Hc. revert k1 vm Hk1 Hv Hms. induction Hops as [|o ops Ho _ IH]; intros k1 vm Hk1 Hv Hms.
  - exists [], k1, vm. split_and!; [done..|constructor].
  - destruct (kbd_step_ok k1 vm o Hk1 Hv Ho) as (r & bs & k2 & vm2 & E2 & Hk2 & Hv2 & _).
    destruct (stuck_step k1 vm o r bs k2 vm2) as [Hms2 Hr]; [by rewrite Hms|done|].
    destruct (IH k2 vm2 Hk2 Hv2) as (rs & k' & vm' & E' & H1 & H2); [congruence|].
    exists ((r, bs) :: rs), k', vm'. cbn [kbd_run]. rewrite E2. run. rewrite E'. run.
    split; [done|]. split; [done|]. by constructor.
Qed.

(** ** Witnesses *)

(** A controller that counts its requests. *)
#[local] Instance key_counter : IntrCtrl Z :=
  {| intr_pending c := c; get_intr_number _ := 0; raise_intr c _ := Done (0, c + 1);
     lower_intr c _ := Done (0, c); begin_irq c _ := Done (0, c) |}.

Definition key_vm : v3_intr_state Z := mk_v3_intr_state (mk_v3_excp_state 0 0 0 0) (Some 0) [].

Definition new_kbd : keyboard_internal :=
  (keyboard_reset_device (mk_keyboard_internal RESET RESET1 0 [] 0 0 0 0 0 0 0 0 0 0)).2.

Lemma key_vm_lines : lines_ok key_vm.
Proof. split; [by eexists|]. intros c irq _. by eexists _, _. Qed.

Lemma kbd_run_ok_witness : exists rs k' vm',
  kbd_run new_kbd key_vm [key_event 0x1e; read_64; read_60; mouse_event [8; 1; 2]] = Done (rs, k', vm') /\ kbd_ok k'.
Proof.
  destruct (kbd_run_ok new_kbd key_vm [key_event 0x1e; read_64; read_60; mouse_event [8; 1; 2]]
    (reset_ok _) key_vm_lines) as (rs & k' & vm' & H1 & H2 & _); [|by exists rs, k', vm'].
  repeat (apply Forall_cons; split; [try done|]); [|constructor]. split; [done|]. by repeat constructor.
Defined.

Lemma mouse_answers_witness : exists k',
  kbd_run (new_kbd <| mouse_packet := [8; 1; 2] |>) key_vm
    [write_64 0xd4; write_60 0xeb; read_60; read_60; read_60; read_60] =
    Done ([(1, []); (1, []); (1, [0xfa]); (1, [8]); (1, [1]); (1, [2])], k', key_vm) /\ state k' = NORMAL.
Proof.
  destruct (mouse_answers (new_kbd <| mouse_packet := [8; 1; 2] |>) key_vm 0xeb [0xfa; 8; 1; 2])
    as (k' & H1 & H2 & _); [reflexivity|reflexivity|exists k'; split; [exact H1|exact H2]].
Defined.

Lemma mouse_stuck_forever_witness : exists rs k' vm',
  kbd_run new_kbd key_vm [write_64 0xd4; write_60 0xf3; read_60; write_64 0xd4; write_60 100; mouse_event [8; 1; 2]] =
    Done ((1, []) :: (1, []) :: rs, k', vm') /\ mouse_state k' = SAMPLE1.
Proof.
  destruct (mouse_stuck_forever new_kbd key_vm 0xf3 [read_60; write_64 0xd4; write_60 100; mouse_event [8; 1; 2]]
    (reset_ok _) key_vm_lines eq_refl (or_introl eq_refl)) as (rs & k' & vm' & H1 & H2 & _); [|by exists rs, k', vm'].
  repeat (apply Forall_cons; split; [try done|]); [|constructor]. split; [done|]. by repeat constructor.
Defined.

End Keyboard.
