(* ===== verification/Ramdisk.v ===== *)
(** The IDE controller and its ATAPI CD-ROM drives: ramdisk.c and ide.h.

    Two channels of two drives sit behind the ports 0x1f0-0x1f7, 0x3f6 and 0x170-0x177, 0x376.
    A guest writes the task-file registers and a command, sends a 12-byte ATAPI packet through
    the data port and reads the answer from it, word by word.  [CdromOps] is [struct cdrom_ops],
    the operations of the medium in a drive, and [CdromOpsOk] what the drive relies on.
    [Module Ramdisk] translates the registers, the port handlers, the ATAPI commands and the
    attachment of the device; Atapi.v has the theorems. *)
From stdpp Require Import base tactics numbers list gmap.
From S2P Require Import Prelude Chain Host IoMap Intr ListHead HostEvents DevMgr.

(** [struct cdrom_ops] on the private data [S] of a medium.  [read_toc] and [read_block] get
    the 2048 bytes of the buffer and return them with what they store; [read_toc] also returns
    the length of the table. *)
Class CdromOps (S : Type) := {
  insert_cdrom : S -> Z * S;
  eject_cdrom : S -> S;
  read_toc : S -> list Z -> bool -> Z -> Z * list Z * Z * S;
  capacity_of : S -> Z;
  read_block : S -> list Z -> Z -> outcome (list Z);
  start_cdrom : S -> Z * S;
  set_LBA : S -> Z -> S;
}.

(** The contract of a medium: [block s lba] are the bytes of a block of 2048 bytes, and the
    blocks that are [readable] are read whatever the buffer holds. *)
Class CdromOpsOk (S : Type) `{CdromOps S} := {
  block : S -> Z -> list Z;
  readable : S -> Z -> Prop;
  ok_block s lba : readable s lba -> length (block s lba) = 2048%nat;
  ok_read s buf lba : length buf = 2048%nat -> readable s lba -> read_block s buf lba = Done (block s lba);
}.

Module Ramdisk.
Import Intr.

Abbreviation INDEX_PULSE_CYCLE := 10.
Abbreviation PRI_DATA_PORT := 0x1f0.
Abbreviation PRI_FEATURES_PORT := 0x1f1.
Abbreviation PRI_SECT_CNT_PORT := 0x1f2.
Abbreviation PRI_SECT_ADDR1_PORT := 0x1f3.
Abbreviation PRI_SECT_ADDR2_PORT := 0x1f4.
Abbreviation PRI_SECT_ADDR3_PORT := 0x1f5.
Abbreviation PRI_DRV_SEL_PORT := 0x1f6.
Abbreviation PRI_CMD_PORT := 0x1f7.
Abbreviation PRI_CTRL_PORT := 0x3f6.
Abbreviation PRI_ADDR_REG_PORT := 0x3f7.
Abbreviation SEC_DATA_PORT := 0x170.
Abbreviation SEC_FEATURES_PORT := 0x171.
Abbreviation SEC_SECT_CNT_PORT := 0x172.
Abbreviation SEC_SECT_ADDR1_PORT := 0x173.
Abbreviation SEC_SECT_ADDR2_PORT := 0x174.
Abbreviation SEC_SECT_ADDR3_PORT := 0x175.
Abbreviation SEC_DRV_SEL_PORT := 0x176.
Abbreviation SEC_CMD_PORT := 0x177.
Abbreviation SEC_CTRL_PORT := 0x376.
Abbreviation SEC_ADDR_REG_PORT := 0x377.
Abbreviation PACKET_SIZE := 12.
Abbreviation MAX_ATA_CHANNEL := 4%nat.

Abbreviation SENSE_NONE := 0.
Abbreviation SENSE_NOT_READY := 2.
Abbreviation SENSE_ILLEGAL_REQUEST := 5.
Abbreviation SENSE_UNIT_ATTENTION := 6.
Abbreviation ASC_INV_FIELD_IN_CMD_PACKET := 0x24.
Abbreviation ASC_MEDIUM_NOT_PRESENT := 0x3a.
Abbreviation ASC_SAVING_PARAMETERS_NOT_SUPPORTED := 0x39.
Abbreviation ASC_LOGICAL_BLOCK_OOR := 0x21.

(** ** The registers *)

Record interrupt_reason_t := mk_interrupt_reason { c_d : Z; i_o : Z; rel : Z; tag : Z }.

#[export] Instance eta_interrupt_reason : Eta interrupt_reason_t := fun r =>
  mk_interrupt_reason (c_d r) (i_o r) (rel r) (tag r).

#[global, program] Instance bits_interrupt_reason : BitStruct interrupt_reason_t := {|
  bs_widths := [1; 1; 1; 5];
  bs_values r := [c_d r; i_o r; rel r; tag r];
  bs_make vs := mk_interrupt_reason (nth 0 vs 0) (nth 1 vs 0) (nth 2 vs 0) (nth 3 vs 0)
|}.
Solve All Obligations with solve_bitstruct.

Record controller_status := mk_controller_status {
  busy : Z; drive_ready : Z; write_fault : Z; seek_complete : Z; drq : Z;
  corrected_data : Z; index_pulse : Z; index_pulse_count : Z; err : Z;
}.

#[export] Instance eta_controller_status : Eta controller_status := fun s =>
  mk_controller_status (busy s) (drive_ready s) (write_fault s) (seek_complete s) (drq s)
    (corrected_data s) (index_pulse s) (index_pulse_count s) (err s).

Record control_t := mk_control { reset : Z; disable_irq : Z }.

#[export] Instance eta_control : Eta control_t := fun c => mk_control (reset c) (disable_irq c).

(** [struct controller_t].  [sector_count] is a union with [interrupt_reason] and
    [cylinder_no] one with [byte_count]; [buffer] has 2048 bytes. *)
Record controller_t := mk_controller {
  status : controller_status;
  error_register : Z;
  head_no : Z;
  sector_count : Z;
  sector_no : Z;
  cylinder_no : Z;
  buffer : list Z;
  buffer_index : Z;
  drq_index : Z;
  current_command : Z;
  sectors_per_block : Z;
  lba_mode : Z;
  control : control_t;
  reset_in_progress : Z;
  features : Z;
}.

#[export] Instance eta_controller : Eta controller_t := fun c =>
  mk_controller (status c) (error_register c) (head_no c) (sector_count c) (sector_no c)
    (cylinder_no c) (buffer c) (buffer_index c) (drq_index c) (current_command c)
    (sectors_per_block c) (lba_mode c) (control c) (reset_in_progress c) (features c).

Abbreviation byte_count := cylinder_no.

Definition interrupt_reason (c : controller_t) : interrupt_reason_t := decode (sector_count c).
Definition set_reason (c : controller_t) (f : interrupt_reason_t -> interrupt_reason_t) : controller_t :=
  c <| sector_count := encode (f (interrupt_reason c)) |>.

Record sense_info_t := mk_sense_info {
  sense_key : Z; information : list Z; specific_inf : list Z; key_spec : list Z;
  fruc : Z; asc : Z; ascq : Z;
}.

#[export] Instance eta_sense_info : Eta sense_info_t := fun s =>
  mk_sense_info (sense_key s) (information s) (specific_inf s) (key_spec s) (fruc s) (asc s) (ascq s).

(** [struct cdrom_t]: [cd] is the medium registered with the drive, its operations and the
    [private_data] of the drive, [None] while the pointer is null. *)
Record cdrom_t (S : Type) := mk_cdrom {
  ready : Z; locked : Z; cd : option S; capacity : Z; next_lba : Z; remaining_blocks : Z;
  error_recovery : list Z;
}.
Global Arguments mk_cdrom {S}. Global Arguments ready {S}. Global Arguments locked {S}.
Global Arguments cd {S}. Global Arguments capacity {S}. Global Arguments next_lba {S}.
Global Arguments remaining_blocks {S}. Global Arguments error_recovery {S}.

#[export] Instance eta_cdrom S : Eta (cdrom_t S) := fun c =>
  mk_cdrom (ready c) (locked c) (cd c) (capacity c) (next_lba c) (remaining_blocks c) (error_recovery c).

Record atapi_t := mk_atapi { command : Z; drq_bytes : Z; total_bytes_remaining : Z }.

#[export] Instance eta_atapi : Eta atapi_t := fun a =>
  mk_atapi (command a) (drq_bytes a) (total_bytes_remaining a).

Inductive device_type_t := IDE_NONE | IDE_DISK | IDE_CDROM.
#[export] Instance device_type_eq_dec : EqDecision device_type_t.
Proof. solve_decision. Defined.

Record device_image_t := mk_device_image { cylinders : Z; heads : Z; sectors : Z }.

Record drive_t (S : Type) := mk_drive {
  hard_drive : device_image_t;
  device_type : device_type_t;
  id_drive : list Z;
  controller : controller_t;
  cdrom : cdrom_t S;
  sense : sense_info_t;
  atapi : atapi_t;
  model_no : list Z;
}.
Global Arguments mk_drive {S}. Global Arguments hard_drive {S}. Global Arguments device_type {S}.
Global Arguments id_drive {S}. Global Arguments controller {S}. Global Arguments cdrom {S}.
Global Arguments sense {S}. Global Arguments atapi {S}. Global Arguments model_no {S}.

#[export] Instance eta_drive S : Eta (drive_t S) := fun d =>
  mk_drive (hard_drive d) (device_type d) (id_drive d) (controller d) (cdrom d) (sense d) (atapi d) (model_no d).

(** [struct channel_t] and [struct ramdisk_t]; [drives] has two elements, [channels] four. *)
Record channel_t (S : Type) := mk_channel {
  drives : list (drive_t S);
  drive_select : Z;
  ioaddr1 : Z;
  ioaddr2 : Z;
  irq : Z;
}.
Global Arguments mk_channel {S}. Global Arguments drives {S}. Global Arguments drive_select {S}.
Global Arguments ioaddr1 {S}. Global Arguments ioaddr2 {S}. Global Arguments irq {S}.

#[export] Instance eta_channel S : Eta (channel_t S) := fun c =>
  mk_channel (drives c) (drive_select c) (ioaddr1 c) (ioaddr2 c) (irq c).

Record ramdisk_t (S : Type) := mk_ramdisk { channels : list (channel_t S) }.
Global Arguments mk_ramdisk {S}. Global Arguments channels {S}.

(** What [memset] makes of a channel: every byte is zero. *)
Definition zero_controller : controller_t :=
  mk_controller (mk_controller_status 0 0 0 0 0 0 0 0 0) 0 0 0 0 0 (replicate 2048 0) 0 0 0 0 0
    (mk_control 0 0) 0 0.
Definition zero_drive {S} : drive_t S :=
  mk_drive (mk_device_image 0 0 0) IDE_NONE (replicate 256 0) zero_controller
    (mk_cdrom 0 0 None 0 0 0 (replicate 8 0))
    (mk_sense_info 0 (replicate 4 0) (replicate 4 0) (replicate 3 0) 0 0 0) (mk_atapi 0 0 0)
    (replicate 41 0).
Definition zero_channel {S} : channel_t S := mk_channel [zero_drive; zero_drive] 0 0 0 0.

#[export] Instance drive_inhabited S : Inhabited (drive_t S) := populate zero_drive.
#[export] Instance channel_inhabited S : Inhabited (channel_t S) := populate zero_channel.

(** Assignments to members of nested structs. *)
Definition with_status (c : controller_t) (f : controller_status -> controller_status) : controller_t :=
  c <| status := f (status c) |>.
Definition with_ctl {S} (d : drive_t S) (f : controller_t -> controller_t) : drive_t S :=
  d <| controller := f (controller d) |>.
Definition with_cd {S} (d : drive_t S) (f : cdrom_t S -> cdrom_t S) : drive_t S :=
  d <| cdrom := f (cdrom d) |>.
Definition both_drives {S} (ch : channel_t S) (f : controller_t -> controller_t) : channel_t S :=
  ch <| drives := (fun d => with_ctl d f) <$> drives ch |>.
Definition put_buffer (c : controller_t) (i : nat) (bs : list Z) : controller_t :=
  c <| buffer := list_inserts i bs (buffer c) |>.

Definition write_features {S} (ch : channel_t S) (value : Z) : channel_t S :=
  both_drives ch (fun c => c <| features := value |>).
Definition write_sector_count {S} (ch : channel_t S) (value : Z) : channel_t S :=
  both_drives ch (fun c => c <| sector_count := value |>).
Definition write_sector_number {S} (ch : channel_t S) (value : Z) : channel_t S :=
  both_drives ch (fun c => c <| sector_no := value |>).
Definition write_cylinder_low {S} (ch : channel_t S) (value : Z) : channel_t S :=
  both_drives ch (fun c => c <| cylinder_no := Z.lor (Z.land (cylinder_no c) 0xff00) value |>).
Definition write_cylinder_high {S} (ch : channel_t S) (value : Z) : channel_t S :=
  let val2 := u16 (Z.shiftl value 8) in
  both_drives ch (fun c =>
    c <| cylinder_no := Z.lor (Z.land (cylinder_no c) 0x00ff) (Z.land val2 0xff00) |>).
Definition write_head_no {S} (ch : channel_t S) (value : Z) : channel_t S :=
  both_drives ch (fun c => c <| head_no := value |>).
Definition write_lba_mode {S} (ch : channel_t S) (value : Z) : channel_t S :=
  both_drives ch (fun c => c <| lba_mode := value |>).

Definition get_selected_drive {S} (ch : channel_t S) : drive_t S :=
  drives ch !!! Z.to_nat (drive_select ch).
Definition set_selected_drive {S} (ch : channel_t S) (d : drive_t S) : channel_t S :=
  ch <| drives := <[Z.to_nat (drive_select ch) := d]> (drives ch) |>.

Definition is_primary_port (port : Z) : bool :=
  match port with
  | PRI_DATA_PORT | PRI_FEATURES_PORT | PRI_SECT_CNT_PORT | PRI_SECT_ADDR1_PORT
  | PRI_SECT_ADDR2_PORT | PRI_SECT_ADDR3_PORT | PRI_DRV_SEL_PORT | PRI_CMD_PORT
  | PRI_CTRL_PORT => true
  | _ => false
  end.

Definition is_secondary_port (port : Z) : bool :=
  match port with
  | SEC_DATA_PORT | SEC_FEATURES_PORT | SEC_SECT_CNT_PORT | SEC_SECT_ADDR1_PORT
  | SEC_SECT_ADDR2_PORT | SEC_SECT_ADDR3_PORT | SEC_DRV_SEL_PORT | SEC_CMD_PORT
  | SEC_CTRL_PORT => true
  | _ => false
  end.

Definition num_drives_on_channel {S} (ch : channel_t S) : Z :=
  let t0 := device_type (drives ch !!! 0%nat) in
  let t1 := device_type (drives ch !!! 1%nat) in
  if bool_decide (t0 = IDE_NONE) && bool_decide (t1 = IDE_NONE) then 0
  else if negb (bool_decide (t0 = IDE_NONE)) && negb (bool_decide (t1 = IDE_NONE)) then 2 else 1.

Definition extract_bits (buf : list Z) (buf_offset bit_offset num_bits : Z) : Z :=
  Z.land (Z.shiftr (buf !!! Z.to_nat buf_offset) bit_offset) (Z.shiftl 1 num_bits - 1).
Definition get_packet_field {S} (d : drive_t S) (packet_offset bit_offset num_bits : Z) : Z :=
  extract_bits (buffer (controller d)) packet_offset bit_offset num_bits.
Definition get_packet_word {S} (d : drive_t S) (offset : Z) : Z :=
  Z.lor (u16 (Z.shiftl (buffer (controller d) !!! Z.to_nat offset) 8))
        (buffer (controller d) !!! Z.to_nat (offset + 1)).
Definition rd_read_16bit (buf : list Z) (i : nat) : Z :=
  u16 (Z.lor (Z.shiftl (buf !!! i) 8) (buf !!! (i + 1)%nat)).
Definition rd_read_32bit (buf : list Z) (i : nat) : Z :=
  u32 (Z.lor (Z.shiftl (buf !!! i) 24) (Z.lor (Z.shiftl (buf !!! (i + 1)%nat) 16)
    (Z.lor (Z.shiftl (buf !!! (i + 2)%nat) 8) (buf !!! (i + 3)%nat)))).

(** ** The handlers

    The code passes the channel; a handler that works on the selected drive gets that drive,
    and the IRQ of the channel where it raises it. *)
Section handlers.
Context {S : Type} `{CdromOps S} {C : Type} `{IntrCtrl C}.

Definition rd_raise_interrupt (irq : Z) (d : drive_t S) (vm : v3_intr_state C) : outcome (v3_intr_state C) :=
  if disable_irq (control (controller d)) =? 0 then '(_, vm) ← v3_raise_irq vm irq; Done vm
  else Done vm.

Definition rd_lower_irq (irq : Z) (vm : v3_intr_state C) : outcome (v3_intr_state C) :=
  '(_, vm) ← v3_lower_irq vm irq; Done vm.

(** Prepares an answer of [req_length] bytes, of which the guest asked for [alloc_length];
    [lazy] leaves the buffer to be filled by the first read. *)
Definition rd_init_send_atapi_command (d : drive_t S) (cmd req_length alloc_length : Z) (lazy : bool)
    : Z * drive_t S :=
  let c := controller d in
  let c := if byte_count c =? 0xffff then c <| byte_count := 0xfffe |> else c in
  let c := if negb (Z.land (byte_count c) 1 =? 0) && negb (alloc_length <=? byte_count c)
           then c <| byte_count := u16 (byte_count c - 1) |> else c in
  if byte_count c =? 0 then (-1, d <| controller := c |>) else
  if alloc_length <? 0 then (-1, d <| controller := c |>) else
  let alloc_length := if alloc_length =? 0 then byte_count c else alloc_length in
  let c := set_reason c (fun r => r <| i_o := 1 |> <| c_d := 0 |>) in
  let c := with_status c (fun s => s <| busy := 0 |> <| drq := 1 |> <| err := 0 |>) in
  let c := c <| buffer_index := if lazy then 2048 else 0 |> <| drq_index := 0 |> in
  let c := if byte_count c >? req_length then c <| byte_count := u16 req_length |> else c in
  let c := if byte_count c >? alloc_length then c <| byte_count := u16 alloc_length |> else c in
  (0, d <| controller := c |>
        <| atapi := mk_atapi cmd (byte_count c)
                     (if req_length <? alloc_length then req_length else alloc_length) |>).

Definition rd_ready_to_send_atapi (irq : Z) (d : drive_t S) (vm : v3_intr_state C)
    : outcome (v3_intr_state C) := rd_raise_interrupt irq d vm.

Definition rd_atapi_cmd_error (d : drive_t S) (key code : Z) : drive_t S :=
  let c := (controller d) <| error_register := u8 (Z.shiftl key 4) |> in
  let c := set_reason c (fun r => r <| i_o := 1 |> <| c_d := 1 |> <| rel := 0 |>) in
  let c := with_status c (fun s =>
    s <| busy := 0 |> <| drive_ready := 1 |> <| write_fault := 0 |> <| drq := 0 |> <| err := 1 |>) in
  d <| controller := c |> <| sense := (sense d) <| sense_key := key |> <| asc := code |> <| ascq := 0 |> |>.

Definition rd_atapi_cmd_nop (d : drive_t S) : drive_t S :=
  let c := set_reason (controller d) (fun r => r <| i_o := 1 |> <| c_d := 1 |> <| rel := 0 |>) in
  d <| controller := with_status c (fun s =>
    s <| busy := 0 |> <| drive_ready := 1 |> <| drq := 0 |> <| err := 0 |>) |>.

(** The words the loops of rd_identify_ATAPI_drive store, in the order of the array. *)
Definition serial_number : list Z := [32; 86; 84; 48; 48; 48; 48; 49] ++ replicate 12 0.
Definition firmware : list Z := [65; 76; 80; 72; 65; 49; 32; 32].
Fixpoint be_words (s : list Z) : list Z :=
  match s with
  | hi :: lo :: s => Z.lor (Z.shiftl hi 8) lo :: be_words s
  | _ => []
  end.

(** The length of a C string; [None] when there is no terminator. *)
Fixpoint strlen (s : list Z) : option nat :=
  match s with
  | [] => None
  | b :: s => if b =? 0 then Some 0%nat else Datatypes.S <$> strlen s
  end.

Definition rd_identify_ATAPI_drive (d : drive_t S) : outcome (drive_t S) :=
  match strlen (model_no d) with
  | None => Undef
  | Some n =>
      let model := be_words (take n (model_no d)) in
      v3_assert (Nat.eqb (27 + length model) 47) (
      let words := [Z.lor (Z.shiftl 2 14) (Z.lor (Z.shiftl 5 8) (Z.lor (Z.shiftl 1 7) (Z.shiftl 2 5)))]
        ++ replicate 9 0 ++ be_words serial_number ++ replicate 3 0 ++ be_words firmware ++ model
        ++ [0; 1; Z.shiftl 1 9; 0; 0; 0; 3] ++ replicate 9 0
        ++ [0x0103; 0x0001; 0x00b4; 0x00b4; 0x012c; 0x00b4; 0; 0; 30; 30; 0; 0; 0] ++ replicate 4 0
        ++ [0x1e] ++ replicate 8 0 ++ replicate 38 0 ++ replicate 2 0 ++ replicate 31 0
        ++ replicate 96 0 in
      let d := d <| id_drive := list_inserts 0 words (id_drive d) |> in
      Done (with_ctl d (fun c =>
        put_buffer c 0 (w ← id_drive d; [Z.land w 0x00ff; Z.shiftr w 8]))))
  end.

Definition rd_init_mode_sense_single (d : drive_t S) (src : list Z) (size : Z) : drive_t S :=
  let d := with_ctl d (fun c =>
    put_buffer c 0 [Z.shiftr (size + 6) 8; Z.land (size + 6) 0xff; 0x70; 0; 0; 0; 0; 0]) in
  with_ctl d (fun c => put_buffer c 8 (take (Z.to_nat size) src)).

Definition rd_command_aborted (irq : Z) (d : drive_t S) (vm : v3_intr_state C)
    : outcome (drive_t S * v3_intr_state C) :=
  let d := with_ctl d (fun c =>
    with_status (c <| current_command := 0 |> <| error_register := 0x04 |> <| buffer_index := 0 |>)
      (fun s => s <| busy := 0 |> <| drive_ready := 1 |> <| err := 1 |> <| drq := 0 |>
                  <| seek_complete := 0 |> <| corrected_data := 0 |>)) in
  vm ← rd_raise_interrupt irq d vm; Done (d, vm).

(** [memcpy(dst, controller->buffer + index, length)]: undefined past the buffer. *)
Definition copy_buffer (c : controller_t) (index len : Z) : outcome (list Z) :=
  if index + len <=? 2048 then Done (take (Z.to_nat len) (drop (Z.to_nat index) (buffer c))) else Undef.

(** An answer of a command: an error, a completion without data, and data that [fill] has
    put into the buffer.  [-1] ends the guest. *)
Abbreviation atapi_reply := (outcome (Z * drive_t S * v3_intr_state C)).

Definition reply_error (irq : Z) (d : drive_t S) (vm : v3_intr_state C) (key code : Z) : atapi_reply :=
  let d := rd_atapi_cmd_error d key code in
  vm ← rd_raise_interrupt irq d vm; Done (0, d, vm).

Definition reply_nop (irq : Z) (d : drive_t S) (vm : v3_intr_state C) : atapi_reply :=
  let d := rd_atapi_cmd_nop d in
  vm ← rd_raise_interrupt irq d vm; Done (0, d, vm).

Definition reply_data (irq : Z) (d : drive_t S) (vm : v3_intr_state C) (cmd req_length alloc_length : Z)
    (lazy : bool) (fill : drive_t S -> drive_t S) : atapi_reply :=
  let '(r, d) := rd_init_send_atapi_command d cmd req_length alloc_length lazy in
  if r =? -1 then Done (-1, d, vm) else
  let d := fill d in
  vm ← rd_ready_to_send_atapi irq d vm; Done (0, d, vm).

Definition not_ready (irq : Z) (d : drive_t S) (vm : v3_intr_state C) : atapi_reply :=
  reply_error irq d vm SENSE_NOT_READY ASC_MEDIUM_NOT_PRESENT.

Definition illegal_request (irq : Z) (d : drive_t S) (vm : v3_intr_state C) : atapi_reply :=
  reply_error irq d vm SENSE_ILLEGAL_REQUEST ASC_INV_FIELD_IN_CMD_PACKET.

Definition is_ready (d : drive_t S) : bool := negb (ready (cdrom d) =? 0).

Definition sense_data (d : drive_t S) : list Z :=
  let s := sense d in
  [Z.lor 0x70 (Z.shiftl 1 7); 0; sense_key s] ++ information s ++ [17 - 7] ++ specific_inf s
  ++ [asc s; ascq s; fruc s] ++ key_spec s.

Definition start_stop_unit (irq : Z) (d : drive_t S) (vm : v3_intr_state C) : atapi_reply :=
  let b := buffer (controller d) !!! 4%nat in
  let LoEj := Z.land (Z.shiftr b 1) 1 in
  let Start := Z.land (Z.shiftr b 0) 1 in
  if (LoEj =? 0) && (Start =? 0) then reply_nop irq d vm
  else if (LoEj =? 0) && negb (Start =? 0) then
    match cd (cdrom d) with
    | None => Undef
    | Some s => reply_nop irq (with_cd d (fun c => c <| cd := Some (start_cdrom s).2 |>)) vm
    end
  else if negb (LoEj =? 0) && (Start =? 0) then
    let d := rd_atapi_cmd_nop d in
    if is_ready d then
      match cd (cdrom d) with
      | None => Undef
      | Some s =>
          let d := with_cd d (fun c => c <| cd := Some (eject_cdrom s) |> <| ready := 0 |>) in
          vm ← rd_raise_interrupt irq d vm; Done (0, d, vm)
      end
    else vm ← rd_raise_interrupt irq d vm; Done (0, d, vm)
  else reply_nop irq d vm.

(** The capabilities page after its header. *)
Definition capabilities (d : drive_t S) : list Z :=
  [0x2a; 0x12; 0x00; 0x00; 0x70; Z.shiftl 3 5;
   Z.lor 1 (Z.lor (if negb (locked (cdrom d) =? 0) then Z.shiftl 1 1 else 0)
     (Z.lor (Z.shiftl 1 3) (Z.shiftl 1 5)));
   0x00; Z.land (Z.shiftr 706 8) 0xff; Z.land 706 0xff; 0; 2; Z.land (Z.shiftr 512 8) 0xff;
   Z.land 512 0xff; Z.land (Z.shiftr 706 8) 0xff; Z.land 706 0xff; 0; 0; 0; 0].

Definition mode_sense (irq : Z) (d : drive_t S) (vm : v3_intr_state C) (cmd : Z) : atapi_reply :=
  let b := buffer (controller d) in
  let alloc_length := rd_read_16bit b 7 in
  let PC := Z.shiftr (b !!! 2%nat) 6 in
  let PageCode := Z.land (b !!! 2%nat) 0x3f in
  match PC with
  | 0x0 =>
      match PageCode with
      | 0x01 => reply_data irq d vm cmd (8 + 8) alloc_length false (fun d =>
                  rd_init_mode_sense_single d (error_recovery (cdrom d)) 8)
      | 0x2a => reply_data irq d vm cmd 28 alloc_length false (fun d =>
                  let d := rd_init_mode_sense_single d (drop 8 (buffer (controller d))) 28 in
                  with_ctl d (fun c => put_buffer c 8 (capabilities d)))
      | _ => illegal_request irq d vm
      end
  | 0x1 => illegal_request irq d vm
  | 0x2 =>
      match PageCode with
      | 0x01 | 0x0d | 0x0e | 0x2a | 0x3f => Done (-1, d, vm)
      | _ => illegal_request irq d vm
      end
  | 0x3 => reply_error irq d vm SENSE_ILLEGAL_REQUEST ASC_SAVING_PARAMETERS_NOT_SUPPORTED
  | _ => Done (-1, d, vm)
  end.

(** The identification, the vendor [VTAB], the product [Turbo CD-ROM] and the revision. *)
Definition inquiry_data : list Z :=
  [0x05; 0x80; 0x00; 0x21; 31; 0x00; 0x00; 0x00]
  ++ [86; 84; 65; 66; 32; 32; 32; 32]
  ++ [84; 117; 114; 98; 111; 32; 67; 68; 45; 82; 79; 77; 32; 32; 32; 32]
  ++ [49; 46; 48; 32].

Definition capacity_data (d : drive_t S) : list Z :=
  let capacity := capacity (cdrom d) in
  [Z.land (Z.shiftr capacity 24) 0xff; Z.land (Z.shiftr capacity 16) 0xff;
   Z.land (Z.shiftr capacity 8) 0xff; Z.land (Z.shiftr capacity 0) 0xff;
   Z.land (Z.shiftr 2048 24) 0xff; Z.land (Z.shiftr 2048 16) 0xff;
   Z.land (Z.shiftr 2048 8) 0xff; Z.land (Z.shiftr 2048 0) 0xff].

Definition read_cdrom_capacity (irq : Z) (d : drive_t S) (vm : v3_intr_state C) (cmd : Z) : atapi_reply :=
  let '(r, d) := rd_init_send_atapi_command d cmd 8 8 false in
  if r =? -1 then Done (-1, d, vm) else
  if is_ready d then
    let d := with_ctl d (fun c => put_buffer c 0 (capacity_data d)) in
    vm ← rd_ready_to_send_atapi irq d vm; Done (0, d, vm)
  else not_ready irq d vm.

Definition read_table_of_contents (irq : Z) (d : drive_t S) (vm : v3_intr_state C) (cmd : Z) : atapi_reply :=
  if negb (is_ready d) then not_ready irq d vm else
  let b := buffer (controller d) in
  let msf := negb (Z.land (Z.shiftr (b !!! 1%nat) 1) 1 =? 0) in
  let starting_track := b !!! 6%nat in
  let alloc_length := rd_read_16bit b 7 in
  match Z.shiftr (b !!! 9%nat) 6 with
  | 0 =>
      match cd (cdrom d) with
      | None => Undef
      | Some s =>
          let '(ok, buf, toc_length, s) := read_toc s b msf starting_track in
          let d := with_cd (with_ctl d (fun c => c <| buffer := buf |>)) (fun c => c <| cd := Some s |>) in
          if ok =? 0 then illegal_request irq d vm
          else reply_data irq d vm cmd toc_length alloc_length false id
      end
  | 1 => reply_data irq d vm cmd 12 alloc_length false (fun d =>
           with_ctl d (fun c => put_buffer c 0 ([0; 0x0a; 1; 1] ++ replicate 8 0)))
  | _ => Done (-1, d, vm)
  end.

Definition read_blocks (irq : Z) (d : drive_t S) (vm : v3_intr_state C) (cmd : Z) : atapi_reply :=
  let b := buffer (controller d) in
  let transfer_length := if cmd =? 0x28 then rd_read_16bit b 7 else rd_read_32bit b 6 in
  let lba := rd_read_32bit b 2 in
  if negb (is_ready d) then not_ready irq d vm
  else if transfer_length =? 0 then reply_nop irq d vm
  else if u32 (lba + transfer_length) >? capacity (cdrom d) then
    reply_error irq d vm SENSE_ILLEGAL_REQUEST ASC_LOGICAL_BLOCK_OOR
  else
    let bytes := sint 32 (u32 (transfer_length * 2048)) in
    reply_data irq d vm cmd bytes bytes true (fun d =>
      with_cd d (fun c => c <| remaining_blocks := sint 32 transfer_length |> <| next_lba := sint 32 lba |>)).

Definition seek (irq : Z) (d : drive_t S) (vm : v3_intr_state C) : atapi_reply :=
  let lba := rd_read_32bit (buffer (controller d)) 2 in
  if negb (is_ready d) then not_ready irq d vm
  else if lba >? capacity (cdrom d) then
    reply_error irq d vm SENSE_ILLEGAL_REQUEST ASC_LOGICAL_BLOCK_OOR
  else reply_nop irq d vm.

Definition prevent_removal (irq : Z) (d : drive_t S) (vm : v3_intr_state C) : atapi_reply :=
  if is_ready d then
    let lock := Z.land (buffer (controller d) !!! 4%nat) 1 in
    reply_nop irq (with_cd d (fun c => c <| locked := lock |>)) vm
  else not_ready irq d vm.

(** With SubQ the error is raised and the header sent all the same. *)
Definition read_sub_channel (irq : Z) (d : drive_t S) (vm : v3_intr_state C) (cmd : Z) : atapi_reply :=
  let sub_q := get_packet_field d 2 6 1 in
  let alloc_length := get_packet_word d 7 in
  if negb (is_ready d) then not_ready irq d vm else
  let d := with_ctl d (fun c => put_buffer c 0 [0; 0; 0; 0]) in
  '(d, vm) ← (if sub_q =? 0 then Done (d, vm) else
              '(_, d, vm) ← illegal_request irq d vm; Done (d, vm));
  reply_data irq d vm cmd 4 alloc_length false id.

Definition atapi_command (irq : Z) (d : drive_t S) (vm : v3_intr_state C) : atapi_reply :=
  let b := buffer (controller d) in
  let cmd := b !!! 0%nat in
  match cmd with
  | 0x00 => if is_ready d then reply_nop irq d vm else not_ready irq d vm
  | 0x03 => reply_data irq d vm cmd 18 (b !!! 4%nat) false (fun d =>
              with_ctl d (fun c => put_buffer c 0 (sense_data d)))
  | 0x1b => start_stop_unit irq d vm
  | 0xbd => let alloc_length := rd_read_16bit b 8 in
            if alloc_length =? 0 then Done (-1, d, vm) else
            reply_data irq d vm cmd 8 alloc_length false (fun d =>
              with_ctl d (fun c => put_buffer c 0 [0; 0; 0; 0; 0; 1; 0; 0]))
  | 0x5a => mode_sense irq d vm cmd
  | 0x12 => reply_data irq d vm cmd 36 (b !!! 4%nat) false (fun d =>
              with_ctl d (fun c => put_buffer c 0 inquiry_data))
  | 0x25 => read_cdrom_capacity irq d vm cmd
  | 0xbe => if is_ready d then illegal_request irq d vm else not_ready irq d vm
  | 0x43 => read_table_of_contents irq d vm cmd
  | 0x28 | 0xa8 => read_blocks irq d vm cmd
  | 0x2b => seek irq d vm
  | 0x1e => prevent_removal irq d vm
  | 0x42 => read_sub_channel irq d vm cmd
  | _ => illegal_request irq d vm
  end.

Definition handle_atapi_packet_command (irq : Z) (d : drive_t S) (vm : v3_intr_state C) (value : Z) : atapi_reply :=
  let i := buffer_index (controller d) in
  if PACKET_SIZE <=? i then Done (-1, d, vm) else
  let d := with_ctl d (fun c =>
    (put_buffer c (Z.to_nat i) [u8 value; u8 (Z.shiftr value 8)]) <| buffer_index := u32 (i + 2) |>) in
  if PACKET_SIZE <=? buffer_index (controller d) then atapi_command irq d vm else Done (0, d, vm).

(** *** The data port *)

Definition read_identify_data (d : drive_t S) (len : Z) : outcome (list Z * drive_t S) :=
  let c := with_status (controller d) (fun s =>
    s <| busy := 0 |> <| drive_ready := 1 |> <| write_fault := 0 |> <| seek_complete := 1 |>
      <| corrected_data := 0 |> <| err := 0 |>) in
  bs ← copy_buffer c (buffer_index c) len;
  let c := c <| buffer_index := u32 (buffer_index c + len) |> in
  let c := if 512 <=? buffer_index c then with_status c (fun s => s <| drq := 0 |>) else c in
  Done (bs, d <| controller := c |>).

(** Loads a block when the buffer is used up: the index of the next byte, [None] for [-1]. *)
Definition load_block (d : drive_t S) : outcome (option (Z * drive_t S)) :=
  let index := buffer_index (controller d) in
  if 2048 <=? index then
    if 2048 <? index then Done None else
    match command (atapi d) with
    | 0x28 | 0xa8 =>
        if negb (is_ready d) then Done None else
        match cd (cdrom d) with
        | None => Undef
        | Some s =>
            buf ← read_block s (buffer (controller d)) (next_lba (cdrom d));
            let d := with_ctl d (fun c => c <| buffer := buf |>) in
            Done (Some (0, with_cd d (fun c => c <| next_lba := sint 32 (next_lba c + 1) |>
                                                 <| remaining_blocks := sint 32 (remaining_blocks c - 1) |>)))
        end
    | _ => Done (Some (index, d))
    end
  else Done (Some (index, d)).

(** The end of a chunk of [drq_bytes] bytes: the next chunk, or the end of the answer. *)
Definition chunk_read (irq : Z) (d : drive_t S) (vm : v3_intr_state C) : outcome (drive_t S * v3_intr_state C) :=
  let d := with_ctl d (fun c => (with_status c (fun s => s <| drq := 0 |>)) <| drq_index := 0 |>) in
  let total := sint 32 (total_bytes_remaining (atapi d) - drq_bytes (atapi d)) in
  let d := d <| atapi := (atapi d) <| total_bytes_remaining := total |> |> in
  if 0 <? total then
    let d := with_ctl d (fun c =>
      let c := set_reason c (fun r => r <| i_o := 1 |>) in
      let c := with_status c (fun s => s <| busy := 0 |> <| drq := 1 |>) in
      let c := set_reason c (fun r => r <| c_d := 0 |>) in
      if total <? byte_count c then c <| byte_count := u16 total |> else c) in
    let d := d <| atapi := (atapi d) <| drq_bytes := byte_count (controller d) |> |> in
    vm ← rd_raise_interrupt irq d vm; Done (d, vm)
  else
    let d := with_ctl d (fun c =>
      let c := set_reason c (fun r => r <| i_o := 1 |> <| c_d := 1 |> <| rel := 0 |>) in
      with_status c (fun s => s <| drive_ready := 1 |> <| busy := 0 |> <| drq := 0 |> <| err := 0 |>)) in
    vm ← rd_raise_interrupt irq d vm; Done (d, vm).

Definition read_packet_data (irq : Z) (d : drive_t S) (vm : v3_intr_state C) (len : Z)
    : outcome (Z * list Z * drive_t S * v3_intr_state C) :=
  r ← load_block d;
  match r with
  | None => Done (-1, [], d, vm)
  | Some (index, d) =>
      bs ← copy_buffer (controller d) index len;
      let d := with_ctl d (fun c => c <| buffer_index := u32 (index + len) |>
                                      <| drq_index := u32 (drq_index c + len) |>) in
      if u32 (drq_bytes (atapi d)) <=? drq_index (controller d) then
        '(d, vm) ← chunk_read irq d vm; Done (len, bs, d, vm)
      else Done (len, bs, d, vm)
  end.

Definition read_data (irq : Z) (d : drive_t S) (vm : v3_intr_state C) (len : Z)
    : outcome (Z * list Z * drive_t S * v3_intr_state C) :=
  match current_command (controller d) with
  | 0xec | 0xa1 => '(bs, d) ← read_identify_data d len; Done (len, bs, d, vm)
  | 0xa0 => read_packet_data irq d vm len
  | _ => Done (-1, [], d, vm)
  end.

(** The handler takes a word from the source: undefined when it is given one byte. *)
Definition write_data (irq : Z) (d : drive_t S) (vm : v3_intr_state C) (src : list Z) (len : Z) : atapi_reply :=
  match current_command (controller d) with
  | 0xa0 =>
      match src with
      | lo :: hi :: _ =>
          '(r, d, vm) ← handle_atapi_packet_command irq d vm (lo + 256 * hi);
          Done (if r =? -1 then -1 else len, d, vm)
      | _ => Undef
      end
  | _ => Done (-1, d, vm)
  end.

(** *** The other ports *)

Definition status_byte (s : controller_status) : Z :=
  u8 (Z.lor (Z.shiftl (busy s) 7) (Z.lor (Z.shiftl (drive_ready s) 6)
    (Z.lor (Z.shiftl (write_fault s) 5) (Z.lor (Z.shiftl (seek_complete s) 4)
    (Z.lor (Z.shiftl (drq s) 3) (Z.lor (Z.shiftl (corrected_data s) 2)
    (Z.lor (Z.shiftl (index_pulse s) 1) (err s)))))))).

(** One byte is copied from a local variable; copying more is undefined. *)
Definition read_status (ch : channel_t S) (vm : v3_intr_state C) (port len : Z)
    : outcome (Z * list Z * channel_t S * v3_intr_state C) :=
  '(bs, ch) ← (if num_drives_on_channel ch =? 0 then Done (replicate (Z.to_nat len) 0, ch) else
    let d := get_selected_drive ch in
    let s := status (controller d) in
    if 1 <? len then Undef else
    let bs := take (Z.to_nat len) [status_byte s] in
    let s := s <| index_pulse_count := u32 (index_pulse_count s + 1) |> <| index_pulse := 0 |> in
    let s := if INDEX_PULSE_CYCLE <=? index_pulse_count s
             then s <| index_pulse := 1 |> <| index_pulse_count := 0 |> else s in
    Done (bs, set_selected_drive ch (with_ctl d (fun c => c <| status := s |>))));
  vm ← (if (port =? SEC_CMD_PORT) || (port =? PRI_CMD_PORT) then rd_lower_irq (irq ch) vm else Done vm);
  Done (len, bs, ch, vm).

Definition write_cmd (irq : Z) (d : drive_t S) (vm : v3_intr_state C) (value len : Z) : atapi_reply :=
  match value with
  | 0xa1 =>
      if bool_decide (device_type d = IDE_CDROM) then
        let d := with_ctl d (fun c =>
          with_status (c <| current_command := value |> <| error_register := 0 |> <| buffer_index := 0 |>)
            (fun s => s <| busy := 0 |> <| drive_ready := 1 |> <| write_fault := 0 |> <| drq := 1 |>
                        <| err := 0 |> <| seek_complete := 1 |> <| corrected_data := 0 |>)) in
        vm ← rd_raise_interrupt irq d vm;
        d ← rd_identify_ATAPI_drive d;
        Done (len, d, vm)
      else '(d, vm) ← rd_command_aborted irq d vm; Done (len, d, vm)
  | 0xa0 =>
      if bool_decide (device_type d = IDE_CDROM) then
        if negb (Z.land (features (controller d)) 1 =? 0) then Done (-1, d, vm) else
        if negb (Z.land (features (controller d)) 2 =? 0) then Done (-1, d, vm) else
        Done (len, with_ctl d (fun c =>
          with_status (c <| sector_count := 1 |> <| current_command := value |> <| buffer_index := 0 |>)
            (fun s => s <| busy := 0 |> <| write_fault := 0 |> <| drq := 1 |> <| err := 0 |>)), vm)
      else '(d, vm) ← rd_command_aborted irq d vm; Done (len, d, vm)
  | _ => Done (len, d, vm)
  end.

Definition start_reset (c : controller_t) : controller_t :=
  (with_status c (fun s => s <| busy := 1 |> <| drive_ready := 0 |> <| write_fault := 0 |>
     <| seek_complete := 1 |> <| drq := 0 |> <| corrected_data := 0 |> <| err := 0 |>))
    <| reset_in_progress := 1 |> <| error_register := 0x01 |> <| current_command := 0x00 |>
    <| buffer_index := 0 |> <| sectors_per_block := 0x80 |> <| lba_mode := 0 |>
    <| control := (control c) <| disable_irq := 0 |> |>.

Definition end_reset (d : drive_t S) : drive_t S :=
  with_ctl d (fun c =>
    (with_status c (fun s => s <| busy := 0 |> <| drive_ready := 1 |>))
      <| reset_in_progress := 0 |> <| head_no := 0 |> <| sector_count := 1 |> <| sector_no := 1 |>
      <| cylinder_no := if bool_decide (device_type d = IDE_DISK) then 0 else 0xeb14 |>).

Definition write_ctrl (ch : channel_t S) (vm : v3_intr_state C) (value : Z)
    : outcome (channel_t S * v3_intr_state C) :=
  let prev_control_reset := reset (control (controller (get_selected_drive ch))) in
  let ch := both_drives ch (fun c =>
    c <| control := mk_control (Z.land value 0x04) (Z.land value 0x02) |>) in
  let c := controller (get_selected_drive ch) in
  if (prev_control_reset =? 0) && negb (reset (control c) =? 0) then
    let ch := both_drives ch start_reset in
    vm ← rd_lower_irq (irq ch) vm; Done (ch, vm)
  else if negb (reset_in_progress c =? 0) && (reset (control c) =? 0) then
    Done (ch <| drives := end_reset <$> drives ch |>, vm)
  else Done (ch, vm).

Definition drive_select_byte (ch : channel_t S) (c : controller_t) : Z :=
  u8 (Z.lor (Z.shiftl 1 7) (Z.lor (Z.shiftl (b2z (0 <? lba_mode c)) 6)
    (Z.lor (Z.shiftl 1 5) (Z.lor (Z.shiftl (drive_select ch) 4) (head_no c))))).

Definition read_general (ch : channel_t S) (port len : Z) : Z * list Z * channel_t S :=
  let d := get_selected_drive ch in
  let c := controller d in
  let present v := if bool_decide (device_type d = IDE_NONE) then 0 else v in
  let on_channel v := if num_drives_on_channel ch =? 0 then 0 else v in
  match port with
  | PRI_FEATURES_PORT | SEC_FEATURES_PORT =>
      (len, [present (error_register c)],
       set_selected_drive ch (with_ctl d (fun c => with_status c (fun s => s <| err := 0 |>))))
  | PRI_SECT_CNT_PORT | SEC_SECT_CNT_PORT => (len, [present (sector_count c)], ch)
  | PRI_SECT_ADDR1_PORT | SEC_SECT_ADDR1_PORT => (len, [present (sector_no c)], ch)
  | PRI_SECT_ADDR2_PORT | SEC_SECT_ADDR2_PORT => (len, [on_channel (Z.land (cylinder_no c) 0x00ff)], ch)
  | PRI_SECT_ADDR3_PORT | SEC_SECT_ADDR3_PORT => (len, [on_channel (Z.shiftr (cylinder_no c) 8)], ch)
  | PRI_DRV_SEL_PORT | SEC_DRV_SEL_PORT => (len, [drive_select_byte ch c], ch)
  | PRI_ADDR_REG_PORT | SEC_ADDR_REG_PORT => (len, [0xff], ch)
  | _ => (-1, [], ch)
  end.

(** [drive] and [controller] are those selected before the write. *)
Definition write_drive_select (ch : channel_t S) (value : Z) : channel_t S :=
  let old := Z.to_nat (drive_select ch) in
  let lba := Z.land (Z.shiftr value 6) 1 in
  let ch := write_lba_mode (write_head_no ch (Z.land value 0xf)) lba in
  let d := get_selected_drive ch in
  let ch := match cd (cdrom d) with
            | Some s => set_selected_drive ch (with_cd d (fun c => c <| cd := Some (set_LBA s lba) |>))
            | None => ch
            end in
  let ch := ch <| drive_select := Z.land (Z.shiftr value 4) 0x01 |> in
  if bool_decide (device_type (get_selected_drive ch) = IDE_NONE) then
    ch <| drives := alter (fun d => with_ctl d (fun c =>
            with_status (c <| error_register := 0x04 |>) (fun s => s <| err := 1 |>))) old (drives ch) |>
  else ch.

Definition write_general (ch : channel_t S) (port value : Z) : channel_t S :=
  match port with
  | PRI_FEATURES_PORT | SEC_FEATURES_PORT => write_features ch value
  | PRI_SECT_CNT_PORT | SEC_SECT_CNT_PORT => write_sector_count ch value
  | PRI_SECT_ADDR1_PORT | SEC_SECT_ADDR1_PORT => write_sector_number ch value
  | PRI_SECT_ADDR2_PORT | SEC_SECT_ADDR2_PORT => write_cylinder_low ch value
  | PRI_SECT_ADDR3_PORT | SEC_SECT_ADDR3_PORT => write_cylinder_high ch value
  | PRI_DRV_SEL_PORT | SEC_DRV_SEL_PORT => write_drive_select ch value
  | _ => ch
  end.

(** *** The handlers the ports are hooked to

    Each finds its channel from the port; a port of neither channel fails. *)
Definition channel_of (port : Z) : option nat :=
  if is_primary_port port then Some 0%nat
  else if is_secondary_port port then Some 1%nat else None.

Definition get_channel (rd : ramdisk_t S) (n : nat) : channel_t S := channels rd !!! n.
Definition set_channel (rd : ramdisk_t S) (n : nat) (ch : channel_t S) : ramdisk_t S :=
  mk_ramdisk (<[n := ch]> (channels rd)).

Definition read_data_port (rd : ramdisk_t S) (vm : v3_intr_state C) (port len : Z)
    : outcome (Z * list Z * ramdisk_t S * v3_intr_state C) :=
  match channel_of port with
  | None => Done (-1, [], rd, vm)
  | Some n =>
      let ch := get_channel rd n in
      '(r, bs, d, vm) ← read_data (irq ch) (get_selected_drive ch) vm len;
      Done (r, bs, set_channel rd n (set_selected_drive ch d), vm)
  end.

Definition write_data_port (rd : ramdisk_t S) (vm : v3_intr_state C) (port : Z) (src : list Z) (len : Z)
    : outcome (Z * ramdisk_t S * v3_intr_state C) :=
  match channel_of port with
  | None => Done (-1, rd, vm)
  | Some n =>
      let ch := get_channel rd n in
      '(r, d, vm) ← write_data (irq ch) (get_selected_drive ch) vm src len;
      Done (r, set_channel rd n (set_selected_drive ch d), vm)
  end.

Definition read_status_port (rd : ramdisk_t S) (vm : v3_intr_state C) (port len : Z)
    : outcome (Z * list Z * ramdisk_t S * v3_intr_state C) :=
  match channel_of port with
  | None => Done (-1, [], rd, vm)
  | Some n =>
      '(r, bs, ch, vm) ← read_status (get_channel rd n) vm port len;
      Done (r, bs, set_channel rd n ch, vm)
  end.

Definition write_cmd_port (rd : ramdisk_t S) (vm : v3_intr_state C) (port : Z) (src : list Z) (len : Z)
    : outcome (Z * ramdisk_t S * v3_intr_state C) :=
  if negb (len =? 1) then Done (-1, rd, vm) else
  match channel_of port with
  | None => Done (-1, rd, vm)
  | Some n =>
      let ch := get_channel rd n in
      '(r, d, vm) ← write_cmd (irq ch) (get_selected_drive ch) vm (src !!! 0%nat) len;
      Done (r, set_channel rd n (set_selected_drive ch d), vm)
  end.

Definition write_ctrl_port (rd : ramdisk_t S) (vm : v3_intr_state C) (port : Z) (src : list Z) (len : Z)
    : outcome (Z * ramdisk_t S * v3_intr_state C) :=
  if negb (len =? 1) then Done (-1, rd, vm) else
  match channel_of port with
  | None => Done (-1, rd, vm)
  | Some n =>
      '(ch, vm) ← write_ctrl (get_channel rd n) vm (src !!! 0%nat);
      Done (len, set_channel rd n ch, vm)
  end.

Definition read_general_port (rd : ramdisk_t S) (port len : Z) : Z * list Z * ramdisk_t S :=
  if negb (len =? 1) then (-1, [], rd) else
  match channel_of port with
  | None => (-1, [], rd)
  | Some n =>
      let '(r, bs, ch) := read_general (get_channel rd n) port len in
      (r, bs, set_channel rd n ch)
  end.

Definition write_general_port (rd : ramdisk_t S) (port : Z) (src : list Z) (len : Z) : Z * ramdisk_t S :=
  if negb (len =? 1) then (-1, rd) else
  match channel_of port with
  | None => (-1, rd)
  | Some n => (len, set_channel rd n (write_general (get_channel rd n) port (src !!! 0%nat)))
  end.

(** *** The hardware *)

(** [strncpy(dst, src, 40)] of a source of at most 40 characters, and the loop that appends
    a space while the string is shorter than 40; 41 iterations are enough. *)
Definition strncpy40 (dst src : list Z) : list Z := list_inserts 0 (src ++ replicate (40 - length src) 0) dst.

Fixpoint pad_model (fuel : nat) (s : list Z) : outcome (list Z) :=
  match fuel with
  | O => OutOfFuel
  | Datatypes.S fuel =>
      match strlen s with
      | None => Undef
      | Some n => if (n <? 40)%nat then pad_model fuel (list_inserts n [32; 0] s) else Done s
      end
  end.

Definition make_model (d : drive_t S) (src : list Z) : outcome (drive_t S) :=
  m ← pad_model 41 (strncpy40 (model_no d) src); Done (d <| model_no := m |>).

Definition model_name : list Z := [86; 51; 86; 69; 69; 32; 82; 97; 109; 100; 105; 115; 107].

Definition init_drive (d : drive_t S) : outcome (drive_t S) :=
  let d := with_ctl d (fun c =>
    (with_status c (fun _ => mk_controller_status 0 1 0 1 0 0 0 0 0))
      <| error_register := 0x01 |> <| head_no := 0 |> <| sector_count := 1 |> <| sector_no := 1 |>
      <| cylinder_no := 0 |> <| current_command := 0x00 |> <| buffer_index := 0 |>
      <| control := mk_control 0 0 |> <| reset_in_progress := 0 |> <| sectors_per_block := 0x80 |>
      <| lba_mode := 0 |> <| features := 0 |>) in
  make_model (d <| device_type := IDE_NONE |>) [].

(** Every channel is cleared and its two drives are initialised alike. *)
Definition rd_init_hardware : outcome (Z * ramdisk_t S) :=
  d ← init_drive zero_drive;
  Done (0, mk_ramdisk (replicate MAX_ATA_CHANNEL (mk_channel [d; d] 0 0x0 0x0 0))).

Definition v3_ramdisk_register_cdrom (rd : ramdisk_t S) (busID driveID : nat) (private_data : S)
    : outcome (Z * ramdisk_t S) :=
  match channels rd !! busID with
  | None => Undef
  | Some ch =>
      match drives ch !! driveID with
      | None => Undef
      | Some d =>
          if negb (bool_decide (device_type d = IDE_NONE)) then Done (-1, rd) else
          let ch := ch <| irq := 15 |> in
          d ← make_model d model_name;
          let d := d <| device_type := IDE_CDROM |>
                     <| sense := (sense d) <| sense_key := SENSE_NONE |> <| asc := 0 |> <| ascq := 0 |> |> in
          let d := with_ctl d (fun c => c <| sector_count := 0 |>) in
          let '(present, s) := insert_cdrom private_data in
          let d := with_cd d (fun c => c <| locked := 0 |> <| cd := Some s |>) in
          let d := with_cd d (fun c => if negb (present =? 0)
            then c <| ready := 1 |> <| capacity := capacity_of s |> else c <| ready := 0 |>) in
          Done (0, set_channel rd busID (ch <| drives := <[driveID := d]> (drives ch) |>))
      end
  end.

End handlers.

(** The check of the layout of the union that the debugging build makes. *)
Definition INTR_REASON_BIT_ERR : Z := 0x01.
Definition check_bit_fields (c : controller_t) : Z :=
  let bit c f v := negb (sector_count (set_reason (c <| sector_count := 0 |>) f) =? v) in
  if bit c (fun r => r <| c_d := 1 |>) 0x01 then INTR_REASON_BIT_ERR
  else if bit c (fun r => r <| i_o := 1 |>) 0x02 then INTR_REASON_BIT_ERR
  else if bit c (fun r => r <| rel := 1 |>) 0x04 then INTR_REASON_BIT_ERR
  else if bit c (fun r => r <| tag := 3 |>) 0x18 then INTR_REASON_BIT_ERR
  else 0.

(** ** The device *)

Section device.
Context {A : Arch} (default_read_ptr default_write_ptr : Z).

(** The addresses of the functions above. *)
Context (read_status_ptr read_data_ptr read_general_ptr write_ctrl_ptr write_data_ptr write_general_ptr
  write_cmd_ptr : Z).

Definition ramdisk_hooks : list (Z * Z * Z) :=
  [(PRI_CTRL_PORT, read_status_ptr, write_ctrl_ptr); (PRI_DATA_PORT, read_data_ptr, write_data_ptr)]
  ++ ((fun p => (p, read_general_ptr, write_general_ptr)) <$>
       [PRI_FEATURES_PORT; PRI_SECT_CNT_PORT; PRI_SECT_ADDR1_PORT; PRI_SECT_ADDR2_PORT;
        PRI_SECT_ADDR3_PORT; PRI_DRV_SEL_PORT])
  ++ [(PRI_CMD_PORT, read_status_ptr, write_cmd_ptr);
      (SEC_CTRL_PORT, read_status_ptr, write_ctrl_ptr); (SEC_DATA_PORT, read_data_ptr, write_data_ptr)]
  ++ ((fun p => (p, read_general_ptr, write_general_ptr)) <$>
       [SEC_FEATURES_PORT; SEC_SECT_CNT_PORT; SEC_SECT_ADDR1_PORT; SEC_SECT_ADDR2_PORT;
        SEC_SECT_ADDR3_PORT; SEC_DRV_SEL_PORT])
  ++ [(SEC_CMD_PORT, read_status_ptr, write_cmd_ptr);
      (SEC_ADDR_REG_PORT, read_general_ptr, write_general_ptr);
      (PRI_ADDR_REG_PORT, read_general_ptr, write_general_ptr)].

Definition ramdisk_init_device {S} (m : DevMgr.vmm_dev_mgr) (dev : Z) (mallocs : list (Z * Z))
    : outcome (Z * DevMgr.vmm_dev_mgr * ramdisk_t S) :=
  '(_, rd) ← rd_init_hardware;
  m ← DevMgr.hook_ports default_read_ptr default_write_ptr m dev ramdisk_hooks mallocs;
  Done (0, m, rd).

(** The ports stay hooked: rd_close_harddrive does nothing. *)
Definition ramdisk_deinit_device {S} (m : DevMgr.vmm_dev_mgr) (rd : ramdisk_t S)
    : Z * DevMgr.vmm_dev_mgr * ramdisk_t S := (0, m, rd).

Definition v3_create_ramdisk (m : DevMgr.vmm_dev_mgr) (ramdisk device dev_ops : Z)
    : outcome (Z * DevMgr.vmm_dev_mgr) :=
  v3_assert (negb (ramdisk =? NULL)) (
  m ← DevMgr.v3_create_device m device [82; 65; 77; 68; 73; 83; 75] dev_ops ramdisk;
  Done (device, m)).
End device.

End Ramdisk.
