(* ===== verification/Atapi.v ===== *)
(** What a guest reads from an ATAPI drive: theorems about ramdisk.c.

    [pending src d bs] says that a drive has the bytes [bs] to send; a read of the data port takes
    the first of them.  The theorems show that a guest that reads while data is requested
    receives the answer of its command and nothing else. *)
From stdpp Require Import base tactics numbers list gmap.
From S2P Require Import Prelude Chain Host IoMap Intr ListHead HostEvents DevMgr Ramdisk.

Module Atapi.
Import Intr Ramdisk.

(** ** The answer a drive is sending *)

Lemma check_bit_fields_ok c : check_bit_fields c = 0.
Proof. reflexivity. Qed.

Section sending.
Context {S : Type} `{Hcd : CdromOpsOk S} {C : Type} `{Hic : IntrCtrl C}.

Definition blocks_from (s : S) (lba : Z) (n : nat) : list Z := concat (block s <$> seqZ lba (Z.of_nat n)).

Definition is_read (cmd : Z) : Prop := cmd = 0x28 \/ cmd = 0xa8.

(** The bytes [bs] are what the drive has still to send: they are in the buffer, or the rest
    of the buffer and the blocks to be read. *)
Definition in_buffer (d : drive_t S) (bs : list Z) : Prop :=
  let c := controller d in
  buffer_index c + Z.of_nat (length bs) <= 2048 /\
  bs = take (length bs) (drop (Z.to_nat (buffer_index c)) (buffer c)).

Definition on_medium (s : S) (last : Z) (d : drive_t S) (bs : list Z) : Prop :=
  exists n, next_lba (cdrom d) + Z.of_nat n = last /\ is_read (command (atapi d)) /\ ready (cdrom d) <> 0 /\ cd (cdrom d) = Some s /\
    remaining_blocks (cdrom d) = Z.of_nat n /\ 0 <= next_lba (cdrom d) /\
    next_lba (cdrom d) + Z.of_nat n < 2 ^ 31 /\
    (forall lba, next_lba (cdrom d) <= lba < next_lba (cdrom d) + Z.of_nat n -> readable s lba) /\
    bs = drop (Z.to_nat (buffer_index (controller d))) (buffer (controller d)) ++
         blocks_from s (next_lba (cdrom d)) n.

(** Where the bytes come from: the buffer, or the blocks of a medium before block [last]. *)
Definition source (src : option (S * Z)) (d : drive_t S) (bs : list Z) : Prop :=
  match src with None => in_buffer d bs | Some (s, last) => on_medium s last d bs end.

(** The drive requests the transfer of [bs], of which a chunk of [drq_bytes] is under way. *)
Record pending (src : option (S * Z)) (d : drive_t S) (bs : list Z) : Prop := {
  pd_command : current_command (controller d) = 0xa0;
  pd_drq : drq (status (controller d)) = 1;
  pd_buffer : length (buffer (controller d)) = 2048%nat;
  pd_index : 0 <= buffer_index (controller d) <= 2048 /\ Z.even (buffer_index (controller d)) = true;
  pd_count : byte_count (controller d) = drq_bytes (atapi d) /\ Z.even (drq_bytes (atapi d)) = true;
  pd_chunk : 0 <= drq_index (controller d) < drq_bytes (atapi d) /\ Z.even (drq_index (controller d)) = true;
  pd_total : drq_bytes (atapi d) <= total_bytes_remaining (atapi d) < 2 ^ 31 /\ drq_bytes (atapi d) < 2 ^ 16 /\
             Z.even (total_bytes_remaining (atapi d)) = true;
  pd_size : Z.of_nat (length bs) = total_bytes_remaining (atapi d) - drq_index (controller d);
  pd_bytes : source src d bs;
}.

(** The answer is complete: no data is requested and no error reported. *)
Record sent (src : option (S * Z)) (d : drive_t S) : Prop := {
  sn_command : current_command (controller d) = 0xa0;
  sn_drq : drq (status (controller d)) = 0;
  sn_err : err (status (controller d)) = 0;
  sn_buffer : length (buffer (controller d)) = 2048%nat;
  sn_index : buffer_index (controller d) <= 2048;
  sn_source : source src d [];
}.

Lemma blocks_cons s lba n :
  blocks_from s lba (Datatypes.S n) = block s lba ++ blocks_from s (lba + 1) n.
Proof.
  unfold blocks_from. rewrite Nat2Z.inj_succ, seqZ_cons by lia. rewrite fmap_cons. cbn [concat].
  by rewrite Z.pred_succ, <- Z.add_1_r.
Qed.

Lemma blocks_length s lba n :
  (forall l, lba <= l < lba + Z.of_nat n -> readable s l) -> length (blocks_from s lba n) = (2048 * n)%nat.
Proof.
  revert lba. induction n as [|n IH]; intros lba Hr; [done|].
  rewrite blocks_cons, length_app, ok_block, IH by (intros; apply Hr; lia). lia.
Qed.

(** What a step leaves alone. *)
Record same_transfer (d d' : drive_t S) : Prop := {
  st_ctl : controller d' = (controller d) <| buffer := buffer (controller d') |>;
  st_atapi : atapi d' = atapi d;
  st_type : device_type d' = device_type d;
}.

(** A transfer goes on in [d'] from the index [i]. *)
Record moved (d' : drive_t S) (i : Z) (d2 : drive_t S) : Prop := {
  mv_buffer : buffer (controller d2) = buffer (controller d');
  mv_index : buffer_index (controller d2) = i;
  mv_cdrom : cdrom d2 = cdrom d';
  mv_command : command (atapi d2) = command (atapi d');
}.

Lemma drop_two (l : list Z) i a b x :
  drop i l = a :: b :: x -> take 2 (drop i l) = [a; b] /\ drop (i + 2) l = x /\ (i + 2 <= length l)%nat.
Proof.
  intros E. split_and!; [by rewrite E|by rewrite <- drop_drop, E|].
  pose proof (f_equal length E) as Hl. rewrite length_drop in Hl. cbn [length] in Hl. lia.
Qed.

(** The next word of the transfer: where it is after [load_block], and what is left. *)
Record word_at (src : option (S * Z)) (d d' : drive_t S) (i a b : Z) (bs : list Z) : Prop := {
  wa_load : load_block d = Done (Some (i, d'));
  wa_same : same_transfer d d';
  wa_range : 0 <= i /\ i + 2 <= 2048 /\ Z.even i = true;
  wa_buffer : length (buffer (controller d')) = 2048%nat;
  wa_word : take 2 (drop (Z.to_nat i) (buffer (controller d'))) = [a; b];
  wa_rest : forall d2, moved d' (i + 2) d2 -> source src d2 bs;
}.

Lemma same_transfer_refl d : same_transfer d d.
Proof. split; [by destruct d as [? ? ? []]|done|done]. Qed.

Lemma word_in_buffer d a b bs :
  in_buffer d (a :: b :: bs) -> length (buffer (controller d)) = 2048%nat ->
  0 <= buffer_index (controller d) -> Z.even (buffer_index (controller d)) = true ->
  word_at None d d (buffer_index (controller d)) a b bs.
Proof.
  intros [Hl Hb] Hlen Hi He. cbn [length] in Hl, Hb. set (i := buffer_index (controller d)) in *.
  destruct (drop (Z.to_nat i) (buffer (controller d))) as [|x [|y rest]] eqn:E; [done..|].
  cbn [take] in Hb. injection Hb as <- <- Hb. destruct (drop_two _ _ _ _ _ E) as (Hw & Hr & _). split.
  - unfold load_block. fold i. by rewrite (proj2 (Z.leb_gt 2048 i)) by lia.
  - apply same_transfer_refl.
  - split_and!; [done|lia|done].
  - done.
  - done.
  - intros d2 [Hb2 Hi2 _ _]. split; rewrite Hi2; [lia|].
    rewrite Hb2. replace (Z.to_nat (i + 2)) with (Z.to_nat i + 2)%nat by lia. by rewrite Hr.
Qed.

Lemma word_of_rest s last d a b bs :
  on_medium s last d (a :: b :: bs) -> length (buffer (controller d)) = 2048%nat ->
  0 <= buffer_index (controller d) < 2048 -> Z.even (buffer_index (controller d)) = true ->
  word_at (Some (s, last)) d d (buffer_index (controller d)) a b bs.
Proof.
  intros (n & Hlast & Hc & Hr & Hs & Hn & Hl & Hl2 & Hrd & Hb) Hlen Hi He.
  set (i := buffer_index (controller d)) in *.
  assert (i + 2 <= 2048) as Hi2. { apply Z.even_spec in He as [k ->]. lia. }
  pose proof (f_equal length (eq_refl (drop (Z.to_nat i) (buffer (controller d))))) as Hd.
  rewrite length_drop in Hd at 2.
  destruct (drop (Z.to_nat i) (buffer (controller d))) as [|x [|y rest]] eqn:E; cbn [length] in Hd; [lia..|].
  injection Hb as -> -> Hb. destruct (drop_two _ _ _ _ _ E) as (Hw & Hd2 & _). split.
  - unfold load_block. fold i. by rewrite (proj2 (Z.leb_gt 2048 i)) by lia.
  - apply same_transfer_refl.
  - split_and!; [lia|lia|done].
  - done.
  - done.
  - intros d2 [Hb2 Hix Hcr Hcm]. exists n. rewrite Hcr, Hcm, Hix, Hb2.
    split_and!; [done..|]. replace (Z.to_nat (i + 2)) with (Z.to_nat i + 2)%nat by lia. by rewrite Hd2.
Qed.

Definition loaded (d : drive_t S) (buf : list Z) : drive_t S :=
  with_cd (with_ctl d (fun c => c <| buffer := buf |>)) (fun c =>
    c <| next_lba := sint 32 (next_lba c + 1) |> <| remaining_blocks := sint 32 (remaining_blocks c - 1) |>).

Lemma word_of_block s last d a b bs :
  on_medium s last d (a :: b :: bs) -> length (buffer (controller d)) = 2048%nat ->
  buffer_index (controller d) = 2048 -> exists d', word_at (Some (s, last)) d d' 0 a b bs.
Proof.
  intros (n & Hlast & Hc & Hr & Hs & Hn & Hl & Hl2 & Hrd & Hb) Hlen Hi.
  rewrite drop_ge in Hb by (rewrite Hi; lia). destruct n as [|n]; [done|].
  rewrite app_nil_l, blocks_cons in Hb. set (lba := next_lba (cdrom d)) in *.
  assert (readable s lba) as Hlba by (apply Hrd; lia). pose proof (ok_block s lba Hlba) as Hbl.
  exists (loaded d (block s lba)). split; cbn.
  - unfold load_block. rewrite Hi. cbn [Z.leb Z.ltb Z.compare Pos.compare Pos.compare_cont].
    assert (is_ready d = true) as ->. { unfold is_ready. by rewrite (proj2 (Z.eqb_neq _ _)). }
    rewrite Hs. cbn [negb]. rewrite ok_read by done.
    destruct Hc as [-> | ->]; reflexivity.
  - split; [by destruct d as [? ? ? []]|done|done].
  - done.
  - exact Hbl.
  - fold lba. destruct (block s lba) as [|x [|y rest]]; [done..|]. by injection Hb as -> -> _.
  - intros d2 [Hb2 Hix Hcr Hcm]. exists n. cbn in Hb2, Hix, Hcr, Hcm.
    rewrite Hcr, Hcm, Hix, Hb2. cbn. fold lba. rewrite Hn. rewrite !sint_small by lia.
    split_and!; try done; try lia.
    + intros l Hll. apply Hrd. lia.
    + destruct (block s lba) as [|x [|y rest]]; [done..|]. by injection Hb as _ _ ->.
Qed.

Lemma raise_ok irq (d : drive_t S) (vm : v3_intr_state C) :
  takes (eq irq) vm -> exists vm', rd_raise_interrupt irq d vm = Done vm' /\ takes (eq irq) vm'.
Proof.
  intros Hv. unfold rd_raise_interrupt. case_match; [|by exists vm].
  destruct (raise_takes _ vm irq Hv eq_refl) as (vm' & -> & Hv'). by exists vm'.
Qed.

(** The end of a chunk: [total] bytes are left, and the next chunk is as long as they allow. *)
Record chunked (d d' : drive_t S) (total : Z) : Prop := {
  ck_buffer : buffer (controller d') = buffer (controller d);
  ck_index : buffer_index (controller d') = buffer_index (controller d);
  ck_cdrom : cdrom d' = cdrom d;
  ck_command : command (atapi d') = command (atapi d);
  ck_current : current_command (controller d') = current_command (controller d);
  ck_drq_index : drq_index (controller d') = 0;
  ck_total : total_bytes_remaining (atapi d') = total;
  ck_type : device_type d' = device_type d;
  ck_status : drq (status (controller d')) = b2z (0 <? total) /\
              (total <= 0 -> err (status (controller d')) = 0);
  ck_count : 0 < total -> byte_count (controller d') = Z.min total (byte_count (controller d)) /\
             drq_bytes (atapi d') = byte_count (controller d');
}.

Lemma chunk_read_spec irq d (vm : v3_intr_state C) total :
  total = total_bytes_remaining (atapi d) - drq_bytes (atapi d) -> 0 <= total < 2 ^ 31 ->
  is_u 16 (byte_count (controller d)) -> takes (eq irq) vm ->
  exists d' vm', chunk_read irq d vm = Done (d', vm') /\ takes (eq irq) vm' /\ chunked d d' total.
Proof.
  intros Ht Hr Hu Hv. unfold chunk_read.
  change (atapi (with_ctl d _)) with (atapi d). rewrite <- Ht, sint_small by lia.
  destruct (Z.ltb_spec 0 total) as [Hp|Hp]; cbn zeta.
  - match goal with |- context [rd_raise_interrupt irq ?x vm] =>
      destruct (raise_ok irq x vm Hv) as (vm' & -> & Hv') end. run.
    eexists _, vm'. split; [reflexivity|]. split; [done|].
    split; try done; cbn; unfold set_reason, with_status; cbn; case_cmp; cbn; try done.
    + split; [by rewrite (proj2 (Z.ltb_lt _ _))|lia].
    + split; [by rewrite (proj2 (Z.ltb_lt _ _))|lia].
    + intros _. rewrite wrap_small by (unfold is_u in *; lia). split; [lia|done].
    + intros _. split; [lia|done].
  - match goal with |- context [rd_raise_interrupt irq ?x vm] =>
      destruct (raise_ok irq x vm Hv) as (vm' & -> & Hv') end. run.
    eexists _, vm'. split; [reflexivity|]. split; [done|].
    split; try done; cbn; [|lia]. by rewrite (proj2 (Z.ltb_ge _ _)) by lia.
Qed.

Lemma word_next src d a b bs :
  pending src d (a :: b :: bs) -> exists d' i, word_at src d d' i a b bs.
Proof.
  intros [_ _ Hlen [Hi He] _ _ _ _ Hb]. destruct src as [[s last]|].
  - destruct (decide (buffer_index (controller d) = 2048)) as [E|E].
    + destruct (word_of_block s last d a b bs Hb Hlen E) as [d' Hw]. by exists d', 0.
    + exists d. eexists. apply word_of_rest; [done|done|lia|done].
  - exists d. eexists. apply word_in_buffer; [done|done|lia|done].
Qed.

Lemma even_step x y : Z.even x = true -> Z.even y = true -> x < y -> x + 2 <= y.
Proof. intros [k ->]%Z.even_spec [l ->]%Z.even_spec ?. lia. Qed.

(** The drive after a word has been copied, before the end of the chunk is looked for. *)
Record taken (src : option (S * Z)) (d d2 : drive_t S) (bs : list Z) : Prop := {
  tk_command : current_command (controller d2) = 0xa0;
  tk_drq : drq (status (controller d2)) = 1;
  tk_buffer : length (buffer (controller d2)) = 2048%nat;
  tk_index : 0 <= buffer_index (controller d2) <= 2048 /\ Z.even (buffer_index (controller d2)) = true;
  tk_count : byte_count (controller d2) = drq_bytes (atapi d);
  tk_drq_index : drq_index (controller d2) = drq_index (controller d) + 2;
  tk_atapi : atapi d2 = atapi d;
  tk_type : device_type d2 = device_type d;
  tk_bytes : source src d2 bs;
}.

Lemma read_taken src irq d a b bs :
  pending src d (a :: b :: bs) -> exists d2, taken src d d2 bs /\ forall vm : v3_intr_state C,
    read_data irq d vm 2 =
      if drq_bytes (atapi d) <=? drq_index (controller d) + 2
      then '(d', vm') ← chunk_read irq d2 vm; Done (2, [a; b], d', vm') else Done (2, [a; b], d2, vm).
Proof.
  intros Hp. destruct (word_next src d a b bs Hp) as (d1 & i & [Hld [Hc Ha Hty] [Hi [Hi2 Hie]] Hlen Hw Hrest]).
  destruct Hp as [Hcmd Hdrq _ _ [Hbc Hbe] [Hq Hqe] [Ht [Hd16 Hte]] Hsz _]. cbn [length] in Hsz.
  assert (drq_index (controller d1) = drq_index (controller d)) as E1 by by rewrite Hc.
  set (d2 := with_ctl d1 (fun c => c <| buffer_index := u32 (i + 2) |> <| drq_index := u32 (drq_index c + 2) |>)).
  assert (drq_index (controller d2) = drq_index (controller d) + 2) as Hq2.
  { cbn. rewrite E1, wrap_small by (unfold is_u; lia). done. }
  assert (buffer_index (controller d2) = i + 2) as Hi3 by (apply wrap_small; unfold is_u; lia).
  exists d2. split.
  - split; [cbn; by rewrite Hc|cbn; by rewrite Hc|exact Hlen| |cbn; by rewrite Hc|exact Hq2|exact Ha|exact Hty|].
    + rewrite Hi3. split; [lia|]. by rewrite Z.even_add, Hie.
    + by apply Hrest.
  - intros vm. unfold read_data. rewrite Hcmd. unfold read_packet_data. rewrite Hld. run.
    unfold copy_buffer. rewrite (proj2 (Z.leb_le (i + 2) 2048) Hi2). change (Z.to_nat 2) with 2%nat.
    rewrite Hw. run. fold d2. rewrite Hq2. change (atapi d2) with (atapi d1).
    by rewrite Ha, wrap_small by (unfold is_u; lia).
Qed.

Lemma taken_more src d d2 a b bs :
  pending src d (a :: b :: bs) -> taken src d d2 bs -> drq_index (controller d) + 2 < drq_bytes (atapi d) -> pending src d2 bs.
Proof.
  intros [_ _ _ _ [_ Hbe] [Hq Hqe] Ht Hsz _] [T1 T2 T3 T4 T5 T6 T7 T8 T9] Hlt. cbn [length] in Hsz.
  split; rewrite ?T7, ?T6; try done; [|lia]. split; [lia|]. by rewrite Z.even_add, Hqe.
Qed.

Lemma taken_end src irq d d2 a b bs (vm : v3_intr_state C) :
  pending src d (a :: b :: bs) -> taken src d d2 bs -> drq_bytes (atapi d) <= drq_index (controller d) + 2 ->
  takes (eq irq) vm ->
  exists d' vm', chunk_read irq d2 vm = Done (d', vm') /\ takes (eq irq) vm' /\
    device_type d' = device_type d /\ (bs = [] /\ sent src d' \/ pending src d' bs).
Proof.
  intros [_ _ _ _ [_ Hbe] [Hq Hqe] [Ht [Hd16 Hte]] Hsz _] [T1 T2 T3 T4 T5 T6 T7 T8 T9] Hle Hv. cbn [length] in Hsz.
  pose proof (even_step _ _ Hqe Hbe (proj2 Hq)) as Hge.
  assert (Z.even (Z.of_nat (length bs)) = true) as He.
  { replace (Z.of_nat _) with (total_bytes_remaining (atapi d) - drq_bytes (atapi d)) by lia.
    by rewrite Z.even_sub, Hte, Hbe. }
  destruct (chunk_read_spec irq d2 vm (Z.of_nat (length bs))) as (d' & vm' & -> & Hv' & Hk);
    [rewrite T7; lia|lia|unfold is_u; lia|done|].
  exists d', vm'. split; [done|]. split; [done|]. split; [by rewrite (ck_type _ _ _ Hk)|].
  destruct Hk as [K1 K2 K3 K4 K5 K6 K7 _ [K8 K9] K10]. destruct bs as [|x bs]; [left|right].
  - split; [done|]. split; [congruence|done|by apply K9|by rewrite K1|rewrite K2; lia|].
    unfold source, in_buffer, on_medium in *. by rewrite K1, K2, K3, K4.
  - destruct K10 as [K10 K11]; [cbn; lia|]. rewrite T5 in K10.
    split; rewrite ?K1, ?K2, ?K5, ?K6, ?K7, ?K8; try done.
    + split; [done|]. rewrite K11, K10. by apply Z.min_case.
    + rewrite K11, K10. split; [|done]. cbn [length]. lia.
    + rewrite K11, K10. split_and!; [lia..|done].
    + unfold source, in_buffer, on_medium in *. by rewrite K1, K2, K3, K4.
Qed.

(** A read of a word takes the first two bytes of the answer. *)
Lemma read_word src irq d (vm : v3_intr_state C) a b bs :
  pending src d (a :: b :: bs) -> takes (eq irq) vm ->
  exists d' vm', read_data irq d vm 2 = Done (2, [a; b], d', vm') /\ takes (eq irq) vm' /\
    device_type d' = device_type d /\ (bs = [] /\ sent src d' \/ pending src d' bs).
Proof.
  intros Hp Hv. destruct (read_taken src irq d a b bs Hp) as (d2 & Htk & Hrd). rewrite Hrd. case_cmp.
  - destruct (taken_end src irq d d2 a b bs vm) as (d' & vm' & -> & Hv' & Hty & Hr); [done..|]. by exists d', vm'.
  - exists d2, vm. split_and!; [done|done|by apply (tk_type _ _ _ _ Htk)|]. right. by apply (taken_more src d d2 a b).
Qed.

End sending.
(** ** The guest's accesses *)

Section guest.
Context {S : Type} `{Hcd : CdromOpsOk S} {C : Type} `{Hic : IntrCtrl C}.

(** An instruction of the guest on a port of the device, as ramdisk_init_device hooks it. *)
Inductive ide_op := ide_in (port len : Z) | ide_out (port : Z) (src : list Z).

Inductive port_kind := data_port | status_port | general_port.

Definition kind_of (port : Z) : port_kind :=
  match port with
  | PRI_DATA_PORT | SEC_DATA_PORT => data_port
  | PRI_CMD_PORT | SEC_CMD_PORT | PRI_CTRL_PORT | SEC_CTRL_PORT => status_port
  | _ => general_port
  end.

Definition ide_step (rd : ramdisk_t S) (vm : v3_intr_state C) (o : ide_op)
    : outcome (Z * list Z * ramdisk_t S * v3_intr_state C) :=
  match o with
  | ide_in port len =>
      match kind_of port with
      | data_port => read_data_port rd vm port len
      | status_port => read_status_port rd vm port len
      | general_port => let '(r, bs, rd) := read_general_port rd port len in Done (r, bs, rd, vm)
      end
  | ide_out port src =>
      let len := Z.of_nat (length src) in
      '(r, rd, vm) ← match kind_of port with
        | data_port => write_data_port rd vm port src len
        | status_port => if (port =? PRI_CTRL_PORT) || (port =? SEC_CTRL_PORT)
                         then write_ctrl_port rd vm port src len else write_cmd_port rd vm port src len
        | general_port => let '(r, rd) := write_general_port rd port src len in Done (r, rd, vm)
        end;
      Done (r, [], rd, vm)
  end.

(** A run of accesses: what each returned and stored. *)
Fixpoint ide_run (rd : ramdisk_t S) (vm : v3_intr_state C) (ops : list ide_op)
    : outcome (list (Z * list Z) * ramdisk_t S * v3_intr_state C) :=
  match ops with
  | [] => Done ([], rd, vm)
  | o :: ops =>
      '(r, bs, rd, vm) ← ide_step rd vm o;
      '(rs, rd, vm) ← ide_run rd vm ops;
      Done ((r, bs) :: rs, rd, vm)
  end.

Lemma ide_run_app rd vm o1 o2 :
  ide_run rd vm (o1 ++ o2) =
    '(r1, rd, vm) ← ide_run rd vm o1; '(r2, rd, vm) ← ide_run rd vm o2; Done (r1 ++ r2, rd, vm).
Proof.
  revert rd vm. induction o1 as [|o o1 IH]; intros rd vm.
  - cbn. by destruct (ide_run rd vm o2) as [[[? ?] ?]| |].
  - cbn [app ide_run]. destruct (ide_step rd vm o) as [[[[r bs] rd1] vm1]| |]; [|done|done]. run.
    rewrite IH. destruct (ide_run rd1 vm1 o1) as [[[rs rd2] vm2]| |]; [|done|done]. run.
    by destruct (ide_run rd2 vm2 o2) as [[[? ?] ?]| |].
Qed.

(** The two channels the ports reach, and their ports. *)
Inductive bus := primary | secondary.
Definition bus_no (b : bus) : nat := match b with primary => 0 | secondary => 1 end.
Definition DATA_PORT (b : bus) : Z := match b with primary => PRI_DATA_PORT | secondary => SEC_DATA_PORT end.
Definition CMD_PORT (b : bus) : Z := match b with primary => PRI_CMD_PORT | secondary => SEC_CMD_PORT end.
Definition CTRL_PORT (b : bus) : Z := match b with primary => PRI_CTRL_PORT | secondary => SEC_CTRL_PORT end.

(** The drive selected on a channel. *)
Definition drive_of (rd : ramdisk_t S) (b : bus) : drive_t S := get_selected_drive (get_channel rd (bus_no b)).
Definition irq_of (rd : ramdisk_t S) (b : bus) : Z := irq (get_channel rd (bus_no b)).
Definition put_drive (rd : ramdisk_t S) (b : bus) (d : drive_t S) : ramdisk_t S :=
  set_channel rd (bus_no b) (set_selected_drive (get_channel rd (bus_no b)) d).

Definition wf_channel (ch : channel_t S) : Prop := length (drives ch) = 2%nat /\ 0 <= drive_select ch < 2.
Definition wf_ramdisk (rd : ramdisk_t S) : Prop :=
  length (channels rd) = MAX_ATA_CHANNEL /\ Forall wf_channel (channels rd).

Lemma wf_bus rd b : wf_ramdisk rd -> (bus_no b < length (channels rd))%nat /\ wf_channel (get_channel rd (bus_no b)).
Proof.
  intros [Hl Hf]. assert (bus_no b < length (channels rd))%nat as Hb by (rewrite Hl; destruct b; cbn; lia).
  split; [done|]. rewrite Forall_lookup in Hf. apply (Hf (bus_no b)). by apply list_lookup_lookup_total_lt.
Qed.

Lemma wf_put rd b d : wf_ramdisk rd -> wf_ramdisk (put_drive rd b d).
Proof.
  intros Hw. destruct (wf_bus rd b Hw) as [_ [H2 Hs]]. destruct Hw as [Hl Hf]. split; cbn.
  - by rewrite length_insert.
  - apply Forall_insert; [done|]. split; cbn; [by rewrite length_insert|done].
Qed.

Lemma drive_put rd b d : wf_ramdisk rd -> drive_of (put_drive rd b d) b = d.
Proof.
  intros Hw. destruct (wf_bus rd b Hw) as [Hb [H2 Hs]].
  unfold drive_of, get_channel, put_drive, set_channel. cbn. rewrite list_lookup_total_insert_eq by done.
  unfold get_selected_drive. cbn. apply list_lookup_total_insert_eq. rewrite H2. lia.
Qed.

Lemma irq_put rd b d : wf_ramdisk rd -> irq_of (put_drive rd b d) b = irq_of rd b.
Proof.
  intros Hw. destruct (wf_bus rd b Hw) as [Hb _].
  unfold irq_of, get_channel, put_drive, set_channel. cbn. by rewrite list_lookup_total_insert_eq.
Qed.

Lemma put_put rd b d d' : wf_ramdisk rd -> put_drive (put_drive rd b d) b d' = put_drive rd b d'.
Proof.
  intros Hw. destruct (wf_bus rd b Hw) as [Hb _].
  unfold put_drive, set_channel, get_channel. cbn. rewrite list_lookup_total_insert_eq by done.
  rewrite list_insert_insert_eq. f_equal. f_equal. unfold set_selected_drive. cbn.
  by rewrite list_insert_insert_eq.
Qed.

Lemma put_same rd b : wf_ramdisk rd -> put_drive rd b (drive_of rd b) = rd.
Proof.
  intros Hw. destruct (wf_bus rd b Hw) as [Hb [H2 Hs]].
  unfold put_drive, drive_of, set_channel, set_selected_drive, get_selected_drive. destruct rd as [chs]. f_equal. cbn in *.
  unfold get_channel in *. cbn in *. apply list_insert_id.
  rewrite (list_lookup_lookup_total_lt _ _ Hb). f_equal. destruct (chs !!! bus_no b) as [ds sel i1 i2 q]. cbn in *.
  assert (<[Z.to_nat sel := ds !!! Z.to_nat sel]> ds = ds) as E
    by (apply list_insert_id, list_lookup_lookup_total_lt; lia). rewrite E. reflexivity.
Qed.

Lemma step_read_data rd (vm : v3_intr_state C) b len :
  ide_step rd vm (ide_in (DATA_PORT b) len) =
    '(r, bs, d, vm) ← read_data (irq_of rd b) (drive_of rd b) vm len; Done (r, bs, put_drive rd b d, vm).
Proof. by destruct b. Qed.

Lemma step_write_data rd (vm : v3_intr_state C) b src :
  ide_step rd vm (ide_out (DATA_PORT b) src) =
    '(r, d, vm) ← write_data (irq_of rd b) (drive_of rd b) vm src (Z.of_nat (length src));
    Done (r, [], put_drive rd b d, vm).
Proof.
  destruct b; cbn [ide_step]; unfold write_data_port; cbn [kind_of DATA_PORT channel_of is_primary_port is_secondary_port];
    [change (channel_of _) with (Some 0%nat)|change (channel_of _) with (Some 1%nat)];
    by destruct (write_data _ _ vm src _) as [[[? ?] ?]| |].
Qed.

Lemma step_write_cmd rd (vm : v3_intr_state C) b v :
  ide_step rd vm (ide_out (CMD_PORT b) [v]) =
    '(r, d, vm) ← write_cmd (irq_of rd b) (drive_of rd b) vm v 1; Done (r, [], put_drive rd b d, vm).
Proof.
  destruct b; cbn [ide_step]; unfold write_cmd_port;
    [change (channel_of _) with (Some 0%nat)|change (channel_of _) with (Some 1%nat)];
    cbn; by destruct (write_cmd _ _ vm v _) as [[[? ?] ?]| |].
Qed.

(** The results of reading [bs] word by word. *)
Fixpoint words_of (bs : list Z) : list (Z * list Z) :=
  match bs with
  | a :: b :: bs => (2, [a; b]) :: words_of bs
  | _ => []
  end.

Lemma read_all src b k : forall rd (vm : v3_intr_state C) bs,
  wf_ramdisk rd -> takes (eq (irq_of rd b)) vm -> pending src (drive_of rd b) bs -> length bs = (2 * Datatypes.S k)%nat ->
  exists d' vm', ide_run rd vm (replicate (Datatypes.S k) (ide_in (DATA_PORT b) 2)) =
      Done (words_of bs, put_drive rd b d', vm') /\
    sent src d' /\ device_type d' = device_type (drive_of rd b) /\ takes (eq (irq_of rd b)) vm'.
Proof.
  induction k as [|k IH]; intros rd vm bs Hw Hv Hp Hl;
    (destruct bs as [|x [|y bs]]; [cbn in Hl; lia..|]); cbn [length] in Hl;
    destruct (read_word src (irq_of rd b) (drive_of rd b) vm x y bs Hp Hv) as (d1 & vm1 & E1 & Hv1 & Hty & Hr);
    change (replicate (Datatypes.S ?n) ?x) with (x :: replicate n x); cbn [ide_run words_of];
    rewrite step_read_data, E1; run.
  - destruct bs; [|cbn in Hl; lia]. exists d1, vm1. split_and!; [done| |done|done].
    destruct Hr as [[_ Hr]|Hr]; [done|]. pose proof (pd_size _ _ _ Hr) as Hz. pose proof (pd_chunk _ _ _ Hr).
    pose proof (pd_total _ _ _ Hr). cbn [length] in Hz. lia.
  - destruct Hr as [[-> _]|Hr]; [cbn in Hl; lia|].
    destruct (IH (put_drive rd b d1) vm1 bs) as (d2 & vm2 & E2 & Hs & Hty2 & Hv2);
      [by apply wf_put|by rewrite irq_put|by rewrite drive_put|lia|].
    change (replicate (Datatypes.S ?n) ?x) with (x :: replicate n x) in E2. cbn [replicate].
    change (replicate (Datatypes.S ?n) ?x) with (x :: replicate n x). rewrite E2. run.
    exists d2, vm2. rewrite put_put by done. rewrite irq_put in Hv2 by done. rewrite drive_put in Hty2 by done.
    split_and!; [done|done|congruence|done].
Qed.

(** ** Sending a packet *)

(** The drive has received the first bytes of a packet. *)
Definition received (d : drive_t S) (l : list Z) : drive_t S :=
  with_ctl d (fun c => (put_buffer c 0 l) <| buffer_index := Z.of_nat (length l) |>).

Lemma received_snoc d l x y :
  with_ctl (received d l) (fun c => (put_buffer c (length l) [x; y]) <| buffer_index := Z.of_nat (length l + 2) |>) =
  received d (l ++ [x; y]).
Proof.
  unfold received, with_ctl, put_buffer. cbn. rewrite length_app. cbn [length].
  by rewrite list_inserts_app_l, Nat.add_0_r.
Qed.

Lemma split_word x y : is_u 8 x -> is_u 8 y -> u8 (x + 256 * y) = x /\ u8 (Z.shiftr (x + 256 * y) 8) = y.
Proof.
  unfold is_u. intros Hx Hy. rewrite Z.shiftr_div_pow2 by lia. unfold wrap. change (2 ^ 8) with 256 in *.
  split; [rewrite (Z.mul_comm 256), Z.mod_add, Z.mod_small by lia; done|].
  rewrite (Z.mul_comm 256), Z.div_add, Z.div_small by lia. by apply Z.mod_small.
Qed.

Lemma write_word irq d (vm : v3_intr_state C) l x y :
  current_command (controller d) = 0xa0 -> (length l < 12)%nat -> is_u 8 x -> is_u 8 y ->
  write_data irq (received d l) vm [x; y] 2 =
    if (length l + 2 <? 12)%nat then Done (2, received d (l ++ [x; y]), vm)
    else '(r, d, vm) ← atapi_command irq (received d (l ++ [x; y])) vm; Done (if r =? -1 then -1 else 2, d, vm).
Proof.
  intros Hc Hl Hx Hy. destruct (split_word x y Hx Hy) as [E1 E2].
  unfold write_data. change (current_command (controller (received d l))) with (current_command (controller d)).
  rewrite Hc. unfold handle_atapi_packet_command. rewrite E1, E2.
  change (buffer_index (controller (received d l))) with (Z.of_nat (length l)).
  rewrite (proj2 (Z.leb_gt 12 _)) by lia. rewrite Nat2Z.id.
  rewrite wrap_small by (unfold is_u; lia). replace (Z.of_nat (length l) + 2) with (Z.of_nat (length l + 2)) by lia.
  rewrite received_snoc.
  change (buffer_index (controller (received d (l ++ [x; y])))) with (Z.of_nat (length (l ++ [x; y]))).
  rewrite length_app. cbn [length]. destruct (Nat.ltb_spec (length l + 2) 12).
  - by rewrite (proj2 (Z.leb_gt 12 _)) by lia.
  - by rewrite (proj2 (Z.leb_le 12 _)) by lia.
Qed.

(** The instructions that send a packet, word by word. *)
Fixpoint packet_out (b : bus) (p : list Z) : list ide_op :=
  match p with
  | x :: y :: p => ide_out (DATA_PORT b) [x; y] :: packet_out b p
  | _ => []
  end.

Lemma send_rest b d n : forall l p rd (vm : v3_intr_state C),
  wf_ramdisk rd -> current_command (controller d) = 0xa0 -> drive_of rd b = received d l ->
  (length l + 2 + 2 * n = 12)%nat -> length p = (2 + 2 * n)%nat -> Forall (is_u 8) p ->
  ide_run rd vm (packet_out b p) =
    '(r, d, vm) ← atapi_command (irq_of rd b) (received d (l ++ p)) vm;
    Done (replicate n (2, []) ++ [(if r =? -1 then -1 else 2, [])], put_drive rd b d, vm).
Proof.
  induction n as [|n IH]; intros l p rd vm Hw Hc Hd Hl Hp Hf;
    (destruct p as [|x [|y p]]; [cbn in Hp; lia..|]); cbn [length] in Hp;
    apply Forall_cons in Hf as [Hx Hf]; apply Forall_cons in Hf as [Hy Hf];
    cbn [packet_out ide_run]; rewrite step_write_data, Hd; change (Z.of_nat (length [x; y])) with 2;
    rewrite write_word by (done || lia).
  - destruct p; [|cbn in Hp; lia]. rewrite (proj2 (Nat.ltb_ge _ _)) by lia. cbn [packet_out ide_run].
    by destruct (atapi_command _ _ vm) as [[[r d'] vm']| |].
  - rewrite (proj2 (Nat.ltb_lt _ _)) by lia. run.
    rewrite (IH (l ++ [x; y]) p); [|by apply wf_put|done|by rewrite drive_put|rewrite length_app; cbn; lia|lia|done].
    rewrite irq_put, <- app_assoc by done. cbn [app replicate].
    destruct (atapi_command _ _ vm) as [[[r d'] vm']| |]; [|done|done]. run.
    by rewrite put_put.
Qed.

(** A packet command: the command register is written, then the twelve bytes of the packet. *)
Definition packet_command (b : bus) (p : list Z) : list ide_op := ide_out (CMD_PORT b) [0xa0] :: packet_out b p.

(** The drive accepts packets. *)
Record accepts (d : drive_t S) : Prop := {
  ac_type : device_type d = IDE_CDROM;
  ac_features : Z.land (features (controller d)) 1 = 0 /\ Z.land (features (controller d)) 2 = 0;
  ac_buffer : length (buffer (controller d)) = 2048%nat;
}.

Definition accepted (d : drive_t S) : drive_t S :=
  with_ctl d (fun c =>
    with_status (c <| sector_count := 1 |> <| current_command := 0xa0 |> <| buffer_index := 0 |>)
      (fun s => s <| busy := 0 |> <| write_fault := 0 |> <| drq := 1 |> <| err := 0 |>)).

Lemma packet_sent b p rd (vm : v3_intr_state C) :
  wf_ramdisk rd -> accepts (drive_of rd b) -> length p = 12%nat -> Forall (is_u 8) p ->
  ide_run rd vm (packet_command b p) =
    '(r, d, vm) ← atapi_command (irq_of rd b) (received (accepted (drive_of rd b)) p) vm;
    Done ((1, []) :: replicate 5 (2, []) ++ [(if r =? -1 then -1 else 2, [])], put_drive rd b d, vm).
Proof.
  intros Hw [Ht [Hf1 Hf2] Hb] Hp Hf. set (d := drive_of rd b) in *. cbn [packet_command ide_run].
  assert (write_cmd (irq_of rd b) d vm 0xa0 1 = Done (1, accepted d, vm)) as E.
  { unfold write_cmd. by rewrite Ht, Hf1, Hf2. }
  rewrite step_write_cmd. fold d. rewrite E. run.
  rewrite (send_rest b (accepted d) 5 []);
    [|by apply wf_put|done|rewrite drive_put by done|done|done|done].
  - rewrite irq_put by done. cbn [app].
    destruct (atapi_command _ _ vm) as [[[r d'] vm']| |]; [|done|done]. run. by rewrite put_put.
  - by destruct d as [? ? ? []].
Qed.

(** ** Answering *)

(** A transfer of [total] bytes has been set up. *)
Record opened (d d' : drive_t S) (cmd total : Z) (lazy : bool) : Prop := {
  op_current : current_command (controller d') = current_command (controller d);
  op_drq : drq (status (controller d')) = 1;
  op_buffer : buffer (controller d') = buffer (controller d);
  op_index : buffer_index (controller d') = if lazy then 2048 else 0;
  op_drq_index : drq_index (controller d') = 0;
  op_count : byte_count (controller d') = drq_bytes (atapi d') /\ Z.even (drq_bytes (atapi d')) = true;
  op_chunk : 0 < drq_bytes (atapi d') <= total /\ drq_bytes (atapi d') < 2 ^ 16;
  op_total : total_bytes_remaining (atapi d') = total;
  op_command : command (atapi d') = cmd;
  op_cdrom : cdrom d' = cdrom d;
  op_sense : sense d' = sense d;
  op_type : device_type d' = device_type d;
}.

(** The byte count of the guest after the two corrections. *)
Definition first_count (bc alloc : Z) : Z :=
  let bc := if bc =? 0xffff then 0xfffe else bc in
  if negb (Z.land bc 1 =? 0) && negb (alloc <=? bc) then u16 (bc - 1) else bc.

Lemma land1_even x : (Z.land x 1 =? 0) = Z.even x.
Proof.
  change 1 with (Z.ones 1). rewrite Z.land_ones by lia. change (2 ^ 1) with 2. rewrite Zmod_even.
  by destruct (Z.even x).
Qed.

Lemma first_count_spec bc alloc :
  is_u 16 bc -> 2 <= bc -> 2 <= first_count bc alloc < 2 ^ 16 /\
  (Z.even (first_count bc alloc) = true \/ alloc <= first_count bc alloc).
Proof.
  intros Hu H2. unfold first_count, is_u in *. rewrite land1_even.
  set (bc' := if bc =? 0xffff then 0xfffe else bc). assert (2 <= bc' < 2 ^ 16) by (subst bc'; case_cmp; lia).
  clearbody bc'. destruct (Z.even bc') eqn:He; cbn [negb andb]; [split; [done|by left]|].
  destruct (Z.leb_spec alloc bc'); cbn [negb]; [split; [done|by right]|].
  assert (bc' <> 2) by (by intros ->). rewrite wrap_small by (unfold is_u; lia).
  split; [lia|]. left. by rewrite Z.even_sub, He.
Qed.

Lemma init_send_spec d cmd req alloc lazy :
  is_u 16 (byte_count (controller d)) -> 2 <= byte_count (controller d) -> 0 < req < 2 ^ 31 -> 0 < alloc < 2 ^ 31 ->
  Z.even (Z.min req alloc) = true ->
  exists d', rd_init_send_atapi_command d cmd req alloc lazy = (0, d') /\ opened d d' cmd (Z.min req alloc) lazy.
Proof.
  intros Hu H2 Hr Ha He. destruct (first_count_spec (byte_count (controller d)) alloc Hu H2) as [Hc Hce].
  unfold rd_init_send_atapi_command.
  set (c1 := if byte_count (controller d) =? 0xffff then _ else controller d).
  set (c2 := if negb (Z.land (byte_count c1) 1 =? 0) && _ then _ else c1).
  assert (c2 = (controller d) <| byte_count := first_count (byte_count (controller d)) alloc |>) as ->.
  { subst c2 c1. unfold first_count. destruct d as [? ? ? []]. cbn.
    destruct (_ =? 0xffff); cbn; destruct (_ && _); reflexivity. }
  cbn. rewrite (proj2 (Z.eqb_neq _ 0)), (proj2 (Z.ltb_ge alloc 0)), (proj2 (Z.eqb_neq alloc 0)) by lia.
  set (bc := first_count _ _) in *. clearbody bc. clear c1.
  assert (Z.even (Z.min bc (Z.min req alloc)) = true) as Hm.
  { destruct Hce; [by apply Z.min_case|]. by rewrite Z.min_r by lia. }
  rewrite !Z.gtb_ltb. destruct (Z.ltb_spec req bc); cbn; rewrite ?(wrap_small 16 req) by (unfold is_u; lia);
    (match goal with |- context [alloc <? ?y] => destruct (Z.ltb_spec alloc y) end; cbn; rewrite ?(wrap_small 16 alloc) by (unfold is_u; lia));
    (eexists; split; [reflexivity|]); split; cbn; try done; try lia; try (case_cmp; lia);
    (split; [done|]); (etrans; [|exact Hm]); f_equal; lia.
Qed.

(** The drive takes a packet: its byte count lets a word through. *)
Record listens (d : drive_t S) : Prop := {
  ls_command : current_command (controller d) = 0xa0;
  ls_buffer : length (buffer (controller d)) = 2048%nat;
  ls_count : is_u 16 (byte_count (controller d)) /\ 2 <= byte_count (controller d);
}.

Definition with_buffer (d : drive_t S) (l : list Z) : drive_t S := with_ctl d (fun c => c <| buffer := l |>).

Lemma opened_buffer d d' cmd total l :
  listens d -> opened d d' cmd total false -> total <= 2048 -> Z.even total = true -> length l = 2048%nat ->
  pending None (with_buffer d' l) (take (Z.to_nat total) l).
Proof.
  intros [Hc Hb _] [O1 O2 O3 O4 O5 O6 O7 O8 _ _ _ _] Ht He Hl. assert (0 < total) by lia.
  assert (length (take (Z.to_nat total) l) = Z.to_nat total) as Hn by (rewrite length_take; lia).
  split; cbn; rewrite ?O1, ?O2, ?O4, ?O5, ?O8; try done.
  - split; [lia|done].
  - split_and!; [lia..|done].
  - lia.
  - split; cbn; rewrite O4; [lia|]. by rewrite Hn.
Qed.

Lemma opened_blocks d d' cmd s lba n :
  listens d -> opened d d' cmd (Z.of_nat n * 2048) true -> is_read cmd -> cd (cdrom d) = Some s -> ready (cdrom d) <> 0 ->
  (0 < n)%nat -> 0 <= lba -> lba + Z.of_nat n < 2 ^ 31 -> Z.of_nat n * 2048 < 2 ^ 31 ->
  (forall l, lba <= l < lba + Z.of_nat n -> readable s l) ->
  pending (Some (s, lba + Z.of_nat n)) (with_cd d' (fun c => c <| remaining_blocks := Z.of_nat n |> <| next_lba := lba |>)) (blocks_from s lba n).
Proof.
  intros [Hc Hb _] [O1 O2 O3 O4 O5 O6 O7 O8 O9 O10 _ _] Hr Hs Hrd Hn Hl Hl2 Hb31 Hre.
  split; cbn; rewrite ?O1, ?O2, ?O3, ?O4, ?O5, ?O8; try done.
  - split; [lia|done].
  - split_and!; [lia..|]. by rewrite Z.even_mul, orb_true_r.
  - rewrite blocks_length by done. lia.
  - exists n. cbn. rewrite O9, O10, O4, O3. split_and!; try done.
    rewrite drop_ge by (rewrite Hb; lia). done.
Qed.

Lemma reply_buffer irq d (vm : v3_intr_state C) cmd req alloc fill bs :
  listens d -> takes (eq irq) vm -> 0 < req <= 2048 -> 0 < alloc < 2 ^ 31 -> Z.even (Z.min req alloc) = true ->
  (forall d', opened d d' cmd (Z.min req alloc) false -> exists l, fill d' = with_buffer d' l /\
     length l = 2048%nat /\ take (Z.to_nat (Z.min req alloc)) l = bs) ->
  exists d' vm', reply_data irq d vm cmd req alloc false fill = Done (0, d', vm') /\ takes (eq irq) vm' /\
    pending None d' bs.
Proof.
  intros Hls Hv Hr Ha He Hf.
  destruct (init_send_spec d cmd req alloc false) as (d1 & E & Ho); [apply Hls..|lia|lia|done|].
  unfold reply_data. rewrite E. run. destruct (Hf d1 Ho) as (l & -> & Hl & <-).
  destruct (raise_ok irq (with_buffer d1 l) vm Hv) as (vm' & E' & Hv').
  unfold rd_ready_to_send_atapi. rewrite E'. run. exists (with_buffer d1 l), vm'. split; [done|]. split; [done|].
  eapply opened_buffer; [done|done|lia|done|done].
Qed.

Lemma take_inserts (l m : list Z) k : (length l <= length m)%nat -> (k <= length l)%nat ->
  take k (list_inserts 0 l m) = take k l.
Proof.
  intros Hl Hk. rewrite <- (take_drop (length l) m) at 1.
  rewrite list_inserts_0_r by (rewrite length_take; lia). by rewrite take_app_le by lia.
Qed.

(** An answer that is put at the start of the buffer. *)
Lemma reply_put irq d (vm : v3_intr_state C) cmd req alloc fill bs :
  listens d -> takes (eq irq) vm -> Z.of_nat (length bs) = req -> 0 < req <= 2048 -> 0 < alloc < 2 ^ 31 ->
  Z.even (Z.min (Z.of_nat (length bs)) alloc) = true ->
  (forall d', cdrom d' = cdrom d -> sense d' = sense d -> length (buffer (controller d')) = 2048%nat ->
     fill d' = with_ctl d' (fun c => put_buffer c 0 bs)) ->
  exists d' vm', reply_data irq d vm cmd req alloc false fill = Done (0, d', vm') /\ takes (eq irq) vm' /\
    pending None d' (take (Z.to_nat alloc) bs).
Proof.
  intros Hls Hv <- Hn Ha He Hd. apply reply_buffer; [done|done|lia|lia|done|].
  intros d' Ho. exists (list_inserts 0 bs (buffer (controller d))).
  pose proof (ls_buffer _ Hls). split_and!.
  - rewrite Hd; [|apply Ho..|by rewrite (op_buffer _ _ _ _ _ Ho)].
    unfold with_buffer, with_ctl, put_buffer. by rewrite (op_buffer _ _ _ _ _ Ho).
  - by rewrite length_inserts.
  - rewrite take_inserts by lia. destruct (Z.le_gt_cases (Z.of_nat (length bs)) alloc).
    + rewrite Z.min_l, Nat2Z.id by done. by rewrite !take_ge by lia.
    + by rewrite Z.min_r by lia.
Qed.

(** The data a packet asks for, and how many bytes of it: REQUEST SENSE, INQUIRY, MECHANISM
    STATUS, READ CAPACITY, the two pages of MODE SENSE that are implemented, and the session
    information of READ TOC. *)
Definition mode_page (n : Z) (l : list Z) : list Z := [0; n; 0x70; 0; 0; 0; 0; 0] ++ l.

Definition answer_data (d : drive_t S) (p : list Z) : option (list Z * Z) :=
  let cmd := p !!! 0%nat in
  if cmd =? 0x03 then Some (sense_data d, p !!! 4%nat)
  else if cmd =? 0x12 then Some (inquiry_data, p !!! 4%nat)
  else if cmd =? 0xbd then Some ([0; 0; 0; 0; 0; 1; 0; 0], rd_read_16bit p 8)
  else if cmd =? 0x25 then if is_ready d then Some (capacity_data d, 8) else None
  else if cmd =? 0x5a then
    if p !!! 2%nat =? 0x01 then Some (mode_page 14 (error_recovery (cdrom d)), rd_read_16bit p 7)
    else if p !!! 2%nat =? 0x2a then Some (mode_page 34 (capabilities d), rd_read_16bit p 7) else None
  else if cmd =? 0x43 then
    if is_ready d && (Z.shiftr (p !!! 9%nat) 6 =? 1)
    then Some ([0; 0x0a; 1; 1] ++ replicate 8 0, rd_read_16bit p 7) else None
  else None.

(** The arrays of the drive have their lengths. *)
Record arrays (d : drive_t S) : Prop := {
  ar_information : length (information (sense d)) = 4%nat;
  ar_specific : length (specific_inf (sense d)) = 4%nat;
  ar_key_spec : length (key_spec (sense d)) = 3%nat;
  ar_recovery : length (error_recovery (cdrom d)) = 8%nat;
}.

Lemma lookup_inserts (l m : list Z) i : (length l <= length m)%nat -> (i < length l)%nat ->
  list_inserts 0 l m !!! i = l !!! i.
Proof.
  intros Hl Hi. rewrite <- (take_drop (length l) m).
  rewrite list_inserts_0_r by (rewrite length_take; lia). by apply lookup_total_app_l.
Qed.

Lemma received_byte (d : drive_t S) p i : length (buffer (controller d)) = 2048%nat -> length p = 12%nat -> (i < 12)%nat ->
  buffer (controller (received d p)) !!! i = p !!! i.
Proof. intros Hb Hp Hi. cbn. apply lookup_inserts; lia. Qed.

Lemma received_16 (d : drive_t S) p i : length (buffer (controller d)) = 2048%nat -> length p = 12%nat -> (i < 11)%nat ->
  rd_read_16bit (buffer (controller (received d p))) i = rd_read_16bit p i.
Proof. intros. unfold rd_read_16bit. by rewrite !received_byte by lia. Qed.

Lemma received_32 (d : drive_t S) p i : length (buffer (controller d)) = 2048%nat -> length p = 12%nat -> (i < 9)%nat ->
  rd_read_32bit (buffer (controller (received d p))) i = rd_read_32bit p i.
Proof. intros. unfold rd_read_32bit. by rewrite !received_byte by lia. Qed.

Lemma inserts_self (m : list Z) i k : (i <= length m)%nat -> list_inserts i (take k (drop i m)) m = m.
Proof.
  intros Hi. rewrite <- (take_drop i m) at 2 3.
  assert (length (take i m) = i) as Hl by (rewrite length_take; lia).
  rewrite <- Hl at 1. rewrite <- (Nat.add_0_r (length (take i m))), list_inserts_app_r. f_equal.
  rewrite <- (take_drop k (drop i m)) at 2. rewrite list_inserts_0_r by done. apply take_drop.
Qed.

Lemma put_mode_page n (l m : list Z) :
  list_inserts 8 l (list_inserts 0 [0; n; 0x70; 0; 0; 0; 0; 0] m) = list_inserts 0 (mode_page n l) m.
Proof. unfold mode_page. by rewrite list_inserts_app_l. Qed.

Lemma fill_recovery (d : drive_t S) : length (error_recovery (cdrom d)) = 8%nat ->
  rd_init_mode_sense_single d (error_recovery (cdrom d)) 8 =
  with_ctl d (fun c => put_buffer c 0 (mode_page 14 (error_recovery (cdrom d)))).
Proof.
  intros He. unfold rd_init_mode_sense_single, with_ctl, put_buffer. cbn -[list_inserts mode_page].
  rewrite take_ge by (rewrite He; done). by rewrite <- put_mode_page.
Qed.

Lemma fill_capabilities (d : drive_t S) : length (buffer (controller d)) = 2048%nat ->
  (let d := rd_init_mode_sense_single d (drop 8 (buffer (controller d))) 28 in
   with_ctl d (fun c => put_buffer c 8 (capabilities d))) =
  with_ctl d (fun c => put_buffer c 0 (mode_page 34 (capabilities d))).
Proof.
  intros Hb. cbn zeta. unfold rd_init_mode_sense_single, with_ctl, put_buffer. cbn -[list_inserts mode_page capabilities].
  change (capabilities (d <| controller := ?c |> <| controller := ?c' |>)) with (capabilities d).
  set (m := list_inserts 0 _ (buffer (controller d))).
  assert (drop 8 (buffer (controller d)) = drop 8 m) as ->.
  { subst m. rewrite <- (take_drop 8 (buffer (controller d))) at 2.
    rewrite list_inserts_0_r by (rewrite length_take, Hb; done). done. }
  change (Z.to_nat 28) with 28%nat. rewrite inserts_self by (subst m; rewrite length_inserts, Hb; lia).
  subst m. by rewrite put_mode_page.
Qed.

Lemma ready_received (d : drive_t S) p : is_ready (received d p) = is_ready d.
Proof. reflexivity. Qed.

Lemma cdrom_received (d : drive_t S) p : cdrom (received d p) = cdrom d.
Proof. reflexivity. Qed.

Lemma error_buffer (d : drive_t S) key code : buffer (controller (rd_atapi_cmd_error d key code)) = buffer (controller d).
Proof. reflexivity. Qed.

Lemma error_count (d : drive_t S) key code : byte_count (controller (rd_atapi_cmd_error d key code)) = byte_count (controller d).
Proof. reflexivity. Qed.

Lemma error_accepts (d : drive_t S) key code : accepts d -> accepts (rd_atapi_cmd_error d key code).
Proof. intros [H1 H2 H3]. split; [exact H1|exact H2|]. by rewrite error_buffer. Qed.

Lemma error_arrays (d : drive_t S) key code : arrays d -> arrays (rd_atapi_cmd_error d key code).
Proof. intros [H1 H2 H3 H4]. by split. Qed.

Lemma error_sense (d : drive_t S) key code :
  sense (rd_atapi_cmd_error d key code) = (sense d) <| sense_key := key |> <| asc := code |> <| ascq := 0 |>.
Proof. reflexivity. Qed.

Lemma error_status (d : drive_t S) key code :
  err (status (controller (rd_atapi_cmd_error d key code))) = 1 /\
  drq (status (controller (rd_atapi_cmd_error d key code))) = 0.
Proof. done. Qed.

Lemma received_frame (d : drive_t S) p :
  byte_count (controller (received d p)) = byte_count (controller d) /\ sense (received d p) = sense d /\
  (accepts d -> accepts (received d p)) /\ (arrays d -> arrays (received d p)).
Proof.
  split_and!; [done|done|intros [H1 H2 H3]; split; [done|done|]|by intros []].
  cbn -[list_inserts]. by rewrite length_inserts.
Qed.

Lemma accepted_frame (d : drive_t S) :
  byte_count (controller (accepted d)) = byte_count (controller d) /\ sense (accepted d) = sense d /\
  (accepts d -> accepts (accepted d)) /\ (arrays d -> arrays (accepted d)).
Proof. split_and!; [done|done|by intros []|by intros []]. Qed.

Lemma sense_length (d : drive_t S) : arrays d -> length (sense_data d) = 18%nat.
Proof. intros [A1 A2 A3 _]. unfold sense_data. by rewrite !length_app, A1, A2, A3. Qed.

Lemma received_listens d p : listens d -> listens (received d p).
Proof. intros [H1 H2 H3]. split; [done| |done]. cbn -[list_inserts]. by rewrite length_inserts. Qed.

Lemma read_16_range (p : list Z) i : is_u 16 (rd_read_16bit p i).
Proof. apply wrap_range. lia. Qed.

Lemma capacity_ready irq (d : drive_t S) (vm : v3_intr_state C) cmd :
  is_ready d = true -> listens d ->
  read_cdrom_capacity irq d vm cmd =
  reply_data irq d vm cmd 8 8 false (fun d => with_ctl d (fun c => put_buffer c 0 (capacity_data d))).
Proof.
  intros Hr Hls. unfold read_cdrom_capacity, reply_data.
  destruct (init_send_spec d cmd 8 8 false) as (d1 & -> & Ho); [apply Hls..|lia|lia|done|]. run.
  unfold is_ready in *. by rewrite (op_cdrom _ _ _ _ _ Ho), Hr.
Qed.

Ltac packet_bytes := rewrite ?received_16, ?received_32, ?received_byte by (done || lia).

Lemma command_answered irq (d : drive_t S) (vm : v3_intr_state C) p data alloc :
  listens d -> arrays d -> takes (eq irq) vm -> length p = 12%nat -> Forall (is_u 8) p ->
  answer_data d p = Some (data, alloc) -> 0 < alloc -> Z.even (Z.min (Z.of_nat (length data)) alloc) = true ->
  exists d' vm', atapi_command irq (received d p) vm = Done (0, d', vm') /\ takes (eq irq) vm' /\
    pending None d' (take (Z.to_nat alloc) data).
Proof.
  intros Hls [A1 A2 A3 A4] Hv Hp Hf Hd Ha He. pose proof (ls_buffer _ Hls) as Hb.
  pose proof (received_listens d p Hls) as Hls'.
  assert (forall i, (i < 12)%nat -> is_u 8 (p !!! i)) as Hu.
  { intros i Hi. rewrite Forall_lookup in Hf. apply (Hf i). apply list_lookup_lookup_total_lt. lia. }
  pose proof (fun i => read_16_range p i) as H16. unfold is_u in Hu, H16.
  unfold answer_data in Hd. unfold atapi_command. cbn zeta. rewrite (received_byte d p 0) by (done || lia).
  destruct (Z.eqb_spec (p !!! 0%nat) 0x03) as [->|_].
  { injection Hd as <- <-. packet_bytes. pose proof (Hu 4%nat ltac:(lia)).
    apply reply_put; try done; try lia.
    - unfold sense_data. by rewrite !length_app, A1, A2, A3.
    - intros d' _ Hs _. unfold sense_data. by rewrite Hs. }
  destruct (Z.eqb_spec (p !!! 0%nat) 0x12) as [->|_].
  { injection Hd as <- <-. packet_bytes. pose proof (Hu 4%nat ltac:(lia)). by apply reply_put; try done; try lia. }
  destruct (Z.eqb_spec (p !!! 0%nat) 0xbd) as [->|_].
  { injection Hd as <- <-. packet_bytes. pose proof (H16 8%nat).
    rewrite (proj2 (Z.eqb_neq _ _)) by lia. by apply reply_put; try done; try lia. }
  destruct (Z.eqb_spec (p !!! 0%nat) 0x25) as [->|_].
  { destruct (is_ready d) eqn:Hr; [|done]. injection Hd as <- <-.
    rewrite capacity_ready by done. apply reply_put; try done; try lia.
    intros d' Hc _ _. unfold capacity_data. by rewrite Hc. }
  destruct (Z.eqb_spec (p !!! 0%nat) 0x5a) as [->|_].
  { unfold mode_sense. packet_bytes. pose proof (H16 7%nat).
    destruct (Z.eqb_spec (p !!! 2%nat) 0x01) as [->|_]; [|destruct (Z.eqb_spec (p !!! 2%nat) 0x2a) as [->|_]; [|done]];
      injection Hd as <- <-; apply reply_put; try done; try lia.
    - unfold mode_page. by rewrite length_app, A4.
    - intros d' Hc _ _. rewrite fill_recovery by (by rewrite Hc). by rewrite Hc.
    - intros d' Hc _ Hl. rewrite fill_capabilities by done. unfold capabilities. by rewrite Hc. }
  destruct (Z.eqb_spec (p !!! 0%nat) 0x43) as [->|_]; [|done].
  destruct (is_ready d) eqn:Hr; [|done]. destruct (Z.eqb_spec (Z.shiftr (p !!! 9%nat) 6) 1) as [E|_]; [|done].
  injection Hd as <- <-. unfold read_table_of_contents.
  change (is_ready (received d p)) with (is_ready d). rewrite Hr. cbn [negb]. packet_bytes. rewrite E.
  pose proof (H16 7%nat). apply reply_put; try done; try lia.
Qed.

Lemma accepted_listens d : accepts d -> is_u 16 (byte_count (controller d)) -> 2 <= byte_count (controller d) ->
  listens (accepted d).
Proof. intros [_ _ Hb] Hu H2. split; [done|exact Hb|split; [exact Hu|exact H2]]. Qed.

(** A packet whose answer is [bs], followed by the reads of the answer. *)
Lemma run_answer src b rd (vm : v3_intr_state C) p bs k :
  wf_ramdisk rd -> accepts (drive_of rd b) -> length p = 12%nat -> Forall (is_u 8) p ->
  length bs = (2 * Datatypes.S k)%nat ->
  (exists d' vm', atapi_command (irq_of rd b) (received (accepted (drive_of rd b)) p) vm = Done (0, d', vm') /\
     takes (eq (irq_of rd b)) vm' /\ pending src d' bs) ->
  exists d' vm', ide_run rd vm (packet_command b p ++ replicate (Datatypes.S k) (ide_in (DATA_PORT b) 2)) =
      Done ((1, []) :: replicate 6 (2, []) ++ words_of bs, put_drive rd b d', vm') /\
    sent src d' /\ takes (eq (irq_of rd b)) vm'.
Proof.
  intros Hw Hacc Hp Hf Hl (d1 & vm1 & E1 & Hv1 & Hpd).
  destruct (read_all src b k (put_drive rd b d1) vm1 bs) as (d2 & vm2 & E2 & Hs & _ & Hv2);
    [by apply wf_put|by rewrite irq_put|by rewrite drive_put|done|].
  rewrite ide_run_app, packet_sent, E1 by done. run. rewrite E2. run.
  exists d2, vm2. rewrite put_put by done. rewrite irq_put in Hv2 by done. by split_and!.
Qed.

Lemma even_pairs (l : list Z) : Z.even (Z.of_nat (length l)) = true -> l <> [] -> exists k, length l = (2 * Datatypes.S k)%nat.
Proof.
  intros [k Hk]%Z.even_spec Hl. exists (Z.to_nat (k - 1)). destruct l; [done|]. cbn [length] in *. lia.
Qed.

Lemma take_alloc (data : list Z) alloc : 0 < alloc -> data <> [] ->
  Z.of_nat (length (take (Z.to_nat alloc) data)) = Z.min (Z.of_nat (length data)) alloc /\
  take (Z.to_nat alloc) data <> [].
Proof.
  intros Ha Hd. assert (0 < Z.of_nat (length data)) by (destruct data; [done|cbn; lia]).
  rewrite length_take. split; [lia|]. intros E%(f_equal length). rewrite length_take in E. cbn in E. lia.
Qed.


(** The blocks a READ (10) or READ (12) packet asks for. *)
Definition read_request (p : list Z) : option (Z * Z) :=
  if p !!! 0%nat =? 0x28 then Some (rd_read_32bit p 2, rd_read_16bit p 7)
  else if p !!! 0%nat =? 0xa8 then Some (rd_read_32bit p 2, rd_read_32bit p 6) else None.

Lemma read_request_spec p lba n : read_request p = Some (lba, n) ->
  exists cmd, p !!! 0%nat = cmd /\ is_read cmd /\ rd_read_32bit p 2 = lba /\
    (if cmd =? 0x28 then rd_read_16bit p 7 else rd_read_32bit p 6) = n.
Proof.
  unfold read_request. intros Hr.
  destruct (Z.eqb_spec (p !!! 0%nat) 0x28) as [E|_]; [|destruct (Z.eqb_spec (p !!! 0%nat) 0xa8) as [E|_]; [|done]];
    injection Hr as E1 E2; eexists; (split; [exact E|]); (split; [unfold is_read; lia|]); by split.
Qed.

(** The check of a READ adds the two numbers in 32 bits. *)
Lemma read_accepted irq (d : drive_t S) (vm : v3_intr_state C) p lba n :
  listens d -> takes (eq irq) vm -> length p = 12%nat -> read_request p = Some (lba, n) -> is_ready d = true ->
  0 < n -> n * 2048 < 2 ^ 31 -> u32 (lba + n) <= capacity (cdrom d) ->
  exists cmd d1 vm', is_read cmd /\ opened (received d p) d1 cmd (n * 2048) true /\ takes (eq irq) vm' /\
    atapi_command irq (received d p) vm =
      Done (0, with_cd d1 (fun c => c <| remaining_blocks := n |> <| next_lba := sint 32 lba |>), vm').
Proof.
  intros Hls Hv Hp Hr Hrd Hn Hb Hc. pose proof (ls_buffer _ Hls) as Hl.
  destruct (read_request_spec p lba n Hr) as (cmd & Hcmd & Hir & Hlba & Htl).
  destruct (init_send_spec (received d p) cmd (n * 2048) (n * 2048) true) as (d1 & E & Ho);
    [apply (received_listens d p Hls)..|lia|lia|by rewrite Z.min_id, Z.even_mul, orb_true_r|]. rewrite Z.min_id in Ho.
  destruct (raise_ok irq (with_cd d1 (fun c => c <| remaining_blocks := n |> <| next_lba := sint 32 lba |>)) vm Hv)
    as (vm' & E' & Hv').
  exists cmd, d1, vm'. split; [done|]. split; [done|]. split; [done|].
  assert (atapi_command irq (received d p) vm = read_blocks irq (received d p) vm cmd) as ->.
  { unfold atapi_command. cbn zeta. rewrite received_byte, Hcmd by (done || lia). by destruct Hir as [-> | ->]. }
  unfold read_blocks. cbn zeta. packet_bytes. rewrite Htl, Hlba, ready_received, cdrom_received, Hrd.
  rewrite (proj2 (Z.eqb_neq _ 0)), Z.gtb_ltb, (proj2 (Z.ltb_ge _ _)) by lia. cbn [negb].
  rewrite !(wrap_small 32 (n * 2048)), !(sint_small 32 (n * 2048)), (sint_small 32 n) by (unfold is_u; lia).
  unfold reply_data, rd_ready_to_send_atapi. rewrite E. run. cbn zeta. rewrite E'. reflexivity.
Qed.

Lemma read_answered irq (d : drive_t S) (vm : v3_intr_state C) p s lba n :
  listens d -> takes (eq irq) vm -> length p = 12%nat -> read_request p = Some (lba, Z.of_nat n) ->
  ready (cdrom d) <> 0 -> cd (cdrom d) = Some s -> (0 < n)%nat -> lba + Z.of_nat n <= capacity (cdrom d) ->
  lba + Z.of_nat n < 2 ^ 31 -> Z.of_nat n * 2048 < 2 ^ 31 ->
  (forall l, lba <= l < lba + Z.of_nat n -> readable s l) ->
  exists d' vm', atapi_command irq (received d p) vm = Done (0, d', vm') /\ takes (eq irq) vm' /\
    pending (Some (s, lba + Z.of_nat n)) d' (blocks_from s lba n).
Proof.
  intros Hls Hv Hp Hr Hrd Hs Hn Hc H31 Hb Hre.
  assert (is_u 32 lba) as Hlu.
  { destruct (read_request_spec p lba (Z.of_nat n) Hr) as (cmd & _ & _ & <- & _). apply wrap_range. lia. }
  unfold is_u in Hlu.
  destruct (read_accepted irq d vm p lba (Z.of_nat n)) as (cmd & d1 & vm' & Hir & Ho & Hv' & E); try done;
    [unfold is_ready; by rewrite (proj2 (Z.eqb_neq _ _))|lia|by rewrite wrap_small by (unfold is_u; lia)|].
  rewrite sint_small in E by lia. eexists _, vm'. split; [exact E|]. split; [done|].
  apply (opened_blocks (received d p) d1 cmd s lba n); try done; [by apply received_listens|lia].
Qed.

(** A READ (10) or READ (12) of blocks that are on the medium: the guest receives the contents of
    the blocks, in order and complete, by reading the data port a word at a time; every instruction
    succeeds, and then the drive requests no more data and reports no error. *)
Lemma run_blocks b rd (vm : v3_intr_state C) p s lba n :
  wf_ramdisk rd -> accepts (drive_of rd b) -> takes (eq (irq_of rd b)) vm ->
  is_u 16 (byte_count (controller (drive_of rd b))) -> 2 <= byte_count (controller (drive_of rd b)) ->
  length p = 12%nat -> Forall (is_u 8) p -> read_request p = Some (lba, Z.of_nat n) ->
  ready (cdrom (drive_of rd b)) <> 0 -> cd (cdrom (drive_of rd b)) = Some s -> (0 < n)%nat ->
  lba + Z.of_nat n <= capacity (cdrom (drive_of rd b)) -> lba + Z.of_nat n < 2 ^ 31 -> Z.of_nat n * 2048 < 2 ^ 31 ->
  (forall l, lba <= l < lba + Z.of_nat n -> readable s l) ->
  exists d' vm',
    ide_run rd vm (packet_command b p ++ replicate (1024 * n) (ide_in (DATA_PORT b) 2)) =
      Done ((1, []) :: replicate 6 (2, []) ++ words_of (blocks_from s lba n), put_drive rd b d', vm') /\
    sent (Some (s, lba + Z.of_nat n)) d' /\ takes (eq (irq_of rd b)) vm'.
Proof.
  intros Hw Hacc Hv Hu H2 Hp Hf Hr Hrd Hs Hn Hc H31 Hb Hre.
  destruct (run_answer (Some (s, lba + Z.of_nat n)) b rd vm p (blocks_from s lba n) (1024 * n - 1)) as (d' & vm' & E & Hst & Hv');
    [done..|rewrite blocks_length by done; lia| |].
  - apply read_answered; [by apply accepted_listens|done..].
  - exists d', vm'. replace (1024 * n)%nat with (Datatypes.S (1024 * n - 1)) by lia. by split_and!.
Qed.

(** ** After the answer *)

Lemma chunk_read_done irq (d : drive_t S) (vm : v3_intr_state C) : takes (eq irq) vm ->
  exists d' vm', chunk_read irq d vm = Done (d', vm').
Proof.
  intros Hv. unfold chunk_read. cbn zeta. case_match;
    match goal with |- context [rd_raise_interrupt irq ?x vm] => destruct (raise_ok irq x vm Hv) as (vm' & -> & _) end;
    by eexists _, vm'.
Qed.

Lemma exhausted s last (d : drive_t S) : sent (Some (s, last)) d ->
  is_read (command (atapi d)) /\ is_ready d = true /\ cd (cdrom d) = Some s /\ next_lba (cdrom d) = last /\
  buffer_index (controller d) = 2048.
Proof.
  intros [_ _ _ Hb Hix (n & Hl & Hc & Hr & Hs & _ & _ & _ & Hrd & Hnil)]. symmetry in Hnil.
  apply app_eq_nil in Hnil as [Hd Hbl]. split_and!; [done| |done| |].
  - unfold is_ready. by rewrite (proj2 (Z.eqb_neq _ _)).
  - destruct n; [lia|]. pose proof (f_equal length Hbl) as Hn. rewrite blocks_length in Hn by done.
    change (length (@nil Z)) with 0%nat in Hn. lia.
  - apply (f_equal length) in Hd. rewrite length_drop in Hd. change (length (@nil Z)) with 0%nat in Hd. lia.
Qed.

(** A read of a buffer that is used up takes the first word of the next block, whatever is left
    of the transfer. *)
Lemma read_next irq s (d : drive_t S) (vm : v3_intr_state C) blk :
  current_command (controller d) = 0xa0 -> is_read (command (atapi d)) -> is_ready d = true -> cd (cdrom d) = Some s ->
  buffer_index (controller d) = 2048 -> read_block s (buffer (controller d)) (next_lba (cdrom d)) = Done blk ->
  takes (eq irq) vm ->
  exists d' vm', read_data irq d vm 2 = Done (2, take 2 blk, d', vm').
Proof.
  intros Hcur Hc Hr Hs Hix Hb Hv.
  assert (load_block d = Done (Some (0, loaded d blk))) as Hld.
  { unfold load_block. rewrite Hix, Hr, Hs, Hb. by destruct Hc as [-> | ->]. }
  unfold read_data. rewrite Hcur. unfold read_packet_data. rewrite Hld. run.
  change (copy_buffer (controller (loaded d blk)) 0 2) with (Done (take 2 blk)). run.
  case_match; [|by eexists _, _].
  match goal with |- context [chunk_read irq ?x vm] => destruct (chunk_read_done irq x vm Hv) as (d' & vm' & ->) end.
  by exists d', vm'.
Qed.

Lemma read_exhausted irq s last (d : drive_t S) (vm : v3_intr_state C) :
  sent (Some (s, last)) d -> readable s last -> takes (eq irq) vm ->
  exists d' vm', read_data irq d vm 2 = Done (2, take 2 (block s last), d', vm').
Proof.
  intros Hsent Hre Hv. destruct (exhausted s last d Hsent) as (Hc & Hr & Hs & Hn & Hix).
  apply (read_next irq s d vm (block s last)); try done; [apply Hsent|].
  rewrite Hn. apply ok_read; [apply Hsent|done].
Qed.

(** ** Refusals *)

Definition needs_medium : list Z := [0x00; 0xbe; 0x43; 0x28; 0xa8; 0x2b; 0x1e; 0x42].
Definition implemented : list Z := needs_medium ++ [0x03; 0x1b; 0xbd; 0x5a; 0x12; 0x25].

(** The sense key and code with which a packet is refused: there is no medium, the blocks are
    not on it, or the command is unknown or not implemented. *)
Definition refusal (d : drive_t S) (p : list Z) : option (Z * Z) :=
  let cmd := p !!! 0%nat in
  if bool_decide (cmd ∈ needs_medium) && negb (is_ready d) then Some (SENSE_NOT_READY, ASC_MEDIUM_NOT_PRESENT)
  else if cmd =? 0xbe then Some (SENSE_ILLEGAL_REQUEST, ASC_INV_FIELD_IN_CMD_PACKET)
  else match read_request p with
       | Some (lba, n) => if negb (n =? 0) && (u32 (lba + n) >? capacity (cdrom d))
                          then Some (SENSE_ILLEGAL_REQUEST, ASC_LOGICAL_BLOCK_OOR) else None
       | None => if bool_decide (cmd ∈ implemented) then None
                 else Some (SENSE_ILLEGAL_REQUEST, ASC_INV_FIELD_IN_CMD_PACKET)
       end.

Lemma unknown_refused irq (d : drive_t S) (vm : v3_intr_state C) cmd :
  buffer (controller d) !!! 0%nat = cmd -> cmd ∉ implemented ->
  atapi_command irq d vm = reply_error irq d vm SENSE_ILLEGAL_REQUEST ASC_INV_FIELD_IN_CMD_PACKET.
Proof.
  intros Hc Hn. unfold atapi_command, illegal_request. cbn zeta. rewrite Hc.
  destruct cmd as [|q|q]; [by destruct Hn; do 2 constructor| |done].
  do 8 (try (destruct q as [q|q|]; try done));
    destruct Hn; apply (proj1 (bool_decide_spec (_ ∈ implemented))); reflexivity.
Qed.

Lemma no_medium_refused irq (d : drive_t S) (vm : v3_intr_state C) :
  buffer (controller d) !!! 0%nat ∈ needs_medium -> is_ready d = false ->
  atapi_command irq d vm = reply_error irq d vm SENSE_NOT_READY ASC_MEDIUM_NOT_PRESENT.
Proof.
  intros Hin Hr. unfold atapi_command. cbn zeta. set (cmd := buffer (controller d) !!! 0%nat) in *. clearbody cmd.
  unfold read_table_of_contents, read_blocks, seek, prevent_removal, read_sub_channel, not_ready. rewrite Hr.
  unfold needs_medium in Hin.
  repeat (apply elem_of_cons in Hin as [->|Hin]; [reflexivity|]). by apply elem_of_nil in Hin.
Qed.

Lemma blocks_refused irq (d : drive_t S) (vm : v3_intr_state C) p lba n :
  length (buffer (controller d)) = 2048%nat -> length p = 12%nat -> is_ready d = true ->
  read_request p = Some (lba, n) -> n <> 0 -> u32 (lba + n) > capacity (cdrom d) ->
  atapi_command irq (received d p) vm =
    reply_error irq (received d p) vm SENSE_ILLEGAL_REQUEST ASC_LOGICAL_BLOCK_OOR.
Proof.
  intros Hb Hp Hr Hq Hn Hc. destruct (read_request_spec p lba n Hq) as (cmd & Hcmd & Hir & Hlba & Htl).
  assert (atapi_command irq (received d p) vm = read_blocks irq (received d p) vm cmd) as ->.
  { unfold atapi_command. cbn zeta. rewrite received_byte, Hcmd by (done || lia). by destruct Hir as [-> | ->]. }
  unfold read_blocks. cbn zeta. packet_bytes. rewrite Htl, Hlba, ready_received, cdrom_received, Hr.
  by rewrite (proj2 (Z.eqb_neq _ _) Hn), (proj2 (Z.gtb_lt _ _)) by lia.
Qed.

Lemma command_refused irq (d : drive_t S) (vm : v3_intr_state C) p key code :
  length (buffer (controller d)) = 2048%nat -> length p = 12%nat -> refusal d p = Some (key, code) ->
  atapi_command irq (received d p) vm = reply_error irq (received d p) vm key code.
Proof.
  intros Hb Hp Hr. unfold refusal in Hr. cbn zeta in Hr.
  assert (buffer (controller (received d p)) !!! 0%nat = p !!! 0%nat) as H0 by (apply received_byte; done || lia).
  destruct (bool_decide (p !!! 0%nat ∈ needs_medium) && negb (is_ready d)) eqn:E.
  { apply andb_true_iff in E as [Hin%bool_decide_eq_true Hnr%negb_true_iff]. injection Hr as <- <-.
    apply no_medium_refused; [by rewrite H0|by rewrite ready_received]. }
  destruct (Z.eqb_spec (p !!! 0%nat) 0xbe) as [Hbe|Hbe].
  { injection Hr as <- <-. rewrite Hbe in E. destruct (is_ready d) eqn:Hrd; [|done].
    unfold atapi_command, illegal_request. cbn zeta. by rewrite H0, Hbe, ready_received, Hrd. }
  destruct (read_request p) as [[lba n]|] eqn:Hq.
  - destruct (negb (n =? 0) && _) eqn:Hc; [|done]. injection Hr as <- <-.
    apply andb_true_iff in Hc as [Hn%negb_true_iff%Z.eqb_neq Hc%Z.gtb_lt].
    apply (blocks_refused irq d vm p lba n); try done; [|lia].
    destruct (read_request_spec p lba n Hq) as (cmd & Hcmd & Hir & _). rewrite Hcmd in E.
    destruct (is_ready d); [done|]. by destruct Hir as [-> | ->].
  - case_bool_decide as Hi; [done|]. injection Hr as <- <-. by apply (unknown_refused irq _ vm (p !!! 0%nat)).
Qed.

Lemma refusal_accepted (d : drive_t S) p : refusal (accepted d) p = refusal d p.
Proof. reflexivity. Qed.

(** The packet of a REQUEST SENSE for all 18 bytes. *)
Definition sense_packet : list Z := [0x03; 0; 0; 0; 18; 0; 0; 0; 0; 0; 0; 0].

(** What a REQUEST SENSE returns. *)
Lemma run_sense b rd (vm : v3_intr_state C) :
  wf_ramdisk rd -> accepts (drive_of rd b) -> arrays (drive_of rd b) ->
  is_u 16 (byte_count (controller (drive_of rd b))) -> 2 <= byte_count (controller (drive_of rd b)) ->
  takes (eq (irq_of rd b)) vm ->
  exists d2 vm2,
    ide_run rd vm (packet_command b sense_packet ++ replicate 9 (ide_in (DATA_PORT b) 2)) =
      Done ((1, []) :: replicate 6 (2, []) ++ words_of (sense_data (drive_of rd b)), put_drive rd b d2, vm2).
Proof.
  intros Hw Hacc Har Hu H2 Hv. pose proof (accepted_listens _ Hacc Hu H2) as Hls.
  destruct (accepted_frame (drive_of rd b)) as (_ & F2 & _ & F4). specialize (F4 Har).
  assert (sense_data (accepted (drive_of rd b)) = sense_data (drive_of rd b)) as Hs by (unfold sense_data; by rewrite F2).
  pose proof (sense_length _ Har) as Hl.
  assert (Forall (is_u 8) sense_packet) as Hf by (repeat (apply Forall_cons; split; [done|]); by apply Forall_nil).
  destruct (run_answer None b rd vm sense_packet (sense_data (drive_of rd b)) 8) as (d2 & vm2 & E & _);
    [done|done|done|done|by rewrite Hl| |by exists d2, vm2].
  rewrite <- Hs, <- (take_ge (sense_data (accepted _)) 18) by (by rewrite Hs, Hl).
  apply (command_answered _ _ _ _ _ 18); try done. by rewrite Hs, Hl.
Qed.

Lemma reply_error_done irq (d : drive_t S) (vm : v3_intr_state C) key code : takes (eq irq) vm ->
  exists vm', reply_error irq d vm key code = Done (0, rd_atapi_cmd_error d key code, vm') /\ takes (eq irq) vm'.
Proof.
  intros Hv. unfold reply_error. cbn zeta.
  destruct (raise_ok irq (rd_atapi_cmd_error d key code) vm Hv) as (vm' & -> & Hv'). by exists vm'.
Qed.

Lemma sense_after b rd (vm : v3_intr_state C) (d0 : drive_t S) key code :
  wf_ramdisk rd -> accepts d0 -> arrays d0 -> is_u 16 (byte_count (controller d0)) -> 2 <= byte_count (controller d0) ->
  takes (eq (irq_of rd b)) vm ->
  exists d2 vm2,
    ide_run (put_drive rd b (rd_atapi_cmd_error d0 key code)) vm
        (packet_command b sense_packet ++ replicate 9 (ide_in (DATA_PORT b) 2)) =
      Done ((1, []) :: replicate 6 (2, []) ++ words_of ([0xf0; 0; key] ++ information (sense d0) ++ [10]
        ++ specific_inf (sense d0) ++ [code; 0; fruc (sense d0)] ++ key_spec (sense d0)), put_drive rd b d2, vm2).
Proof.
  intros Hw Hacc Har Hu H2 Hv.
  destruct (run_sense b (put_drive rd b (rd_atapi_cmd_error d0 key code)) vm) as (d2 & vm2 & E2).
  - by apply wf_put.
  - rewrite drive_put by done. by apply error_accepts.
  - rewrite drive_put by done. by apply error_arrays.
  - by rewrite drive_put, error_count.
  - by rewrite drive_put, error_count.
  - by rewrite irq_put.
  - exists d2, vm2. rewrite put_put, drive_put in E2 by done. unfold sense_data in E2. rewrite error_sense in E2. exact E2.
Qed.

(** C21. A packet that is refused, because there is no medium, the blocks are not on it or
    the command is not implemented, completes with the error bit and without data; the REQUEST
    SENSE the guest sends next succeeds and reports the reason. *)
Theorem failure_reported b rd (vm : v3_intr_state C) p key code :
  wf_ramdisk rd -> accepts (drive_of rd b) -> arrays (drive_of rd b) -> takes (eq (irq_of rd b)) vm ->
  is_u 16 (byte_count (controller (drive_of rd b))) -> 2 <= byte_count (controller (drive_of rd b)) ->
  length p = 12%nat -> Forall (is_u 8) p -> refusal (drive_of rd b) p = Some (key, code) ->
  let s := sense (drive_of rd b) in
  exists d1 vm1, ide_run rd vm (packet_command b p) = Done ((1, []) :: replicate 6 (2, []), put_drive rd b d1, vm1) /\
    err (status (controller d1)) = 1 /\ drq (status (controller d1)) = 0 /\
    exists d2 vm2,
      ide_run (put_drive rd b d1) vm1 (packet_command b sense_packet ++ replicate 9 (ide_in (DATA_PORT b) 2)) =
        Done ((1, []) :: replicate 6 (2, []) ++ words_of ([0xf0; 0; key] ++ information s ++ [10] ++ specific_inf s
          ++ [code; 0; fruc s] ++ key_spec s), put_drive rd b d2, vm2).
Proof.
  intros Hw Hacc Har Hv Hu H2 Hp Hf Hr s. pose proof (accepted_listens _ Hacc Hu H2) as Hls.
  destruct (accepted_frame (drive_of rd b)) as (F1 & F2 & F3 & F4).
  destruct (received_frame (accepted (drive_of rd b)) p) as (G1 & G2 & G3 & G4).
  pose proof (command_refused (irq_of rd b) (accepted (drive_of rd b)) vm p key code (ls_buffer _ Hls) Hp) as Hcmd.
  rewrite refusal_accepted in Hcmd. specialize (Hcmd Hr).
  pose proof (packet_sent b p rd vm Hw Hacc Hp Hf) as Hrun. rewrite Hcmd in Hrun.
  rewrite F1 in G1. rewrite F2 in G2. revert Hrun G1 G2 G3 G4. clear Hcmd Hls.
  generalize (received (accepted (drive_of rd b)) p) as d0. intros d0 Hrun G1 G2 G3 G4.
  destruct (reply_error_done (irq_of rd b) d0 vm key code Hv) as (vm1 & E & Hv1). rewrite E in Hrun.
  exists (rd_atapi_cmd_error d0 key code), vm1. split; [exact Hrun|]. split; [apply error_status|].
  split; [apply error_status|]. unfold s. rewrite <- G2.
  apply sense_after; [done|by apply G3, F3|by apply G4, F4|by rewrite G1|by rewrite G1|done].
Qed.

(** ** Finding a drive *)

Definition SECT_CNT_PORT (b : bus) : Z := match b with primary => PRI_SECT_CNT_PORT | secondary => SEC_SECT_CNT_PORT end.
Definition SECT_ADDR1_PORT (b : bus) : Z := match b with primary => PRI_SECT_ADDR1_PORT | secondary => SEC_SECT_ADDR1_PORT end.
Definition SECT_ADDR2_PORT (b : bus) : Z := match b with primary => PRI_SECT_ADDR2_PORT | secondary => SEC_SECT_ADDR2_PORT end.
Definition SECT_ADDR3_PORT (b : bus) : Z := match b with primary => PRI_SECT_ADDR3_PORT | secondary => SEC_SECT_ADDR3_PORT end.

(** The words of the identification of a drive with a model name of 40 characters. *)
Definition identification (model : list Z) : list Z :=
  0x85c0 :: replicate 9 0 ++ be_words serial_number ++ replicate 3 0 ++ be_words firmware ++ be_words model
  ++ [0; 1; 0x200; 0; 0; 0; 3] ++ replicate 9 0
  ++ [0x0103; 0x0001; 0x00b4; 0x00b4; 0x012c; 0x00b4; 0; 0; 30; 30; 0; 0; 0] ++ replicate 4 0
  ++ [0x1e] ++ replicate 175 0.

Lemma be_words_length k : forall l, length l = (2 * k)%nat -> length (be_words l) = k.
Proof.
  induction k as [|k IH]; intros [|x [|y l]] Hl; cbn in Hl; try lia; [done|]. cbn. rewrite IH; [done|lia].
Qed.

Lemma strlen_app l : Forall (fun b => b <> 0) l -> strlen (l ++ [0]) = Some (length l).
Proof.
  induction 1 as [|b l Hb _ IH]; [done|]. cbn. rewrite (proj2 (Z.eqb_neq _ _)) by done. by rewrite IH.
Qed.

(** The identification is in the buffer, of which [i] bytes have been read. *)
Record identifying (d : drive_t S) (i : nat) (bs : list Z) : Prop := {
  id_command : current_command (controller d) = 0xa1;
  id_index : buffer_index (controller d) = Z.of_nat i;
  id_bytes : take 512 (buffer (controller d)) = bs;
  id_drq : drq (status (controller d)) = b2z (bool_decide (i < 512)%nat);
  id_err : err (status (controller d)) = 0;
}.

Lemma read_identify irq (d : drive_t S) (vm : v3_intr_state C) i bs :
  identifying d i bs -> (i + 2 <= 512)%nat -> length bs = 512%nat ->
  exists d', read_data irq d vm 2 = Done (2, take 2 (drop i bs), d', vm) /\ identifying d' (i + 2) bs.
Proof.
  intros [Hc Hi Hb Hq He] Hl Hn.
  assert (take 2 (drop i (buffer (controller d))) = take 2 (drop i bs)) as Hw.
  { rewrite <- Hb, !take_drop_commute, take_take, Nat.min_l by lia. done. }
  unfold read_data. rewrite Hc. unfold read_identify_data, copy_buffer.
  change (Z.to_nat 2) with 2%nat. cbn -[Z.leb take drop].
  rewrite Hi, (proj2 (Z.leb_le (Z.of_nat i + 2) 2048)) by lia. run. rewrite Nat2Z.id.
  rewrite Hw, !wrap_small by (unfold is_u; lia). eexists. split; [reflexivity|].
  destruct (Z.leb_spec 512 (Z.of_nat i + 2)); split; cbn; try done; try lia.
  - by rewrite bool_decide_false by lia.
  - rewrite Hq. by rewrite !bool_decide_true by lia.
Qed.

Lemma read_identification b n : forall i rd (vm : v3_intr_state C) bs,
  wf_ramdisk rd -> identifying (drive_of rd b) i bs -> length bs = 512%nat -> (i + 2 * n = 512)%nat ->
  exists d', ide_run rd vm (replicate n (ide_in (DATA_PORT b) 2)) = Done (words_of (drop i bs), put_drive rd b d', vm) /\
    identifying d' 512 bs.
Proof.
  induction n as [|n IH]; intros i rd vm bs Hw Hd Hl Hi.
  - exists (drive_of rd b). rewrite put_same, drop_ge by (done || lia). split; [done|]. by replace 512%nat with i by lia.
  - destruct (read_identify (irq_of rd b) (drive_of rd b) vm i bs Hd) as (d1 & E1 & Hd1); [lia|done|].
    destruct (IH (i + 2)%nat (put_drive rd b d1) vm bs) as (d2 & E2 & Hd2); [by apply wf_put|by rewrite drive_put|done|lia|].
    exists d2. split; [|done]. change (replicate (Datatypes.S n) ?x) with (x :: replicate n x). cbn [ide_run].
    rewrite step_read_data, E1. run. rewrite E2, put_put by done. run.
    destruct (drop i bs) as [|x [|y rest]] eqn:E; [pose proof (f_equal length E) as F; rewrite length_drop in F; cbn in F; lia..|].
    by rewrite <- drop_drop, E.
Qed.

Definition le_words (ws : list Z) : list Z := w ← ws; [Z.land w 0x00ff; Z.shiftr w 8].

Lemma le_words_length ws : length (le_words ws) = (2 * length ws)%nat.
Proof. induction ws as [|w ws IH]; [done|]. unfold le_words in *. rewrite bind_cons, length_app, IH. cbn. lia. Qed.

Lemma identification_length model : length model = 40%nat -> length (identification model) = 256%nat.
Proof.
  intros Hm. unfold identification. cbn [length]. rewrite !length_app, (be_words_length 20 model) by done. reflexivity.
Qed.

Lemma identify_spec (d : drive_t S) model :
  model_no d = model ++ [0] -> length model = 40%nat -> Forall (fun b => b <> 0) model -> length (id_drive d) = 256%nat ->
  exists d', rd_identify_ATAPI_drive d = Done d' /\
    controller d' = put_buffer (controller d) 0 (le_words (identification model)).
Proof.
  intros Hm Hl Hf Hi. unfold rd_identify_ATAPI_drive. rewrite Hm, strlen_app by done.
  rewrite take_app_length, (be_words_length 20 model) by done. cbn [v3_assert Nat.eqb Nat.add].
  eexists. split; [reflexivity|]. cbn -[list_inserts be_words]. f_equal.
  match goal with |- context [list_inserts 0 ?w (id_drive d)] =>
    change w with (identification model) end.
  pose proof (identification_length model Hl) as Hn.
  rewrite <- (app_nil_r (identification model)) at 1. rewrite list_inserts_0_l by lia. reflexivity.
Qed.

Lemma drive_set rd b ch : wf_ramdisk rd -> drive_of (set_channel rd (bus_no b) ch) b = get_selected_drive ch.
Proof.
  intros Hw. destruct (wf_bus rd b Hw) as [Hb _]. unfold drive_of, get_channel, set_channel. cbn.
  by rewrite list_lookup_total_insert_eq.
Qed.

Lemma get_set rd b (ch : channel_t S) : wf_ramdisk rd -> get_channel (set_channel rd (bus_no b) ch) (bus_no b) = ch.
Proof. intros Hw. destruct (wf_bus rd b Hw) as [Hb _]. unfold get_channel. cbn. by rewrite list_lookup_total_insert_eq. Qed.

Lemma wf_set rd b ch : wf_ramdisk rd -> wf_channel ch -> wf_ramdisk (set_channel rd (bus_no b) ch).
Proof. intros [Hl Hf] Hc. split; cbn; [by rewrite length_insert|by apply Forall_insert]. Qed.

(** A function on each drive of a channel. *)
Definition each_drive (ch : channel_t S) (f : drive_t S -> drive_t S) : channel_t S := ch <| drives := f <$> drives ch |>.

Lemma selected_each ch f : wf_channel ch -> get_selected_drive (each_drive ch f) = f (get_selected_drive ch).
Proof.
  intros [H2 Hs]. unfold get_selected_drive, each_drive. cbn.
  apply list_lookup_total_correct. rewrite list_lookup_fmap, list_lookup_lookup_total_lt by lia. done.
Qed.

Lemma wf_each ch f : wf_channel ch -> wf_channel (each_drive ch f).
Proof. intros [H2 Hs]. split; [|done]. cbn. by rewrite length_fmap. Qed.

Lemma present_channel ch : wf_channel ch -> device_type (get_selected_drive ch) = IDE_CDROM ->
  (num_drives_on_channel ch =? 0) = false.
Proof.
  intros [H2 Hs] Ht. unfold num_drives_on_channel, get_selected_drive in *.
  assert (drive_select ch = 0 \/ drive_select ch = 1) as [E|E] by lia; rewrite E in Ht;
    change (Z.to_nat 0) with 0%nat in Ht; change (Z.to_nat 1) with 1%nat in Ht; rewrite Ht;
    [by destruct (device_type (drives ch !!! 1%nat))|by destruct (device_type (drives ch !!! 0%nat))].
Qed.

(** The channel after the reset bit has been set and cleared. *)
Definition after_reset (ch : channel_t S) : channel_t S :=
  each_drive (each_drive (each_drive (each_drive ch
    (fun d => with_ctl d (fun c => c <| control := mk_control 4 0 |>)))
    (fun d => with_ctl d start_reset))
    (fun d => with_ctl d (fun c => c <| control := mk_control 0 0 |>)))
    end_reset.

Lemma both_each (ch : channel_t S) f : both_drives ch f = each_drive ch (fun d => with_ctl d f).
Proof. reflexivity. Qed.

Lemma set_reset ch (vm vm' : v3_intr_state C) :
  wf_channel ch -> reset (control (controller (get_selected_drive ch))) = 0 -> rd_lower_irq (irq ch) vm = Done vm' ->
  write_ctrl ch vm 4 = Done (each_drive (each_drive ch
    (fun d => with_ctl d (fun c => c <| control := mk_control 4 0 |>))) (fun d => with_ctl d start_reset), vm').
Proof.
  intros Hc Hr Hl. unfold write_ctrl. rewrite Hr, !both_each, selected_each by done. cbn [Z.land Pos.land].
  change (reset (control (controller (with_ctl ?d (fun c => c <| control := mk_control ?v ?w |>))))) with v.
  cbn -[rd_lower_irq each_drive start_reset]. change (irq (each_drive _ _)) with (irq ch). by rewrite Hl.
Qed.

Lemma clear_reset ch (vm : v3_intr_state C) :
  wf_channel ch -> reset (control (controller (get_selected_drive ch))) <> 0 ->
  reset_in_progress (controller (get_selected_drive ch)) <> 0 ->
  write_ctrl ch vm 0 = Done (each_drive (each_drive ch
    (fun d => with_ctl d (fun c => c <| control := mk_control 0 0 |>))) end_reset, vm).
Proof.
  intros Hc Hr Hp. unfold write_ctrl. rewrite (proj2 (Z.eqb_neq _ _) Hr), both_each, selected_each by done.
  cbn [andb]. change (reset_in_progress (controller (with_ctl ?d (fun c => c <| control := _ |>))))
    with (reset_in_progress (controller d)). by rewrite (proj2 (Z.eqb_neq _ _) Hp).
Qed.

Lemma step_write_ctrl rd (vm : v3_intr_state C) b v :
  ide_step rd vm (ide_out (CTRL_PORT b) [v]) =
    '(ch, vm) ← write_ctrl (get_channel rd (bus_no b)) vm v; Done (1, [], set_channel rd (bus_no b) ch, vm).
Proof.
  destruct b; cbn [ide_step]; unfold write_ctrl_port;
    [change (channel_of _) with (Some 0%nat)|change (channel_of _) with (Some 1%nat)];
    cbn; by destruct (write_ctrl _ vm v) as [[? ?]| |].
Qed.

Lemma set_set rd b (ch ch' : channel_t S) : set_channel (set_channel rd (bus_no b) ch) (bus_no b) ch' = set_channel rd (bus_no b) ch'.
Proof. unfold set_channel. cbn. by rewrite list_insert_insert_eq. Qed.

Lemma reset_run rd b (vm vm' : v3_intr_state C) :
  wf_ramdisk rd -> reset (control (controller (drive_of rd b))) = 0 -> rd_lower_irq (irq_of rd b) vm = Done vm' ->
  ide_run rd vm [ide_out (CTRL_PORT b) [4]; ide_out (CTRL_PORT b) [0]] =
    Done ([(1, []); (1, [])], set_channel rd (bus_no b) (after_reset (get_channel rd (bus_no b))), vm').
Proof.
  intros Hw Hr Hl. destruct (wf_bus rd b Hw) as [Hb Hc]. cbn [ide_run].
  rewrite step_write_ctrl, (set_reset _ vm vm' Hc Hr Hl). run.
  rewrite step_write_ctrl, get_set, clear_reset by (first [done|by repeat apply wf_each|rewrite !selected_each by (by repeat apply wf_each); done]).
  run. by rewrite set_set.
Qed.

Lemma step_read_general rd (vm : v3_intr_state C) b port :
  In port [SECT_CNT_PORT b; SECT_ADDR1_PORT b; SECT_ADDR2_PORT b; SECT_ADDR3_PORT b] ->
  ide_step rd vm (ide_in port 1) =
    (let '(r, bs, ch) := read_general (get_channel rd (bus_no b)) port 1 in Done (r, bs, set_channel rd (bus_no b) ch, vm)).
Proof. destruct b; cbn [In]; intros [<-|[<-|[<-|[<-|[]]]]]; reflexivity. Qed.

(** ** The byte count *)

Lemma count_bits x lo hi : is_u 8 lo -> is_u 8 hi ->
  Z.lor (Z.land (Z.lor (Z.land x 0xff00) lo) 0x00ff) (Z.land (u16 (Z.shiftl hi 8)) 0xff00) = lo + hi * 256.
Proof.
  intros Hl Hh. rewrite Z.land_lor_distr_l, <- Z.land_assoc. change (Z.land 0xff00 0x00ff) with 0.
  rewrite Z.land_0_r, Z.lor_0_l. change 0x00ff with (Z.ones 8). rewrite Z.land_ones, Z.mod_small by (done || lia).
  rewrite Z.shiftl_mul_pow2 by lia. rewrite wrap_small by (unfold is_u in *; lia).
  rewrite <- Z.shiftl_mul_pow2 by lia. change 0xff00 with (Z.shiftl (Z.ones 8) 8). rewrite <- Z.shiftl_land.
  rewrite Z.land_ones, Z.mod_small, Z.shiftl_mul_pow2 by (done || lia). by apply lor_disjoint.
Qed.

(** The instructions that set the byte count of the drives of a channel. *)
Definition set_count (b : bus) (lo hi : Z) : list ide_op :=
  [ide_out (SECT_ADDR2_PORT b) [lo]; ide_out (SECT_ADDR3_PORT b) [hi]].

Lemma count_set rd b (vm : v3_intr_state C) lo hi : wf_ramdisk rd -> is_u 8 lo -> is_u 8 hi ->
  exists rd', ide_run rd vm (set_count b lo hi) = Done ([(1, []); (1, [])], rd', vm) /\ wf_ramdisk rd' /\
    irq_of rd' b = irq_of rd b /\ drive_of rd' b = with_ctl (drive_of rd b) (fun c => c <| byte_count := lo + hi * 256 |>).
Proof.
  intros Hw Hl Hh. destruct (wf_bus rd b Hw) as [Hb Hc].
  set (ch := write_cylinder_high (write_cylinder_low (get_channel rd (bus_no b)) lo) hi).
  exists (set_channel rd (bus_no b) ch). unfold write_cylinder_high, write_cylinder_low in ch. cbn zeta in ch.
  assert (wf_channel ch) as Hch. { subst ch. rewrite !both_each. by repeat apply wf_each. }
  split_and!.
  - assert (forall rd vm port v, In port [SECT_ADDR2_PORT b; SECT_ADDR3_PORT b] -> ide_step rd vm (ide_out port [v]) =
      Done (1, [], set_channel rd (bus_no b) (write_general (get_channel rd (bus_no b)) port v), vm)) as Hs.
    { intros rd0 vm0 port v. destruct b; cbn [In]; intros [<-|[<-|[]]]; reflexivity. }
    unfold set_count. cbn [ide_run]. rewrite Hs by (cbn; tauto). run. rewrite Hs by (cbn; tauto). run.
    rewrite get_set, set_set by done. by destruct b.
  - by apply wf_set.
  - unfold irq_of. by rewrite get_set.
  - rewrite drive_set by done. subst ch. rewrite !both_each, !selected_each by (by repeat apply wf_each).
    fold (drive_of rd b). generalize (drive_of rd b) as d. intros d. unfold with_ctl. cbn.
    by rewrite count_bits.
Qed.

Lemma lower_takes irq (vm vm' : v3_intr_state C) : rd_lower_irq irq vm = Done vm' -> takes (eq irq) vm -> takes (eq irq) vm'.
Proof.
  unfold rd_lower_irq, v3_lower_irq. intros E [[c Hc] Hr]. rewrite Hc in E.
  destruct (lower_intr c irq) as [[r c']| |]; cbn in E; [|done|done]. injection E as <-. split; [by eexists|done].
Qed.

Lemma set_get rd b : wf_ramdisk rd -> set_channel rd (bus_no b) (get_channel rd (bus_no b)) = rd.
Proof.
  intros Hw. destruct (wf_bus rd b Hw) as [Hb _]. unfold set_channel, get_channel. destruct rd as [chs]. f_equal.
  by apply list_insert_id, list_lookup_lookup_total_lt.
Qed.

Ltac read_reg b Hn Hp H1 H2 H3 := destruct b; unfold read_general; cbn zeta; rewrite ?Hn, ?Hp, ?H1, ?H2, ?H3; reflexivity.

(** What a probe reads: the registers of a selected CD-ROM drive that has been reset. *)
Lemma signature_read rd b (vm : v3_intr_state C) :
  wf_ramdisk rd -> device_type (drive_of rd b) = IDE_CDROM ->
  sector_count (controller (drive_of rd b)) = 1 -> sector_no (controller (drive_of rd b)) = 1 ->
  cylinder_no (controller (drive_of rd b)) = 0xeb14 ->
  ide_run rd vm [ide_in (SECT_CNT_PORT b) 1; ide_in (SECT_ADDR1_PORT b) 1; ide_in (SECT_ADDR2_PORT b) 1;
                 ide_in (SECT_ADDR3_PORT b) 1] = Done ([(1, [1]); (1, [1]); (1, [0x14]); (1, [0xeb])], rd, vm).
Proof.
  intros Hw Ht H1 H2 H3. destruct (wf_bus rd b Hw) as [Hb Hc].
  pose proof (present_channel _ Hc Ht) as Hp. unfold drive_of in *.
  assert (forall port v, In port [SECT_CNT_PORT b; SECT_ADDR1_PORT b; SECT_ADDR2_PORT b; SECT_ADDR3_PORT b] ->
    read_general (get_channel rd (bus_no b)) port 1 = (1, [v], get_channel rd (bus_no b)) ->
    ide_step rd vm (ide_in port 1) = Done (1, [v], rd, vm)) as Hs.
  { intros port v Hin E. by rewrite (step_read_general rd vm b port Hin), E, set_get. }
  assert (bool_decide (device_type (get_selected_drive (get_channel rd (bus_no b))) = IDE_NONE) = false) as Hn
    by (by rewrite Ht).
  cbn [ide_run].
  rewrite (Hs (SECT_CNT_PORT b) 1); [run|cbn; tauto|read_reg b Hn Hp H1 H2 H3].
  rewrite (Hs (SECT_ADDR1_PORT b) 1); [run|cbn; tauto|read_reg b Hn Hp H1 H2 H3].
  rewrite (Hs (SECT_ADDR2_PORT b) 0x14); [run|cbn; tauto|read_reg b Hn Hp H1 H2 H3].
  rewrite (Hs (SECT_ADDR3_PORT b) 0xeb); [reflexivity|cbn; tauto|read_reg b Hn Hp H1 H2 H3].
Qed.

Definition identify_started (d : drive_t S) : drive_t S :=
  with_ctl d (fun c =>
    with_status (c <| current_command := 0xa1 |> <| error_register := 0 |> <| buffer_index := 0 |>)
      (fun s => s <| busy := 0 |> <| drive_ready := 1 |> <| write_fault := 0 |> <| drq := 1 |>
                  <| err := 0 |> <| seek_complete := 1 |> <| corrected_data := 0 |>)).

Lemma identify_command irq (d : drive_t S) (vm : v3_intr_state C) model :
  device_type d = IDE_CDROM -> takes (eq irq) vm -> length (buffer (controller d)) = 2048%nat ->
  model_no d = model ++ [0] -> length model = 40%nat -> Forall (fun b => b <> 0) model -> length (id_drive d) = 256%nat ->
  exists d' vm', write_cmd irq d vm 0xa1 1 = Done (1, d', vm') /\ identifying d' 0 (le_words (identification model)).
Proof.
  intros Ht Hv Hb Hm Hl Hf Hi. unfold write_cmd. rewrite Ht. cbn [bool_decide decide]. fold (identify_started d).
  destruct (raise_ok irq (identify_started d) vm Hv) as (vm' & E & _).
  destruct (identify_spec (identify_started d) model Hm Hl Hf Hi) as (d' & E' & Hc).
  exists d', vm'. split.
  - change (bool_decide (IDE_CDROM = IDE_CDROM)) with true. cbn iota. rewrite E. run. rewrite E'. reflexivity.
  - split; rewrite Hc; try done. cbn -[list_inserts identification].
    rewrite take_inserts; rewrite ?le_words_length, ?identification_length by done; [|rewrite Hb; lia|lia].
    by rewrite take_ge by (rewrite le_words_length, identification_length by done; lia).
Qed.

(** What the reset leaves of the selected drive. *)
Lemma after_reset_drive ch : wf_channel ch -> device_type (get_selected_drive ch) = IDE_CDROM ->
  let d := get_selected_drive (after_reset ch) in
  wf_channel (after_reset ch) /\ device_type d = IDE_CDROM /\ model_no d = model_no (get_selected_drive ch) /\
  id_drive d = id_drive (get_selected_drive ch) /\ buffer (controller d) = buffer (controller (get_selected_drive ch)) /\
  sector_count (controller d) = 1 /\ sector_no (controller d) = 1 /\ cylinder_no (controller d) = 0xeb14.
Proof.
  intros Hc Ht d. split; [by repeat apply wf_each|]. subst d. unfold after_reset.
  rewrite !selected_each by (by repeat apply wf_each). revert Ht. generalize (get_selected_drive ch) as d. intros d Ht.
  split_and!; try done. cbn. by rewrite Ht.
Qed.

(** The instructions of a driver that resets a channel, reads the signature and identifies the drive. *)
Definition probe (b : bus) : list ide_op :=
  [ide_out (CTRL_PORT b) [4]; ide_out (CTRL_PORT b) [0]]
  ++ [ide_in (SECT_CNT_PORT b) 1; ide_in (SECT_ADDR1_PORT b) 1; ide_in (SECT_ADDR2_PORT b) 1; ide_in (SECT_ADDR3_PORT b) 1]
  ++ [ide_out (CMD_PORT b) [0xa1]] ++ replicate 256 (ide_in (DATA_PORT b) 2).

(** A driver that resets a channel on which a CD-ROM drive is selected reads the
    signature of an ATAPI device, and IDENTIFY PACKET DEVICE then gives it the 256 words of the
    identification, with the model name of the drive. *)
Theorem drive_found rd b (vm vm' : v3_intr_state C) model :
  wf_ramdisk rd -> device_type (drive_of rd b) = IDE_CDROM -> reset (control (controller (drive_of rd b))) = 0 ->
  takes (eq (irq_of rd b)) vm -> rd_lower_irq (irq_of rd b) vm = Done vm' ->
  length (buffer (controller (drive_of rd b))) = 2048%nat -> length (id_drive (drive_of rd b)) = 256%nat ->
  model_no (drive_of rd b) = model ++ [0] -> length model = 40%nat -> Forall (fun b => b <> 0) model ->
  exists rd' vm2,
    ide_run rd vm (probe b) = Done ([(1, []); (1, [])] ++ [(1, [1]); (1, [1]); (1, [0x14]); (1, [0xeb])]
      ++ [(1, [])] ++ words_of (le_words (identification model)), rd', vm2) /\
    drq (status (controller (drive_of rd' b))) = 0 /\ err (status (controller (drive_of rd' b))) = 0.
Proof.
  intros Hw Ht Hr Hv Hl Hb Hid Hm Hml Hmf. destruct (wf_bus rd b Hw) as [Hn Hc]. pose proof (lower_takes _ _ _ Hl Hv) as Hv'.
  destruct (after_reset_drive _ Hc Ht) as (Hc1 & T1 & T2 & T3 & T4 & T5 & T6 & T7).
  pose proof (reset_run rd b vm vm' Hw Hr Hl) as E1. fold (drive_of rd b) in T2, T3, T4.
  assert (irq (after_reset (get_channel rd (bus_no b))) = irq_of rd b) as Hirq by done.
  set (ch1 := after_reset (get_channel rd (bus_no b))) in *. clearbody ch1.
  pose proof (wf_set rd b ch1 Hw Hc1) as Hw1. pose proof (drive_set rd b ch1 Hw) as Hd1.
  assert (irq_of (set_channel rd (bus_no b) ch1) b = irq_of rd b) as Hq1 by (unfold irq_of at 1; by rewrite get_set).
  set (rd1 := set_channel rd (bus_no b) ch1) in *. clearbody rd1. rewrite <- Hd1 in *.
  pose proof (signature_read rd1 b vm' Hw1 T1 T5 T6 T7) as E2. rewrite <- Hq1 in Hv'.
  rewrite <- T2 in Hm. rewrite <- T3 in Hid. rewrite <- T4 in Hb.
  destruct (identify_command (irq_of rd1 b) (drive_of rd1 b) vm' model T1 Hv' Hb Hm Hml Hmf Hid) as (d2 & vm2 & E3 & Hi).
  destruct (read_identification b 256 0 (put_drive rd1 b d2) vm2 (le_words (identification model))) as (d3 & E4 & Hi3);
    [by apply wf_put|by rewrite drive_put|by rewrite le_words_length, identification_length|done|].
  exists (put_drive rd1 b d3), vm2. unfold probe. rewrite !ide_run_app, E1. run. rewrite ide_run_app, E2. run.
  rewrite ide_run_app. cbn [ide_run]. rewrite step_write_cmd, E3. run. rewrite E4. run.
  rewrite put_put, drive_put by done. split; [done|]. split; [apply (id_drq _ _ _ Hi3)|apply (id_err _ _ _ Hi3)].
Qed.

End guest.

(** ** Witnesses *)

Module Demo.
#[local] Instance demo_medium : CdromOps unit :=
  {| insert_cdrom s := (1, s); eject_cdrom s := s; read_toc s b _ _ := (1, b, 4, s); capacity_of _ := 20;
     read_block _ _ lba := Done (replicate 2048 (u8 lba)); start_cdrom s := (1, s); set_LBA s _ := s |}.

#[local] Instance demo_medium_ok : CdromOpsOk unit.
Proof.
  refine {| block _ lba := replicate 2048 (u8 lba); readable _ _ := True |}; [|done].
  intros. apply length_replicate.
Defined.

#[local] Instance demo_lines : IntrCtrl Z :=
  {| intr_pending _ := 0; get_intr_number _ := 0; raise_intr c _ := Done (0, c + 1);
     lower_intr c _ := Done (0, c); begin_irq c _ := Done (0, c) |}.

Definition demo_vm : v3_intr_state Z := mk_v3_intr_state (mk_v3_excp_state 0 0 0 0) (Some 0) [].

Lemma demo_takes P : takes P demo_vm.
Proof. split; [by eexists|]. intros c irq _. by eexists _, _. Qed.

(** A controller with a drive on the second channel, whose byte count the guest has set to 2048. *)
Definition demo_rd : ramdisk_t unit :=
  match ('(_, rd) ← rd_init_hardware; v3_ramdisk_register_cdrom rd 1 0 ()) with
  | Done (_, rd) => (write_general_port rd SEC_SECT_ADDR3_PORT [8] 1).2
  | _ => mk_ramdisk []
  end.

Lemma demo_wf : wf_ramdisk demo_rd.
Proof. split; [reflexivity|]. repeat (apply Forall_cons; split; [vm_compute; by repeat split|]). by apply Forall_nil. Qed.

Lemma demo_accepts : accepts (drive_of demo_rd secondary).
Proof. by split; [vm_compute|split; vm_compute|vm_compute]. Qed.

Lemma demo_arrays : arrays (drive_of demo_rd secondary).
Proof. by split; vm_compute. Qed.

Definition inquiry_packet : list Z := [0x12; 0; 0; 0; 36; 0; 0; 0; 0; 0; 0; 0].
Definition seek_beyond_packet : list Z := [0x28; 0; 0; 0; 0; 19; 0; 0; 2; 0; 0; 0].


Lemma failure_reported_witness : exists d1 vm1,
  ide_run demo_rd demo_vm (packet_command secondary seek_beyond_packet) =
    Done ((1, []) :: replicate 6 (2, []), put_drive demo_rd secondary d1, vm1) /\ err (status (controller d1)) = 1.
Proof.
  destruct (failure_reported secondary demo_rd demo_vm seek_beyond_packet 5 0x21 demo_wf demo_accepts demo_arrays (demo_takes _))
    as (d1 & vm1 & E & He & _).
  - split; vm_compute; done.
  - vm_compute. done.
  - reflexivity.
  - repeat (apply Forall_cons; split; [done|]). by apply Forall_nil.
  - vm_compute. reflexivity.
  - exists d1, vm1. split; [exact E|exact He].
Defined.

Lemma drive_found_witness : exists rd' vm2,
  ide_run demo_rd demo_vm (probe secondary) = Done ([(1, []); (1, [])] ++ [(1, [1]); (1, [1]); (1, [0x14]); (1, [0xeb])]
    ++ [(1, [])] ++ words_of (le_words (identification (model_name ++ replicate 27 32))), rd', vm2).
Proof.
  destruct (drive_found demo_rd secondary demo_vm demo_vm (model_name ++ replicate 27 32) demo_wf) as (rd' & vm2 & E & _).
  - reflexivity.
  - reflexivity.
  - apply demo_takes.
  - reflexivity.
  - reflexivity.
  - reflexivity.
  - reflexivity.
  - reflexivity.
  - repeat (apply Forall_cons; split; [done|]). by apply Forall_nil.
  - exists rd', vm2. exact E.
Defined.
End Demo.

End Atapi.
