(* ===== verification/Cdrom.v ===== *)
(** The medium of the CD-ROM drive, an image in the memory of the host: cdrom.c.

    [Module Cdrom] translates the operations, which implement the interface [CdromOps] of the
    drive, and the creation and initialisation of the device, which registers the medium with the
    IDE controller.  The theorems follow a guest from the initialised devices to the bytes of the
    image, and past its end. *)
From stdpp Require Import base tactics numbers list gmap.
From S2P Require Import Prelude Chain Host IoMap Intr ListHead HostEvents DevMgr Ramdisk Atapi.

Module Cdrom.
Import Intr Ramdisk Atapi.

(** [struct cdrom_state] *)
Record cdrom_state := mk_cdrom_state {
  image_addr : Z;
  capacity_in_bytes : Z;
  head : Z;
  ide_dev : Z;
  lba : Z;
}.

#[export] Instance eta_cdrom_state : Eta cdrom_state := fun s =>
  mk_cdrom_state (image_addr s) (capacity_in_bytes s) (head s) (ide_dev s) (lba s).

(** The memory of the host from an address on. *)
Definition host_bytes (m : mem) (a : Z) (n : nat) : list Z := (fun i => load8 m (a + Z.of_nat i)) <$> seq 0 n.

Definition cdrom_insert (s : cdrom_state) : Z * cdrom_state := (1, s).
Definition cdrom_eject (s : cdrom_state) : cdrom_state := s.

(** The buffer is left as it is. *)
Definition cdrom_read_toc (s : cdrom_state) (buf : list Z) (msf : bool) (start_track : Z)
    : Z * list Z * Z * cdrom_state := (1, buf, 4, s).

Definition cdrom_capacity (s : cdrom_state) : Z :=
  if negb (lba s =? 0) then
    if negb (capacity_in_bytes s mod 2048 =? 0) then u32 (capacity_in_bytes s / 2048 + 1)
    else u32 (capacity_in_bytes s / 2048)
  else 0.

(** The product is an [int]: undefined when it overflows. *)
Definition cdrom_read_block (m : mem) (s : cdrom_state) (buf : list Z) (lba : Z) : outcome (list Z) :=
  v3_assert (negb (lba =? 0)) (
  if (- 2 ^ 31 <=? lba * 2048) && (lba * 2048 <? 2 ^ 31)
  then Done (host_bytes m (image_addr s + lba * 2048) 2048 ++ drop 2048 buf) else Undef).

Definition set_LBA (s : cdrom_state) (v : Z) : cdrom_state := s <| lba := v |>.
Definition cdrom_start (s : cdrom_state) : Z * cdrom_state := (1, s).

#[export] Instance cd_ops (m : mem) : CdromOps cdrom_state := {|
  Ramdisk.insert_cdrom := cdrom_insert;
  Ramdisk.eject_cdrom := cdrom_eject;
  Ramdisk.read_toc := cdrom_read_toc;
  Ramdisk.capacity_of := cdrom_capacity;
  Ramdisk.read_block := cdrom_read_block m;
  Ramdisk.start_cdrom := cdrom_start;
  Ramdisk.set_LBA := set_LBA;
|}.

(** The result of the registration is ignored. *)
Definition cdrom_device_init (m : mem) (cdrom : cdrom_state) (rd : ramdisk_t cdrom_state)
    : outcome (Z * ramdisk_t cdrom_state) :=
  let cdrom := cdrom <| lba := 1 |> in
  '(_, rd) ← @v3_ramdisk_register_cdrom _ (cd_ops m) rd 1 0 cdrom;
  Done (0, rd).

Definition cdrom_device_deinit (rd : ramdisk_t cdrom_state) : Z * ramdisk_t cdrom_state := (0, rd).

Definition v3_create_cdrom {A : Arch} {H : OsHooks} (mgr : DevMgr.vmm_dev_mgr)
    (ramdisk_dev ramdisk ramdisk_size cd device dev_ops : Z) : outcome (Z * cdrom_state * DevMgr.vmm_dev_mgr) :=
  v3_assert (negb (cd =? NULL)) (
  let state := mk_cdrom_state (V3_VAddr ramdisk) ramdisk_size 0 ramdisk_dev 0 in
  mgr ← DevMgr.v3_create_device mgr device [82; 97; 109; 32; 66; 97; 115; 101; 100; 32; 67; 68] dev_ops cd;
  Done (device, state, mgr)).

(** ** The contract of the drive *)

Lemma host_bytes_length m a n : length (host_bytes m a n) = n.
Proof. unfold host_bytes. by rewrite length_fmap, length_seq. Qed.

Lemma host_bytes_app m a n k : host_bytes m a (n + k) = host_bytes m a n ++ host_bytes m (a + Z.of_nat n) k.
Proof.
  unfold host_bytes. rewrite seq_app, fmap_app. f_equal. rewrite Nat.add_0_l.
  replace (seq n k) with (Nat.add n <$> seq 0 k) by (by rewrite fmap_add_seq, Nat.add_0_r).
  rewrite <- list_fmap_compose. apply list_fmap_ext. intros i x _. cbn.
  f_equal. lia.
Qed.

Lemma read_block_host m s buf l :
  length buf = 2048%nat -> 0 < l < 2 ^ 20 ->
  cdrom_read_block m s buf l = Done (host_bytes m (image_addr s + l * 2048) 2048).
Proof.
  intros Hb Hl. unfold cdrom_read_block. generalize (host_bytes m (image_addr s + l * 2048) 2048) as bs. intros bs.
  rewrite (proj2 (Z.eqb_neq l 0)) by lia. rewrite (proj2 (andb_true_iff _ _)) by lia.
  rewrite drop_ge by (rewrite Hb; done). by rewrite app_nil_r.
Qed.

(** Blocks after the first, up to 2 gigabytes. *)
#[export] Instance cd_ops_ok (m : mem) : @CdromOpsOk cdrom_state (cd_ops m) :=
  @Build_CdromOpsOk cdrom_state (cd_ops m)
    (fun s lba => host_bytes m (image_addr s + lba * 2048) 2048)
    (fun _ lba => 0 < lba < 2 ^ 20)
    (fun s lba _ => host_bytes_length m (image_addr s + lba * 2048) 2048)
    (read_block_host m).

Lemma blocks_host m s l n :
  @blocks_from _ _ (cd_ops_ok m) s l n = host_bytes m (image_addr s + l * 2048) (2048 * n).
Proof.
  revert l. induction n as [|n IH]; intros l; [done|]. rewrite blocks_cons, IH.
  replace (2048 * S n)%nat with (2048 + 2048 * n)%nat by lia. rewrite host_bytes_app. cbn [block cd_ops_ok]. f_equal. f_equal. lia.
Qed.

(** ** From the initialised devices *)

(** The IDE controller is initialised, then the medium is registered with it. *)
Definition attached (m : mem) (s : cdrom_state) : outcome (ramdisk_t cdrom_state) :=
  '(_, rd) ← @rd_init_hardware _;
  '(_, rd) ← cdrom_device_init m s rd;
  Done rd.

(** The drive of the second channel, ready with the medium. *)
Record cd_drive (s : cdrom_state) (d : drive_t cdrom_state) : Prop := {
  cdr_accepts : accepts d;
  cdr_ready : ready (cdrom d) = 1;
  cdr_cd : cd (cdrom d) = Some (s <| lba := 1 |>);
  cdr_capacity : capacity (cdrom d) = cdrom_capacity (s <| lba := 1 |>);
}.

(** A drive after the initialisation, and with the medium. *)
Definition fresh_drive {S} : drive_t S :=
  (with_ctl zero_drive (fun c =>
    (with_status c (fun _ => mk_controller_status 0 1 0 1 0 0 0 0 0))
      <| error_register := 1 |> <| sector_count := 1 |> <| sector_no := 1 |> <| sectors_per_block := 0x80 |>))
    <| model_no := replicate 40 32 ++ [0] |>.

Lemma init_fresh {S} : init_drive (S := S) zero_drive = Done fresh_drive.
Proof. vm_compute. reflexivity. Qed.

Definition medium_drive (m : mem) (s : cdrom_state) : drive_t cdrom_state :=
  with_cd (with_ctl (fresh_drive <| model_no := model_name ++ replicate 27 32 ++ [0] |> <| device_type := IDE_CDROM |>)
    (fun c => c <| sector_count := 0 |>))
    (fun c => c <| cd := Some (s <| lba := 1 |>) |> <| ready := 1 |> <| capacity := cdrom_capacity (s <| lba := 1 |>) |>).

Lemma attached_eq m s : attached m s =
  let ch := mk_channel [fresh_drive; fresh_drive] 0 0 0 0 in
  Done (mk_ramdisk [ch; mk_channel [medium_drive m s; fresh_drive] 0 0 0 15; ch; ch]).
Proof.
  unfold attached, rd_init_hardware. rewrite init_fresh. run.
  assert (make_model (S := cdrom_state) fresh_drive model_name =
    Done (fresh_drive <| model_no := model_name ++ replicate 27 32 ++ [0] |>)) as E by (vm_compute; reflexivity).
  unfold cdrom_device_init, v3_ramdisk_register_cdrom. cbn -[make_model fresh_drive cdrom_capacity]. rewrite E. reflexivity.
Qed.

Lemma attached_drive m s : exists rd, attached m s = Done rd /\ wf_ramdisk rd /\ irq_of rd secondary = 15 /\
  cd_drive s (drive_of rd secondary).
Proof.
  eexists. split; [apply attached_eq|]. split; [|split; [reflexivity|]].
  - split; [reflexivity|]. by repeat (apply Forall_cons; split; [done|]); apply Forall_nil.
  - by split; [split| | |].
Qed.

(** ** Reading the image *)

(** READ (10) and READ (12) packets: the numbers with the most significant byte first. *)
Definition be32 (x : Z) : list Z := [field x 24 8; field x 16 8; field x 8 8; field x 0 8].
Definition read_10 (l n : Z) : list Z := [0x28; 0] ++ be32 l ++ [0; field n 8 8; field n 0 8; 0; 0; 0].
Definition read_12 (l n : Z) : list Z := [0xa8; 0] ++ be32 l ++ be32 n ++ [0; 0].

Lemma bytes_32 x : is_u 32 x ->
  u32 (Z.lor (Z.shiftl (field x 24 8) 24) (Z.lor (Z.shiftl (field x 16 8) 16)
    (Z.lor (Z.shiftl (field x 8 8) 8) (field x 0 8)))) = x.
Proof.
  intros Hx. pose proof (field_range x 24 8) as H3. pose proof (field_range x 16 8) as H2.
  pose proof (field_range x 8 8) as H1. pose proof (field_range x 0 8) as H0. unfold is_u in *.
  rewrite !Z.shiftl_mul_pow2 by lia.
  rewrite (Z.lor_comm (field x 8 8 * _)), (lor_disjoint 8) by (unfold is_u; lia).
  rewrite (Z.lor_comm (field x 16 8 * _)), (lor_disjoint 16) by (unfold is_u; lia).
  rewrite (Z.lor_comm (field x 24 8 * _)), (lor_disjoint 24) by (unfold is_u; lia).
  rewrite wrap_small by (unfold is_u; lia). clear H0 H1 H2 H3. unfold field. change (2 ^ 0) with 1.
  Z.to_euclidean_division_equations. lia.
Qed.

Lemma bytes_16 x : is_u 16 x -> u16 (Z.lor (Z.shiftl (field x 8 8) 8) (field x 0 8)) = x.
Proof.
  intros Hx. pose proof (field_range x 8 8) as H1. pose proof (field_range x 0 8) as H0. unfold is_u in *.
  rewrite !Z.shiftl_mul_pow2 by lia.
  rewrite (Z.lor_comm (field x 8 8 * _)), (lor_disjoint 8) by (unfold is_u; lia).
  rewrite wrap_small by (unfold is_u; lia). clear H0 H1. unfold field. change (2 ^ 0) with 1.
  Z.to_euclidean_division_equations. lia.
Qed.

Lemma read_10_request l n : is_u 32 l -> is_u 16 n -> read_request (read_10 l n) = Some (l, n).
Proof.
  intros Hl Hn. unfold read_request. change (read_10 l n !!! 0%nat =? 0x28) with true. cbn iota. f_equal. f_equal.
  - apply (bytes_32 l Hl).
  - apply (bytes_16 n Hn).
Qed.

Lemma read_12_request l n : is_u 32 l -> is_u 32 n -> read_request (read_12 l n) = Some (l, n).
Proof.
  intros Hl Hn. unfold read_request. change (read_12 l n !!! 0%nat =? 0x28) with false.
  change (read_12 l n !!! 0%nat =? 0xa8) with true. cbn iota. f_equal. f_equal.
  - apply (bytes_32 l Hl).
  - apply (bytes_32 n Hn).
Qed.

Lemma read_10_bytes l n : Forall (is_u 8) (read_10 l n).
Proof.
  unfold read_10. cbn [app be32].
  repeat (apply Forall_cons; split; [first [done|apply field_range; lia]|]). by apply Forall_nil.
Qed.

Lemma read_12_bytes l n : Forall (is_u 8) (read_12 l n).
Proof.
  unfold read_12. cbn [app be32].
  repeat (apply Forall_cons; split; [first [done|apply field_range; lia]|]). by apply Forall_nil.
Qed.

Lemma capacity_enough s k : 0 <= capacity_in_bytes s < 2 ^ 31 -> k * 2048 <= capacity_in_bytes s ->
  k <= cdrom_capacity (s <| lba := 1 |>).
Proof.
  intros Hc Hk. unfold cdrom_capacity. cbn -[Z.mul Z.div Z.modulo].
  assert (k <= capacity_in_bytes s / 2048) by (apply Z.div_le_lower_bound; lia).
  assert (capacity_in_bytes s / 2048 < 2 ^ 20) by (apply Z.div_lt_upper_bound; lia).
  assert (0 <= capacity_in_bytes s / 2048) by (apply Z.div_pos; lia).
  case_match; rewrite wrap_small by (unfold is_u; lia); lia.
Qed.

Lemma host_word m a k : take 2 (host_bytes m a (2 + k)) = [load8 m a; load8 m (a + 1)].
Proof. rewrite host_bytes_app. cbn. rewrite Z.add_0_r. done. Qed.

Lemma host_word_before m a k : take 2 (host_bytes m (a + -2048) (2 + k)) = [load8 m (a - 2048); load8 m (a - 2047)].
Proof. rewrite host_word. do 2 f_equal. f_equal. lia. Qed.

Lemma read_block_before m s buf a : length buf = 2048%nat -> image_addr s = a ->
  cdrom_read_block m s buf (-1) = Done (host_bytes m (a + -2048) (2 + 2046)).
Proof.
  intros Hb <-. unfold cdrom_read_block. change (-1 * 2048) with (-2048). change 2048%nat with (2 + 2046)%nat.
  generalize (host_bytes m (image_addr s + -2048) (2 + 2046)) as bs. intros bs.
  change (v3_assert _ ?k) with k. rewrite drop_ge by (rewrite Hb; done). by rewrite app_nil_r.
Qed.

Section reading.
Context (m : mem) {C : Type} `{Hic : IntrCtrl C}.
#[local] Instance the_ops : CdromOps cdrom_state := cd_ops m.
#[local] Instance the_ops_ok : CdromOpsOk cdrom_state := cd_ops_ok m.

(** The guest has set a byte count for the drive with the medium. *)
Record counted (s : cdrom_state) (rd : ramdisk_t cdrom_state) : Prop := {
  cn_wf : wf_ramdisk rd;
  cn_irq : irq_of rd secondary = 15;
  cn_drive : cd_drive s (drive_of rd secondary);
  cn_count : is_u 16 (byte_count (controller (drive_of rd secondary))) /\
             2 <= byte_count (controller (drive_of rd secondary));
}.

Lemma attached_counted s (vm : v3_intr_state C) lo hi : is_u 8 lo -> is_u 8 hi -> 2 <= lo + hi * 256 ->
  exists rd rd', attached m s = Done rd /\
    ide_run rd vm (set_count secondary lo hi) = Done ([(1, []); (1, [])], rd', vm) /\ counted s rd'.
Proof.
  intros Hl Hh H2. destruct (attached_drive m s) as (rd & E & Hw & Hi & [[A1 A2 A3] D2 D3 D4]).
  destruct (count_set rd secondary vm lo hi Hw Hl Hh) as (rd' & E' & Hw' & Hi' & Hd).
  exists rd, rd'. split; [exact E|]. split; [exact E'|]. split; [done|congruence| |]; rewrite Hd.
  - split; [split|..]; done.
  - cbn. unfold is_u in *. lia.
Qed.

(** A READ (10) of blocks of the image. *)
Lemma counted_read s rd (vm : v3_intr_state C) l n :
  counted s rd -> takes (eq 15) vm -> 0 < l -> (0 < n)%nat -> Z.of_nat n < 2 ^ 16 ->
  (l + Z.of_nat n) * 2048 <= capacity_in_bytes s < 2 ^ 31 ->
  exists rd' vm', ide_run rd vm (packet_command secondary (read_10 l (Z.of_nat n)) ++
      replicate (1024 * n) (ide_in (DATA_PORT secondary) 2)) =
    Done ((1, []) :: replicate 6 (2, []) ++ words_of (host_bytes m (image_addr s + l * 2048) (2048 * n)), rd', vm') /\
    wf_ramdisk rd' /\ irq_of rd' secondary = 15 /\ takes (eq 15) vm' /\
    sent (Some (s <| lba := 1 |>, l + Z.of_nat n)) (drive_of rd' secondary).
Proof.
  intros [Hw Hi [D1 D2 D3 D4] [Hu H2]] Hv Hl Hn Hn16 Hc. rewrite <- Hi in Hv.
  assert (ready (cdrom (drive_of rd secondary)) <> 0) as Hrd by (by rewrite D2).
  destruct (run_blocks secondary rd vm (read_10 l (Z.of_nat n)) (s <| lba := 1 |>) l n) as (d' & vm' & E & Hs & Hv');
    try done; try lia.
  - apply read_10_bytes.
  - apply read_10_request; unfold is_u; lia.
  - rewrite D4. apply capacity_enough; lia.
  - intros b Hb. cbn. lia.
  - exists (put_drive rd secondary d'), vm'. rewrite irq_put, drive_put by done. rewrite Hi in Hv'.
    split; [|split; [by apply wf_put|done]]. rewrite E. pose proof (blocks_host m (s <| lba := 1 |>) l n) as Hbl.
    fold the_ops_ok in Hbl. change (cd_ops m) with the_ops in Hbl. rewrite Hbl. done.
Qed.


(** C38. The drive does not end a READ where it ends: the word after the last one of the
    transfer is read from the block that follows, whether or not it is on the medium.  At the
    end of the image it is the memory of the host behind the image. *)
Theorem image_overrun s (vm : v3_intr_state C) lo hi l n :
  takes (eq 15) vm -> is_u 8 lo -> is_u 8 hi -> 2 <= lo + hi * 256 ->
  0 < l -> (0 < n)%nat -> Z.of_nat n < 2 ^ 16 -> (l + Z.of_nat n) * 2048 = capacity_in_bytes s ->
  capacity_in_bytes s < 2 ^ 31 ->
  exists rd rd' vm' rs, attached m s = Done rd /\
    ide_run rd vm (set_count secondary lo hi ++ packet_command secondary (read_10 l (Z.of_nat n)) ++
      replicate (1024 * n) (ide_in (DATA_PORT secondary) 2) ++ [ide_in (DATA_PORT secondary) 2]) =
    Done (rs ++ [(2, [load8 m (image_addr s + capacity_in_bytes s); load8 m (image_addr s + capacity_in_bytes s + 1)])],
      rd', vm').
Proof.
  intros Hv Hlo Hhi H2 Hl Hn Hn16 He Hc. destruct (attached_counted s vm lo hi Hlo Hhi H2) as (rd & rd1 & E0 & E1 & Hcn).
  destruct (counted_read s rd1 vm l n) as (rd2 & vm2 & E2 & Hw & Hi & Hv2 & Hs); [done..|lia|].
  destruct (read_exhausted 15 (s <| lba := 1 |>) (l + Z.of_nat n) (drive_of rd2 secondary) vm2) as (d3 & vm3 & E3);
    [done|cbn; lia|done|].
  exists rd, (put_drive rd2 secondary d3), vm3, ([(1, []); (1, [])] ++ (1, []) :: replicate 6 (2, []) ++
    words_of (host_bytes m (image_addr s + l * 2048) (2048 * n))). split; [done|].
  rewrite ide_run_app, E1. run. rewrite (app_assoc (packet_command _ _)), ide_run_app, E2. run.
  cbn [ide_run]. rewrite step_read_data, Hi, E3. run. rewrite app_assoc. do 5 f_equal.
  cbn [block the_ops_ok cd_ops_ok]. change 2048%nat with (2 + 2046)%nat. rewrite host_word. cbn [image_addr]. rewrite He.
  reflexivity.
Qed.

(** C39. The check of a READ against the capacity adds the block number and the length in 32
    bits: a READ (12) of the two blocks from 0xffffffff on passes it, and the guest reads the
    memory of the host in front of the image. *)
Theorem image_underrun s (vm : v3_intr_state C) lo hi :
  takes (eq 15) vm -> is_u 8 lo -> is_u 8 hi -> 2 <= lo + hi * 256 -> 2048 <= capacity_in_bytes s < 2 ^ 31 ->
  exists rd rd' vm', attached m s = Done rd /\
    ide_run rd vm (set_count secondary lo hi ++ packet_command secondary (read_12 0xffffffff 2) ++
      [ide_in (DATA_PORT secondary) 2]) =
    Done ([(1, []); (1, [])] ++ (1, []) :: replicate 6 (2, []) ++
      [(2, [load8 m (image_addr s - 2048); load8 m (image_addr s - 2047)])], rd', vm').
Proof.
  intros Hv Hlo Hhi H2 Hc. destruct (attached_counted s vm lo hi Hlo Hhi H2) as (rd & rd1 & E0 & E1 & [Hw Hi [D1 D2 D3 D4] [Hu Hu2]]).
  rewrite <- Hi in Hv.
  destruct (read_accepted (irq_of rd1 secondary) (accepted (drive_of rd1 secondary)) vm (read_12 0xffffffff 2) 0xffffffff 2)
    as (cmd & d1 & vm1 & Hcmd & Ho & Hv1 & E2).
  - by apply accepted_listens.
  - exact Hv.
  - reflexivity.
  - apply read_12_request; unfold is_u; lia.
  - unfold is_ready. change (cdrom (accepted ?d)) with (cdrom d). by rewrite D2.
  - lia.
  - lia.
  - change (cdrom (accepted ?d)) with (cdrom d). rewrite D4. change (u32 (0xffffffff + 2)) with 1. apply capacity_enough; lia.
  - set (d2 := with_cd d1 _) in E2.
    assert (exists d3 vm3, read_data (irq_of rd1 secondary) d2 vm1 2 =
      Done (2, [load8 m (image_addr s - 2048); load8 m (image_addr s - 2047)], d3, vm3)) as (d3 & vm3 & E3).
    { rewrite <- (host_word_before m (image_addr s) 2046).
      apply (read_next (irq_of rd1 secondary) (s <| lba := 1 |>) d2 vm1).
      - etrans; [apply (op_current _ _ _ _ _ Ho)|reflexivity].
      - change (atapi d2) with (atapi d1). by rewrite (op_command _ _ _ _ _ Ho).
      - unfold is_ready. change (ready (cdrom d2)) with (ready (cdrom d1)). rewrite (op_cdrom _ _ _ _ _ Ho).
        change (ready (cdrom (received ?d ?p))) with (ready (cdrom d)). change (cdrom (accepted ?d)) with (cdrom d). by rewrite D2.
      - change (cd (cdrom d2)) with (cd (cdrom d1)). rewrite (op_cdrom _ _ _ _ _ Ho). exact D3.
      - exact (op_index _ _ _ _ _ Ho).
      - change (next_lba (cdrom d2)) with (sint 32 0xffffffff). change (sint 32 0xffffffff) with (-1).
        change (read_block ?x ?y ?z) with (cdrom_read_block m x y z).
        apply read_block_before; [|reflexivity]. change (buffer (controller d2)) with (buffer (controller d1)).
        rewrite (op_buffer _ _ _ _ _ Ho). apply ls_buffer, received_listens. by apply accepted_listens.
      - done. }
    exists rd, (put_drive rd1 secondary d3), vm3. split; [done|]. rewrite ide_run_app, E1. run.
    rewrite ide_run_app, packet_sent; [|done|done|reflexivity|apply read_12_bytes]. rewrite E2. run.
    cbn [ide_run]. rewrite step_read_data, irq_put, drive_put, E3 by done. run. rewrite put_put by done. reflexivity.
Qed.
End reading.

(** ** Witnesses *)

Module Demo.
#[local] Instance cd_lines : IntrCtrl Z :=
  {| intr_pending _ := 0; get_intr_number _ := 0; raise_intr c _ := Done (0, c + 1);
     lower_intr c _ := Done (0, c); begin_irq c _ := Done (0, c) |}.

Definition cd_vm : v3_intr_state Z := mk_v3_intr_state (mk_v3_excp_state 0 0 0 0) (Some 0) [].

Lemma cd_takes P : takes P cd_vm.
Proof. split; [by eexists|]. intros c irq _. by eexists _, _. Qed.

(** An image of two blocks. *)
Definition cd_image : cdrom_state := mk_cdrom_state 0x100000 4096 0 0 0.


Lemma image_overrun_witness : exists rd rd' vm' rs, attached id cd_image = Done rd /\
  ide_run (H := cd_ops id) rd cd_vm (set_count secondary 0 8 ++ packet_command secondary (read_10 1 1) ++
    replicate 1024 (ide_in (DATA_PORT secondary) 2) ++ [ide_in (DATA_PORT secondary) 2]) =
  Done (rs ++ [(2, [load8 id 0x101000; load8 id 0x101001])], rd', vm').
Proof. apply (image_overrun id cd_image cd_vm 0 8 1 1 (cd_takes _)); unfold is_u; cbn; lia. Defined.

Lemma image_underrun_witness : exists rd rd' vm', attached id cd_image = Done rd /\
  ide_run (H := cd_ops id) rd cd_vm (set_count secondary 0 8 ++ packet_command secondary (read_12 0xffffffff 2) ++
    [ide_in (DATA_PORT secondary) 2]) =
  Done ([(1, []); (1, [])] ++ (1, []) :: replicate 6 (2, []) ++ [(2, [load8 id 0xff800; load8 id 0xff801])], rd', vm').
Proof. apply (image_underrun id cd_image cd_vm 0 8 (cd_takes _)); unfold is_u; cbn; lia. Defined.
End Demo.

End Cdrom.
